(** * The Pintos file-system core: buffer cache, inode layer, path resolver

    A shallow embedding of [filesys/buffer_cache.c], [filesys/inode.c] and
    [filesys/filesys.c].  The C code works on global mutable state (the
    block device, the cache slots, the free map, the list of open inodes);
    the embedding threads one record [fs_state] through every function, in
    a state-and-failure monad.  [None] stands for a run that does not
    return: a failed [ASSERT], a [PANIC], or an access outside an object.

    Machine integers are [Z] with the 32-bit wrap-around written out;
    sectors are lists of 512 bytes, each byte a [Z]. *)

From stdpp Require Import prelude functions strings.
From Stdlib Require Import ZArith Lia Ascii.

Local Open Scope Z_scope.

(** ** Machine integers *)

(** [uint32_t], [block_sector_t], [size_t]: values modulo 2^32. *)
Definition to_u32 (x : Z) : Z := x mod 4294967296.

(** [int], [off_t]: two's complement on 32 bits. *)
Definition to_s32 (x : Z) : Z := (x + 2147483648) mod 4294967296 - 2147483648.

Definition in_s32 (x : Z) : Prop := -2147483648 <= x < 2147483648.
Definition in_u32 (x : Z) : Prop := 0 <= x < 4294967296.

(** ** Constants *)

(** Modelled from the spec: [BLOCK_SECTOR_SIZE] of [devices/block.h], the
    fixed sector size of 512 bytes. *)
Definition BLOCK_SECTOR_SIZE : Z := 512.

(** Modelled from the spec: [BUFFER_CACHE_ENTRY_NB] of
    [filesys/buffer_cache.h], the number of cache slots (64). *)
Definition BUFFER_CACHE_ENTRY_NB : Z := 64.

(** Modelled from the spec: [NAME_MAX] of [filesys/directory.h]; a
    directory entry stores [NAME_MAX + 1 = 15] characters. *)
Definition NAME_MAX : Z := 14.

(** Modelled from the spec: [ROOT_DIR_SECTOR] of [filesys/filesys.h]; the
    root directory inode lives in sector 1. *)
Definition ROOT_DIR_SECTOR : Z := 1.

Definition INODE_MAGIC : Z := 0x494e4f44.
Definition DIRECT_BLOCK_ENTRIES : Z := 123.
(** [BLOCK_SECTOR_SIZE / sizeof (block_sector_t)], a [size_t]. *)
Definition INDIRECT_BLOCK_ENTRIES : Z := BLOCK_SECTOR_SIZE / 4.

(** The value that [sector = -1] leaves in a [block_sector_t] field. *)
Definition NO_SECTOR : Z := to_u32 (-1).

(** ** Data *)

(** Modelled from the spec: [struct buffer_head] of
    [filesys/buffer_cache.h] (sector, valid, dirty, clock bit, data; the
    per-slot mutex is taken and released inside each operation and is left
    out).  [bh_data] is the slot's 512-byte block of the cache arena. *)
Record buffer_head := mk_buffer_head {
  bh_dirty : bool;
  bh_valid : bool;
  bh_sector : Z;
  bh_clock_bit : bool;
  bh_data : list Z
}.

(** In-memory inode.  [extend_lock] is [true] while the lock is held. *)
Record inode := mk_inode {
  sector : Z;
  open_cnt : Z;
  removed : bool;
  deny_write_cnt : Z;
  extend_lock : bool
}.

(** Modelled from the spec: a directory entry [(name, inode_sector, in_use)]
    of [filesys/directory.h]. *)
Record dir_entry := mk_dir_entry {
  inode_sector : Z;
  name : string;
  in_use : bool
}.

(** Modelled from the spec: [struct dir], a directory handle: the inode it
    is opened on and its own [readdir] cursor (an entry index).  A
    [struct inode *] is represented by the sector of the inode: the list of
    open inodes holds at most one [struct inode] per sector. *)
Record dir := mk_dir {
  dir_inode : Z;
  dir_pos : nat
}.

(** The global state of the file system.
    - [fs_device]: the contents of the block device, sector by sector;
    - [buffer_heads], [clock_hand]: the cache ([buffer_head[]], [clock_hand]);
    - [free_map]: the in-memory bitmap, [true] for an allocated sector;
    - [open_inodes]: the list of in-memory inodes;
    - [malloc_oracle]: the outcomes of the coming [malloc]/[calloc] calls
      ([false]: the call returns [NULL]); when it is empty they succeed;
    - [dir_table]: the entry array of each directory, keyed by the sector of
      the directory's inode;
    - [cur_dir]: [thread_current ()->cur_dir]. *)
Record fs_state := mk_fs_state {
  fs_device : Z → list Z;
  buffer_heads : list buffer_head;
  clock_hand : Z;
  free_map : list bool;
  open_inodes : list inode;
  malloc_oracle : list bool;
  dir_table : Z → list dir_entry;
  cur_dir : option dir
}.

Definition with_fs_device (x : Z → list Z) (st : fs_state) : fs_state :=
  mk_fs_state x (buffer_heads st) (clock_hand st) (free_map st)
    (open_inodes st) (malloc_oracle st) (dir_table st) (cur_dir st).
Definition with_buffer_heads (x : list buffer_head) (st : fs_state) : fs_state :=
  mk_fs_state (fs_device st) x (clock_hand st) (free_map st)
    (open_inodes st) (malloc_oracle st) (dir_table st) (cur_dir st).
Definition with_clock_hand (x : Z) (st : fs_state) : fs_state :=
  mk_fs_state (fs_device st) (buffer_heads st) x (free_map st)
    (open_inodes st) (malloc_oracle st) (dir_table st) (cur_dir st).
Definition with_free_map (x : list bool) (st : fs_state) : fs_state :=
  mk_fs_state (fs_device st) (buffer_heads st) (clock_hand st) x
    (open_inodes st) (malloc_oracle st) (dir_table st) (cur_dir st).
Definition with_open_inodes (x : list inode) (st : fs_state) : fs_state :=
  mk_fs_state (fs_device st) (buffer_heads st) (clock_hand st) (free_map st)
    x (malloc_oracle st) (dir_table st) (cur_dir st).
Definition with_malloc_oracle (x : list bool) (st : fs_state) : fs_state :=
  mk_fs_state (fs_device st) (buffer_heads st) (clock_hand st) (free_map st)
    (open_inodes st) x (dir_table st) (cur_dir st).
Definition with_dir_table (x : Z → list dir_entry) (st : fs_state) : fs_state :=
  mk_fs_state (fs_device st) (buffer_heads st) (clock_hand st) (free_map st)
    (open_inodes st) (malloc_oracle st) x (cur_dir st).

(** ** The state-and-failure monad *)

Definition M (A : Type) : Type := fs_state → option (A * fs_state).

Definition ret {A} (a : A) : M A := λ st, Some (a, st).
Definition bind {A B} (m : M A) (k : A → M B) : M B :=
  λ st, match m st with Some (a, st') => k a st' | None => None end.
Definition stuck {A} : M A := λ _, None.
Definition gets {A} (f : fs_state → A) : M A := λ st, Some (f st, st).
Definition modify (f : fs_state → fs_state) : M unit := λ st, Some (tt, f st).
Definition lift_opt {A} (o : option A) : M A :=
  λ st, match o with Some a => Some (a, st) | None => None end.
(** [ASSERT (b)]. *)
Definition ASSERT (b : bool) : M unit := if b then ret tt else stuck.

Notation "x <- m ;; k" := (bind m (λ x, k))
  (at level 100, m at next level, right associativity).
Notation "m ;; k" := (bind m (λ _, k))
  (at level 100, right associativity).

(** [malloc]/[calloc]: [true] when the call returns a block. *)
Definition malloc : M bool :=
  λ st, match malloc_oracle st with
        | [] => Some (true, st)
        | b :: rest => Some (b, with_malloc_oracle rest st)
        end.

(** [memcpy (dst + dst_ofs, src + src_ofs, n)] on objects given by their
    bytes; a copy that leaves either object does not return.  The object
    behind a slot of the cache is the whole block of the cache, not the
    slot's part of it: see [memcpy_from_slot] and [memcpy_to_slot]. *)
Definition memcpy (dst : list Z) (dst_ofs : Z) (src : list Z) (src_ofs : Z)
    (n : Z) : option (list Z) :=
  if (0 <=? n) && (0 <=? dst_ofs) && (0 <=? src_ofs)
     && (dst_ofs + n <=? Z.of_nat (length dst))
     && (src_ofs + n <=? Z.of_nat (length src))
  then Some (take (Z.to_nat dst_ofs) dst
             ++ take (Z.to_nat n) (drop (Z.to_nat src_ofs) src)
             ++ drop (Z.to_nat (dst_ofs + n)) dst)
  else None.

(** ** The block device *)

(** Modelled from the spec: [block_read]/[block_write] of [devices/block.c];
    all I/O is exactly one sector. *)
Definition block_read (sec : Z) : M (list Z) := gets (λ st, fs_device st sec).
Definition block_write (sec : Z) (buf : list Z) : M unit :=
  modify (λ st, with_fs_device (<[sec := buf]> (fs_device st)) st).

(** ** The buffer cache ([buffer_cache.c]) *)

Definition head_at (p : nat) : M buffer_head :=
  λ st, match buffer_heads st !! p with
        | Some h => Some (h, st)
        | None => None
        end.
Definition set_head (p : nat) (h : buffer_head) : M unit :=
  modify (λ st, with_buffer_heads (<[p := h]> (buffer_heads st)) st).

Definition bh_with_clock_bit (b : bool) (h : buffer_head) : buffer_head :=
  mk_buffer_head (bh_dirty h) (bh_valid h) (bh_sector h) b (bh_data h).
Definition bh_with_dirty (b : bool) (h : buffer_head) : buffer_head :=
  mk_buffer_head b (bh_valid h) (bh_sector h) (bh_clock_bit h) (bh_data h).

(** [bc_lookup]: the first slot whose [sector] field equals [sec]; the
    result is the slot's index in [buffer_head[]]. *)
Definition bc_lookup (sec : Z) (st : fs_state) : option nat :=
  fst <$> list_find (λ h, bh_sector h = sec) (buffer_heads st).

(** [bc_flush_entry]. *)
Definition bc_flush_entry (p : nat) : M unit :=
  h <- head_at p ;;
  block_write (bh_sector h) (bh_data h) ;;
  set_head p (bh_with_dirty false h).

(** The [while (1)] loop of [bc_select_victim]: one iteration per unit of
    fuel.  An index outside [buffer_head[]] does not return. *)
Fixpoint clock_sweep (fuel : nat) : M nat :=
  match fuel with
  | O => stuck
  | S fuel' =>
      hand <- gets clock_hand ;;
      let idx := if hand =? BUFFER_CACHE_ENTRY_NB then 0 else hand in
      let hand1 := to_s32 (hand + 1) in
      modify (with_clock_hand
                (if hand1 =? BUFFER_CACHE_ENTRY_NB then 0 else hand1)) ;;
      ASSERT (0 <=? idx) ;;
      h <- head_at (Z.to_nat idx) ;;
      if bh_clock_bit h then
        set_head (Z.to_nat idx) (bh_with_clock_bit false h) ;;
        clock_sweep fuel'
      else
        set_head (Z.to_nat idx) (bh_with_clock_bit true h) ;;
        ret (Z.to_nat idx)
  end.

(** [bc_select_victim].  The sweep clears at most one clock bit per slot
    before it meets a clear one, so [BUFFER_CACHE_ENTRY_NB + 1] iterations
    are enough ([clock_sweep_returns]). *)
Definition bc_select_victim : M nat :=
  idx <- clock_sweep (S (Z.to_nat BUFFER_CACHE_ENTRY_NB)) ;;
  h <- head_at idx ;;
  (if bh_dirty h then bc_flush_entry idx else ret tt) ;;
  h <- head_at idx ;;
  set_head idx (mk_buffer_head false false NO_SECTOR (bh_clock_bit h) (bh_data h)) ;;
  ret idx.

(** [p_buffer_cache]: the block of
    [BLOCK_SECTOR_SIZE * BUFFER_CACHE_ENTRY_NB] bytes that [bc_init] carves
    the slots' [data] out of, slot [i] having the bytes from
    [BLOCK_SECTOR_SIZE * i] on.  The block is kept slot by slot;
    [p_buffer_cache] is the whole of it ([p_buffer_cache_bc_init]), and
    [with_p_buffer_cache] puts a whole block back into the slots. *)
Definition p_buffer_cache (hs : list buffer_head) : list Z :=
  concat (bh_data <$> hs).
Definition with_p_buffer_cache (a : list Z) (hs : list buffer_head)
    : list buffer_head :=
  imap (λ i h, mk_buffer_head (bh_dirty h) (bh_valid h) (bh_sector h)
                 (bh_clock_bit h)
                 (take (Z.to_nat BLOCK_SECTOR_SIZE)
                    (drop (Z.to_nat BLOCK_SECTOR_SIZE * i) a))) hs.

(** [memcpy (buffer + buffer_ofs, p->data + sector_ofs, chunk_size)] for
    slot [p], whose head is [h].  A copy out of the slot's own
    [BLOCK_SECTOR_SIZE] bytes is a copy out of [p->data]; any other one
    starts before the slot or ends after it, and is the same copy out of
    the whole block, [p->data] being its byte [BLOCK_SECTOR_SIZE * p].
    The two agree wherever both are defined
    ([memcpy_from_slot_block]). *)
Definition memcpy_from_slot (p : nat) (h : buffer_head) (sector_ofs : Z)
    (buffer : list Z) (buffer_ofs chunk_size : Z) : M (list Z) :=
  if (0 <=? sector_ofs) && (sector_ofs + chunk_size <=? BLOCK_SECTOR_SIZE) then
    lift_opt (memcpy buffer buffer_ofs (bh_data h) sector_ofs chunk_size)
  else
    hs <- gets buffer_heads ;;
    lift_opt (memcpy buffer buffer_ofs (p_buffer_cache hs)
                (BLOCK_SECTOR_SIZE * Z.of_nat p + sector_ofs) chunk_size).

(** [memcpy (p->data + sector_ofs, buffer + buffer_ofs, chunk_size)]; the
    result is [p->data] after the copy.  A copy that starts before the
    slot or ends after it also changes the data of the slots next to it
    ([memcpy_to_slot_block]). *)
Definition memcpy_to_slot (p : nat) (h : buffer_head) (sector_ofs : Z)
    (buffer : list Z) (buffer_ofs chunk_size : Z) : M (list Z) :=
  if (0 <=? sector_ofs) && (sector_ofs + chunk_size <=? BLOCK_SECTOR_SIZE) then
    lift_opt (memcpy (bh_data h) sector_ofs buffer buffer_ofs chunk_size)
  else
    hs <- gets buffer_heads ;;
    a <- lift_opt (memcpy (p_buffer_cache hs)
                     (BLOCK_SECTOR_SIZE * Z.of_nat p + sector_ofs)
                     buffer buffer_ofs chunk_size) ;;
    modify (with_buffer_heads (with_p_buffer_cache a hs)) ;;
    h' <- head_at p ;;
    ret (bh_data h').

(** [bc_read]: returns [success] and the caller's buffer after the copy.
    [bc_select_victim] never returns [NULL], so the early [return success]
    is not reachable. *)
Definition bc_read (sector_idx : Z) (buffer : list Z) (buffer_ofs : Z)
    (chunk_size : Z) (sector_ofs : Z) : M (bool * list Z) :=
  p_lookup <- gets (bc_lookup sector_idx) ;;
  p <- match p_lookup with
       | Some p => ret p
       | None =>
           p <- bc_select_victim ;;
           h <- head_at p ;;
           blk <- block_read sector_idx ;;
           set_head p (mk_buffer_head false true sector_idx (bh_clock_bit h) blk) ;;
           ret p
       end ;;
  h <- head_at p ;;
  buffer' <- memcpy_from_slot p h sector_ofs buffer buffer_ofs chunk_size ;;
  set_head p (bh_with_clock_bit true h) ;;
  ret (true, buffer').

(** [bc_write]. *)
Definition bc_write (sector_idx : Z) (buffer : list Z) (buffer_ofs : Z)
    (chunk_size : Z) (sector_ofs : Z) : M bool :=
  p_lookup <- gets (bc_lookup sector_idx) ;;
  p <- match p_lookup with
       | Some p => ret p
       | None =>
           p <- bc_select_victim ;;
           h <- head_at p ;;
           blk <- block_read sector_idx ;;
           set_head p (mk_buffer_head (bh_dirty h) (bh_valid h) (bh_sector h)
                         (bh_clock_bit h) blk) ;;
           ret p
       end ;;
  h <- head_at p ;;
  data' <- memcpy_to_slot p h sector_ofs buffer buffer_ofs chunk_size ;;
  set_head p (mk_buffer_head true true sector_idx true data') ;;
  ret true.

(** ** Structures kept in sectors *)

(** Little-endian 32-bit words inside a byte buffer. *)
Definition byte_at (l : list Z) (i : nat) : Z := default 0 (l !! i) mod 256.
Definition get_u32 (l : list Z) (ofs : nat) : Z :=
  byte_at l ofs + 256 * byte_at l (ofs + 1) + 65536 * byte_at l (ofs + 2)
  + 16777216 * byte_at l (ofs + 3).
Definition bytes_of_u32 (x : Z) : list Z :=
  [x mod 256; (x / 256) mod 256; (x / 65536) mod 256; (x / 16777216) mod 256].

Definition zero_block : list Z := replicate (Z.to_nat BLOCK_SECTOR_SIZE) 0.

(** On-disk inode: exactly one sector, 128 words.  [disk_length] is the
    field [length]. *)
Record inode_disk := mk_inode_disk {
  direct_map_table : list Z;
  indirect_block_sec : Z;
  double_indirect_block_sec : Z;
  disk_length : Z;
  magic : Z;
  is_dir : Z
}.

(** The 128 words of a [struct inode_disk], in the order of its fields. *)
Definition inode_disk_words (d : inode_disk) : list Z :=
  direct_map_table d
  ++ [indirect_block_sec d; double_indirect_block_sec d;
      to_u32 (disk_length d); magic d; is_dir d].

Definition bytes_of_inode_disk (d : inode_disk) : list Z :=
  concat (bytes_of_u32 <$> inode_disk_words d).

Definition inode_disk_of_bytes (l : list Z) : inode_disk :=
  mk_inode_disk
    ((λ i, get_u32 l (4 * i)) <$> seq 0 (Z.to_nat DIRECT_BLOCK_ENTRIES))
    (get_u32 l 492) (get_u32 l 496) (to_s32 (get_u32 l 500))
    (get_u32 l 504) (get_u32 l 508).

(** [inode_disk->direct_map_table[i]].  An index from 123 to 127 reads the
    fields that follow the array inside the struct; an index outside the
    struct does not return. *)
Definition direct_map_table_at (d : inode_disk) (i : Z) : option Z :=
  if 0 <=? i then inode_disk_words d !! Z.to_nat i else None.

(** [ind_block->map_table[i]] of a [struct inode_indirect_block] held in
    the 512-byte buffer [blk]. *)
Definition map_table_at (blk : list Z) (i : Z) : option Z :=
  if (0 <=? i) && (i <? INDIRECT_BLOCK_ENTRIES)
  then Some (get_u32 blk (4 * Z.to_nat i)) else None.

(** [map_table_offset]: [base] is the offset of [map_table] in the struct,
    which is 0. *)
Definition map_table_offset (index : Z) : Z :=
  let base := to_s32 (to_u32 0) in
  to_s32 (to_u32 (base + to_u32 index * 4)).

Inductive direct_t := NORMAL_DIRECT | INDIRECT | DOUBLE_INDIRECT | OUT_LIMIT.

Record sector_location := mk_sector_location {
  directness : direct_t;
  index1 : Z;
  index2 : Z
}.

(** A [struct sector_location] local that has not been assigned yet; the
    fields [locate_byte] leaves as they are are not read by its callers. *)
Definition sec_loc_unset : sector_location := mk_sector_location OUT_LIMIT 0 0.

(** [locate_byte (pos, sec_loc)]: the struct after the call.  [/] and [%]
    between [int]s truncate ([Z.quot], [Z.rem]); an [int] combined with
    [INDIRECT_BLOCK_ENTRIES], a [size_t], is computed unsigned. *)
Definition locate_byte (pos : Z) (sec_loc : sector_location) : sector_location :=
  let pos_sector := Z.quot pos BLOCK_SECTOR_SIZE in
  if pos_sector <? DIRECT_BLOCK_ENTRIES then
    mk_sector_location NORMAL_DIRECT pos_sector (index2 sec_loc)
  else if pos_sector <? to_s32 (to_u32 (DIRECT_BLOCK_ENTRIES + INDIRECT_BLOCK_ENTRIES)) then
    mk_sector_location INDIRECT (to_s32 (pos_sector - DIRECT_BLOCK_ENTRIES))
      (index2 sec_loc)
  else if pos_sector <? to_s32 (to_u32 (DIRECT_BLOCK_ENTRIES
                        + INDIRECT_BLOCK_ENTRIES * (INDIRECT_BLOCK_ENTRIES + 1))) then
    let pos_sector :=
      to_s32 (to_u32 (to_u32 (to_s32 (pos_sector - DIRECT_BLOCK_ENTRIES))
                      - INDIRECT_BLOCK_ENTRIES)) in
    mk_sector_location DOUBLE_INDIRECT
      (to_s32 (to_u32 pos_sector / INDIRECT_BLOCK_ENTRIES))
      (to_s32 (to_u32 pos_sector mod INDIRECT_BLOCK_ENTRIES))
  else
    mk_sector_location OUT_LIMIT (index1 sec_loc) (index2 sec_loc).

(** ** The free map *)

Definition bitmap_set_multiple (bm : list bool) (start cnt : nat) (v : bool)
    : list bool :=
  foldr (λ i acc, <[i := v]> acc) bm (seq start cnt).

(** The first index from which [cnt] consecutive bits are clear. *)
Definition bitmap_scan (bm : list bool) (cnt : nat) : option nat :=
  fst <$> list_find
    (λ i, (i + cnt ≤ length bm)%nat ∧ Forall (λ b, b = false) (take cnt (drop i bm)))
    (seq 0 (length bm)).

(** Modelled from the spec: [free_map_allocate] of [filesys/free-map.c]:
    find [cnt] contiguous clear bits, set them, return the first index;
    fails if unavailable.  The result is [None] for [false], and the
    caller's [*sectorp] is then left as it is. *)
Definition free_map_allocate (cnt : Z) : M (option Z) :=
  bm <- gets free_map ;;
  match bitmap_scan bm (Z.to_nat cnt) with
  | Some i =>
      modify (with_free_map (bitmap_set_multiple bm i (Z.to_nat cnt) true)) ;;
      ret (Some (Z.of_nat i))
  | None => ret None
  end.

(** Modelled from the spec: [free_map_release] of [filesys/free-map.c]:
    clear [cnt] bits starting at [sec]. *)
Definition free_map_release (sec cnt : Z) : M unit :=
  bm <- gets free_map ;;
  modify (with_free_map (bitmap_set_multiple bm (Z.to_nat sec) (Z.to_nat cnt) false)).

(** ** The inode layer ([inode.c]) *)

(** Reading a sector into a freshly allocated one-sector struct. *)
Definition read_block (sec : Z) : M (list Z) :=
  r <- bc_read sec zero_block 0 BLOCK_SECTOR_SIZE 0 ;;
  ret (snd r).

(** [byte_to_sector]. *)
Definition byte_to_sector (disk_inode : inode_disk) (pos : Z) : M Z :=
  if pos <? disk_length disk_inode then
    let sec_loc := locate_byte pos sec_loc_unset in
    match directness sec_loc with
    | NORMAL_DIRECT =>
        lift_opt (direct_map_table_at disk_inode (index1 sec_loc))
    | INDIRECT =>
        ASSERT (negb (indirect_block_sec disk_inode =? 0)) ;;
        ind_block <- malloc ;;
        if ind_block then
          blk <- read_block (indirect_block_sec disk_inode) ;;
          lift_opt (map_table_at blk (index1 sec_loc))
        else ret 0
    | DOUBLE_INDIRECT =>
        ASSERT (negb (indirect_block_sec disk_inode =? 0)) ;;
        ind_block <- malloc ;;
        if ind_block then
          blk1 <- read_block (double_indirect_block_sec disk_inode) ;;
          e <- lift_opt (map_table_at blk1 (index1 sec_loc)) ;;
          ASSERT (negb (e =? 0)) ;;
          blk2 <- read_block e ;;
          lift_opt (map_table_at blk2 (index2 sec_loc))
        else ret 0
    | OUT_LIMIT => ret 0
    end
  else ret 0.

(** Pointers to in-memory inodes: the inode of sector [p] in [open_inodes]. *)
Definition find_inode (p : Z) (l : list inode) : option (nat * inode) :=
  list_find (λ i, sector i = p) l.
Definition inode_deref (p : Z) : M inode :=
  l <- gets open_inodes ;;
  lift_opt (snd <$> find_inode p l).
Definition with_open_cnt (x : Z) (i : inode) : inode :=
  mk_inode (sector i) x (removed i) (deny_write_cnt i) (extend_lock i).
Definition with_removed (x : bool) (i : inode) : inode :=
  mk_inode (sector i) (open_cnt i) x (deny_write_cnt i) (extend_lock i).
Definition with_extend_lock (x : bool) (i : inode) : inode :=
  mk_inode (sector i) (open_cnt i) (removed i) (deny_write_cnt i) x.

(** An assignment to fields of the [struct inode] that [p] points to. *)
Definition inode_modify (p : Z) (f : inode → inode) : M unit :=
  l <- gets open_inodes ;;
  r <- lift_opt (find_inode p l) ;;
  modify (with_open_inodes (<[fst r := f (snd r)]> l)).

(** [list_push_front (&open_inodes, &inode->elem)] and
    [list_remove (&inode->elem)]. *)
Definition open_inodes_push (i : inode) : M unit :=
  modify (λ st, with_open_inodes (i :: open_inodes st) st).
Definition open_inodes_remove (p : Z) : M unit :=
  l <- gets open_inodes ;;
  r <- lift_opt (find_inode p l) ;;
  modify (with_open_inodes (delete (fst r) l)).

(** Modelled from the spec: the mutex of [threads/synch.c], for one thread:
    acquiring a lock that is held, or releasing one that is not, does not
    return. *)
Definition lock_acquire_extend (p : Z) : M unit :=
  i <- inode_deref p ;;
  ASSERT (negb (extend_lock i)) ;;
  inode_modify p (with_extend_lock true).
Definition lock_release_extend (p : Z) : M unit :=
  i <- inode_deref p ;;
  ASSERT (extend_lock i) ;;
  inode_modify p (with_extend_lock false).

(** [get_disk_inode]. *)
Definition get_disk_inode (p : Z) : M inode_disk :=
  i <- inode_deref p ;;
  blk <- read_block (sector i) ;;
  ret (inode_disk_of_bytes blk).

Definition with_direct_map_table (x : list Z) (d : inode_disk) : inode_disk :=
  mk_inode_disk x (indirect_block_sec d) (double_indirect_block_sec d)
    (disk_length d) (magic d) (is_dir d).
Definition with_indirect_block_sec (x : Z) (d : inode_disk) : inode_disk :=
  mk_inode_disk (direct_map_table d) x (double_indirect_block_sec d)
    (disk_length d) (magic d) (is_dir d).
Definition with_double_indirect_block_sec (x : Z) (d : inode_disk) : inode_disk :=
  mk_inode_disk (direct_map_table d) (indirect_block_sec d) x
    (disk_length d) (magic d) (is_dir d).
Definition with_disk_length (x : Z) (d : inode_disk) : inode_disk :=
  mk_inode_disk (direct_map_table d) (indirect_block_sec d)
    (double_indirect_block_sec d) x (magic d) (is_dir d).

(** A zeroed one-sector block with [map_table[i] = v]. *)
Definition new_block_with (i v : Z) : M (list Z) :=
  blk <- lift_opt (memcpy zero_block (4 * i) (bytes_of_u32 v) 0 4) ;;
  ASSERT ((0 <=? i) && (i <? INDIRECT_BLOCK_ENTRIES)) ;;
  ret blk.

(** [register_sector]: the result and the caller's [*inode_disk] after the
    call. *)
Definition register_sector (disk_inode : inode_disk) (new_sector : Z)
    (sec_loc : sector_location) : M (bool * inode_disk) :=
  match directness sec_loc with
  | NORMAL_DIRECT =>
      ASSERT ((0 <=? index1 sec_loc) && (index1 sec_loc <? DIRECT_BLOCK_ENTRIES)) ;;
      ret (true, with_direct_map_table
                   (<[Z.to_nat (index1 sec_loc) := new_sector]> (direct_map_table disk_inode))
                   disk_inode)
  | INDIRECT =>
      new_block <- malloc ;;
      if negb new_block then ret (false, disk_inode)
      else if indirect_block_sec disk_inode =? 0 then
        a <- free_map_allocate 1 ;;
        match a with
        | Some s =>
            blk <- new_block_with (index1 sec_loc) new_sector ;;
            bc_write s blk 0 BLOCK_SECTOR_SIZE 0 ;;
            ret (true, with_indirect_block_sec s disk_inode)
        | None => ret (false, disk_inode)
        end
      else
        bc_write (indirect_block_sec disk_inode) (bytes_of_u32 new_sector) 0 4
          (map_table_offset (index1 sec_loc)) ;;
        ret (true, disk_inode)
  | DOUBLE_INDIRECT =>
      new_block <- malloc ;;
      if negb new_block then ret (false, disk_inode)
      else
        r <- (if double_indirect_block_sec disk_inode =? 0 then
                a <- free_map_allocate 1 ;;
                match a with
                | Some s =>
                    bc_write s zero_block 0 BLOCK_SECTOR_SIZE 0 ;;
                    ret (true, with_double_indirect_block_sec s disk_inode)
                | None => ret (false, disk_inode)
                end
              else ret (true, disk_inode)) ;;
        if negb (fst r) then ret r
        else
          let disk_inode := snd r in
          w <- bc_read (double_indirect_block_sec disk_inode) (bytes_of_u32 0) 0 4
                 (map_table_offset (index1 sec_loc)) ;;
          let ind_block_2nd_level := get_u32 (snd w) 0 in
          if ind_block_2nd_level =? 0 then
            a <- free_map_allocate 1 ;;
            match a with
            | Some ind_block_2nd_level =>
                bc_write (double_indirect_block_sec disk_inode)
                  (bytes_of_u32 ind_block_2nd_level) 0 4
                  (map_table_offset (index1 sec_loc)) ;;
                blk <- new_block_with (index2 sec_loc) new_sector ;;
                bc_write ind_block_2nd_level blk 0 BLOCK_SECTOR_SIZE 0 ;;
                ret (true, disk_inode)
            | None => ret (false, disk_inode)
            end
          else
            bc_write ind_block_2nd_level (bytes_of_u32 new_sector) 0 4
              (map_table_offset (index2 sec_loc)) ;;
            ret (true, disk_inode)
  | OUT_LIMIT => ret (false, disk_inode)
  end.

(** The [while (size > 0)] loop of [inode_update_file_length].  Every
    iteration that goes on takes at least one byte off [size], so a fuel of
    [size] is enough. *)
Fixpoint update_file_length_loop (fuel : nat) (disk_inode : inode_disk)
    (offset size : Z) : M (bool * inode_disk) :=
  if size <=? 0 then ret (true, disk_inode)
  else
    match fuel with
    | O => stuck
    | S fuel' =>
        let sector_ofs := Z.rem offset BLOCK_SECTOR_SIZE in
        let sector_left := to_s32 (BLOCK_SECTOR_SIZE - sector_ofs) in
        let chunk_size := if size <? sector_left then size else sector_left in
        if chunk_size <=? 0 then ret (true, disk_inode)
        else if 0 <? sector_ofs then
          sector_idx <- byte_to_sector disk_inode offset ;;
          ASSERT (negb (sector_idx =? 0)) ;;
          bc_write sector_idx zero_block 0 sector_left sector_ofs ;;
          update_file_length_loop fuel' disk_inode
            (to_s32 (offset + chunk_size)) (to_s32 (size - chunk_size))
        else
          a <- free_map_allocate 1 ;;
          match a with
          | Some sector_idx =>
              let cur_loc := locate_byte offset sec_loc_unset in
              r <- register_sector disk_inode sector_idx cur_loc ;;
              if fst r then
                bc_write sector_idx zero_block 0 BLOCK_SECTOR_SIZE 0 ;;
                update_file_length_loop fuel' (snd r)
                  (to_s32 (offset + chunk_size)) (to_s32 (size - chunk_size))
              else
                free_map_release sector_idx 1 ;;
                ret (false, snd r)
          | None => ret (false, disk_inode)
          end
    end.

(** [inode_update_file_length]: the result and [*inode_disk] after the call. *)
Definition inode_update_file_length (disk_inode : inode_disk)
    (start_pos end_pos : Z) : M (bool * inode_disk) :=
  ASSERT (start_pos <=? end_pos) ;;
  let offset := start_pos in
  let size := to_s32 (to_s32 (end_pos - start_pos) + 1) in
  zeroes <- malloc ;;
  if negb zeroes then ret (false, disk_inode)
  else update_file_length_loop (Z.to_nat size) disk_inode offset size.

(** [calloc (1, sizeof *disk_inode)]. *)
Definition inode_disk_zero : inode_disk :=
  mk_inode_disk (replicate (Z.to_nat DIRECT_BLOCK_ENTRIES) 0) 0 0 0 0 0.

(** [inode_create]. *)
Definition inode_create (sec : Z) (len : Z) (isdir : Z) : M bool :=
  ASSERT (0 <=? len) ;;
  ok <- malloc ;;
  if ok then
    let disk_inode :=
      mk_inode_disk (direct_map_table inode_disk_zero) 0 0 len INODE_MAGIC isdir in
    r <- (if 0 <? len then inode_update_file_length disk_inode 0 (to_s32 (len - 1))
          else ret (true, disk_inode)) ;;
    if negb (fst r) then ret false
    else
      bc_write sec (bytes_of_inode_disk (snd r)) 0 BLOCK_SECTOR_SIZE 0 ;;
      ret true
  else ret false.

(** [inode_reopen]; [None] is the null pointer. *)
Definition inode_reopen (p : option Z) : M (option Z) :=
  match p with
  | Some q =>
      inode_modify q (λ i, with_open_cnt (to_s32 (open_cnt i + 1)) i) ;;
      ret p
  | None => ret None
  end.

(** [inode_open]. *)
Definition inode_open (sec : Z) : M (option Z) :=
  l <- gets open_inodes ;;
  match find_inode sec l with
  | Some _ => inode_reopen (Some sec)
  | None =>
      ok <- malloc ;;
      if ok then
        open_inodes_push (mk_inode sec 1 false 0 false) ;;
        ret (Some sec)
      else ret None
  end.

(** [inode_get_inumber]. *)
Definition inode_get_inumber (p : Z) : M Z :=
  i <- inode_deref p ;; ret (sector i).

(** The loops [while (map_table[i] > 0) { free_map_release (...); i++; }]
    of [free_inode_sectors], over the words [ws] that the index can reach
    inside the object; running past them does not return. *)
Fixpoint release_entries (ws : list Z) : M unit :=
  match ws with
  | [] => stuck
  | w :: rest =>
      if 0 <? w then free_map_release w 1 ;; release_entries rest
      else ret tt
  end.

Definition block_words (blk : list Z) : list Z :=
  (λ i, get_u32 blk (4 * i)) <$> seq 0 (Z.to_nat INDIRECT_BLOCK_ENTRIES).

(** The outer loop of the double-indirect branch, over the entries of the
    first-level block. *)
Fixpoint release_second_level (ws : list Z) : M unit :=
  match ws with
  | [] => stuck
  | w :: rest =>
      if 0 <? w then
        ind_block_2 <- read_block w ;;
        release_entries (block_words ind_block_2) ;;
        free_map_release w 1 ;;
        release_second_level rest
      else ret tt
  end.

(** [free_inode_sectors].  The single-indirect branch reads the sector
    [double_indirect_block_sec], as the source does. *)
Definition free_inode_sectors (disk_inode : inode_disk) : M unit :=
  cont <- (if 0 <? double_indirect_block_sec disk_inode then
             ind_block_1 <- malloc ;;
             ind_block_2 <- malloc ;;
             if negb ind_block_1 || negb ind_block_2 then ret false
             else
               blk1 <- read_block (double_indirect_block_sec disk_inode) ;;
               release_second_level (block_words blk1) ;;
               free_map_release (double_indirect_block_sec disk_inode) 1 ;;
               ret true
           else ret true) ;;
  if negb cont then ret tt
  else
    cont <- (if 0 <? indirect_block_sec disk_inode then
               ind_block <- malloc ;;
               if negb ind_block then ret false
               else
                 blk <- read_block (double_indirect_block_sec disk_inode) ;;
                 release_entries (block_words blk) ;;
                 free_map_release (indirect_block_sec disk_inode) 1 ;;
                 ret true
             else ret true) ;;
    if negb cont then ret tt
    else release_entries (inode_disk_words disk_inode).

(** [inode_close]. *)
Definition inode_close (p : option Z) : M unit :=
  match p with
  | None => ret tt
  | Some q =>
      i <- inode_deref q ;;
      let cnt := to_s32 (open_cnt i - 1) in
      inode_modify q (with_open_cnt cnt) ;;
      if cnt =? 0 then
        open_inodes_remove q ;;
        if removed i then
          ok <- malloc ;;
          if negb ok then stuck
          else
            blk <- read_block (sector i) ;;
            free_inode_sectors (inode_disk_of_bytes blk) ;;
            free_map_release (sector i) 1
        else ret tt
      else ret tt
  end.

(** [inode_remove]. *)
Definition inode_remove (p : Z) : M unit :=
  inode_modify p (with_removed true).

(** The copy loop of [inode_write_at]; the result is [bytes_written]. *)
Fixpoint write_loop (fuel : nat) (disk_inode : inode_disk) (buffer : list Z)
    (size offset bytes_written : Z) : M Z :=
  if size <=? 0 then ret bytes_written
  else
    match fuel with
    | O => stuck
    | S fuel' =>
        let sector_ofs := Z.rem offset BLOCK_SECTOR_SIZE in
        let inode_left := to_s32 (disk_length disk_inode - offset) in
        let sector_left := to_s32 (BLOCK_SECTOR_SIZE - sector_ofs) in
        let min_left := if inode_left <? sector_left then inode_left else sector_left in
        let chunk_size := if size <? min_left then size else min_left in
        if chunk_size <=? 0 then ret bytes_written
        else
          sector_idx <- byte_to_sector disk_inode offset ;;
          if sector_idx =? 0 then ret bytes_written
          else
            bc_write sector_idx buffer bytes_written chunk_size sector_ofs ;;
            write_loop fuel' disk_inode buffer (to_s32 (size - chunk_size))
              (to_s32 (offset + chunk_size)) (to_s32 (bytes_written + chunk_size))
    end.

(** [inode_write_at]. *)
Definition inode_write_at (p : Z) (buffer : list Z) (size offset : Z) : M Z :=
  ok <- malloc ;;
  if negb ok then ret 0
  else
    disk_inode <- get_disk_inode p ;;
    i <- inode_deref p ;;
    if negb (deny_write_cnt i =? 0) then ret 0
    else
      lock_acquire_extend p ;;
      let old_length := disk_length disk_inode in
      let write_end := to_s32 (to_s32 (offset + size) - 1) in
      r <- (if to_s32 (old_length - 1) <? write_end then
              inode_update_file_length
                (with_disk_length (to_s32 (write_end + 1)) disk_inode)
                old_length write_end
            else ret (true, disk_inode)) ;;
      if negb (fst r) then ret 0
      else
        let disk_inode := snd r in
        lock_release_extend p ;;
        bytes_written <- write_loop (Z.to_nat size) disk_inode buffer size offset 0 ;;
        i <- inode_deref p ;;
        bc_write (sector i) (bytes_of_inode_disk disk_inode) 0 BLOCK_SECTOR_SIZE 0 ;;
        ret bytes_written.

(** [inode_length]. *)
Definition inode_length (p : Z) : M Z :=
  ok <- malloc ;;
  if negb ok then ret 0
  else
    disk_inode <- get_disk_inode p ;;
    ret (disk_length disk_inode).

(** [inode_is_dir]. *)
Definition inode_is_dir (p : Z) : M bool :=
  ok <- malloc ;;
  if negb ok then ret false
  else
    i <- inode_deref p ;;
    blk <- read_block (sector i) ;;
    ret (negb (is_dir (inode_disk_of_bytes blk) =? 0)).

(** [inode_is_removed]. *)
Definition inode_is_removed (p : Z) : M bool :=
  i <- inode_deref p ;; ret (removed i).

(** ** The directory layer *)

Definition live_entry (nm : string) (e : dir_entry) : Prop :=
  in_use e = true ∧ name e = nm.

Global Instance live_entry_dec nm e : Decision (live_entry nm e).
Proof. unfold live_entry. apply _. Defined.

(** Modelled from the spec: [dir_open] of [filesys/directory.c]: a handle on
    [inode] with its cursor at the start; with a null inode, or when the
    handle cannot be allocated, the inode is closed and the result is null. *)
Definition dir_open (p : option Z) : M (option dir) :=
  ok <- malloc ;;
  match p with
  | Some q => if ok then ret (Some (mk_dir q 0)) else inode_close p ;; ret None
  | None => ret None
  end.

(** Modelled from the spec: [dir_open_root], [dir_reopen], [dir_close] and
    [dir_get_inode] of [filesys/directory.c]. *)
Definition dir_open_root : M (option dir) :=
  p <- inode_open ROOT_DIR_SECTOR ;; dir_open p.
Definition dir_reopen (d : option dir) : M (option dir) :=
  d <- lift_opt d ;;
  p <- inode_reopen (Some (dir_inode d)) ;; dir_open p.
Definition dir_close (d : option dir) : M unit :=
  match d with
  | Some d => inode_close (Some (dir_inode d))
  | None => ret tt
  end.
Definition dir_get_inode (d : dir) : Z := dir_inode d.

(** Modelled from the spec: [dir_lookup] of [filesys/directory.c]: linear
    scan for [in_use && name matches]; opens the referenced inode.  The
    result is the inode, null when there is no such entry. *)
Definition dir_lookup (d : option dir) (nm : string) : M (option Z) :=
  d <- lift_opt d ;;
  tbl <- gets dir_table ;;
  match list_find (live_entry nm) (tbl (dir_inode d)) with
  | Some (_, e) => inode_open (inode_sector e)
  | None => ret None
  end.

(** Modelled from the spec: [dir_add] of [filesys/directory.c]: fails if a
    live entry of the same name exists or if the name is empty or longer
    than [NAME_MAX]; otherwise writes the entry into the first free slot,
    or at the end of the directory. *)
Definition dir_add (d : option dir) (nm : string) (sec : Z) : M bool :=
  d <- lift_opt d ;;
  tbl <- gets dir_table ;;
  let entries := tbl (dir_inode d) in
  if (String.length nm =? 0)%nat || (NAME_MAX <? Z.of_nat (String.length nm)) then ret false
  else
    match list_find (live_entry nm) entries with
    | Some _ => ret false
    | None =>
        let e := mk_dir_entry sec nm true in
        let entries' :=
          match list_find (λ e, in_use e = false) entries with
          | Some (i, _) => <[i := e]> entries
          | None => entries ++ [e]
          end in
        modify (with_dir_table (<[dir_inode d := entries']> tbl)) ;;
        ret true
    end.

(** Modelled from the spec: [dir_remove] of [filesys/directory.c]: find the
    entry; mark it [in_use = false]; mark the target inode [removed]. *)
Definition dir_remove (d : option dir) (nm : string) : M bool :=
  d <- lift_opt d ;;
  tbl <- gets dir_table ;;
  let entries := tbl (dir_inode d) in
  match list_find (live_entry nm) entries with
  | None => ret false
  | Some (i, e) =>
      p <- inode_open (inode_sector e) ;;
      match p with
      | None => ret false
      | Some q =>
          modify (with_dir_table
                    (<[dir_inode d := <[i := mk_dir_entry (inode_sector e) (name e) false]> entries]> tbl)) ;;
          inode_remove q ;;
          inode_close p ;;
          ret true
      end
  end.

(** The scan of [dir_readdir] from the cursor [pos]: the name of the next
    entry in use and the cursor after it. *)
Fixpoint next_in_use (entries : list dir_entry) (pos : nat) : option (string * nat) :=
  match entries with
  | [] => None
  | e :: rest =>
      if in_use e then Some (name e, S pos) else next_in_use rest (S pos)
  end.

(** Modelled from the spec: [dir_readdir] of [filesys/directory.c]: return
    the next [in_use] entry's name, advancing the directory's own cursor;
    false at the end.  The result carries the handle after the call. *)
Definition dir_readdir (d : dir) : M (option string * dir) :=
  tbl <- gets dir_table ;;
  match next_in_use (drop (dir_pos d) (tbl (dir_inode d))) (dir_pos d) with
  | Some (nm, pos') => ret (Some nm, mk_dir (dir_inode d) pos')
  | None => ret (None, mk_dir (dir_inode d) (length (tbl (dir_inode d))))
  end.

(** ** Strings of the C library *)

Definition is_delim (delimiters : string) (c : Ascii.ascii) : bool :=
  bool_decide (c ∈ String.list_ascii_of_string delimiters).

Fixpoint skip_delimiters (delimiters s : string) : string :=
  match s with
  | EmptyString => EmptyString
  | String c r => if is_delim delimiters c then skip_delimiters delimiters r else s
  end.

(** The token at the head of [s] and what follows its delimiter. *)
Fixpoint take_token (delimiters s : string) : string * string :=
  match s with
  | EmptyString => (EmptyString, EmptyString)
  | String c r =>
      if is_delim delimiters c then (EmptyString, r)
      else let '(tok, rest) := take_token delimiters r in (String c tok, rest)
  end.

(** [strtok_r (s, delimiters, &save_ptr)]: the token, null when only
    delimiters are left, and the string [save_ptr] points to afterwards. *)
Definition strtok_r (s delimiters : string) : option string * string :=
  match skip_delimiters delimiters s with
  | EmptyString => (None, EmptyString)
  | s' => let '(tok, rest) := take_token delimiters s' in (Some tok, rest)
  end.

(** [strlcpy (dst, src, size)]: what [dst] holds afterwards, and the
    result, the length of [src]. *)
Definition strlcpy (src : string) (size : Z) : string * Z :=
  (String.substring 0 (Z.to_nat (size - 1)) src, Z.of_nat (String.length src)).

(** ** The facade ([filesys.c]) *)

(** The [while (token != NULL && nextToken != NULL)] loop of [parse_path].
    [None] as a result is the [return NULL] inside the loop. *)
Fixpoint parse_path_loop (fuel : nat) (d : option dir) (token nextToken : option string)
    (savePtr : string) : M (option (option dir * option string)) :=
  match token, nextToken with
  | Some tok, Some ntok =>
      match fuel with
      | O => stuck
      | S fuel' =>
          p <- dir_lookup d tok ;;
          match p with
          | None => ret None
          | Some q =>
              isdir <- inode_is_dir q ;;
              if negb isdir then ret None
              else
                nextDir <- dir_open p ;;
                dir_close d ;;
                let '(nnext, savePtr') := strtok_r savePtr "/" in
                parse_path_loop fuel' nextDir nextToken nnext savePtr'
          end
      end
  | _, _ => ret (Some (d, token))
  end.

(** [parse_path (path_name, file_name)]: the directory returned, null for
    a failure, and what the buffer [file_name] holds afterwards.  Both
    arguments are pointers; [None] is the null pointer. *)
Definition parse_path (path_name : option string) (file_name : option string)
    : M (option dir * option string) :=
  match path_name, file_name with
  | Some path, Some _ =>
      if (String.length path =? 0)%nat then ret (None, file_name)
      else
        d <- (if bool_decide (String.get 0 path = Some "/"%char) then dir_open_root
              else cd <- gets cur_dir ;; dir_reopen cd) ;;
        let '(token, savePtr) := strtok_r path "/" in
        let '(nextToken, savePtr) := strtok_r savePtr "/" in
        r <- parse_path_loop (String.length path) d token nextToken savePtr ;;
        match r with
        | None => ret (None, file_name)
        | Some (d, token) =>
            let token := default "."%string token in
            let '(copied, size) := strlcpy token (NAME_MAX + 1) in
            if NAME_MAX + 1 <? size then ret (None, Some copied)
            else ret (d, Some copied)
        end
  | _, _ => ret (None, file_name)
  end.

(** [filesys_create].  [file_sys_lock] is taken and released around the
    allocation and is left out. *)
Definition filesys_create (nm : string) (initial_size : Z) : M bool :=
  cp_name <- malloc ;;
  if negb cp_name then ret false
  else
    r <- parse_path (Some nm) (Some EmptyString) ;;
    match r with
    | (Some d, file_name) =>
        rm <- inode_is_removed (dir_get_inode d) ;;
        if rm then ret false
        else
          a <- free_map_allocate 1 ;;
          let inode_sector := default 0 a in
          success <- (if bool_decide (a = None) then ret false
                      else
                        ok <- inode_create inode_sector initial_size 0 ;;
                        if negb ok then ret false
                        else dir_add (Some d) (default EmptyString file_name) inode_sector) ;;
          (if negb success && negb (inode_sector =? 0)
           then free_map_release inode_sector 1 else ret tt) ;;
          dir_close (Some d) ;;
          ret success
    | (None, _) => ret false
    end.

(** The [while (dir_readdir (child_dir, dir_name))] loop of
    [filesys_remove]: [is_deletable] after the loop. *)
Fixpoint only_dot_entries (fuel : nat) (child_dir : dir) : M bool :=
  match fuel with
  | O => stuck
  | S fuel' =>
      r <- dir_readdir child_dir ;;
      match fst r with
      | None => ret true
      | Some dir_name =>
          if bool_decide (dir_name = "."%string) || bool_decide (dir_name = ".."%string)
          then only_dot_entries fuel' (snd r)
          else ret false
      end
  end.

(** [filesys_remove]. *)
Definition filesys_remove (nm : string) : M bool :=
  cp_name <- malloc ;;
  if negb cp_name then ret false
  else
    r <- parse_path (Some nm) (Some EmptyString) ;;
    match r with
    | (Some d, file_name) =>
        let file_name := default EmptyString file_name in
        rm <- inode_is_removed (dir_get_inode d) ;;
        if rm then ret false
        else
          p <- dir_lookup (Some d) file_name ;;
          isdir <- match p with
                   | Some q => inode_is_dir q
                   | None => ret false
                   end ;;
          success <- (if isdir then
                        cp_inode <- inode_reopen p ;;
                        child_dir <- dir_open cp_inode ;;
                        child <- lift_opt child_dir ;;
                        tbl <- gets dir_table ;;
                        is_deletable <- only_dot_entries (S (length (tbl (dir_inode child)))) child ;;
                        dir_close child_dir ;;
                        if is_deletable then dir_remove (Some d) file_name else ret false
                      else dir_remove (Some d) file_name) ;;
          inode_close p ;;
          dir_close (Some d) ;;
          ret success
    | (None, _) => ret false
    end.

(** ** What a sector holds, seen through the cache *)

(** The contents of sector [sec] as every reader gets them: the block of
    the slot that caches the sector, the device's block otherwise. *)
Definition cached_contents (hs : list buffer_head) (dev : Z → list Z) (sec : Z)
    : list Z :=
  match list_find (λ h, bh_sector h = sec) hs with
  | Some (_, h) => bh_data h
  | None => dev sec
  end.

Definition sector_contents (st : fs_state) (sec : Z) : list Z :=
  cached_contents (buffer_heads st) (fs_device st) sec.

(** The length of the file whose inode is in sector [p]. *)
Definition file_length (st : fs_state) (p : Z) : Z :=
  disk_length (inode_disk_of_bytes (sector_contents st p)).

(** The cache has its [BUFFER_CACHE_ENTRY_NB] slots of one sector each, the
    clock hand points at a slot, and the device's sectors are 512 bytes. *)
Definition cache_shape (st : fs_state) : Prop :=
  length (buffer_heads st) = Z.to_nat BUFFER_CACHE_ENTRY_NB
  ∧ 0 <= clock_hand st < BUFFER_CACHE_ENTRY_NB
  ∧ (∀ i h, buffer_heads st !! i = Some h →
       length (bh_data h) = Z.to_nat BLOCK_SECTOR_SIZE)
  ∧ (∀ sec, length (fs_device st sec) = Z.to_nat BLOCK_SECTOR_SIZE).

(** No sector is cached twice, and a slot that is not dirty holds what the
    device holds. *)
Definition coherent (hs : list buffer_head) (dev : Z → list Z) : Prop :=
  (∀ i j hi hj, hs !! i = Some hi → hs !! j = Some hj →
     bh_sector hi = bh_sector hj → bh_sector hi ≠ NO_SECTOR → i = j)
  ∧ (∀ i h, hs !! i = Some h → bh_dirty h = false →
       bh_sector h ≠ NO_SECTOR → bh_data h = dev (bh_sector h)).

Definition cache_coherent (st : fs_state) : Prop :=
  coherent (buffer_heads st) (fs_device st).

(** Two slots that differ at most in their clock bit. *)
Definition bh_same (h h' : buffer_head) : Prop :=
  bh_dirty h = bh_dirty h' ∧ bh_valid h = bh_valid h'
  ∧ bh_sector h = bh_sector h' ∧ bh_data h = bh_data h'.

(** Everything outside the cache and the device is the same. *)
Definition same_outside_cache (st st' : fs_state) : Prop :=
  free_map st' = free_map st ∧ open_inodes st' = open_inodes st
  ∧ malloc_oracle st' = malloc_oracle st ∧ dir_table st' = dir_table st
  ∧ cur_dir st' = cur_dir st.

(** Lists of slots that differ at most in clock bits. *)
Definition heads_same (hs hs' : list buffer_head) : Prop := Forall2 bh_same hs hs'.

(** The number of slots whose clock bit is set. *)
Definition clock_bits_set (hs : list buffer_head) : nat :=
  length (filter (λ h, bh_clock_bit h = true) hs).

(** The cache and the device are the same. *)
Definition same_cache (st st' : fs_state) : Prop :=
  buffer_heads st' = buffer_heads st ∧ fs_device st' = fs_device st
  ∧ clock_hand st' = clock_hand st.

(** Two inode headers with the same length field and as many direct
    pointers. *)
Definition same_header (d d' : inode_disk) : Prop :=
  disk_length d' = disk_length d
  ∧ length (direct_map_table d') = length (direct_map_table d).

(** ** States used as concrete inputs *)

(** The inode of an empty directory. *)
Definition empty_dir_inode : inode_disk :=
  mk_inode_disk (replicate (Z.to_nat DIRECT_BLOCK_ENTRIES) 0) 0 0 0 INODE_MAGIC 1.

(** A formatted device with [nfree] free sectors after the free map
    (sector 0) and the root directory (sector 1); the cache is empty, and
    the root directory is open as the current directory. *)
Definition fs_formatted (nfree : nat) : fs_state :=
  mk_fs_state
    (<[ROOT_DIR_SECTOR := bytes_of_inode_disk empty_dir_inode]> (λ _, zero_block))
    (replicate (Z.to_nat BUFFER_CACHE_ENTRY_NB)
       (mk_buffer_head false false NO_SECTOR false zero_block))
    0
    ([true; true] ++ replicate nfree false)
    [mk_inode ROOT_DIR_SECTOR 1 false 0 false]
    []
    (<[ROOT_DIR_SECTOR := [mk_dir_entry ROOT_DIR_SECTOR "." true;
                           mk_dir_entry ROOT_DIR_SECTOR ".." true]]> (λ _, []))
    (Some (mk_dir ROOT_DIR_SECTOR 0)).

(** The inode of an empty file. *)
Definition empty_file_inode : inode_disk :=
  mk_inode_disk (replicate (Z.to_nat DIRECT_BLOCK_ENTRIES) 0) 0 0 0 INODE_MAGIC 0.

(** [fs_formatted] with one more file: the empty file ["a"] of the root
    directory, whose inode is in sector 2 and is open, with
    [deny_write_cnt = deny]. *)
Definition fs_with_file (nfree : nat) (deny : Z) : fs_state :=
  mk_fs_state
    (<[2 := bytes_of_inode_disk empty_file_inode]>
       (<[ROOT_DIR_SECTOR := bytes_of_inode_disk empty_dir_inode]> (λ _, zero_block)))
    (replicate (Z.to_nat BUFFER_CACHE_ENTRY_NB)
       (mk_buffer_head false false NO_SECTOR false zero_block))
    0
    ([true; true; true] ++ replicate nfree false)
    [mk_inode 2 1 false deny false; mk_inode ROOT_DIR_SECTOR 1 false 0 false]
    []
    (<[ROOT_DIR_SECTOR := [mk_dir_entry ROOT_DIR_SECTOR "." true;
                           mk_dir_entry ROOT_DIR_SECTOR ".." true;
                           mk_dir_entry 2 "a" true]]> (λ _, []))
    (Some (mk_dir ROOT_DIR_SECTOR 0)).

(** What a run returns, and what [f] sees of the state it ends in. *)
Definition run {A} (m : M A) (st : fs_state) : option A := fst <$> m st.
Definition exec {A} (m : M A) (st : fs_state) : option fs_state := snd <$> m st.
Definition observe {A B} (f : fs_state → B) (m : M A) (st : fs_state) : option (A * B) :=
  (λ r, (fst r, f (snd r))) <$> m st.

(** ** Properties of states and of runs *)

(** [m] keeps [I]: a run of [m] from a state where [I] holds ends in a
    state where [I] holds. *)
Definition keeps {A} (I : fs_state → Prop) (m : M A) : Prop :=
  ∀ st r st', m st = Some (r, st') → I st → I st'.

(** No inode of [l'] is marked removed unless the inode of the same sector
    is marked removed in [l]. *)
Definition no_new_removed (l l' : list inode) : Prop :=
  ∀ i', i' ∈ l' → removed i' = true →
    ∃ i, i ∈ l ∧ sector i = sector i' ∧ removed i = true.

(** The in-memory inode of sector [q], if the inode is open. *)
Definition inode_of (st : fs_state) (q : Z) : option inode :=
  snd <$> find_inode q (open_inodes st).

(** Only the list of open inodes differs. *)
Definition only_inodes (st st' : fs_state) : Prop :=
  same_cache st st' ∧ free_map st' = free_map st ∧ dir_table st' = dir_table st
  ∧ malloc_oracle st' = malloc_oracle st ∧ cur_dir st' = cur_dir st.

(** The inodes of the sectors other than [q] are the same. *)
Definition same_inodes_but (q : Z) (st st' : fs_state) : Prop :=
  ∀ q', q' ≠ q → inode_of st' q' = inode_of st q'.

(** The inode [inode_open] leaves for a sector: one more opener, or a
    fresh inode with one opener. *)
Definition opened (q : Z) (o : option inode) : inode :=
  match o with
  | Some i => with_open_cnt (to_s32 (open_cnt i + 1)) i
  | None => mk_inode q 1 false 0 false
  end.

(** The cache is well formed and no allocation fails. *)
Definition settled (st : fs_state) : Prop :=
  cache_shape st ∧ cache_coherent st ∧ malloc_oracle st = [].

(** The free map, the directories and what the sectors hold are the same. *)
Definition same_disk (st st' : fs_state) : Prop :=
  free_map st' = free_map st ∧ dir_table st' = dir_table st
  ∧ ∀ s, s ≠ NO_SECTOR → sector_contents st' s = sector_contents st s.

(** Every entry in use is ["."] or [".."]. *)
Definition only_dots (entries : list dir_entry) : Prop :=
  Forall (λ e, in_use e = true → name e = "."%string ∨ name e = ".."%string) entries.

Global Instance only_dots_dec entries : Decision (only_dots entries).
Proof. unfold only_dots. apply _. Defined.

(** The directories are those of [st], and no inode is marked removed
    that is not marked so in [st]. *)
Definition nothing_removed (st s : fs_state) : Prop :=
  dir_table s = dir_table st ∧ no_new_removed (open_inodes st) (open_inodes s).

(** Only the free map differs, and it has the same length. *)
Definition only_free_map (st st' : fs_state) : Prop :=
  same_cache st st' ∧ open_inodes st' = open_inodes st
  ∧ dir_table st' = dir_table st ∧ malloc_oracle st' = malloc_oracle st
  ∧ length (free_map st') = length (free_map st).

(** The openers of the inode of sector [q] other than the handles that
    [filesys_remove] itself holds once the path is resolved to [d]. *)
Definition other_openers (st : fs_state) (d : dir) (q : Z) : Z :=
  match inode_of st q with Some i => open_cnt i | None => 0 end
  - (if decide (q = dir_inode d) then 1 else 0).

(** [fs_formatted] with two directories of the root: ["a"], in sector 2,
    which holds the empty file ["f"] of sector 4, and the empty directory
    ["b"], in sector 3.  Only the root directory is open. *)
Definition fs_with_dirs (nfree : nat) : fs_state :=
  mk_fs_state
    (<[4 := bytes_of_inode_disk empty_file_inode]>
       (<[3 := bytes_of_inode_disk empty_dir_inode]>
          (<[2 := bytes_of_inode_disk empty_dir_inode]>
             (<[ROOT_DIR_SECTOR := bytes_of_inode_disk empty_dir_inode]>
                (λ _, zero_block)))))
    (replicate (Z.to_nat BUFFER_CACHE_ENTRY_NB)
       (mk_buffer_head false false NO_SECTOR false zero_block))
    0
    ([true; true; true; true; true] ++ replicate nfree false)
    [mk_inode ROOT_DIR_SECTOR 1 false 0 false]
    []
    (<[3 := [mk_dir_entry 3 "." true; mk_dir_entry ROOT_DIR_SECTOR ".." true]]>
       (<[2 := [mk_dir_entry 2 "." true; mk_dir_entry ROOT_DIR_SECTOR ".." true;
                mk_dir_entry 4 "f" true]]>
          (<[ROOT_DIR_SECTOR := [mk_dir_entry ROOT_DIR_SECTOR "." true;
                                 mk_dir_entry ROOT_DIR_SECTOR ".." true;
                                 mk_dir_entry 2 "a" true;
                                 mk_dir_entry 3 "b" true]]> (λ _, []))))
    (Some (mk_dir ROOT_DIR_SECTOR 0)).

(** [fs_with_dirs] once a path without a slash is resolved: the root
    directory has one more opener. *)
Definition fs_with_dirs_resolved (nfree : nat) : fs_state :=
  with_open_inodes [mk_inode ROOT_DIR_SECTOR 2 false 0 false] (fs_with_dirs nfree).

(** ** Further operations, predicates and concrete states *)

(** The loop of [bc_flush_all_entries] over the slots [idxs]. *)
Fixpoint bc_flush_all_entries_loop (idxs : list nat) : M unit :=
  match idxs with
  | [] => ret tt
  | idx :: rest =>
      h <- head_at idx ;;
      (if bh_dirty h then
         block_write (bh_sector h) (bh_data h) ;;
         set_head idx (bh_with_dirty false h)
       else ret tt) ;;
      bc_flush_all_entries_loop rest
  end.

(** [bc_flush_all_entries]. *)
Definition bc_flush_all_entries : M unit :=
  bc_flush_all_entries_loop (seq 0 (Z.to_nat BUFFER_CACHE_ENTRY_NB)).

(** [bc_term]; the arena is freed, which the state does not show. *)
Definition bc_term : M unit := bc_flush_all_entries.

(** The slots as the loop of [bc_init] leaves them: slot [i] is empty and
    points [i] sectors into the arena. *)
Definition bc_init_heads (arena : list Z) : list buffer_head :=
  (λ i, mk_buffer_head false false NO_SECTOR false
          (take (Z.to_nat BLOCK_SECTOR_SIZE)
             (drop (Z.to_nat BLOCK_SECTOR_SIZE * i) arena)))
    <$> seq 0 (Z.to_nat BUFFER_CACHE_ENTRY_NB).


(** [fs_formatted] with sector 5 written in the cache and not yet on the
    device. *)
Definition fs_with_dirty_slot : fs_state :=
  with_buffer_heads
    (<[0%nat := mk_buffer_head true true 5 true (replicate (Z.to_nat BLOCK_SECTOR_SIZE) 7)]>
       (buffer_heads (fs_formatted 8)))
    (fs_formatted 8).

(** [inode_init]; [I_BLOCK_ENTRY_NB] is set and never read. *)
Definition inode_init : M unit := modify (with_open_inodes []).

Definition with_deny_write_cnt (x : Z) (i : inode) : inode :=
  mk_inode (sector i) (open_cnt i) (removed i) x (extend_lock i).

(** [inode_deny_write]. *)
Definition inode_deny_write (p : Z) : M unit :=
  inode_modify p (λ i, with_deny_write_cnt (to_s32 (deny_write_cnt i + 1)) i) ;;
  i <- inode_deref p ;;
  ASSERT (deny_write_cnt i <=? open_cnt i).

(** [inode_allow_write]. *)
Definition inode_allow_write (p : Z) : M unit :=
  i <- inode_deref p ;;
  ASSERT (0 <? deny_write_cnt i) ;;
  ASSERT (deny_write_cnt i <=? open_cnt i) ;;
  inode_modify p (λ i, with_deny_write_cnt (to_s32 (deny_write_cnt i - 1)) i).

(** The copy loop of [inode_read_at]: [bytes_read] and the caller's buffer
    after the loop. *)
Fixpoint read_loop (fuel : nat) (disk_inode : inode_disk) (buffer : list Z)
    (size offset bytes_read : Z) : M (Z * list Z) :=
  if size <=? 0 then ret (bytes_read, buffer)
  else
    match fuel with
    | O => stuck
    | S fuel' =>
        let sector_ofs := Z.rem offset BLOCK_SECTOR_SIZE in
        let inode_left := to_s32 (disk_length disk_inode - offset) in
        let sector_left := to_s32 (BLOCK_SECTOR_SIZE - sector_ofs) in
        let min_left := if inode_left <? sector_left then inode_left else sector_left in
        let chunk_size := if size <? min_left then size else min_left in
        if chunk_size <=? 0 then ret (bytes_read, buffer)
        else
          sector_idx <- byte_to_sector disk_inode offset ;;
          if sector_idx =? 0 then ret (bytes_read, buffer)
          else
            r <- bc_read sector_idx buffer bytes_read chunk_size sector_ofs ;;
            read_loop fuel' disk_inode (snd r) (to_s32 (size - chunk_size))
              (to_s32 (offset + chunk_size)) (to_s32 (bytes_read + chunk_size))
    end.

(** [inode_read_at]: the result and the caller's buffer after the call. *)
Definition inode_read_at (p : Z) (buffer : list Z) (size offset : Z)
    : M (Z * list Z) :=
  ok <- malloc ;;
  if negb ok then ret (0, buffer)
  else
    disk_inode <- get_disk_inode p ;;
    read_loop (Z.to_nat size) disk_inode buffer size offset 0.

(** No two in-memory inodes are for the same sector. *)
Definition inodes_unique (st : fs_state) : Prop :=
  NoDup (sector <$> open_inodes st).

(** The cache is well formed. *)
Definition cache_ok (st : fs_state) : Prop := cache_shape st ∧ cache_coherent st.

(** [s] is [st0] as far as a reader can tell: the cache is well formed,
    every sector holds what it holds in [st0], and the free map, the open
    inodes and the directories are those of [st0]. *)
Definition reads_as (st0 s : fs_state) : Prop :=
  cache_ok s
  ∧ (∀ sec, sec ≠ NO_SECTOR → sector_contents s sec = sector_contents st0 sec)
  ∧ free_map s = free_map st0 ∧ open_inodes s = open_inodes st0
  ∧ dir_table s = dir_table st0 ∧ cur_dir s = cur_dir st0.

(** A device given by the sectors that are not zero. *)
Definition device_of (l : list (Z * list Z)) : Z → list Z :=
  λ s, match list_find (λ p, p.1 = s) l with
       | Some (_, (_, blk)) => blk
       | None => zero_block
       end.

(** The inode of a file of 600 bytes in the sectors 3 and 4. *)
Definition data_file_inode : inode_disk :=
  mk_inode_disk ([3; 4] ++ replicate (Z.to_nat DIRECT_BLOCK_ENTRIES - 2) 0)
    0 0 600 INODE_MAGIC 0.

(** [fs_formatted] with one more file: ["a"], of 600 bytes, in the root
    directory; its inode is in sector 2 and is open, sector 3 holds 512
    bytes [65] and sector 4 holds 512 bytes [66].  The cache is empty. *)
Definition fs_with_data : fs_state :=
  mk_fs_state
    (device_of [(ROOT_DIR_SECTOR, bytes_of_inode_disk empty_dir_inode);
                (2, bytes_of_inode_disk data_file_inode);
                (3, replicate (Z.to_nat BLOCK_SECTOR_SIZE) 65);
                (4, replicate (Z.to_nat BLOCK_SECTOR_SIZE) 66)])
    (replicate (Z.to_nat BUFFER_CACHE_ENTRY_NB)
       (mk_buffer_head false false NO_SECTOR false zero_block))
    0
    ([true; true; true; true; true] ++ replicate 8 false)
    [mk_inode 2 1 false 0 false; mk_inode ROOT_DIR_SECTOR 1 false 0 false]
    []
    (<[ROOT_DIR_SECTOR := [mk_dir_entry ROOT_DIR_SECTOR "." true;
                           mk_dir_entry ROOT_DIR_SECTOR ".." true;
                           mk_dir_entry 2 "a" true]]> (λ _, []))
    (Some (mk_dir ROOT_DIR_SECTOR 0)).

(** Two inode headers with the same magic number and directory flag. *)
Definition same_kind (d d' : inode_disk) : Prop :=
  magic d' = magic d ∧ is_dir d' = is_dir d.

(** [fs_with_data] after [inode_remove] of its file: the inode in sector 2
    is open once and marked removed. *)
Definition fs_with_removed_data : fs_state :=
  with_open_inodes
    [mk_inode 2 1 true 0 false; mk_inode ROOT_DIR_SECTOR 1 false 0 false]
    fs_with_data.

(** The sectors of the direct table that hold the bytes of the file. *)
Definition data_sectors (d : inode_disk) : list Z :=
  take (Z.to_nat ((disk_length d + BLOCK_SECTOR_SIZE - 1) / BLOCK_SECTOR_SIZE))
    (direct_map_table d).

(** The header [d], kept in sector [p], is of a file that lies in direct
    blocks: these are sectors in use, different from each other and from
    [p]. *)
Definition direct_file (p : Z) (d : inode_disk) : Prop :=
  disk_length d <= DIRECT_BLOCK_ENTRIES * BLOCK_SECTOR_SIZE
  ∧ NoDup (p :: data_sectors d)
  ∧ Forall (λ s, s ≠ 0 ∧ s ≠ NO_SECTOR) (data_sectors d).

(** The byte at [pos] of the file with header [d], through the direct
    table. *)
Definition file_byte (st : fs_state) (d : inode_disk) (pos : Z) : option Z :=
  match direct_map_table d !! Z.to_nat (pos / BLOCK_SECTOR_SIZE) with
  | Some s => sector_contents st s !! Z.to_nat (pos mod BLOCK_SECTOR_SIZE)
  | None => None
  end.

(** ** The monad *)

Lemma bind_Some {A B} (m : M A) (k : A → M B) st r :
  bind m k st = Some r ↔ ∃ a st1, m st = Some (a, st1) ∧ k a st1 = Some r.
Proof.
  unfold bind. destruct (m st) as [[a st1]|]; split.
  - intros H. by exists a, st1.
  - by intros (? & ? & [= <- <-] & H).
  - done.
  - by intros (? & ? & ? & _).
Qed.

Lemma bind_eq {A B} (m : M A) (k : A → M B) st a st1 :
  m st = Some (a, st1) → bind m k st = k a st1.
Proof. unfold bind. by intros ->. Qed.

Lemma head_at_Some p st h st' :
  head_at p st = Some (h, st') ↔ buffer_heads st !! p = Some h ∧ st' = st.
Proof.
  unfold head_at. destruct (buffer_heads st !! p); split.
  - by intros [= <- <-].
  - by intros [[= <-] ->].
  - done.
  - by intros [? _].
Qed.

Lemma gets_Some {A} (f : fs_state → A) st a st' :
  gets f st = Some (a, st') ↔ a = f st ∧ st' = st.
Proof. unfold gets. split; [by intros [= <- <-] | by intros [-> ->]]. Qed.

Lemma lift_opt_Some {A} (o : option A) st a st' :
  lift_opt o st = Some (a, st') ↔ o = Some a ∧ st' = st.
Proof.
  unfold lift_opt. destruct o; split; try done.
  - by intros [= <- <-].
  - by intros [[= <-] ->].
  - by intros [? _].
Qed.

Lemma ASSERT_Some b st u st' :
  ASSERT b st = Some (u, st') ↔ b = true ∧ st' = st.
Proof.
  unfold ASSERT, ret, stuck. destruct b; split; try done.
  - by intros [= <- <-].
  - intros [_ ->]. by destruct u.
  - by intros [? _].
Qed.

Tactic Notation "mbind" hyp(H) "as" ident(a) ident(s) ident(H1) :=
  apply bind_Some in H; destruct H as (a & s & H1 & H).

Lemma Some_pair_inv {A} (a x : A) (s s' : fs_state) :
  Some (a, s) = Some (x, s') → a = x ∧ s = s'.
Proof. by intros [= -> ->]. Qed.

Ltac subst_val H :=
  first
    [ match type of H with _ = ?v => is_var v; subst v end
    | match type of H with ?v = _ => is_var v; subst v end
    | injection H; clear H; intros; subst
    | idtac ].

(** Replaces the state a step ends in by the state it was computed from. *)
Ltac subst_state H :=
  match type of H with
  | Some (_, ?s) = Some (_, ?s') =>
      let Hx := fresh "Hval" in
      let Hs := fresh "Hst" in
      apply Some_pair_inv in H; destruct H as [Hx Hs]; subst s'; subst_val Hx
  end.

Ltac mon_inv :=
  repeat match goal with
  | H : bind _ _ _ = Some _ |- _ =>
      apply bind_Some in H; destruct H as (? & ? & ? & H)
  | H : ret _ _ = Some _ |- _ => unfold ret in H; subst_state H
  | H : gets _ _ = Some _ |- _ => unfold gets in H; subst_state H
  | H : modify _ _ = Some _ |- _ => unfold modify in H; subst_state H
  | H : stuck _ = Some _ |- _ => discriminate H
  | H : head_at _ _ = Some _ |- _ =>
      apply head_at_Some in H; destruct H as [H ?]; subst
  | H : set_head _ _ _ = Some _ |- _ => unfold set_head in H
  | H : block_read _ _ = Some _ |- _ => unfold block_read in H
  | H : block_write _ _ _ = Some _ |- _ => unfold block_write in H
  | H : ASSERT _ _ = Some _ |- _ =>
      apply ASSERT_Some in H; destruct H as [H ?]; subst
  | H : lift_opt _ _ = Some _ |- _ =>
      apply lift_opt_Some in H; destruct H as [H ?]; subst
  end.

(** Inverts a run step by step, splitting on every test it meets. *)
Ltac mon_cases :=
  repeat first
    [ progress mon_inv
    | match goal with
      | H : (if ?b then _ else _) _ = Some _ |- _ => destruct b eqn:?
      | H : (match ?o with Some _ => _ | None => _ end) _ = Some _ |- _ =>
          destruct o eqn:?
      end ].

(** ** Machine integers *)

Lemma to_s32_id x : in_s32 x → to_s32 x = x.
Proof. unfold in_s32, to_s32. intros. rewrite Z.mod_small; lia. Qed.

Lemma to_u32_id x : in_u32 x → to_u32 x = x.
Proof. unfold in_u32, to_u32. intros. rewrite Z.mod_small; lia. Qed.

Lemma to_s32_range x : in_s32 (to_s32 x).
Proof.
  unfold in_s32, to_s32.
  pose proof (Z.mod_pos_bound (x + 2147483648) 4294967296). lia.
Qed.

Lemma to_u32_range x : in_u32 (to_u32 x).
Proof. unfold in_u32, to_u32. apply Z.mod_pos_bound. lia. Qed.

(** ** The byte-to-sector classification *)

(** C1.  For a non-negative byte offset [pos] (an [off_t]), with
    [s = pos / BLOCK_SECTOR_SIZE], [locate_byte] answers: direct with
    [index1 = s] when [s < 123]; indirect with [index1 = s - 123] when
    [123 <= s < 123 + 128]; double-indirect with
    [index1 = (s - 123 - 128) / 128] and [index2 = (s - 123 - 128) % 128]
    when [s < 123 + 128 * (1 + 128)]; out of range otherwise. *)
Theorem locate_byte_classifies (pos : Z) (sec_loc : sector_location) :
  0 <= pos < 2147483648 →
  let s := pos / BLOCK_SECTOR_SIZE in
  let loc := locate_byte pos sec_loc in
  (s < DIRECT_BLOCK_ENTRIES →
     directness loc = NORMAL_DIRECT ∧ index1 loc = s)
  ∧ (DIRECT_BLOCK_ENTRIES <= s < DIRECT_BLOCK_ENTRIES + INDIRECT_BLOCK_ENTRIES →
     directness loc = INDIRECT ∧ index1 loc = s - DIRECT_BLOCK_ENTRIES)
  ∧ (DIRECT_BLOCK_ENTRIES + INDIRECT_BLOCK_ENTRIES <= s
     < DIRECT_BLOCK_ENTRIES + INDIRECT_BLOCK_ENTRIES * (1 + INDIRECT_BLOCK_ENTRIES) →
     directness loc = DOUBLE_INDIRECT
     ∧ index1 loc = (s - DIRECT_BLOCK_ENTRIES - INDIRECT_BLOCK_ENTRIES) / INDIRECT_BLOCK_ENTRIES
     ∧ index2 loc = (s - DIRECT_BLOCK_ENTRIES - INDIRECT_BLOCK_ENTRIES) mod INDIRECT_BLOCK_ENTRIES)
  ∧ (DIRECT_BLOCK_ENTRIES + INDIRECT_BLOCK_ENTRIES * (1 + INDIRECT_BLOCK_ENTRIES) <= s →
     directness loc = OUT_LIMIT).
Proof.
  intros Hpos s loc. subst loc. unfold locate_byte.
  change INDIRECT_BLOCK_ENTRIES with 128 in *.
  change DIRECT_BLOCK_ENTRIES with 123 in *.
  change BLOCK_SECTOR_SIZE with 512 in *.
  rewrite Z.quot_div_nonneg by lia. fold s.
  assert (Hs : 0 <= s < 4194304).
  { subst s. split; [apply Z.div_pos; lia | apply Z.div_lt_upper_bound; lia]. }
  change (to_s32 (to_u32 (123 + 128))) with 251.
  change (to_s32 (to_u32 (123 + 128 * (128 + 1)))) with 16635.
  assert (Hdbl : ∀ r, 0 <= r < 16384 →
            to_s32 (to_u32 (to_u32 (to_s32 (r + 128)) - 128)) = r).
  { intros r Hr.
    rewrite (to_s32_id (r + 128)) by (unfold in_s32; lia).
    rewrite (to_u32_id (r + 128)) by (unfold in_u32; lia).
    replace (r + 128 - 128) with r by lia.
    rewrite (to_u32_id r) by (unfold in_u32; lia).
    apply to_s32_id. unfold in_s32. lia. }
  destruct (Z.ltb_spec s 123) as [H1|H1]; simpl.
  { repeat split; intros; (done || lia). }
  destruct (Z.ltb_spec s 251) as [H2|H2]; simpl.
  { split; [lia|]. split; [|split; intros; lia].
    intros _. split; [done|]. apply to_s32_id. unfold in_s32. lia. }
  destruct (Z.ltb_spec s 16635) as [H3|H3]; simpl.
  - split; [lia|]. split; [lia|]. split; [|lia].
    intros _. split; [done|].
    set (r := s - 123 - 128). assert (Hr : 0 <= r < 16384) by (subst r; lia).
    replace (s - 123) with (r + 128) by (subst r; lia). clearbody r.
    rewrite Hdbl by lia.
    rewrite (to_u32_id r) by (unfold in_u32; lia).
    pose proof (Z.div_pos r 128).
    assert (r / 128 < 129) by (apply Z.div_lt_upper_bound; lia).
    pose proof (Z.mod_pos_bound r 128).
    split; apply to_s32_id; unfold in_s32; lia.
  - split; [lia|]. split; [lia|]. split; [lia|]. done.
Qed.

Lemma locate_byte_classifies_witness :
  let loc := locate_byte 194565 sec_loc_unset in
  directness loc = DOUBLE_INDIRECT ∧ index1 loc = 1 ∧ index2 loc = 1.
Proof.
  pose proof (locate_byte_classifies 194565 sec_loc_unset ltac:(lia)) as H.
  simpl in H. destruct H as (_ & _ & H & _).
  apply H. vm_compute. split; congruence.
Defined.

(** ** Searching a list that is updated in place *)

Section list_find_facts.
Context {A : Type} (P : A → Prop) `{!∀ x, Decision (P x)}.

Lemma list_find_insert_first (l : list A) i x :
  (i < length l)%nat → P x →
  (∀ j y, (j < i)%nat → l !! j = Some y → ¬ P y) →
  list_find P (<[i:=x]> l) = Some (i, x).
Proof.
  intros Hi HP Hbefore. apply list_find_Some. split_and!.
  - by apply list_lookup_insert_eq.
  - done.
  - intros j y Hj Hlt. rewrite list_lookup_insert_ne in Hj by lia. eauto.
Qed.

Lemma list_find_insert_other (l : list A) i x :
  (∀ y, l !! i = Some y → ¬ P y) → ¬ P x →
  list_find P (<[i:=x]> l) = list_find P l.
Proof.
  intros Hold Hnew. destruct (list_find P l) as [[k z]|] eqn:E.
  - apply list_find_Some in E as (Hk & HP & Hbefore).
    assert (i ≠ k) by (intros ->; by eapply Hold).
    apply list_find_Some. split_and!.
    + by rewrite list_lookup_insert_ne.
    + done.
    + intros j y Hj Hlt. destruct (decide (i = j)) as [->|].
      * apply lookup_lt_Some in Hj as Hlen. rewrite length_insert in Hlen.
        rewrite list_lookup_insert_eq in Hj by done. by simplify_eq.
      * rewrite list_lookup_insert_ne in Hj by done. eauto.
  - apply list_find_None in E. apply list_find_None. by apply Forall_insert.
Qed.
End list_find_facts.

(** ** Slots that differ in their clock bit *)


Lemma bh_same_refl h : bh_same h h.
Proof. by unfold bh_same. Qed.

Lemma bh_same_trans h1 h2 h3 : bh_same h1 h2 → bh_same h2 h3 → bh_same h1 h3.
Proof. unfold bh_same. intros (?&?&?&?) (?&?&?&?). split_and!; congruence. Qed.

Lemma heads_same_refl hs : heads_same hs hs.
Proof. apply Forall2_same_length_lookup. split; [done|]. intros; simplify_eq. apply bh_same_refl. Qed.

Lemma heads_same_trans hs1 hs2 hs3 :
  heads_same hs1 hs2 → heads_same hs2 hs3 → heads_same hs1 hs3.
Proof.
  unfold heads_same. intros H12 H23. revert hs3 H23.
  induction H12; intros hs3 H23; inversion H23; subst; constructor;
    eauto using bh_same_trans.
Qed.

Lemma heads_same_insert hs i h h' :
  hs !! i = Some h → bh_same h h' → heads_same hs (<[i:=h']> hs).
Proof.
  intros Hi Hsame. apply Forall2_same_length_lookup. split.
  - by rewrite length_insert.
  - intros j x y Hx Hy. destruct (decide (i = j)) as [->|].
    + rewrite list_lookup_insert_eq in Hy by (by eapply lookup_lt_Some).
      by simplify_eq.
    + rewrite list_lookup_insert_ne in Hy by done. simplify_eq. apply bh_same_refl.
Qed.

Lemma heads_same_insert_both hs hs' i h h' :
  heads_same hs hs' → bh_same h h' → heads_same (<[i:=h]> hs) (<[i:=h']> hs').
Proof. intros. by apply Forall2_insert. Qed.

Lemma heads_same_find hs hs' sec :
  heads_same hs hs' →
  match list_find (λ h, bh_sector h = sec) hs,
        list_find (λ h, bh_sector h = sec) hs' with
  | Some (i, h), Some (i', h') => i = i' ∧ bh_same h h'
  | None, None => True
  | _, _ => False
  end.
Proof.
  induction 1 as [|h h' hs hs' Hh Hhs IH]; simpl; [done|].
  destruct Hh as (Hd & Hv & Hs & Hdata).
  rewrite <- Hs. case_decide; simpl.
  - split; [done|]. by unfold bh_same.
  - destruct (list_find _ hs) as [[i x]|], (list_find _ hs') as [[i' x']|];
      simpl; try done.
    destruct IH as [-> ?]. done.
Qed.

Lemma heads_same_contents hs hs' dev sec :
  heads_same hs hs' → cached_contents hs' dev sec = cached_contents hs dev sec.
Proof.
  intros H. pose proof (heads_same_find hs hs' sec H) as Hf.
  unfold cached_contents.
  destruct (list_find _ hs) as [[i x]|], (list_find _ hs') as [[i' x']|]; try done.
  destruct Hf as (_ & _ & _ & _ & ->). done.
Qed.

Lemma heads_same_lookup hs hs' sec :
  heads_same hs hs' →
  fst <$> list_find (λ h, bh_sector h = sec) hs'
  = fst <$> list_find (λ h, bh_sector h = sec) hs.
Proof.
  intros H. pose proof (heads_same_find hs hs' sec H) as Hf.
  destruct (list_find _ hs) as [[i x]|], (list_find _ hs') as [[i' x']|]; try done.
  destruct Hf as [-> _]. done.
Qed.

Lemma heads_same_coherent hs hs' dev :
  heads_same hs hs' → coherent hs dev → coherent hs' dev.
Proof.
  intros H [Huniq Hclean]. split.
  - intros i j hi hj Hi Hj Heq Hne.
    destruct (Forall2_lookup_r _ _ _ _ _ H Hi) as (xi & Hxi & (_&_&Hsi&_)).
    destruct (Forall2_lookup_r _ _ _ _ _ H Hj) as (xj & Hxj & (_&_&Hsj&_)).
    eapply (Huniq i j xi xj); congruence.
  - intros i h Hi Hd Hne.
    destruct (Forall2_lookup_r _ _ _ _ _ H Hi) as (x & Hx & (Hxd&_&Hxs&Hxdata)).
    rewrite <- Hxdata, <- Hxs. apply (Hclean i x); congruence.
Qed.


Lemma same_outside_cache_refl st : same_outside_cache st st.
Proof. by unfold same_outside_cache. Qed.

Lemma same_outside_cache_trans st1 st2 st3 :
  same_outside_cache st1 st2 → same_outside_cache st2 st3 → same_outside_cache st1 st3.
Proof. unfold same_outside_cache. intros (?&?&?&?&?) (?&?&?&?&?). split_and!; congruence. Qed.

(** ** The clock sweep *)

Lemma next_hand_range hand :
  0 <= hand < BUFFER_CACHE_ENTRY_NB →
  0 <= (if to_s32 (hand + 1) =? BUFFER_CACHE_ENTRY_NB then 0 else to_s32 (hand + 1))
    < BUFFER_CACHE_ENTRY_NB.
Proof.
  unfold BUFFER_CACHE_ENTRY_NB. intros H.
  rewrite to_s32_id by (unfold in_s32; lia).
  destruct (Z.eqb_spec (hand + 1) 64); lia.
Qed.

Lemma clock_sweep_spec fuel st idx st' :
  clock_sweep fuel st = Some (idx, st') →
  heads_same (buffer_heads st) (buffer_heads st')
  ∧ fs_device st' = fs_device st
  ∧ same_outside_cache st st'
  ∧ (idx < length (buffer_heads st))%nat
  ∧ (0 <= clock_hand st < BUFFER_CACHE_ENTRY_NB →
     0 <= clock_hand st' < BUFFER_CACHE_ENTRY_NB).
Proof.
  revert st. induction fuel as [|fuel IH]; intros st H; simpl in H; [done|].
  mon_inv. simpl in *.
  match goal with Hh : buffer_heads _ !! _ = Some ?h |- _ =>
    destruct (bh_clock_bit h) eqn:Hbit end; mon_inv.
  - apply IH in H as (Hs & Hdev & Hout & Hidx & Hhand). simpl in *.
    split_and!.
    + eapply heads_same_trans; [|exact Hs].
      eapply heads_same_insert; [done|]. by unfold bh_same.
    + done.
    + destruct Hout as (?&?&?&?&?). by unfold same_outside_cache.
    + by rewrite length_insert in Hidx.
    + intros Hr. apply Hhand. by apply next_hand_range.
  - simpl. split_and!.
    + eapply heads_same_insert; [done|]. by unfold bh_same.
    + done.
    + by unfold same_outside_cache.
    + by eapply lookup_lt_Some.
    + apply next_hand_range.
Qed.

Lemma clock_bits_set_insert_clear hs i h :
  hs !! i = Some h → bh_clock_bit h = true →
  S (clock_bits_set (<[i := bh_with_clock_bit false h]> hs)) = clock_bits_set hs.
Proof.
  unfold clock_bits_set. revert i. induction hs as [|x hs IH]; intros i Hi Hbit; [done|].
  destruct i as [|i]; simpl in *.
  - simplify_eq. rewrite !filter_cons. simpl.
    rewrite decide_True by done. done.
  - rewrite !filter_cons. case_decide; simpl; rewrite <- (IH i) by done; done.
Qed.

Lemma clock_sweep_returns fuel st :
  (length (buffer_heads st) = Z.to_nat BUFFER_CACHE_ENTRY_NB) →
  0 <= clock_hand st < BUFFER_CACHE_ENTRY_NB →
  (clock_bits_set (buffer_heads st) < fuel)%nat →
  ∃ idx st', clock_sweep fuel st = Some (idx, st').
Proof.
  revert st. induction fuel as [|fuel IH]; intros st Hlen Hhand Hcnt; [lia|].
  simpl. unfold bind at 1. simpl. unfold bind at 1. simpl.
  assert (Hne : clock_hand st ≠ BUFFER_CACHE_ENTRY_NB) by lia.
  apply Z.eqb_neq in Hne. rewrite Hne.
  unfold bind at 1. destruct (Z.leb_spec 0 (clock_hand st)); [|lia]. simpl.
  unfold bind at 1, head_at. simpl.
  destruct (lookup_lt_is_Some_2 (buffer_heads st) (Z.to_nat (clock_hand st))) as [h Hh].
  { rewrite Hlen. lia. }
  rewrite Hh. destruct (bh_clock_bit h) eqn:Hbit.
  - unfold bind at 1. simpl. apply IH; simpl.
    + by rewrite length_insert.
    + by apply next_hand_range.
    + pose proof (clock_bits_set_insert_clear _ _ _ Hh Hbit). lia.
  - unfold bind at 1. simpl. eauto.
Qed.


(** ** Victim selection *)

Lemma bc_select_victim_spec st idx st' :
  bc_select_victim st = Some (idx, st') →
  ∃ h, buffer_heads st !! idx = Some h
    ∧ heads_same
        (<[idx := mk_buffer_head false false NO_SECTOR false (bh_data h)]> (buffer_heads st))
        (buffer_heads st')
    ∧ fs_device st' = (if bh_dirty h then <[bh_sector h := bh_data h]> (fs_device st)
                       else fs_device st)
    ∧ same_outside_cache st st'
    ∧ (0 <= clock_hand st < BUFFER_CACHE_ENTRY_NB →
       0 <= clock_hand st' < BUFFER_CACHE_ENTRY_NB).
Proof.
  unfold bc_select_victim. intros H.
  mbind H as idx0 st1 Hsweep. mbind H as h1 st1' Hh1.
  apply head_at_Some in Hh1 as [Hh1 ->].
  mbind H as u st2 Hflush. mbind H as h2 st2' Hh2.
  apply head_at_Some in Hh2 as [Hh2 ->]. mon_inv. simpl.
  apply clock_sweep_spec in Hsweep as (Hsame & Hdev & Hout & Hidx & Hhand).
  destruct (Forall2_lookup_r _ _ _ _ _ Hsame Hh1) as (h & Hh & (Hd & Hv & Hs & Hdata)).
  exists h. split; [done|].
  destruct (bh_dirty h1) eqn:Hdirty.
  - unfold bc_flush_entry in Hflush. mon_inv. simpl in *.
    rewrite list_lookup_insert_eq in Hh2 by (by eapply lookup_lt_Some). simplify_eq.
    simpl. rewrite list_insert_insert_eq. rewrite Hd, Hs, Hdata, Hdev.
    split_and!; try done.
    apply heads_same_insert_both; [done|]. by unfold bh_same.
  - mon_inv. simpl in *. simplify_eq. rewrite Hd, Hdata, Hdev.
    split_and!; try done.
    apply heads_same_insert_both; [done|]. by unfold bh_same.
Qed.

Lemma bc_select_victim_returns st :
  length (buffer_heads st) = Z.to_nat BUFFER_CACHE_ENTRY_NB →
  0 <= clock_hand st < BUFFER_CACHE_ENTRY_NB →
  ∃ idx st', bc_select_victim st = Some (idx, st').
Proof.
  intros Hlen Hhand.
  destruct (clock_sweep_returns (S (Z.to_nat BUFFER_CACHE_ENTRY_NB)) st Hlen Hhand)
    as (idx & st1 & Hsweep).
  { unfold clock_bits_set. pose proof (length_filter (λ h, bh_clock_bit h = true) (buffer_heads st)).
    lia. }
  pose proof (clock_sweep_spec _ _ _ _ Hsweep) as (Hsame & _ & _ & Hidx & _).
  destruct (lookup_lt_is_Some_2 (buffer_heads st1) idx) as [h1 Hh1].
  { apply Forall2_length in Hsame. lia. }
  unfold bc_select_victim. rewrite (bind_eq _ _ _ _ _ Hsweep).
  unfold bind at 1, head_at. rewrite Hh1.
  destruct (bh_dirty h1).
  - unfold bc_flush_entry, bind, head_at, block_write, set_head, modify, ret. simpl.
    rewrite Hh1. simpl. rewrite list_lookup_insert_eq by (by eapply lookup_lt_Some).
    eauto.
  - unfold bind, head_at, set_head, modify, ret. simpl. rewrite Hh1. eauto.
Qed.


(** ** Contents of the cache under eviction and loading *)

Lemma cached_contents_cached hs dev i h sec :
  coherent hs dev → hs !! i = Some h → bh_sector h = sec → sec ≠ NO_SECTOR →
  cached_contents hs dev sec = bh_data h.
Proof.
  intros [Huniq _] Hi Hs Hne. unfold cached_contents.
  destruct (list_find _ hs) as [[k x]|] eqn:E.
  - apply list_find_Some in E as (Hk & Hx & _).
    assert (k = i) as -> by (eapply Huniq; eauto; congruence). congruence.
  - apply list_find_None in E. rewrite Forall_forall in E.
    destruct (E h); [by eapply list_elem_of_lookup_2 | done].
Qed.

Lemma cached_contents_uncached hs dev sec :
  (∀ i h, hs !! i = Some h → bh_sector h ≠ sec) →
  cached_contents hs dev sec = dev sec.
Proof.
  intros Hmiss. unfold cached_contents.
  destruct (list_find _ hs) as [[k x]|] eqn:E; [|done].
  apply list_find_Some in E as (Hk & Hx & _). by destruct (Hmiss k x).
Qed.

Lemma evict_coherent hs dev idx h :
  coherent hs dev → hs !! idx = Some h →
  let hs' := <[idx := mk_buffer_head false false NO_SECTOR false (bh_data h)]> hs in
  let dev' := if bh_dirty h then <[bh_sector h := bh_data h]> dev else dev in
  coherent hs' dev'
  ∧ (∀ sec, sec ≠ NO_SECTOR → cached_contents hs' dev' sec = cached_contents hs dev sec).
Proof.
  intros Hco Hh hs' dev'. pose proof Hco as [Huniq Hclean].
  assert (Hlen : (idx < length hs)%nat) by (by eapply lookup_lt_Some).
  assert (Hother : ∀ j x, hs' !! j = Some x → j ≠ idx → hs !! j = Some x).
  { intros j x Hj Hne. subst hs'. by rewrite list_lookup_insert_ne in Hj. }
  assert (Hidx : ∀ x, hs' !! idx = Some x → bh_sector x = NO_SECTOR).
  { intros x Hx. subst hs'. rewrite list_lookup_insert_eq in Hx by done. by simplify_eq. }
  split; [split|].
  - intros i j hi hj Hi Hj Heq Hne.
    destruct (decide (i = idx)) as [->|Hi']; [by rewrite (Hidx _ Hi) in Hne|].
    destruct (decide (j = idx)) as [->|Hj']; [rewrite (Hidx _ Hj) in Heq; congruence|].
    eapply Huniq; eauto.
  - intros i x Hi Hd Hne.
    destruct (decide (i = idx)) as [->|Hi']; [by rewrite (Hidx _ Hi) in Hne|].
    apply Hother in Hi; [|done]. rewrite (Hclean i x) by done.
    subst dev'. destruct (bh_dirty h); [|done].
    rewrite fn_lookup_insert_ne; [done|].
    intros Heq. apply Hi'. eapply Huniq; eauto; congruence.
  - intros sec Hne. destruct (decide (bh_sector h = sec)) as [Hs|Hs].
    + rewrite (cached_contents_cached hs dev idx h sec) by done.
      rewrite cached_contents_uncached.
      * subst dev'. destruct (bh_dirty h) eqn:Hd.
        -- subst sec. by rewrite fn_lookup_insert.
        -- subst sec. symmetry. by eapply Hclean.
      * intros j x Hj Hx. destruct (decide (j = idx)) as [->|Hj'].
        -- rewrite (Hidx _ Hj) in Hx. congruence.
        -- apply Hj'. eapply Huniq; eauto; congruence.
    + unfold cached_contents. subst hs'.
      rewrite list_find_insert_other.
      * destruct (list_find _ hs) as [[k x]|]; [done|].
        subst dev'. destruct (bh_dirty h); [|done]. by rewrite fn_lookup_insert_ne.
      * intros y Hy. by simplify_eq.
      * simpl. congruence.
Qed.

Lemma load_coherent hs dev idx e sec cb v :
  coherent hs dev → hs !! idx = Some e → bh_sector e = NO_SECTOR →
  (∀ j x, j ≠ idx → hs !! j = Some x → bh_sector x ≠ sec) →
  let hs' := <[idx := mk_buffer_head false v sec cb (dev sec)]> hs in
  coherent hs' dev
  ∧ (∀ sec', sec' ≠ NO_SECTOR → cached_contents hs' dev sec' = cached_contents hs dev sec').
Proof.
  intros Hco He Hempty Hmiss hs'. pose proof Hco as [Huniq Hclean].
  assert (Hlen : (idx < length hs)%nat) by (by eapply lookup_lt_Some).
  assert (Hother : ∀ j x, hs' !! j = Some x → j ≠ idx → hs !! j = Some x).
  { intros j x Hj Hne. subst hs'. by rewrite list_lookup_insert_ne in Hj. }
  assert (Hidx : ∀ x, hs' !! idx = Some x →
            x = mk_buffer_head false v sec cb (dev sec)).
  { intros x Hx. subst hs'. rewrite list_lookup_insert_eq in Hx by done. by simplify_eq. }
  split; [split|].
  - intros i j hi hj Hi Hj Heq Hne.
    destruct (decide (i = idx)) as [->|Hi'], (decide (j = idx)) as [->|Hj']; [done|..].
    + rewrite (Hidx _ Hi) in Heq. simpl in Heq.
      destruct (Hmiss j hj); eauto.
    + rewrite (Hidx _ Hj) in Heq. simpl in Heq.
      destruct (Hmiss i hi); eauto.
    + eapply Huniq; eauto.
  - intros i x Hi Hd Hne.
    destruct (decide (i = idx)) as [->|Hi']; [by rewrite (Hidx _ Hi)|].
    eapply Hclean; eauto.
  - intros sec' Hne. destruct (decide (sec = sec')) as [<-|Hs].
    + rewrite (cached_contents_uncached hs).
      * unfold cached_contents. subst hs'.
        rewrite list_find_insert_first; [done|done|done|].
        intros j y Hlt Hj. apply Hmiss with j; [lia|done].
      * intros j x Hj. destruct (decide (j = idx)) as [->|Hj']; [|by eapply Hmiss].
        simplify_eq. congruence.
    + unfold cached_contents. subst hs'. rewrite list_find_insert_other; [done|..].
      * intros y Hy. simplify_eq. congruence.
      * simpl. congruence.
Qed.

(** ** [memcpy] *)

Lemma memcpy_Some dst dofs src sofs n r :
  memcpy dst dofs src sofs n = Some r ↔
  (0 <= n ∧ 0 <= dofs ∧ 0 <= sofs
   ∧ dofs + n <= Z.of_nat (length dst) ∧ sofs + n <= Z.of_nat (length src))
  ∧ r = take (Z.to_nat dofs) dst ++ take (Z.to_nat n) (drop (Z.to_nat sofs) src)
        ++ drop (Z.to_nat (dofs + n)) dst.
Proof.
  unfold memcpy. split.
  - destruct (_ && _) eqn:E; [|done]. intros [= <-].
    rewrite !andb_true_iff, !Z.leb_le in E. split; [lia | done].
  - intros [Hb ->].
    assert ((0 <=? n) && (0 <=? dofs) && (0 <=? sofs)
            && (dofs + n <=? Z.of_nat (length dst))
            && (sofs + n <=? Z.of_nat (length src)) = true) as ->; [|done].
    rewrite !andb_true_iff, !Z.leb_le. lia.
Qed.

Lemma memcpy_length dst dofs src sofs n r :
  memcpy dst dofs src sofs n = Some r → length r = length dst.
Proof.
  intros [Hb ->]%memcpy_Some.
  rewrite !length_app, !length_take, !length_drop. lia.
Qed.

(** A copy leaves the bytes of [dst] outside [[dofs, dofs + n)] alone. *)
Lemma memcpy_outside dst dofs src sofs n r (i : nat) :
  memcpy dst dofs src sofs n = Some r →
  ¬ (dofs <= Z.of_nat i < dofs + n) → r !! i = dst !! i.
Proof.
  intros [Hb ->]%memcpy_Some Hout.
  destruct (decide (Z.of_nat i < dofs)).
  - rewrite lookup_app_l by (rewrite length_take; lia).
    apply lookup_take_lt. lia.
  - rewrite lookup_app_r by (rewrite length_take; lia).
    rewrite lookup_app_r by (rewrite !length_take, length_drop; lia).
    rewrite lookup_drop. f_equal. rewrite !length_take, length_drop. lia.
Qed.

(** A copy over the whole of [dst] leaves the bytes copied. *)
Lemma memcpy_whole dst src n r :
  memcpy dst 0 src 0 n = Some r → n = Z.of_nat (length dst) →
  r = take (length dst) src.
Proof.
  intros [Hb ->]%memcpy_Some ->.
  replace (Z.to_nat (0 + Z.of_nat (length dst))) with (length dst) by lia.
  rewrite Nat2Z.id. change (Z.to_nat 0) with 0%nat.
  by rewrite drop_all, drop_0, app_nil_r.
Qed.

(** ** Copies out of a slot and into a slot *)

Lemma sector_contents_length st sec :
  cache_shape st → length (sector_contents st sec) = Z.to_nat BLOCK_SECTOR_SIZE.
Proof.
  intros (_ & _ & Hdata & Hdev). unfold sector_contents, cached_contents.
  destruct (list_find _ _) as [[k h]|] eqn:E; [|done].
  apply list_find_Some in E as (Hk & _). eauto.
Qed.

Lemma in_slot_test sofs n :
  0 <= sofs → sofs + n <= BLOCK_SECTOR_SIZE →
  (0 <=? sofs) && (sofs + n <=? BLOCK_SECTOR_SIZE) = true.
Proof. intros. apply andb_true_iff. split; by apply Z.leb_le. Qed.

Ltac in_slot := first [ done | lia | unfold BLOCK_SECTOR_SIZE in *; lia ].

Lemma memcpy_from_slot_in p h sofs buf bofs n :
  0 <= sofs → sofs + n <= BLOCK_SECTOR_SIZE →
  memcpy_from_slot p h sofs buf bofs n
  = lift_opt (memcpy buf bofs (bh_data h) sofs n).
Proof.
  intros Hlo Hhi. unfold memcpy_from_slot.
  destruct (Z.leb_spec 0 sofs); [|lia].
  destruct (Z.leb_spec (sofs + n) BLOCK_SECTOR_SIZE); [done|lia].
Qed.

Lemma memcpy_to_slot_in p h sofs buf bofs n :
  0 <= sofs → sofs + n <= BLOCK_SECTOR_SIZE →
  memcpy_to_slot p h sofs buf bofs n
  = lift_opt (memcpy (bh_data h) sofs buf bofs n).
Proof.
  intros Hlo Hhi. unfold memcpy_to_slot.
  destruct (Z.leb_spec 0 sofs); [|lia].
  destruct (Z.leb_spec (sofs + n) BLOCK_SECTOR_SIZE); [done|lia].
Qed.

(** A copy out of the cache changes nothing, and keeps the buffer's
    length. *)
Lemma memcpy_from_slot_Some p h sofs buf bofs n st r st' :
  memcpy_from_slot p h sofs buf bofs n st = Some (r, st') →
  st' = st ∧ length r = length buf.
Proof.
  unfold memcpy_from_slot. intros H. destruct (_ && _).
  - apply lift_opt_Some in H as [H ->]. split; [done|]. by eapply memcpy_length.
  - mbind H as hs st1 Hg. apply gets_Some in Hg as [-> ->].
    apply lift_opt_Some in H as [H ->]. split; [done|]. by eapply memcpy_length.
Qed.

Lemma length_with_p_buffer_cache a hs :
  length (with_p_buffer_cache a hs) = length hs.
Proof. unfold with_p_buffer_cache. apply length_imap. Qed.

(** A copy into the cache changes the slots' data and nothing else. *)
Lemma memcpy_to_slot_Some p h sofs buf bofs n st r st' :
  memcpy_to_slot p h sofs buf bofs n st = Some (r, st') →
  same_outside_cache st st' ∧ fs_device st' = fs_device st
  ∧ clock_hand st' = clock_hand st
  ∧ length (buffer_heads st') = length (buffer_heads st).
Proof.
  unfold memcpy_to_slot. intros H. destruct (_ && _).
  - apply lift_opt_Some in H as [H ->]. by unfold same_outside_cache.
  - mbind H as hs st1 Hg. apply gets_Some in Hg as [-> ->].
    mbind H as a st1 Ha. apply lift_opt_Some in Ha as [Ha ->].
    mon_inv. cbn. rewrite length_with_p_buffer_cache.
    by unfold same_outside_cache.
Qed.

(** ** The block that the slots are carved out of *)

Lemma drop_concat_same_length {A} (n : nat) (ls : list (list A)) (p : nat) :
  Forall (λ l, length l = n) ls → drop (n * p) (concat ls) = concat (drop p ls).
Proof.
  intros Hall. revert p. induction Hall as [|l ls Hl Hall IH]; intros p.
  - simpl. by rewrite !drop_nil.
  - destruct p as [|p]; [by rewrite Nat.mul_0_r|].
    replace (n * S p)%nat with (length l + n * p)%nat by lia.
    simpl. rewrite <- drop_drop, drop_app_length. apply IH.
Qed.

Lemma take_concat_same_length {A} (n : nat) (ls : list (list A)) (p : nat) :
  Forall (λ l, length l = n) ls → take (n * p) (concat ls) = concat (take p ls).
Proof.
  intros Hall. revert p. induction Hall as [|l ls Hl Hall IH]; intros p.
  - simpl. by rewrite !take_nil.
  - destruct p as [|p]; [by rewrite Nat.mul_0_r|].
    replace (n * S p)%nat with (length l + n * p)%nat by lia.
    simpl. by rewrite take_app_add, IH.
Qed.

Lemma length_concat_same_length {A} (n : nat) (ls : list (list A)) :
  Forall (λ l, length l = n) ls → length (concat ls) = (n * length ls)%nat.
Proof.
  induction 1 as [|l ls Hl Hall IH]; simpl; [lia|].
  rewrite length_app, IH. lia.
Qed.

Lemma concat_split_at {A} (ls : list (list A)) (p : nat) l :
  ls !! p = Some l →
  concat ls = concat (take p ls) ++ l ++ concat (drop (S p) ls).
Proof.
  intros Hp. rewrite <- (take_drop_middle ls p l Hp) at 1.
  by rewrite concat_app.
Qed.

Lemma slice_concat_same_length {A} (n : nat) (ls : list (list A)) (p : nat) l :
  Forall (λ l, length l = n) ls → ls !! p = Some l →
  take n (drop (n * p) (concat ls)) = l.
Proof.
  intros Hall Hp. rewrite drop_concat_same_length by done.
  rewrite (drop_S _ _ _ Hp). simpl.
  apply take_app_length'. symmetry. by apply (Forall_lookup_1 _ _ _ _ Hall Hp).
Qed.

Lemma slots_data_length (hs : list buffer_head) :
  (∀ i x, hs !! i = Some x → length (bh_data x) = Z.to_nat BLOCK_SECTOR_SIZE) →
  Forall (λ l, length l = Z.to_nat BLOCK_SECTOR_SIZE) (bh_data <$> hs).
Proof.
  intros Hdata. apply Forall_fmap, Forall_lookup. intros i h Hh. simpl. eauto.
Qed.

(** Inside a slot, a copy out of the whole block is the copy out of the
    slot's data. *)
Lemma memcpy_from_slot_block hs p h sofs buf bofs n :
  (∀ i x, hs !! i = Some x → length (bh_data x) = Z.to_nat BLOCK_SECTOR_SIZE) →
  hs !! p = Some h →
  0 <= sofs → sofs + n <= BLOCK_SECTOR_SIZE →
  memcpy buf bofs (p_buffer_cache hs) (BLOCK_SECTOR_SIZE * Z.of_nat p + sofs) n
  = memcpy buf bofs (bh_data h) sofs n.
Proof.
  intros Hall%slots_data_length Hp Hlo Hhi. unfold p_buffer_cache.
  assert (Hd : (bh_data <$> hs) !! p = Some (bh_data h)) by (by rewrite list_lookup_fmap, Hp).
  pose proof (Forall_lookup_1 _ _ _ _ Hall Hd) as Hlen. simpl in Hlen.
  pose proof (lookup_lt_Some _ _ _ Hd) as Hlt.
  pose proof (length_concat_same_length _ _ Hall) as Hlc.
  unfold memcpy. rewrite Hlc, Hlen. unfold BLOCK_SECTOR_SIZE in *.
  destruct (Z.leb_spec 0 n) as [Hn|Hn]; [|done]. cbn [andb].
  destruct (Z.leb_spec 0 bofs) as [Hb|Hb]; [|done]. cbn [andb].
  destruct (Z.leb_spec 0 sofs) as [_|?]; [|lia].
  destruct (Z.leb_spec 0 (512 * Z.of_nat p + sofs)) as [_|?]; [|lia]. cbn [andb].
  destruct (Z.leb_spec (bofs + n) (Z.of_nat (length buf))) as [Hbn|Hbn]; [|done]. cbn [andb].
  destruct (Z.leb_spec (sofs + n) (Z.of_nat (Z.to_nat 512))) as [_|?]; [|lia].
  destruct (Z.leb_spec (512 * Z.of_nat p + sofs + n)
              (Z.of_nat (Z.to_nat 512 * length (bh_data <$> hs)))) as [_|?]; [|lia].
  do 3 f_equal.
  replace (Z.to_nat (512 * Z.of_nat p + sofs))
    with (Z.to_nat 512 * p + Z.to_nat sofs)%nat by lia.
  rewrite <- drop_drop, drop_concat_same_length by done.
  rewrite (drop_S _ _ _ Hd). simpl.
  rewrite drop_app_le by lia. apply take_app_le. rewrite length_drop. lia.
Qed.

(** Inside a slot, a copy into the whole block changes the slot's data as
    the copy into them does, and no other slot. *)
Lemma memcpy_to_slot_block hs p h sofs buf bofs n a :
  (∀ i x, hs !! i = Some x → length (bh_data x) = Z.to_nat BLOCK_SECTOR_SIZE) →
  hs !! p = Some h →
  0 <= sofs → sofs + n <= BLOCK_SECTOR_SIZE →
  memcpy (p_buffer_cache hs) (BLOCK_SECTOR_SIZE * Z.of_nat p + sofs) buf bofs n = Some a →
  ∃ d, memcpy (bh_data h) sofs buf bofs n = Some d
    ∧ with_p_buffer_cache a hs
      = <[p := mk_buffer_head (bh_dirty h) (bh_valid h) (bh_sector h) (bh_clock_bit h) d]> hs.
Proof.
  intros Hall%slots_data_length Hp Hlo Hhi Hcpy. unfold p_buffer_cache in Hcpy.
  assert (Hd : (bh_data <$> hs) !! p = Some (bh_data h)) by (by rewrite list_lookup_fmap, Hp).
  pose proof (Forall_lookup_1 _ _ _ _ Hall Hd) as Hlen. simpl in Hlen.
  pose proof (lookup_lt_Some _ _ _ Hd) as Hlt.
  pose proof (length_concat_same_length _ _ Hall) as Hlc.
  apply memcpy_Some in Hcpy as [Hb ->]. rewrite Hlc in Hb.
  unfold BLOCK_SECTOR_SIZE in *.
  eexists. split.
  { apply memcpy_Some. split; [|done]. rewrite Hlen. lia. }
  set (mid := take (Z.to_nat n) (drop (Z.to_nat bofs) buf)).
  set (d := take (Z.to_nat sofs) (bh_data h) ++ mid ++ drop (Z.to_nat (sofs + n)) (bh_data h)).
  assert (Hlm : length mid = Z.to_nat n).
  { unfold mid. rewrite length_take, length_drop. lia. }
  assert (Hld : length d = Z.to_nat 512).
  { unfold d. rewrite !length_app, length_take, length_drop, Hlm. lia. }
  assert (Ha : take (Z.to_nat (512 * Z.of_nat p + sofs)) (concat (bh_data <$> hs)) ++ mid
               ++ drop (Z.to_nat (512 * Z.of_nat p + sofs + n)) (concat (bh_data <$> hs))
             = concat (<[p := d]> (bh_data <$> hs))).
  { rewrite (concat_split_at (<[p := d]> (bh_data <$> hs)) p d)
      by (by apply list_lookup_insert_eq).
    rewrite take_insert_ge, drop_insert_lt by lia.
    rewrite (concat_split_at (bh_data <$> hs) p (bh_data h) Hd).
    assert (HlA : length (concat (take p (bh_data <$> hs))) = (Z.to_nat 512 * p)%nat).
    { rewrite (length_concat_same_length (Z.to_nat 512)).
      - rewrite length_take. lia.
      - by apply Forall_take. }
    replace (Z.to_nat (512 * Z.of_nat p + sofs))
      with (length (concat (take p (bh_data <$> hs))) + Z.to_nat sofs)%nat by lia.
    rewrite take_app_add.
    replace (Z.to_nat (512 * Z.of_nat p + sofs + n))
      with (length (concat (take p (bh_data <$> hs))) + Z.to_nat (sofs + n))%nat by lia.
    rewrite drop_app_add.
    rewrite take_app_le by lia. rewrite drop_app_le by lia.
    unfold d. by rewrite <- !app_assoc. }
  rewrite Ha.
  assert (Hall' : Forall (λ l, length l = Z.to_nat 512) (<[p := d]> (bh_data <$> hs))).
  { by apply Forall_insert. }
  apply list_eq. intros i. unfold with_p_buffer_cache, BLOCK_SECTOR_SIZE.
  rewrite list_lookup_imap.
  destruct (decide (i = p)) as [->|Hne].
  - rewrite Hp, list_lookup_insert_eq by (by eapply lookup_lt_Some).
    cbn [fmap option_fmap option_map].
    rewrite (slice_concat_same_length _ _ p d Hall'); [done|].
    by apply list_lookup_insert_eq.
  - rewrite list_lookup_insert_ne by done.
    destruct (hs !! i) as [hi|] eqn:Hi; [|done].
    cbn [fmap option_fmap option_map].
    rewrite (slice_concat_same_length _ _ i (bh_data hi) Hall').
    + by destruct hi.
    + rewrite list_lookup_insert_ne by done. by rewrite list_lookup_fmap, Hi.
Qed.

Lemma concat_slices {A} (n k : nat) (a : list A) :
  concat ((λ i, take n (drop (n * i) a)) <$> seq 0 k) = take (n * k) a.
Proof.
  induction k as [|k IH]; [by rewrite Nat.mul_0_r|].
  rewrite seq_S, fmap_app, concat_app, IH. simpl. rewrite app_nil_r.
  rewrite take_take_drop. f_equal. lia.
Qed.

(** The slots that [bc_init] sets up hold the block it allocated. *)
Lemma p_buffer_cache_bc_init arena :
  length arena = Z.to_nat (BLOCK_SECTOR_SIZE * BUFFER_CACHE_ENTRY_NB) →
  p_buffer_cache (bc_init_heads arena) = arena.
Proof.
  intros Hlen. unfold p_buffer_cache, bc_init_heads.
  rewrite <- list_fmap_compose.
  etrans; [apply (concat_slices (Z.to_nat BLOCK_SECTOR_SIZE)
                    (Z.to_nat BUFFER_CACHE_ENTRY_NB) arena)|].
  apply take_ge. rewrite Hlen. unfold BLOCK_SECTOR_SIZE, BUFFER_CACHE_ENTRY_NB. lia.
Qed.

(** A copy that stays inside what a sector holds stays inside a slot. *)
Lemma memcpy_from_sector_in st sec buf bofs sofs n r :
  cache_shape st → memcpy buf bofs (sector_contents st sec) sofs n = Some r →
  0 <= sofs ∧ sofs + n <= BLOCK_SECTOR_SIZE.
Proof.
  intros Hs [Hb _]%memcpy_Some. rewrite sector_contents_length in Hb by done.
  unfold BLOCK_SECTOR_SIZE in *. lia.
Qed.

Lemma memcpy_to_sector_in st sec buf bofs sofs n r :
  cache_shape st → memcpy (sector_contents st sec) sofs buf bofs n = Some r →
  0 <= sofs ∧ sofs + n <= BLOCK_SECTOR_SIZE.
Proof.
  intros Hs [Hb _]%memcpy_Some. rewrite sector_contents_length in Hb by done.
  unfold BLOCK_SECTOR_SIZE in *. lia.
Qed.


(** ** [bc_lookup] *)

Lemma bc_lookup_Some sec st p :
  bc_lookup sec st = Some p ↔
  ∃ h, list_find (λ h, bh_sector h = sec) (buffer_heads st) = Some (p, h).
Proof.
  unfold bc_lookup. destruct (list_find _ _) as [[k x]|]; simpl; split.
  - intros [= <-]. eauto.
  - intros (h & [= <- <-]). done.
  - done.
  - by intros (h & ?).
Qed.

Lemma bc_lookup_None sec st :
  bc_lookup sec st = None ↔
  ∀ i h, buffer_heads st !! i = Some h → bh_sector h ≠ sec.
Proof.
  unfold bc_lookup. rewrite fmap_None, list_find_None, Forall_lookup. done.
Qed.

Lemma sector_contents_miss sec st :
  bc_lookup sec st = None → sector_contents st sec = fs_device st sec.
Proof.
  intros H. apply cached_contents_uncached. by apply bc_lookup_None.
Qed.

(** The slot a missing sector is faulted into: what [bc_read] and
    [bc_write] do before the copy. *)
Lemma fault_in_device sec st idx st' :
  bc_lookup sec st = None → bc_select_victim st = Some (idx, st') →
  fs_device st' sec = fs_device st sec
  ∧ (idx < length (buffer_heads st'))%nat
  ∧ (∀ j x, j ≠ idx → buffer_heads st' !! j = Some x → bh_sector x ≠ sec)
  ∧ (∀ j x, (j < idx)%nat → buffer_heads st' !! j = Some x → bh_sector x ≠ sec).
Proof.
  intros Hmiss Hv. rewrite bc_lookup_None in Hmiss.
  apply bc_select_victim_spec in Hv as (h & Hh & Hsame & Hdev & _ & _).
  assert (Hothers : ∀ j x, j ≠ idx → buffer_heads st' !! j = Some x → bh_sector x ≠ sec).
  { intros j x Hj Hx.
    destruct (Forall2_lookup_r _ _ _ _ _ Hsame Hx) as (y & Hy & (_ & _ & Hs & _)).
    rewrite list_lookup_insert_ne in Hy by done. rewrite <- Hs. by eapply Hmiss. }
  split_and!.
  - rewrite Hdev. destruct (bh_dirty h); [|done].
    rewrite fn_lookup_insert_ne; [done|]. by eapply Hmiss.
  - apply Forall2_length in Hsame. rewrite length_insert in Hsame.
    rewrite <- Hsame. by eapply lookup_lt_Some.
  - done.
  - intros j x Hlt. apply Hothers. lia.
Qed.

(** ** [bc_read] *)

(** [bc_read] copies out of what the sector holds. *)
Lemma bc_read_value sec buf bofs chunk sofs st b buf' st' :
  bc_read sec buf bofs chunk sofs st = Some ((b, buf'), st') →
  0 <= sofs → sofs + chunk <= BLOCK_SECTOR_SIZE →
  b = true
  ∧ memcpy buf bofs (sector_contents st sec) sofs chunk = Some buf'
  ∧ same_outside_cache st st'.
Proof.
  unfold bc_read. intros H Hlo Hhi.
  mbind H as plk st0 Hl. apply gets_Some in Hl as [-> ->].
  mbind H as p st1 Hp. mbind H as h st1' Hh. apply head_at_Some in Hh as [Hh ->].
  mbind H as buf1 st1' Hcpy. rewrite memcpy_from_slot_in in Hcpy by done.
  mon_inv. simpl.
  split; [done|].
  destruct (bc_lookup sec st) as [p0|] eqn:Hlk.
  - mon_inv. apply bc_lookup_Some in Hlk as (h0 & Hfind).
    unfold sector_contents, cached_contents. rewrite Hfind.
    apply list_find_Some in Hfind as (Hp0 & _). simplify_eq.
    split; [done|]. by unfold same_outside_cache.
  - mbind Hp as idx st2 Hv. mbind Hp as h2 st2' Hh2.
    apply head_at_Some in Hh2 as [Hh2 ->]. mon_inv. simpl in *.
    destruct (fault_in_device _ _ _ _ Hlk Hv) as (Hdev & Hlen & _).
    rewrite list_lookup_insert_eq in Hh by done. simplify_eq. simpl in *.
    rewrite sector_contents_miss by done. rewrite <- Hdev. split; [done|].
    apply bc_select_victim_spec in Hv as (_ & _ & _ & _ & (?&?&?&?&?) & _).
    by unfold same_outside_cache.
Qed.

(** Whatever the copy, [bc_read] reports success, keeps the buffer's
    length and changes nothing outside the cache and the device. *)
Lemma bc_read_outside sec buf bofs chunk sofs st b buf' st' :
  bc_read sec buf bofs chunk sofs st = Some ((b, buf'), st') →
  b = true ∧ length buf' = length buf ∧ same_outside_cache st st'.
Proof.
  unfold bc_read. intros H.
  mbind H as plk st0 Hl. apply gets_Some in Hl as [-> ->].
  mbind H as p st1 Hp. mbind H as h st1' Hh. apply head_at_Some in Hh as [Hh ->].
  mbind H as buf1 st1' Hcpy. apply memcpy_from_slot_Some in Hcpy as [-> Hlen].
  mon_inv. simpl.
  split; [done|]. split; [done|].
  destruct (bc_lookup sec st) as [p0|] eqn:Hlk.
  - mon_inv. by unfold same_outside_cache.
  - mbind Hp as idx st2 Hv. mbind Hp as h2 st2' Hh2.
    apply head_at_Some in Hh2 as [Hh2 ->]. mon_inv. simpl in *.
    apply bc_select_victim_spec in Hv as (_ & _ & _ & _ & (?&?&?&?&?) & _).
    by unfold same_outside_cache.
Qed.

(** [bc_read] returns, on a cache of the right shape, whenever the copy
    stays inside the buffer and the sector. *)
Lemma bc_read_returns sec buf bofs chunk sofs st buf' :
  cache_shape st →
  memcpy buf bofs (sector_contents st sec) sofs chunk = Some buf' →
  ∃ st', bc_read sec buf bofs chunk sofs st = Some ((true, buf'), st').
Proof.
  intros Hshape Hcpy.
  destruct (memcpy_from_sector_in _ _ _ _ _ _ _ Hshape Hcpy) as [Hlo Hhi].
  destruct Hshape as (Hlen & Hhand & Hdata & Hdev). unfold bc_read.
  unfold bind at 1, gets.
  destruct (bc_lookup sec st) as [p0|] eqn:Hlk.
  - apply bc_lookup_Some in Hlk as (h0 & Hfind).
    unfold sector_contents, cached_contents in Hcpy. rewrite Hfind in Hcpy.
    apply list_find_Some in Hfind as (Hp0 & _).
    unfold memcpy_from_slot. rewrite in_slot_test by done.
    unfold bind, ret, head_at, lift_opt, set_head, modify. rewrite Hp0, Hcpy. eauto.
  - destruct (bc_select_victim_returns st Hlen Hhand) as (idx & st2 & Hv).
    destruct (fault_in_device _ _ _ _ Hlk Hv) as (Hdev' & Hlen' & _).
    rewrite sector_contents_miss in Hcpy by done.
    destruct (lookup_lt_is_Some_2 _ _ Hlen') as [h2 Hh2].
    unfold bind at 1. rewrite (bind_eq _ _ _ _ _ Hv).
    unfold memcpy_from_slot. rewrite in_slot_test by done.
    unfold bind, ret, head_at, lift_opt, set_head, modify, block_read, gets. simpl.
    rewrite Hh2. simpl. rewrite list_lookup_insert_eq by done. simpl.
    rewrite Hdev', Hcpy. eauto.
Qed.

(** [bc_read] keeps the cache in shape and coherent, and changes the
    contents of no sector. *)
Lemma bc_read_preserves sec buf bofs chunk sofs st r st' :
  bc_read sec buf bofs chunk sofs st = Some (r, st') →
  cache_shape st → cache_coherent st →
  cache_shape st' ∧ cache_coherent st'
  ∧ (∀ s, s ≠ NO_SECTOR → sector_contents st' s = sector_contents st s).
Proof.
  unfold bc_read. intros H (Hlen & Hhand & Hdata & Hdev) Hco.
  mbind H as plk st0 Hl. apply gets_Some in Hl as [-> ->].
  mbind H as p st1 Hp. mbind H as h st1' Hh. apply head_at_Some in Hh as [Hh ->].
  mbind H as buf1 st1' Hcpy. apply memcpy_from_slot_Some in Hcpy as [-> _].
  mon_inv. simpl.
  assert (Hclk : heads_same (buffer_heads st1)
                   (<[p := bh_with_clock_bit true h]> (buffer_heads st1))).
  { eapply heads_same_insert; [done|]. by unfold bh_same. }
  assert (Hfinal : cache_shape st1 → cache_coherent st1 →
    cache_shape (with_buffer_heads (<[p := bh_with_clock_bit true h]> (buffer_heads st1)) st1)
    ∧ cache_coherent (with_buffer_heads (<[p := bh_with_clock_bit true h]> (buffer_heads st1)) st1)
    ∧ ∀ s, sector_contents (with_buffer_heads (<[p := bh_with_clock_bit true h]> (buffer_heads st1)) st1) s
           = sector_contents st1 s).
  { intros (Hlen1 & Hhand1 & Hdata1 & Hdev1) Hco1. split_and!.
    - unfold cache_shape. simpl. rewrite length_insert.
      split; [done|]. split; [done|]. split; [|done].
      intros i x Hx. destruct (decide (p = i)) as [->|].
      + rewrite list_lookup_insert_eq in Hx by (by eapply lookup_lt_Some).
        simplify_eq. simpl. eauto.
      + rewrite list_lookup_insert_ne in Hx by done. eauto.
    - unfold cache_coherent. simpl. by eapply heads_same_coherent.
    - intros s. unfold sector_contents. simpl. by apply heads_same_contents. }
  destruct (bc_lookup sec st) as [p0|] eqn:Hlk.
  - mon_inv. destruct Hfinal as (? & ? & ?); [done|done|]. eauto.
  - mbind Hp as idx0 st2 Hv. mbind Hp as h2 st2' Hh2.
    apply head_at_Some in Hh2 as [Hh2 ->]. mon_inv. simpl in *.
    destruct (fault_in_device _ _ _ _ Hlk Hv) as (Hdev' & Hlen' & Hothers & _).
    apply bc_select_victim_spec in Hv as (h0 & Hh0 & Hsame & Hdev2 & Hout & Hhand2).
    pose proof (evict_coherent _ _ _ _ Hco Hh0) as [Hco1 Hcont1].
    rewrite <- Hdev2 in Hco1, Hcont1.
    pose proof (heads_same_coherent _ _ _ Hsame Hco1) as Hco2.
    pose proof (Forall2_lookup_r _ _ _ _ _ Hsame Hh2) as (e & He & (_ & _ & Hes & Hed)).
    rewrite list_lookup_insert_eq in He by (by eapply lookup_lt_Some).
    simplify_eq. simpl in *.
    pose proof (load_coherent _ _ idx0 h2 sec (bh_clock_bit h2) true Hco2 Hh2
                  (eq_sym Hes) Hothers) as [Hco3 Hcont3].
    destruct Hfinal as (Hs4 & Hc4 & Hcont4).
    + unfold cache_shape. simpl. rewrite length_insert.
      pose proof (Forall2_length _ _ _ Hsame) as Hl2. rewrite length_insert in Hl2.
      split; [lia|]. split; [by auto|]. split.
      * intros i x Hx. destruct (decide (idx0 = i)) as [->|].
        -- rewrite list_lookup_insert_eq in Hx by done. simplify_eq. simpl.
           rewrite Hdev2. destruct (bh_dirty h0).
           ++ destruct (decide (bh_sector h0 = sec)) as [->|].
              ** rewrite fn_lookup_insert. eauto.
              ** rewrite fn_lookup_insert_ne by done. eauto.
           ++ eauto.
        -- rewrite list_lookup_insert_ne in Hx by done.
           destruct (Forall2_lookup_r _ _ _ _ _ Hsame Hx) as (y & Hy & (_ & _ & _ & Hyd)).
           rewrite list_lookup_insert_ne in Hy by done. rewrite <- Hyd. eauto.
      * intros s. rewrite Hdev2. destruct (bh_dirty h0); [|done].
        destruct (decide (bh_sector h0 = s)) as [->|].
        -- rewrite fn_lookup_insert. eauto.
        -- by rewrite fn_lookup_insert_ne.
    + done.
    + split_and!; [done|done|].
      intros s Hs. rewrite Hcont4. unfold sector_contents. simpl.
      rewrite Hcont3 by done.
      rewrite (heads_same_contents _ _ _ _ Hsame). by apply Hcont1.
Qed.


(** ** [bc_write] *)

(** After [bc_write] the sector is cached, and holds what it held with the
    chunk copied over it. *)
Lemma bc_write_contents sec buf bofs chunk sofs st b st' :
  bc_write sec buf bofs chunk sofs st = Some (b, st') →
  0 <= sofs → sofs + chunk <= BLOCK_SECTOR_SIZE →
  b = true
  ∧ memcpy (sector_contents st sec) sofs buf bofs chunk = Some (sector_contents st' sec)
  ∧ (∃ p h, bc_lookup sec st' = Some p ∧ buffer_heads st' !! p = Some h
            ∧ bh_data h = sector_contents st' sec)
  ∧ same_outside_cache st st'.
Proof.
  unfold bc_write. intros H Hlo Hhi.
  mbind H as plk st0 Hl. apply gets_Some in Hl as [-> ->].
  mbind H as p st1 Hp. mbind H as h st1' Hh. apply head_at_Some in Hh as [Hh ->].
  mbind H as data' st1' Hcpy. rewrite memcpy_to_slot_in in Hcpy by done.
  apply lift_opt_Some in Hcpy as [Hcpy ->].
  mon_inv. split; [done|].
  assert (Hlen : (p < length (buffer_heads st1))%nat) by (by eapply lookup_lt_Some).
  assert (Hfind : (∀ j y, (j < p)%nat → buffer_heads st1 !! j = Some y → bh_sector y ≠ sec) →
    list_find (λ h, bh_sector h = sec)
      (<[p := mk_buffer_head true true sec true data']> (buffer_heads st1))
    = Some (p, mk_buffer_head true true sec true data')).
  { intros Hbefore. by apply list_find_insert_first. }
  destruct (bc_lookup sec st) as [p0|] eqn:Hlk.
  - mon_inv. apply bc_lookup_Some in Hlk as (h0 & Hf0).
    pose proof Hf0 as (Hp0 & _ & Hbefore)%list_find_Some. simplify_eq.
    unfold sector_contents, cached_contents, bc_lookup. simpl.
    rewrite Hfind by (intros j y ??; by eapply Hbefore). rewrite Hf0.
    simpl. split; [done|]. split; [|by unfold same_outside_cache].
    eexists _, _. split; [done|].
    split; [by apply list_lookup_insert_eq | done].
  - mbind Hp as idx st2 Hv. mbind Hp as h2 st2' Hh2.
    apply head_at_Some in Hh2 as [Hh2 ->]. mon_inv. simpl in *.
    destruct (fault_in_device _ _ _ _ Hlk Hv) as (Hdev & Hlen2 & _ & Hbefore).
    rewrite list_lookup_insert_eq in Hh by done. simplify_eq. simpl in *.
    rewrite length_insert in Hlen. rewrite list_insert_insert_eq in *.
    assert (Hfind2 : list_find (λ h, bh_sector h = sec)
      (<[idx := mk_buffer_head true true sec true data']> (buffer_heads st2))
      = Some (idx, mk_buffer_head true true sec true data')).
    { by apply list_find_insert_first. }
    rewrite sector_contents_miss by done. rewrite <- Hdev.
    unfold sector_contents, cached_contents, bc_lookup. simpl. rewrite Hfind2. simpl.
    split; [done|]. split.
    + eexists _, _. split; [done|].
      split; [by apply list_lookup_insert_eq | done].
    + apply bc_select_victim_spec in Hv as (_ & _ & _ & _ & (?&?&?&?&?) & _).
      by unfold same_outside_cache.
Qed.

(** [bc_write] returns, on a cache of the right shape, whenever the copy
    stays inside the buffer and the sector. *)
Lemma bc_write_returns sec buf bofs chunk sofs st data' :
  cache_shape st →
  memcpy (sector_contents st sec) sofs buf bofs chunk = Some data' →
  ∃ st', bc_write sec buf bofs chunk sofs st = Some (true, st').
Proof.
  intros Hshape Hcpy.
  destruct (memcpy_to_sector_in _ _ _ _ _ _ _ Hshape Hcpy) as [Hlo Hhi].
  destruct Hshape as (Hlen & Hhand & Hdata & Hdev). unfold bc_write.
  unfold bind at 1, gets.
  destruct (bc_lookup sec st) as [p0|] eqn:Hlk.
  - apply bc_lookup_Some in Hlk as (h0 & Hfind).
    unfold sector_contents, cached_contents in Hcpy. rewrite Hfind in Hcpy.
    apply list_find_Some in Hfind as (Hp0 & _).
    unfold memcpy_to_slot. rewrite in_slot_test by done.
    unfold bind, ret, head_at, lift_opt, set_head, modify. rewrite Hp0, Hcpy. eauto.
  - destruct (bc_select_victim_returns st Hlen Hhand) as (idx & st2 & Hv).
    destruct (fault_in_device _ _ _ _ Hlk Hv) as (Hdev' & Hlen' & _).
    rewrite sector_contents_miss in Hcpy by done.
    destruct (lookup_lt_is_Some_2 _ _ Hlen') as [h2 Hh2].
    unfold bind at 1. rewrite (bind_eq _ _ _ _ _ Hv).
    unfold memcpy_to_slot. rewrite in_slot_test by done.
    unfold bind, ret, head_at, lift_opt, set_head, modify, block_read, gets. simpl.
    rewrite Hh2. simpl. rewrite list_lookup_insert_eq by done. simpl.
    rewrite Hdev', Hcpy. eauto.
Qed.

(** Whatever the copy, [bc_write] reports success and changes nothing
    outside the cache and the device. *)
Lemma bc_write_outside sec buf bofs chunk sofs st b st' :
  bc_write sec buf bofs chunk sofs st = Some (b, st') →
  b = true ∧ same_outside_cache st st'.
Proof.
  unfold bc_write. intros H.
  mbind H as plk st0 Hl. apply gets_Some in Hl as [-> ->].
  mbind H as p st1 Hp. mbind H as h st1' Hh. apply head_at_Some in Hh as [Hh ->].
  mbind H as data' st2 Hcpy.
  apply memcpy_to_slot_Some in Hcpy as ((?&?&?&?&?) & _).
  mon_inv. split; [done|].
  destruct (bc_lookup sec st) as [p0|] eqn:Hlk.
  - mon_inv. by unfold same_outside_cache.
  - mbind Hp as idx st3 Hv. mbind Hp as h2 st3' Hh2.
    apply head_at_Some in Hh2 as [Hh2 ->]. mon_inv. simpl in *.
    apply bc_select_victim_spec in Hv as (_ & _ & _ & _ & (?&?&?&?&?) & _).
    unfold same_outside_cache. simpl. split_and!; congruence.
Qed.

Lemma fs_formatted_shape nfree : cache_shape (fs_formatted nfree).
Proof.
  unfold cache_shape. split; [reflexivity|]. split; [done|]. split.
  - intros i h Hh. unfold fs_formatted in Hh. cbn [buffer_heads] in Hh.
    apply lookup_replicate in Hh as [-> _]. reflexivity.
  - intros sec. unfold fs_formatted. cbn [fs_device].
    destruct (decide (ROOT_DIR_SECTOR = sec)) as [<-|].
    + by rewrite fn_lookup_insert.
    + by rewrite fn_lookup_insert_ne.
Qed.

Lemma fs_formatted_coherent nfree : cache_coherent (fs_formatted nfree).
Proof.
  unfold cache_coherent, coherent, fs_formatted. cbn [buffer_heads fs_device]. split.
  - intros i j hi hj Hi Hj _ Hne. apply lookup_replicate in Hi as [-> _]. done.
  - intros i h Hi _ Hne. apply lookup_replicate in Hi as [-> _]. done.
Qed.

(** C7.  A [bc_write] of fewer than [BLOCK_SECTOR_SIZE] bytes to a sector
    that is not in the cache reads the sector from the device into the
    slot before the copy: afterwards the sector is cached, and every byte
    of the cached sector outside [[sector_ofs, sector_ofs + chunk_size)]
    is the byte the device held before the call. *)
Theorem bc_write_partial_keeps_rest st sector_idx buffer buffer_ofs chunk_size sector_ofs :
  cache_shape st →
  bc_lookup sector_idx st = None →
  0 <= chunk_size < BLOCK_SECTOR_SIZE →
  0 <= sector_ofs → sector_ofs + chunk_size <= BLOCK_SECTOR_SIZE →
  0 <= buffer_ofs → buffer_ofs + chunk_size <= Z.of_nat (length buffer) →
  ∃ st' p h,
    bc_write sector_idx buffer buffer_ofs chunk_size sector_ofs st = Some (true, st')
    ∧ bc_lookup sector_idx st' = Some p
    ∧ buffer_heads st' !! p = Some h
    ∧ ∀ i : nat, Z.of_nat i < BLOCK_SECTOR_SIZE →
        ¬ (sector_ofs <= Z.of_nat i < sector_ofs + chunk_size) →
        bh_data h !! i = fs_device st sector_idx !! i.
Proof.
  intros Hshape Hmiss Hchunk Hofs Hend Hbofs Hbend.
  pose proof Hshape as (_ & _ & _ & Hdev).
  destruct (memcpy (sector_contents st sector_idx) sector_ofs buffer buffer_ofs chunk_size)
    as [data'|] eqn:Hcpy.
  - destruct (bc_write_returns _ _ _ _ _ _ _ Hshape Hcpy) as (st' & Hw).
    pose proof (bc_write_contents _ _ _ _ _ _ _ _ Hw ltac:(in_slot) ltac:(in_slot)) as (_ & Hcpy' & (p & h & Hp & Hh & Hd) & _).
    exists st', p, h. split_and!; try done.
    intros i Hi Hout. rewrite Hd.
    rewrite (memcpy_outside _ _ _ _ _ _ i Hcpy' Hout).
    by rewrite sector_contents_miss.
  - exfalso. rewrite sector_contents_miss in Hcpy by done.
    unfold memcpy in Hcpy. rewrite Hdev in Hcpy.
    unfold BLOCK_SECTOR_SIZE in *.
    destruct (_ && _) eqn:E; [done|].
    rewrite !andb_false_iff, !Z.leb_gt in E. lia.
Qed.

Lemma bc_write_partial_keeps_rest_witness :
  ∃ st' p h,
    bc_write 5 [7; 8; 9] 1 2 10 (fs_formatted 8) = Some (true, st')
    ∧ bc_lookup 5 st' = Some p
    ∧ buffer_heads st' !! p = Some h
    ∧ ∀ i : nat, Z.of_nat i < BLOCK_SECTOR_SIZE →
        ¬ (10 <= Z.of_nat i < 10 + 2) →
        bh_data h !! i = fs_device (fs_formatted 8) 5 !! i.
Proof.
  apply (bc_write_partial_keeps_rest (fs_formatted 8) 5 [7; 8; 9] 1 2 10).
  - apply fs_formatted_shape.
  - reflexivity.
  - unfold BLOCK_SECTOR_SIZE. lia.
  - lia.
  - unfold BLOCK_SECTOR_SIZE. lia.
  - lia.
  - simpl. lia.
Defined.


Lemma same_cache_shape st st' : same_cache st st' → cache_shape st → cache_shape st'.
Proof. unfold cache_shape. intros (-> & -> & ->). done. Qed.

Lemma same_cache_coherent st st' :
  same_cache st st' → cache_coherent st → cache_coherent st'.
Proof. unfold cache_coherent. intros (-> & -> & _). done. Qed.

Lemma same_cache_contents st st' sec :
  same_cache st st' → sector_contents st' sec = sector_contents st sec.
Proof. unfold sector_contents. intros (-> & -> & _). done. Qed.

(** ** [malloc] *)

Lemma malloc_spec st :
  ∃ b st', malloc st = Some (b, st') ∧ same_cache st st'
    ∧ free_map st' = free_map st ∧ open_inodes st' = open_inodes st
    ∧ dir_table st' = dir_table st ∧ cur_dir st' = cur_dir st.
Proof.
  unfold malloc. destruct (malloc_oracle st) as [|b rest]; eexists _, _;
    (split; [done|]); by unfold same_cache.
Qed.

Lemma malloc_inv st b st' :
  malloc st = Some (b, st') →
  same_cache st st' ∧ free_map st' = free_map st ∧ open_inodes st' = open_inodes st
  ∧ dir_table st' = dir_table st ∧ cur_dir st' = cur_dir st.
Proof.
  intros H. destruct (malloc_spec st) as (b' & st1 & H' & ?).
  rewrite H in H'. by simplify_eq.
Qed.

(** ** Reading a sector *)

Lemma read_block_value sec st blk st' :
  read_block sec st = Some (blk, st') →
  memcpy zero_block 0 (sector_contents st sec) 0 BLOCK_SECTOR_SIZE = Some blk
  ∧ same_outside_cache st st'.
Proof.
  unfold read_block. intros H. mbind H as r st1 Hr. destruct r as [b buf'].
  mon_inv. simpl. by apply bc_read_value in Hr as (_ & ? & ?); [|in_slot|in_slot].
Qed.

Lemma read_block_returns sec st :
  cache_shape st →
  ∃ st', read_block sec st
         = Some (take (Z.to_nat BLOCK_SECTOR_SIZE) (sector_contents st sec), st').
Proof.
  intros Hshape. unfold read_block.
  destruct (memcpy zero_block 0 (sector_contents st sec) 0 BLOCK_SECTOR_SIZE) as [blk|] eqn:Hcpy.
  - destruct (bc_read_returns _ _ _ _ _ _ _ Hshape Hcpy) as (st' & Hr).
    exists st'. rewrite (bind_eq _ _ _ _ _ Hr). unfold ret. simpl.
    by rewrite (memcpy_whole _ _ _ _ Hcpy).
  - exfalso. unfold memcpy in Hcpy.
    rewrite sector_contents_length in Hcpy by done. done.
Qed.

Lemma read_block_preserves sec st blk st' :
  read_block sec st = Some (blk, st') →
  cache_shape st → cache_coherent st →
  cache_shape st' ∧ cache_coherent st'
  ∧ (∀ s, s ≠ NO_SECTOR → sector_contents st' s = sector_contents st s).
Proof.
  unfold read_block. intros H. mbind H as r st1 Hr. mon_inv.
  by eapply bc_read_preserves.
Qed.

(** ** Writes to an inode that denies them *)

(** C3.  While [deny_write_cnt > 0], [inode_write_at] returns 0, and
    what every sector holds (as the file system reads it, through the
    cache) is what it held before: no data sector and no inode header is
    altered, so no file changes its length; the free map and the in-memory
    inodes are as before too. *)
Theorem inode_write_at_denied st p k i buffer size offset :
  cache_shape st → cache_coherent st →
  find_inode p (open_inodes st) = Some (k, i) →
  0 < deny_write_cnt i →
  ∃ st',
    inode_write_at p buffer size offset st = Some (0, st')
    ∧ (∀ s, s ≠ NO_SECTOR → sector_contents st' s = sector_contents st s)
    ∧ (∀ q, q ≠ NO_SECTOR → file_length st' q = file_length st q)
    ∧ free_map st' = free_map st
    ∧ open_inodes st' = open_inodes st
    ∧ dir_table st' = dir_table st.
Proof.
  intros Hshape Hco Hfind Hdeny.
  assert (Hlen : ∀ st', (∀ s, s ≠ NO_SECTOR → sector_contents st' s = sector_contents st s) →
            ∀ q, q ≠ NO_SECTOR → file_length st' q = file_length st q).
  { intros st' H q Hq. unfold file_length. by rewrite H. }
  unfold inode_write_at.
  destruct (malloc_spec st) as (b & st1 & Hm & Hc1 & Hfm1 & Hoi1 & Hdt1 & _).
  rewrite (bind_eq _ _ _ _ _ Hm). destruct b; simpl.
  - pose proof (same_cache_shape _ _ Hc1 Hshape) as Hshape1.
    pose proof (same_cache_coherent _ _ Hc1 Hco) as Hco1.
    destruct (read_block_returns (sector i) st1 Hshape1) as (st2 & Hr).
    assert (Hg : get_disk_inode p st1
                 = Some (inode_disk_of_bytes
                           (take (Z.to_nat BLOCK_SECTOR_SIZE) (sector_contents st1 (sector i))), st2)).
    { unfold get_disk_inode, inode_deref.
      unfold bind at 1. unfold bind at 1. unfold gets. rewrite Hoi1, Hfind. simpl.
      by rewrite (bind_eq _ _ _ _ _ Hr). }
    rewrite (bind_eq _ _ _ _ _ Hg).
    pose proof (read_block_preserves _ _ _ _ Hr Hshape1 Hco1) as (_ & _ & Hcont).
    apply read_block_value in Hr as (_ & (Hfm2 & Hoi2 & _ & Hdt2 & _)).
    unfold inode_deref. unfold bind at 1. unfold bind at 1. unfold gets.
    rewrite Hoi2, Hoi1, Hfind. simpl.
    destruct (Z.eqb_spec (deny_write_cnt i) 0); [lia|]. simpl.
    eexists. split; [reflexivity|].
    assert (Hall : ∀ s, s ≠ NO_SECTOR → sector_contents st2 s = sector_contents st s).
    { intros s Hs. rewrite Hcont by done. by apply same_cache_contents. }
    split_and!; [done | by apply Hlen | congruence | congruence | congruence].
  - eexists. split; [reflexivity|].
    assert (Hall : ∀ s, s ≠ NO_SECTOR → sector_contents st1 s = sector_contents st s).
    { intros s _. by apply same_cache_contents. }
    split_and!; [done | by apply Hlen | done..].
Qed.


(** ** Words in byte buffers *)

Lemma byte_at_cons x l i : byte_at (x :: l) (S i) = byte_at l i.
Proof. done. Qed.

Lemma get_u32_skip4 b0 b1 b2 b3 l i :
  get_u32 (b0 :: b1 :: b2 :: b3 :: l) (4 + i) = get_u32 l i.
Proof. unfold get_u32. by rewrite <- !Nat.add_assoc. Qed.

Lemma get_u32_bytes_of_u32 x l : get_u32 (bytes_of_u32 x ++ l) 0 = to_u32 x.
Proof.
  unfold get_u32, bytes_of_u32, byte_at, to_u32. simpl.
  rewrite !Zmod_mod. Z.div_mod_to_equations. lia.
Qed.

Lemma get_u32_encode (ws : list Z) (i : nat) w rest :
  ws !! i = Some w →
  get_u32 (concat (bytes_of_u32 <$> ws) ++ rest) (4 * i) = to_u32 w.
Proof.
  revert i. induction ws as [|x ws IH]; intros i Hi; [done|].
  destruct i as [|i]; simpl in Hi.
  - simplify_eq. rewrite fmap_cons. simpl concat.
    apply (get_u32_bytes_of_u32 w (concat (bytes_of_u32 <$> ws) ++ rest)).
  - rewrite fmap_cons. simpl concat.
    replace (4 * S i)%nat with (4 + 4 * i)%nat by lia.
    simpl app. rewrite get_u32_skip4. by apply IH.
Qed.

Lemma byte_at_take l n i : (i < n)%nat → byte_at (take n l) i = byte_at l i.
Proof. intros. unfold byte_at. by rewrite lookup_take_lt. Qed.

Lemma get_u32_take l n i : (i + 4 <= n)%nat → get_u32 (take n l) i = get_u32 l i.
Proof. intros. unfold get_u32. rewrite !byte_at_take by lia. done. Qed.

Lemma disk_length_take l :
  disk_length (inode_disk_of_bytes (take (Z.to_nat BLOCK_SECTOR_SIZE) l))
  = disk_length (inode_disk_of_bytes l).
Proof.
  unfold inode_disk_of_bytes. cbn [disk_length].
  rewrite get_u32_take; [done|]. unfold BLOCK_SECTOR_SIZE. lia.
Qed.

Lemma disk_length_in_s32 l : in_s32 (disk_length (inode_disk_of_bytes l)).
Proof. apply to_s32_range. Qed.

Lemma direct_length_of_bytes l :
  length (direct_map_table (inode_disk_of_bytes l)) = Z.to_nat DIRECT_BLOCK_ENTRIES.
Proof. unfold inode_disk_of_bytes. cbn [direct_map_table]. by rewrite length_fmap, length_seq. Qed.

Lemma to_s32_to_u32 x : in_s32 x → to_s32 (to_u32 x) = x.
Proof.
  unfold in_s32, to_s32, to_u32. intros H.
  destruct (decide (0 <= x)).
  - rewrite (Z.mod_small x) by lia. rewrite Z.mod_small; lia.
  - replace (x mod 4294967296) with (x + 4294967296).
    + replace (x + 4294967296 + 2147483648) with (x + 2147483648 + 1 * 4294967296) by lia.
      rewrite Z.mod_add by lia. rewrite Z.mod_small; lia.
    + symmetry. replace x with (x + 4294967296 + (-1) * 4294967296) at 1 by lia.
      rewrite Z.mod_add by lia. rewrite Z.mod_small; lia.
Qed.

Lemma to_u32_idem x : to_u32 (to_u32 x) = to_u32 x.
Proof. unfold to_u32. by rewrite Zmod_mod. Qed.

Lemma length_encode_words (ws : list Z) :
  length (concat (bytes_of_u32 <$> ws)) = (4 * length ws)%nat.
Proof. induction ws as [|w ws IH]; [done|]. rewrite fmap_cons. simpl. lia. Qed.

(** The length field of an inode header written over a sector. *)
Lemma disk_length_written d old new :
  length (direct_map_table d) = Z.to_nat DIRECT_BLOCK_ENTRIES →
  in_s32 (disk_length d) →
  memcpy old 0 (bytes_of_inode_disk d) 0 BLOCK_SECTOR_SIZE = Some new →
  disk_length (inode_disk_of_bytes new) = disk_length d.
Proof.
  intros Hlen Hrange [_ ->]%memcpy_Some.
  change (Z.to_nat 0) with 0%nat. rewrite take_0, drop_0, app_nil_l.
  unfold inode_disk_of_bytes. cbn [disk_length].
  assert (Hl : length (bytes_of_inode_disk d) = 512%nat).
  { unfold bytes_of_inode_disk, inode_disk_words.
    rewrite length_encode_words, length_app, Hlen. done. }
  rewrite take_ge by (unfold BLOCK_SECTOR_SIZE; lia).
  unfold bytes_of_inode_disk.
  change 500%nat with (4 * 125)%nat.
  rewrite (get_u32_encode _ 125 (to_u32 (disk_length d))).
  - rewrite to_u32_idem. by apply to_s32_to_u32.
  - unfold inode_disk_words.
    rewrite lookup_app_r by (rewrite Hlen; unfold DIRECT_BLOCK_ENTRIES; lia).
    rewrite Hlen. reflexivity.
Qed.


(** ** Growth keeps the length field *)


Lemma same_header_refl d : same_header d d.
Proof. by unfold same_header. Qed.

Lemma same_header_trans d1 d2 d3 :
  same_header d1 d2 → same_header d2 d3 → same_header d1 d3.
Proof. unfold same_header. intros [??] [??]. split; congruence. Qed.

Lemma register_sector_header d new_sector loc st b d' st' :
  register_sector d new_sector loc st = Some ((b, d'), st') → same_header d d'.
Proof.
  unfold register_sector, same_header. intros H.
  destruct (directness loc); mon_cases; simpl; try done.
  split; [done|]. by rewrite length_insert.
Qed.

Lemma update_file_length_loop_header fuel d offset size st b d' st' :
  update_file_length_loop fuel d offset size st = Some ((b, d'), st') →
  same_header d d'.
Proof.
  revert d offset size st.
  induction fuel as [|fuel IH]; intros d offset size st H; simpl in H.
  - destruct (size <=? 0); mon_inv. apply same_header_refl.
  - destruct (size <=? 0); [mon_inv; apply same_header_refl|].
    destruct (_ <=? 0); [mon_inv; apply same_header_refl|].
    destruct (0 <? _).
    + mbind H as sec st1 H1. mbind H as u st2 H2. mbind H as w st3 H3. eauto.
    + mbind H as a st1 H1. destruct a as [sector_idx|]; [|mon_inv; apply same_header_refl].
      mbind H as r st2 H2. destruct r as [rb rd].
      apply register_sector_header in H2. simpl in H.
      destruct rb.
      * mbind H as w st3 H3. eapply same_header_trans; eauto.
      * mon_inv. done.
Qed.

Lemma inode_update_file_length_header d start_pos end_pos st b d' st' :
  inode_update_file_length d start_pos end_pos st = Some ((b, d'), st') →
  same_header d d'.
Proof.
  unfold inode_update_file_length. intros H.
  mbind H as u st1 H1. mbind H as z st2 H2. destruct z; simpl in H.
  - by eapply update_file_length_loop_header.
  - mon_inv. apply same_header_refl.
Qed.

(** ** Where [byte_to_sector] finds a sector *)

Lemma locate_byte_direct pos loc :
  directness (locate_byte pos loc) = NORMAL_DIRECT →
  index1 (locate_byte pos loc) = Z.quot pos BLOCK_SECTOR_SIZE.
Proof.
  unfold locate_byte. destruct (_ <? DIRECT_BLOCK_ENTRIES); [done|].
  destruct (_ <? _); [done|]. destruct (_ <? _); done.
Qed.

Lemma locate_byte_not_direct pos loc :
  directness (locate_byte pos loc) ≠ NORMAL_DIRECT →
  DIRECT_BLOCK_ENTRIES <= Z.quot pos BLOCK_SECTOR_SIZE.
Proof.
  unfold locate_byte.
  destruct (Z.ltb_spec (Z.quot pos BLOCK_SECTOR_SIZE) DIRECT_BLOCK_ENTRIES); [done|].
  done.
Qed.

(** A sector number other than 0 comes from a position inside the file,
    and not before its first sector. *)
Lemma byte_to_sector_nonzero d pos st sec st' :
  byte_to_sector d pos st = Some (sec, st') → sec ≠ 0 →
  pos < disk_length d ∧ 0 <= Z.quot pos BLOCK_SECTOR_SIZE.
Proof.
  unfold byte_to_sector. intros H Hsec.
  destruct (Z.ltb_spec pos (disk_length d)); [|by mon_inv].
  split; [done|].
  destruct (directness (locate_byte pos sec_loc_unset)) eqn:Hd.
  - apply locate_byte_direct in Hd. mon_inv.
    unfold direct_map_table_at in H.
    destruct (Z.leb_spec 0 (index1 (locate_byte pos sec_loc_unset))); [lia|done].
  - pose proof (locate_byte_not_direct pos sec_loc_unset) as Hq.
    rewrite Hd in Hq. unfold DIRECT_BLOCK_ENTRIES in Hq. specialize (Hq ltac:(done)). lia.
  - pose proof (locate_byte_not_direct pos sec_loc_unset) as Hq.
    rewrite Hd in Hq. unfold DIRECT_BLOCK_ENTRIES in Hq. specialize (Hq ltac:(done)). lia.
  - pose proof (locate_byte_not_direct pos sec_loc_unset) as Hq.
    rewrite Hd in Hq. unfold DIRECT_BLOCK_ENTRIES in Hq. specialize (Hq ltac:(done)). lia.
Qed.

(** ** The copy loop stays inside the file *)

Lemma to_s32_wrap x :
  2147483648 <= x < 6442450944 → to_s32 x = x - 4294967296.
Proof.
  unfold to_s32. intros H.
  replace (x + 2147483648) with (x - 2147483648 + 1 * 4294967296) by lia.
  rewrite Z_mod_plus_full, Z.mod_small; lia.
Qed.

Lemma quot_nonneg_bound a :
  0 <= Z.quot a 512 → -512 < a ∧ -512 < Z.rem a 512 < 512.
Proof.
  intros Hq. pose proof (Z.quot_rem' a 512) as E.
  pose proof (Z.rem_bound_abs a 512 ltac:(lia)) as Hr. lia.
Qed.

(** [bytes_written] is [offset] minus the offset the loop started at, which
    is more than [- BLOCK_SECTOR_SIZE] when a sector was written; it is
    negative once it has wrapped around. *)
Lemma write_loop_bound fuel d buffer size offset bytes_written st n st' :
  in_s32 (disk_length d) →
  write_loop fuel d buffer size offset bytes_written st = Some (n, st') →
  in_s32 bytes_written →
  (- 512 < offset →
   (0 <= bytes_written ∧ - 512 < offset - bytes_written)
   ∨ (bytes_written < 0 ∧ - 512 < offset - bytes_written - 4294967296)) →
  (0 <= bytes_written →
   n = bytes_written ∨ n < 0
   ∨ (bytes_written < n ∧ - 512 < offset
      ∧ offset + (n - bytes_written) <= disk_length d))
  ∧ (bytes_written < 0 → n < 0).
Proof.
  intros HL. revert size offset bytes_written st.
  induction fuel as [|fuel IH]; intros size offset bw st H Hbw Hinv; simpl in H.
  - destruct (size <=? 0); mon_inv. lia.
  - destruct (size <=? 0); [mon_inv; lia|].
    match type of H with (if ?c <=? 0 then _ else _) _ = _ =>
      set (chunk := c) in *; destruct (Z.leb_spec chunk 0) as [Hc|Hc] end;
      [mon_inv; lia|].
    mbind H as sec st1 Hsec.
    destruct (Z.eqb_spec sec 0) as [->|Hne]; [mon_inv; lia|].
    mbind H as w st2 Hw. clear Hw.
    apply byte_to_sector_nonzero in Hsec as [Hpos Hq]; [|done].
    unfold BLOCK_SECTOR_SIZE in *.
    apply quot_nonneg_bound in Hq as [Hoff Hrb].
    specialize (Hinv Hoff).
    set (r := Z.rem offset 512) in *. clearbody r.
    unfold in_s32 in HL, Hbw.
    assert (Hchunk : chunk <= to_s32 (disk_length d - offset)).
    { subst chunk.
      destruct (Z.ltb_spec (to_s32 (disk_length d - offset)) (to_s32 (512 - r)));
        match goal with |- context [if ?a <? ?b then _ else _] =>
          destruct (Z.ltb_spec a b) end; lia. }
    assert (Hleft : disk_length d - offset < 2147483648).
    { destruct (Z.lt_ge_cases (disk_length d - offset) 2147483648) as [|Hge]; [done|].
      rewrite to_s32_wrap in Hchunk by lia. lia. }
    rewrite (to_s32_id (disk_length d - offset)) in Hchunk by (unfold in_s32; lia).
    clearbody chunk.
    rewrite (to_s32_id (offset + chunk)) in H by (unfold in_s32; lia).
    destruct Hinv as [[Hnn Ho]|[Hneg Ho]].
    + destruct (Z.lt_ge_cases (bw + chunk) 2147483648) as [Hsmall|Hbig].
      * rewrite (to_s32_id (bw + chunk)) in H by (unfold in_s32; lia).
        apply IH in H; [lia|unfold in_s32; lia|lia].
      * rewrite (to_s32_wrap (bw + chunk)) in H by lia.
        apply IH in H; [lia|unfold in_s32; lia|lia].
    + rewrite (to_s32_id (bw + chunk)) in H by (unfold in_s32; lia).
      apply IH in H; [lia|unfold in_s32; lia|lia].
Qed.


(** ** In-memory inodes *)

Lemma inode_deref_Some p st i st' :
  inode_deref p st = Some (i, st') ↔
  (∃ k, find_inode p (open_inodes st) = Some (k, i)) ∧ st' = st.
Proof.
  unfold inode_deref. split.
  - intros H. mbind H as l st1 Hl. apply gets_Some in Hl as [-> ->].
    apply lift_opt_Some in H as [H ->]. split; [|done].
    destruct (find_inode p (open_inodes st)) as [[k x]|]; simplify_eq/=. eauto.
  - intros [[k Hk] ->]. unfold bind, gets, lift_opt. by rewrite Hk.
Qed.

Lemma inode_modify_list q f st r st' :
  inode_modify q f st = Some (r, st') →
  ∃ k i, find_inode q (open_inodes st) = Some (k, i)
         ∧ st' = with_open_inodes (<[k := f i]> (open_inodes st)) st.
Proof.
  unfold inode_modify, bind, gets, lift_opt, modify. intros H.
  destruct (find_inode q (open_inodes st)) as [[k i]|]; [|done].
  simplify_eq/=. eauto.
Qed.

Lemma find_inode_sector p l k i : find_inode p l = Some (k, i) → sector i = p.
Proof. unfold find_inode. by intros (_ & ? & _)%list_find_Some. Qed.

Lemma get_disk_inode_value p st d st' :
  get_disk_inode p st = Some (d, st') →
  disk_length d = file_length st p
  ∧ length (direct_map_table d) = Z.to_nat DIRECT_BLOCK_ENTRIES
  ∧ same_outside_cache st st'.
Proof.
  unfold get_disk_inode. intros H.
  mbind H as i st1 Hi. apply inode_deref_Some in Hi as [[k Hk] ->].
  apply find_inode_sector in Hk as Hs. rewrite Hs in H.
  mbind H as blk st2 Hr. mon_inv.
  apply read_block_value in Hr as [Hcpy Hout].
  apply memcpy_whole in Hcpy; [|done]. subst blk.
  split_and!; [|apply direct_length_of_bytes|done].
  unfold file_length. apply disk_length_take.
Qed.

(** ** The length of a file after a write *)

(** C4.  After an [inode_write_at] at [offset] that returns
    [bytes_written > 0], the length of the file is at least its previous
    length and at least [offset + bytes_written].  This is so at every
    offset at which the call returns, among them the negative offsets
    above [- BLOCK_SECTOR_SIZE], where the first copy starts in the slot
    before the one of the file's first sector. *)
Theorem inode_write_at_length st p buffer size offset bytes_written st' :
  inode_write_at p buffer size offset st = Some (bytes_written, st') →
  0 < bytes_written →
  file_length st p <= file_length st' p
  ∧ offset + bytes_written <= file_length st' p.
Proof.
  unfold inode_write_at. intros H Hpos.
  mbind H as ok st1 Hm. apply malloc_inv in Hm as (Hc1 & _).
  destruct ok; simpl in H; [|mon_inv; lia].
  mbind H as d0 st2 Hg. apply get_disk_inode_value in Hg as (Hlen0 & Hdir0 & _).
  unfold file_length in Hlen0. rewrite (same_cache_contents _ _ _ Hc1) in Hlen0.
  fold (file_length st p) in Hlen0.
  assert (Hr0 : in_s32 (disk_length d0)).
  { rewrite Hlen0. apply disk_length_in_s32. }
  mbind H as i st3 Hd.
  destruct (deny_write_cnt i =? 0); simpl in H; [|mon_inv; lia].
  mbind H as u st4 Hlock. mbind H as r st5 Hgrow.
  destruct r as [rb d1]. simpl in H. destruct rb; simpl in H; [|mon_inv; lia].
  mbind H as u2 st6 Hrel. mbind H as bw st7 Hloop.
  mbind H as i' st8 Hd'. mbind H as w st9 Hw.
  unfold ret in H. injection H as Hb Hs. subst bw st9.
  apply inode_deref_Some in Hd' as [[k' Hk'] ->].
  apply find_inode_sector in Hk'. rewrite Hk' in Hw.
  apply bc_write_contents in Hw as (_ & Hcpy & _); [|in_slot|in_slot].
  set (write_end := to_s32 (to_s32 (offset + size) - 1)) in *.
  assert (Hwe : in_s32 write_end) by apply to_s32_range.
  assert (Hd1 : same_header
            (if to_s32 (disk_length d0 - 1) <? write_end
             then with_disk_length (to_s32 (write_end + 1)) d0 else d0) d1).
  { destruct (_ <? write_end).
    - by eapply inode_update_file_length_header.
    - mon_inv. apply same_header_refl. }
  destruct Hd1 as [Hl1 Hdir1].
  assert (Hr1 : in_s32 (disk_length d1)).
  { rewrite Hl1. destruct (_ <? write_end); [apply to_s32_range | done]. }
  assert (Hfinal : file_length st' p = disk_length d1).
  { unfold file_length. eapply disk_length_written; [|done|done].
    rewrite Hdir1. by destruct (_ <? write_end). }
  pose proof (write_loop_bound _ _ _ _ _ _ _ _ _ Hr1 Hloop
                ltac:(unfold in_s32; lia) ltac:(lia)) as [Hb _].
  destruct (Hb ltac:(lia)) as [?|[?|(_ & Hoff & Hend)]]; [lia|lia|].
  rewrite Z.sub_0_r in Hend.
  rewrite Hfinal, <- Hlen0. split; [|lia].
  rewrite Hl1. destruct (Z.ltb_spec (to_s32 (disk_length d0 - 1)) write_end) as [Hlt|]; [|done].
  cbn [disk_length with_disk_length] in *.
  rewrite Hl1 in Hend. cbn [disk_length with_disk_length] in Hend.
  unfold in_s32 in *.
  destruct (decide (write_end = 2147483647)) as [Heq|Hne].
  - rewrite Heq in Hend. change (to_s32 (2147483647 + 1)) with (-2147483648) in Hend. lia.
  - rewrite (to_s32_id (write_end + 1)) by (unfold in_s32; lia).
    destruct (decide (disk_length d0 = -2147483648)) as [Hmin|Hmin].
    + lia.
    + rewrite (to_s32_id (disk_length d0 - 1)) in Hlt by (unfold in_s32; lia). lia.
Qed.

(** ** Runs on concrete states *)

Lemma run_Some {A} (m : M A) st a :
  run m st = Some a → ∃ st', m st = Some (a, st').
Proof.
  unfold run. destruct (m st) as [[x st']|]; [|done].
  intros [= <-]. by exists st'.
Qed.

Lemma observe_Some {A B} (f : fs_state → B) (m : M A) st a b :
  observe f m st = Some (a, b) → ∃ st', m st = Some (a, st') ∧ f st' = b.
Proof.
  unfold observe. destruct (m st) as [[x st']|]; [|done].
  intros [= <- <-]. by exists st'.
Qed.

Lemma fs_with_file_shape nfree deny : cache_shape (fs_with_file nfree deny).
Proof.
  unfold cache_shape. split; [reflexivity|]. split; [done|]. split.
  - intros i h Hh. unfold fs_with_file in Hh. cbn [buffer_heads] in Hh.
    apply lookup_replicate in Hh as [-> _]. reflexivity.
  - intros sec. unfold fs_with_file. cbn [fs_device].
    destruct (decide (2 = sec)) as [<-|]; [by rewrite fn_lookup_insert|].
    rewrite fn_lookup_insert_ne by done.
    destruct (decide (ROOT_DIR_SECTOR = sec)) as [<-|].
    + by rewrite fn_lookup_insert.
    + by rewrite fn_lookup_insert_ne.
Qed.

Lemma fs_with_file_coherent nfree deny : cache_coherent (fs_with_file nfree deny).
Proof.
  unfold cache_coherent, coherent, fs_with_file. cbn [buffer_heads fs_device]. split.
  - intros i j hi hj Hi Hj _ Hne. apply lookup_replicate in Hi as [-> _]. done.
  - intros i h Hi _ Hne. apply lookup_replicate in Hi as [-> _]. done.
Qed.

Lemma inode_write_at_denied_witness :
  ∃ st',
    inode_write_at 2 [1; 2; 3] 3 0 (fs_with_file 8 1) = Some (0, st')
    ∧ (∀ s, s ≠ NO_SECTOR →
         sector_contents st' s = sector_contents (fs_with_file 8 1) s)
    ∧ (∀ q, q ≠ NO_SECTOR → file_length st' q = file_length (fs_with_file 8 1) q)
    ∧ free_map st' = free_map (fs_with_file 8 1)
    ∧ open_inodes st' = open_inodes (fs_with_file 8 1)
    ∧ dir_table st' = dir_table (fs_with_file 8 1).
Proof.
  apply (inode_write_at_denied (fs_with_file 8 1) 2 0%nat (mk_inode 2 1 false 1 false)).
  - apply fs_with_file_shape.
  - apply fs_with_file_coherent.
  - reflexivity.
  - simpl. lia.
Defined.

Lemma inode_write_at_length_witness :
  (∃ st',
     inode_write_at 2 [1; 2; 3] 3 0 (fs_with_file 8 0) = Some (3, st')
     ∧ 0 < 3
     ∧ file_length (fs_with_file 8 0) 2 <= file_length st' 2
     ∧ 0 + 3 <= file_length st' 2)
  ∧ (∃ st',
       inode_write_at 2 [1; 2; 3; 4; 5; 6; 7; 8] 8 (-4) fs_with_data = Some (8, st')
       ∧ 0 < 8
       ∧ file_length fs_with_data 2 <= file_length st' 2
       ∧ -4 + 8 <= file_length st' 2).
Proof.
  split.
  - assert (Hrun : run (inode_write_at 2 [1; 2; 3] 3 0) (fs_with_file 8 0) = Some 3)
      by (vm_compute; reflexivity).
    apply run_Some in Hrun as [st' E]. exists st'.
    split; [exact E|]. split; [lia|].
    exact (inode_write_at_length _ _ _ _ _ _ _ E ltac:(lia)).
  - assert (Hrun : run (inode_write_at 2 [1; 2; 3; 4; 5; 6; 7; 8] 8 (-4)) fs_with_data
                   = Some 8)
      by (vm_compute; reflexivity).
    apply run_Some in Hrun as [st' E]. exists st'.
    split; [exact E|]. split; [lia|].
    exact (inode_write_at_length _ _ _ _ _ _ _ E ltac:(lia)).
Defined.

(** ** Closing a removed inode *)

(** C2, on a file of 124 sectors.  The inode is created in sector 2; its
    124th sector (byte 62976) is sector 126, recorded in the
    single-indirect block.  The inode is then opened, marked removed and
    closed, which brings its open count to zero: sector 126 is still
    allocated in the free map, while the first data sector (sector 3), the
    single-indirect block (sector 127) and the inode's own sector are
    released. *)
Theorem inode_close_keeps_indirect_entry :
  run (free_map_allocate 1 ;;
       inode_create 2 63488 0 ;;
       p <- inode_open 2 ;;
       d <- get_disk_inode 2 ;;
       first <- byte_to_sector d 0 ;;
       last <- byte_to_sector d 62976 ;;
       inode_remove 2 ;;
       inode_close p ;;
       fm <- gets free_map ;;
       l <- gets open_inodes ;;
       ret (first, last, indirect_block_sec d, double_indirect_block_sec d,
            fm !! 3%nat, fm !! 126%nat, fm !! 127%nat, fm !! 2%nat,
            find_inode 2 l))
    (fs_formatted 130)
  = Some (3, 126, 127, 0, Some false, Some true, Some false, Some false, None).
Proof. vm_compute. reflexivity. Qed.

(** ** Names of [NAME_MAX + 1] characters *)

(** C6, on a path whose final token has 15 characters, one more than
    [NAME_MAX]: [parse_path] returns the directory, and [file_name] holds
    the first 14 characters of the token. *)
Theorem parse_path_accepts_15_characters :
  run (parse_path (Some "abcdefghijklmno") (Some EmptyString)) (fs_formatted 8)
  = Some (Some (mk_dir ROOT_DIR_SECTOR 0), Some "abcdefghijklmn")
  ∧ NAME_MAX < Z.of_nat (String.length "abcdefghijklmno").
Proof. split; [vm_compute; reflexivity | unfold NAME_MAX; simpl; lia]. Qed.

(** ** The extension lock after a failed growth *)

(** C10, on a write that has to grow the file when the free map has no
    free sector: [inode_write_at] returns 0 and the inode's [extend_lock],
    free at entry, is held at exit. *)
Theorem inode_write_at_keeps_extend_lock :
  (extend_lock <$> (snd <$> find_inode 2 (open_inodes (fs_with_file 0 0)))) = Some false
  ∧ run (n <- inode_write_at 2 [1; 2; 3] 3 0 ;;
         i <- inode_deref 2 ;;
         ret (n, extend_lock i))
      (fs_with_file 0 0)
    = Some (0, true).
Proof. split; vm_compute; reflexivity. Qed.

(** ** Paths without a name *)

(** On the empty path [parse_path] returns null and leaves [file_name] as
    it is: it does not return the root directory with ["."]. *)
Lemma parse_path_empty_counterexample :
  run (parse_path (Some EmptyString) (Some EmptyString)) (fs_formatted 8)
  = Some (None, Some EmptyString)
  ∧ ¬ (∃ d, run (parse_path (Some EmptyString) (Some EmptyString)) (fs_formatted 8)
            = Some (Some d, Some ".")).
Proof.
  assert (H : run (parse_path (Some EmptyString) (Some EmptyString)) (fs_formatted 8)
              = Some (None, Some EmptyString))
    by (vm_compute; reflexivity).
  split; [done|]. intros [d Hd]. rewrite H in Hd. discriminate.
Qed.

(** ** A failing [filesys_create] *)

(** [filesys_create ("a", 512)] when the root directory already has an
    entry ["a"]: sector 3 is handed out for the inode, [inode_create]
    allocates sector 4 for the data, [dir_add] fails, and only sector 3 is
    released.  The free map is not what it was before the call. *)
Lemma filesys_create_leaks_counterexample :
  ∃ st', filesys_create "a" 512 (fs_with_file 8 0) = Some (false, st')
    ∧ bitmap_scan (free_map (fs_with_file 8 0)) 1 = Some 3%nat
    ∧ free_map st' !! 3%nat = Some false
    ∧ free_map st' ≠ free_map (fs_with_file 8 0).
Proof.
  assert (Hrun : observe free_map (filesys_create "a" 512) (fs_with_file 8 0)
                 = Some (false, [true; true; true; false; true; false; false; false;
                                 false; false; false]))
    by (vm_compute; reflexivity).
  apply observe_Some in Hrun as (st' & E & Hfm).
  exists st'. rewrite Hfm. split; [exact E|].
  split; [vm_compute; reflexivity|]. split; [reflexivity|].
  vm_compute. discriminate.
Qed.

(** ** Properties kept by runs *)

Lemma keeps_ret {A} I (a : A) : keeps I (ret a).
Proof. intros st r st' H HI. by mon_inv. Qed.

Lemma keeps_stuck {A} I : keeps I (@stuck A).
Proof. intros st r st' H HI. by mon_inv. Qed.

Lemma keeps_gets {A} I (f : fs_state → A) : keeps I (gets f).
Proof. intros st r st' H HI. by mon_inv. Qed.

Lemma keeps_lift_opt {A} I (o : option A) : keeps I (lift_opt o).
Proof. intros st r st' H HI. by mon_inv. Qed.

Lemma keeps_ASSERT I b : keeps I (ASSERT b).
Proof. intros st r st' H HI. by mon_inv. Qed.

Lemma keeps_bind {A B} I (m : M A) (k : A → M B) :
  keeps I m → (∀ a, keeps I (k a)) → keeps I (bind m k).
Proof.
  intros Hm Hk st r st' H HI. mbind H as a st1 H1.
  eapply Hk; [done|]. by eapply Hm.
Qed.

Lemma keeps_modify I (g : fs_state → fs_state) :
  (∀ st, I st → I (g st)) → keeps I (modify g).
Proof. intros Hg st r st' H HI. mon_inv. by apply Hg. Qed.

Ltac keeps_step :=
  first
    [ apply keeps_ret | apply keeps_stuck | apply keeps_gets
    | apply keeps_lift_opt | apply keeps_ASSERT
    | solve [eauto with keeps]
    | apply keeps_bind; [|intros ?]
    | match goal with
      | |- keeps _ (if ?b then _ else _) => destruct b
      | |- keeps _ (match ?o with Some _ => _ | None => _ end) => destruct o
      | |- keeps _ (match ?p with (_, _) => _ end) => destruct p
      | |- keeps _ (match ?l with [] => _ | _ :: _ => _ end) => destruct l
      end ].
Ltac keeps_all := repeat (keeps_step; cbv beta).

Lemma no_new_removed_refl l : no_new_removed l l.
Proof. intros i Hi Hr. eauto. Qed.

Lemma no_new_removed_insert l k i i' :
  l !! k = Some i → sector i' = sector i → removed i' = removed i →
  no_new_removed l (<[k := i']> l).
Proof.
  intros Hk Hs Hr x Hx Hrm.
  apply list_elem_of_lookup in Hx as [j Hj].
  destruct (decide (k = j)) as [->|].
  - rewrite list_lookup_insert_eq in Hj by (by eapply lookup_lt_Some). simplify_eq.
    exists i. split_and!; [by eapply list_elem_of_lookup_2 | done | congruence].
  - rewrite list_lookup_insert_ne in Hj by done.
    exists x. split_and!; [by eapply list_elem_of_lookup_2 | done | done].
Qed.

Lemma no_new_removed_cons l i :
  removed i = false → no_new_removed l (i :: l).
Proof.
  intros Hr x Hx Hrm. apply elem_of_cons in Hx as [->|Hx]; [congruence|]. eauto.
Qed.

Lemma no_new_removed_delete l k : no_new_removed l (delete k l).
Proof.
  intros x Hx Hrm. exists x. split_and!; [|done|done].
  by eapply list_elem_of_delete_inv.
Qed.

Lemma no_new_removed_trans l1 l2 l3 :
  no_new_removed l1 l2 → no_new_removed l2 l3 → no_new_removed l1 l3.
Proof.
  intros H12 H23 x Hx Hr. destruct (H23 x Hx Hr) as (y & Hy & Hsy & Hry).
  destruct (H12 y Hy Hry) as (z & Hz & Hsz & Hrz). exists z. split_and!; congruence.
Qed.

Section keeps.
Context (I : fs_state → Prop).
Context (I_cache : ∀ st st', same_outside_cache st st' → I st → I st').
Context (I_oracle : ∀ st o, I st → I (with_malloc_oracle o st)).
Context (I_inodes : ∀ st l', no_new_removed (open_inodes st) l' → I st →
                      I (with_open_inodes l' st)).
Context (I_clear : ∀ st s c, I st →
                     I (with_free_map (bitmap_set_multiple (free_map st) s c false) st)).

Lemma keeps_malloc : keeps I malloc.
Proof.
  intros st r st' H HI. unfold malloc in H.
  destruct (malloc_oracle st) as [|b rest] eqn:E; simplify_eq; [done|].
  by apply I_oracle.
Qed.

Lemma keeps_read_block sec : keeps I (read_block sec).
Proof.
  intros st r st' H HI. apply read_block_value in H as [_ H]. by eapply I_cache.
Qed.

Lemma keeps_inode_deref p : keeps I (inode_deref p).
Proof. unfold inode_deref. keeps_all. Qed.

Lemma keeps_inode_modify p f :
  (∀ i, sector (f i) = sector i ∧ removed (f i) = removed i) →
  keeps I (inode_modify p f).
Proof.
  intros Hf st r st' H HI. unfold inode_modify in H.
  mbind H as l st1 Hl. apply gets_Some in Hl as [-> ->].
  mbind H as x st1 Hx. apply lift_opt_Some in Hx as [Hx ->].
  destruct x as [k i]. mon_inv. simpl. apply I_inodes; [|done].
  destruct (Hf i) as [Hs Hr].
  apply list_find_Some in Hx as (Hk & _). by eapply no_new_removed_insert.
Qed.

Lemma keeps_open_inodes_push i : removed i = false → keeps I (open_inodes_push i).
Proof.
  intros Hr. apply keeps_modify. intros st HI.
  apply I_inodes; [|done]. by apply no_new_removed_cons.
Qed.

Lemma keeps_open_inodes_remove p : keeps I (open_inodes_remove p).
Proof.
  intros st r st' H HI. unfold open_inodes_remove in H.
  mbind H as l st1 Hl. apply gets_Some in Hl as [-> ->].
  mbind H as x st1 Hx. apply lift_opt_Some in Hx as [Hx ->]. mon_inv.
  apply I_inodes; [|done]. apply no_new_removed_delete.
Qed.

Lemma keeps_inode_reopen p : keeps I (inode_reopen p).
Proof.
  unfold inode_reopen. destruct p; [|apply keeps_ret].
  apply keeps_bind; [|intros; apply keeps_ret].
  by apply keeps_inode_modify.
Qed.

Lemma keeps_inode_open sec : keeps I (inode_open sec).
Proof.
  unfold inode_open. apply keeps_bind; [apply keeps_gets|]. intros l.
  destruct (find_inode sec l); [apply keeps_inode_reopen|].
  apply keeps_bind; [apply keeps_malloc|]. intros [|]; [|apply keeps_ret].
  apply keeps_bind; [|intros; apply keeps_ret].
  by apply keeps_open_inodes_push.
Qed.

Lemma keeps_free_map_release sec cnt : keeps I (free_map_release sec cnt).
Proof.
  intros st r st' H HI. unfold free_map_release in H.
  mbind H as bm st1 Hb. apply gets_Some in Hb as [-> ->]. mon_inv.
  by apply I_clear.
Qed.

Lemma keeps_release_entries ws : keeps I (release_entries ws).
Proof.
  induction ws as [|w ws IH]; cbn [release_entries]; [apply keeps_stuck|].
  destruct (0 <? w); [|apply keeps_ret].
  apply keeps_bind; [apply keeps_free_map_release | done].
Qed.

Lemma keeps_release_second_level ws : keeps I (release_second_level ws).
Proof.
  induction ws as [|w ws IH]; cbn [release_second_level]; [apply keeps_stuck|].
  destruct (0 <? w); [|apply keeps_ret].
  apply keeps_bind; [apply keeps_read_block|]. intros blk.
  apply keeps_bind; [apply keeps_release_entries|]. intros _.
  apply keeps_bind; [apply keeps_free_map_release | done].
Qed.

Lemma keeps_free_inode_sectors d : keeps I (free_inode_sectors d).
Proof.
  pose proof keeps_malloc. pose proof keeps_read_block.
  pose proof keeps_release_entries. pose proof keeps_release_second_level.
  pose proof keeps_free_map_release.
  unfold free_inode_sectors.
  repeat first
    [ apply keeps_ret | apply keeps_stuck | done
    | apply keeps_bind; [|intros ?]
    | match goal with |- keeps _ (if ?b then _ else _) => destruct b end ].
Qed.

Lemma keeps_inode_close p : keeps I (inode_close p).
Proof.
  pose proof keeps_malloc. pose proof keeps_read_block.
  pose proof keeps_free_inode_sectors. pose proof keeps_free_map_release.
  pose proof keeps_inode_deref. pose proof keeps_open_inodes_remove.
  unfold inode_close. destruct p as [q|]; [|apply keeps_ret].
  apply keeps_bind; [done|]. intros i.
  apply keeps_bind; [by apply keeps_inode_modify|]. intros _.
  repeat first
    [ apply keeps_ret | apply keeps_stuck | done
    | apply keeps_bind; [|intros ?]
    | match goal with |- keeps _ (if ?b then _ else _) => destruct b end ].
Qed.

Lemma keeps_inode_is_dir p : keeps I (inode_is_dir p).
Proof.
  pose proof keeps_malloc. pose proof keeps_read_block. pose proof keeps_inode_deref.
  unfold inode_is_dir.
  repeat first
    [ apply keeps_ret | apply keeps_stuck | done
    | apply keeps_bind; [|intros ?]
    | match goal with |- keeps _ (if ?b then _ else _) => destruct b end ].
Qed.

Lemma keeps_inode_is_removed p : keeps I (inode_is_removed p).
Proof.
  unfold inode_is_removed. apply keeps_bind; [apply keeps_inode_deref|].
  intros; apply keeps_ret.
Qed.

Lemma keeps_dir_open p : keeps I (dir_open p).
Proof.
  unfold dir_open. apply keeps_bind; [apply keeps_malloc|]. intros ok.
  destruct p; [|apply keeps_ret]. destruct ok; [apply keeps_ret|].
  apply keeps_bind; [apply keeps_inode_close|]. intros; apply keeps_ret.
Qed.

Lemma keeps_dir_open_root : keeps I dir_open_root.
Proof.
  unfold dir_open_root. apply keeps_bind; [apply keeps_inode_open|].
  intros; apply keeps_dir_open.
Qed.

Lemma keeps_dir_reopen d : keeps I (dir_reopen d).
Proof.
  unfold dir_reopen. apply keeps_bind; [apply keeps_lift_opt|]. intros x.
  apply keeps_bind; [apply keeps_inode_reopen|]. intros; apply keeps_dir_open.
Qed.

Lemma keeps_dir_close d : keeps I (dir_close d).
Proof. unfold dir_close. destruct d; [apply keeps_inode_close | apply keeps_ret]. Qed.

Lemma keeps_dir_lookup d nm : keeps I (dir_lookup d nm).
Proof.
  unfold dir_lookup. apply keeps_bind; [apply keeps_lift_opt|]. intros x.
  apply keeps_bind; [apply keeps_gets|]. intros tbl.
  destruct (list_find _ _) as [[k e]|]; [apply keeps_inode_open | apply keeps_ret].
Qed.

Lemma keeps_dir_readdir d : keeps I (dir_readdir d).
Proof.
  unfold dir_readdir. apply keeps_bind; [apply keeps_gets|]. intros tbl.
  destruct (next_in_use _ _) as [[nm pos']|]; apply keeps_ret.
Qed.

Lemma keeps_only_dot_entries fuel d : keeps I (only_dot_entries fuel d).
Proof.
  revert d. induction fuel as [|fuel IH]; intros d; cbn [only_dot_entries];
    [apply keeps_stuck|].
  apply keeps_bind; [apply keeps_dir_readdir|]. intros r.
  destruct (fst r); [|apply keeps_ret].
  destruct (_ || _); [apply IH | apply keeps_ret].
Qed.

Lemma keeps_parse_path_loop fuel d token nextToken savePtr :
  keeps I (parse_path_loop fuel d token nextToken savePtr).
Proof.
  revert d token nextToken savePtr.
  induction fuel as [|fuel IH]; intros d token nextToken savePtr;
    cbn [parse_path_loop].
  - destruct token, nextToken; first [apply keeps_stuck | apply keeps_ret].
  - destruct token, nextToken; try apply keeps_ret.
    apply keeps_bind; [apply keeps_dir_lookup|]. intros p.
    destruct p as [q|]; [|apply keeps_ret].
    apply keeps_bind; [apply keeps_inode_is_dir|]. intros isdir.
    destruct isdir; cbn [negb]; [|apply keeps_ret].
    apply keeps_bind; [apply keeps_dir_open|]. intros nextDir.
    apply keeps_bind; [apply keeps_dir_close|]. intros _.
    destruct (strtok_r savePtr "/"). apply IH.
Qed.

Lemma keeps_parse_path path_name file_name : keeps I (parse_path path_name file_name).
Proof.
  unfold parse_path. destruct path_name as [path|], file_name as [fn|];
    try apply keeps_ret.
  destruct (_ =? _)%nat; [apply keeps_ret|].
  apply keeps_bind.
  { destruct (bool_decide _); [apply keeps_dir_open_root|].
    apply keeps_bind; [apply keeps_gets|]. intros; apply keeps_dir_reopen. }
  intros d. destruct (strtok_r path "/") as [token savePtr].
  destruct (strtok_r savePtr "/") as [nextToken savePtr'].
  apply keeps_bind; [apply keeps_parse_path_loop|]. intros r.
  destruct r as [[d' token']|]; [|apply keeps_ret].
  destruct (strlcpy _ _) as [copied size].
  destruct (_ <? size); apply keeps_ret.
Qed.
End keeps.

(** ** Bitmaps *)

Lemma length_bitmap_set_multiple bm start cnt v :
  length (bitmap_set_multiple bm start cnt v) = length bm.
Proof.
  unfold bitmap_set_multiple. revert start.
  induction cnt as [|cnt IH]; intros start; simpl; [done|].
  by rewrite length_insert, IH.
Qed.

Lemma lookup_bitmap_set_multiple bm start cnt v (x : nat) :
  bitmap_set_multiple bm start cnt v !! x
  = if decide (start ≤ x < start + cnt)%nat then (λ _, v) <$> (bm !! x) else bm !! x.
Proof.
  revert start. induction cnt as [|cnt IH]; intros start.
  - unfold bitmap_set_multiple. simpl. rewrite decide_False by lia. done.
  - assert (Hstep : bitmap_set_multiple bm start (S cnt) v
                    = <[start := v]> (bitmap_set_multiple bm (S start) cnt v)) by done.
    rewrite Hstep. destruct (decide (start = x)) as [->|Hne].
    + rewrite decide_True by lia.
      destruct (bm !! x) as [b|] eqn:E.
      * rewrite list_lookup_insert_eq; [done|].
        rewrite length_bitmap_set_multiple. by eapply lookup_lt_Some.
      * apply lookup_ge_None in E. simpl. apply lookup_ge_None.
        rewrite length_insert, length_bitmap_set_multiple. lia.
    + rewrite list_lookup_insert_ne by done. rewrite IH.
      destruct (decide (S start ≤ x < S start + cnt)%nat),
               (decide (start ≤ x < start + S cnt)%nat); try done; lia.
Qed.

Lemma bitmap_clear_keeps_free bm start cnt (x : nat) :
  bm !! x = Some false → bitmap_set_multiple bm start cnt false !! x = Some false.
Proof.
  intros H. rewrite lookup_bitmap_set_multiple, H. by case_decide.
Qed.

Lemma bitmap_scan_free bm (x : nat) :
  bitmap_scan bm 1 = Some x → bm !! x = Some false.
Proof.
  unfold bitmap_scan. intros H.
  destruct (list_find _ _) as [[k y]|] eqn:E; [|done].
  injection H as ->.
  apply list_find_Some in E as (Hk & [Hlen Hall] & _).
  apply lookup_seq in Hk as [-> _]. simpl in *.
  destruct (drop x bm) as [|b rest] eqn:Hd.
  - apply (f_equal length) in Hd. rewrite length_drop in Hd. simpl in Hd. lia.
  - simpl in Hall. apply Forall_cons in Hall as [-> _].
    rewrite <- (Nat.add_0_r x). rewrite <- lookup_drop. by rewrite Hd.
Qed.

(** ** Properties kept by allocation *)

Section keeps_alloc.
Context (I : fs_state → Prop).
Context (I_cache : ∀ st st', same_outside_cache st st' → I st → I st').
Context (I_oracle : ∀ st o, I st → I (with_malloc_oracle o st)).
Context (I_bits : ∀ st s c v, I st →
                    I (with_free_map (bitmap_set_multiple (free_map st) s c v) st)).
Context (I_dirs : ∀ st t, I st → I (with_dir_table t st)).

Lemma keeps_bc_write sec buf bofs chunk sofs : keeps I (bc_write sec buf bofs chunk sofs).
Proof.
  intros st r st' H HI. apply bc_write_outside in H as [_ H].
  by eapply I_cache.
Qed.

Lemma keeps_bc_read sec buf bofs chunk sofs : keeps I (bc_read sec buf bofs chunk sofs).
Proof.
  intros st [b buf'] st' H HI. apply bc_read_outside in H as (_ & _ & H).
  by eapply I_cache.
Qed.

Lemma keeps_read_block' sec : keeps I (read_block sec).
Proof.
  intros st r st' H HI. apply read_block_value in H as [_ H]. by eapply I_cache.
Qed.

Lemma keeps_malloc' : keeps I malloc.
Proof.
  intros st r st' H HI. unfold malloc in H.
  destruct (malloc_oracle st) as [|b rest] eqn:E; simplify_eq; [done|].
  by apply I_oracle.
Qed.

Lemma keeps_free_map_allocate cnt : keeps I (free_map_allocate cnt).
Proof.
  intros st r st' H HI. unfold free_map_allocate in H.
  mbind H as bm st1 Hb. apply gets_Some in Hb as [-> ->].
  destruct (bitmap_scan _ _); mon_inv; [by apply I_bits | done].
Qed.

Lemma keeps_free_map_release' sec cnt : keeps I (free_map_release sec cnt).
Proof.
  intros st r st' H HI. unfold free_map_release in H.
  mbind H as bm st1 Hb. apply gets_Some in Hb as [-> ->]. mon_inv.
  by apply I_bits.
Qed.

Ltac keeps_auto :=
  repeat first
    [ apply keeps_ret | apply keeps_stuck | apply keeps_gets
    | apply keeps_lift_opt | apply keeps_ASSERT
    | apply keeps_bc_write | apply keeps_bc_read | apply keeps_read_block'
    | apply keeps_malloc' | apply keeps_free_map_allocate
    | apply keeps_free_map_release'
    | solve [auto]
    | progress cbv beta zeta
    | apply keeps_bind; [|intros ?]
    | match goal with
      | |- keeps _ (if ?b then _ else _) => destruct b
      | |- keeps _ (match ?o with Some _ => _ | None => _ end) => destruct o
      end ].

Lemma keeps_byte_to_sector d pos : keeps I (byte_to_sector d pos).
Proof.
  unfold byte_to_sector. destruct (_ <? _); [|apply keeps_ret].
  destruct (directness _); keeps_auto.
Qed.

Lemma keeps_new_block_with i v : keeps I (new_block_with i v).
Proof. unfold new_block_with. keeps_auto. Qed.

Lemma keeps_register_sector d new_sector loc : keeps I (register_sector d new_sector loc).
Proof.
  pose proof keeps_new_block_with.
  unfold register_sector. destruct (directness loc); keeps_auto.
Qed.

Lemma keeps_update_file_length_loop fuel d offset size :
  keeps I (update_file_length_loop fuel d offset size).
Proof.
  revert d offset size.
  induction fuel as [|fuel IH]; intros d offset size; cbn [update_file_length_loop].
  - destruct (_ <=? _); [apply keeps_ret | apply keeps_stuck].
  - pose proof keeps_byte_to_sector. pose proof keeps_register_sector.
    destruct (size <=? 0); [apply keeps_ret|]. keeps_auto.
Qed.

Lemma keeps_inode_update_file_length d start_pos end_pos :
  keeps I (inode_update_file_length d start_pos end_pos).
Proof.
  pose proof keeps_update_file_length_loop.
  unfold inode_update_file_length. keeps_auto.
Qed.

Lemma keeps_inode_create sec len isdir : keeps I (inode_create sec len isdir).
Proof.
  pose proof keeps_inode_update_file_length.
  unfold inode_create. keeps_auto.
Qed.

Lemma keeps_dir_add d nm sec : keeps I (dir_add d nm sec).
Proof.
  unfold dir_add.
  apply keeps_bind; [apply keeps_lift_opt|]. intros x.
  apply keeps_bind; [apply keeps_gets|]. intros tbl.
  destruct (_ || _); [apply keeps_ret|].
  destruct (list_find _ _); [apply keeps_ret|].
  apply keeps_bind; [|intros; apply keeps_ret].
  apply keeps_modify. intros st. apply I_dirs.
Qed.
End keeps_alloc.

(** ** The rollback of [filesys_create] *)

(** Sectors in use stay in use while a file is created. *)

Section keeps_used.
Context (y : nat).

Lemma used_cache st st' :
  same_outside_cache st st' → free_map st !! y = Some true → free_map st' !! y = Some true.
Proof. intros (Hfm & _) H. by rewrite Hfm. Qed.

Lemma used_oracle st o :
  free_map st !! y = Some true → free_map (with_malloc_oracle o st) !! y = Some true.
Proof. done. Qed.

Lemma used_set st s c :
  free_map st !! y = Some true →
  free_map (with_free_map (bitmap_set_multiple (free_map st) s c true) st) !! y = Some true.
Proof.
  intros H. cbn [free_map with_free_map].
  rewrite lookup_bitmap_set_multiple, H. by case_decide.
Qed.

Lemma keeps_used_free_map_allocate cnt :
  keeps (λ st, free_map st !! y = Some true) (free_map_allocate cnt).
Proof.
  intros st r st' H HI. unfold free_map_allocate in H.
  mbind H as bm st1 Hb. apply gets_Some in Hb as [-> ->].
  destruct (bitmap_scan _ _); mon_inv; [by apply used_set | done].
Qed.

Ltac used_auto :=
  let I := constr:(λ st : fs_state, free_map st !! y = Some true) in
  repeat first
    [ apply keeps_ret | apply keeps_stuck | apply keeps_gets
    | apply keeps_lift_opt | apply keeps_ASSERT
    | apply (keeps_bc_write I used_cache)
    | apply (keeps_bc_read I used_cache)
    | apply (keeps_malloc' I used_oracle)
    | apply (keeps_byte_to_sector I used_cache used_oracle)
    | apply keeps_new_block_with
    | apply keeps_used_free_map_allocate
    | solve [auto]
    | progress cbv beta zeta
    | apply keeps_bind; [|intros ?]
    | match goal with
      | |- keeps _ (if ?b then _ else _) => destruct b
      | |- keeps _ (match ?o with Some _ => _ | None => _ end) => destruct o
      end ].

Lemma keeps_used_register_sector d new_sector loc :
  keeps (λ st, free_map st !! y = Some true) (register_sector d new_sector loc).
Proof. unfold register_sector. destruct (directness loc); used_auto. Qed.

(** The one sector that the loop releases is the one it has just
    allocated, which was free. *)
Lemma keeps_used_update_file_length_loop fuel d offset size :
  keeps (λ st, free_map st !! y = Some true) (update_file_length_loop fuel d offset size).
Proof.
  revert d offset size.
  induction fuel as [|fuel IH]; intros d offset size; cbn [update_file_length_loop].
  - destruct (_ <=? _); [apply keeps_ret | apply keeps_stuck].
  - destruct (size <=? 0); [apply keeps_ret|]. cbv zeta.
    destruct (_ <=? 0); [apply keeps_ret|].
    destruct (0 <? _); [used_auto|].
    intros st r st' H HI.
    mbind H as a sA Ha. unfold free_map_allocate in Ha.
    mbind Ha as bm sA' Hbm. apply gets_Some in Hbm as [-> ->].
    change (Z.to_nat 1) with 1%nat in Ha.
    destruct (bitmap_scan (free_map st) 1) as [i|] eqn:Hscan; [|by mon_inv].
    apply bitmap_scan_free in Hscan.
    mbind Ha as u sA' Hmod. unfold modify in Hmod. injection Hmod as _ <-.
    unfold ret in Ha. injection Ha as <- <-.
    mbind H as rr sB Hreg.
    pose proof (keeps_used_register_sector _ _ _ _ _ _ Hreg (used_set _ _ _ HI)) as HB.
    destruct (fst rr).
    + mbind H as w sC Hw.
      eapply IH; [exact H|].
      by eapply (keeps_bc_write (λ st, free_map st !! y = Some true) used_cache).
    + mbind H as u5 sC Hrel. unfold ret in H. injection H as _ <-.
      unfold free_map_release in Hrel.
      mbind Hrel as bm sC' Hbm. apply gets_Some in Hbm as [-> ->].
      unfold modify in Hrel. injection Hrel as _ <-.
      cbn [free_map with_free_map] in *.
      rewrite lookup_bitmap_set_multiple, Nat2Z.id.
      rewrite decide_False; [done|].
      change (Z.to_nat 1) with 1%nat. intros ?.
      assert (y = i) as -> by lia. congruence.
Qed.

Lemma keeps_used_inode_create sec len isdir :
  keeps (λ st, free_map st !! y = Some true) (inode_create sec len isdir).
Proof.
  pose proof keeps_used_update_file_length_loop.
  unfold inode_create, inode_update_file_length. used_auto.
Qed.
End keeps_used.

Lemma create_keeps_length sec len isdir (n : nat) :
  keeps (λ st, length (free_map st) = n) (inode_create sec len isdir).
Proof.
  apply keeps_inode_create.
  - intros st st' (Hfm & _) H. by rewrite Hfm.
  - done.
  - intros st s c v H. simpl. by rewrite length_bitmap_set_multiple.
Qed.

Lemma create_keeps_inodes sec len isdir (l : list inode) :
  keeps (λ st, open_inodes st = l) (inode_create sec len isdir).
Proof.
  apply keeps_inode_create.
  - intros st st' (_ & Hoi & _) H. by rewrite Hoi.
  - done.
  - done.
Qed.

Lemma dir_add_keeps_free_map d nm sec (fm : list bool) (l : list inode) :
  keeps (λ st, free_map st = fm ∧ open_inodes st = l) (dir_add d nm sec).
Proof. apply keeps_dir_add. done. Qed.

(** Closing a directory that is not marked removed releases nothing. *)
Lemma dir_close_keeps_free_map d i st u st' :
  inode_deref (dir_inode d) st = Some (i, st) → removed i = false →
  dir_close (Some d) st = Some (u, st') → free_map st' = free_map st.
Proof.
  intros Hi Hr H. unfold dir_close, inode_close in H.
  rewrite (bind_eq _ _ _ _ _ Hi) in H. rewrite Hr in H.
  mbind H as u1 st1 Hmod.
  apply inode_modify_list in Hmod as (k & i1 & _ & ->).
  destruct (_ =? 0).
  - mbind H as u2 st2 Hrem. unfold ret in H. injection H as _ <-.
    unfold open_inodes_remove in Hrem.
    mbind Hrem as l st2' Hl. apply gets_Some in Hl as [-> ->].
    mbind Hrem as r st2' Hf. apply lift_opt_Some in Hf as [_ ->].
    unfold modify in Hrem. by injection Hrem as _ <-.
  - unfold ret in H. by injection H as _ <-.
Qed.

(** Setting and then clearing a bit that was clear. *)
Lemma bitmap_set_clear bm (x : nat) :
  bm !! x = Some false →
  bitmap_set_multiple (bitmap_set_multiple bm x 1 true) x 1 false = bm.
Proof.
  intros Hx. apply list_eq. intros j.
  rewrite !lookup_bitmap_set_multiple.
  case_decide as Hj; [|done].
  assert (j = x) as -> by lia. by rewrite Hx.
Qed.

(** C8, as amended.  When [filesys_create] hands out an inode sector
    (sector [x], the first free sector once the path is resolved; never
    sector 0) and then fails, that sector is free again when the call
    returns, the free map keeps its length, and no sector that was in use
    is released.  What [inode_create] did to the free map stays: the free
    map after the call is the one [inode_create] left, with sector [x]
    free again (the sector is handed out when the parent directory is not
    marked removed; otherwise the call returns at once).  So the sectors
    that [inode_create] allocated for the file's data are not part of the
    rollback, and the free map is the one of before the allocation when
    [initial_size] is 0. *)
Theorem filesys_create_releases_inode_sector st nm initial_size st0 d file_name st1
    (x : nat) st' :
  malloc st = Some (true, st0) →
  parse_path (Some nm) (Some EmptyString) st0 = Some ((Some d, Some file_name), st1) →
  bitmap_scan (free_map st1) 1 = Some x → x ≠ 0%nat →
  filesys_create nm initial_size st = Some (false, st') →
  free_map st' !! x = Some false
  ∧ length (free_map st') = length (free_map st1)
  ∧ (∀ y : nat, free_map st1 !! y = Some true → free_map st' !! y = Some true)
  ∧ (∀ ok st2,
       inode_is_removed (dir_get_inode d) st1 = Some (false, st1) →
       inode_create (Z.of_nat x) initial_size 0
         (with_free_map (bitmap_set_multiple (free_map st1) x 1 true) st1)
       = Some (ok, st2) →
       free_map st' = bitmap_set_multiple (free_map st2) x 1 false)
  ∧ (initial_size = 0 → free_map st' = free_map st1).
Proof.
  intros Hm Hp Hscan Hx H. unfold filesys_create in H.
  rewrite (bind_eq _ _ _ _ _ Hm) in H. cbn [negb] in H.
  rewrite (bind_eq _ _ _ _ _ Hp) in H.
  mbind H as rm st2 Hrm. pose proof Hrm as Hrm'. unfold inode_is_removed in Hrm.
  mbind Hrm as i st2' Hi. pose proof Hi as [_ ->]%inode_deref_Some.
  unfold ret in Hrm. injection Hrm as <- <-.
  pose proof (bitmap_scan_free _ _ Hscan) as Hfree.
  destruct (removed i) eqn:Hremoved.
  { unfold ret in H. injection H as <-.
    split_and!; [done|done|done| |done].
    intros ok s2 Hnr Hc. congruence. }
  mbind H as a st3 Ha. unfold free_map_allocate in Ha.
  mbind Ha as bm st3' Hbm. apply gets_Some in Hbm as [-> ->].
  change (Z.to_nat 1) with 1%nat in Ha. rewrite Hscan in Ha.
  mbind Ha as u st3' Hmod. unfold modify in Hmod. injection Hmod as _ <-.
  unfold ret in Ha. injection Ha as <- <-. cbn [default from_option id] in H.
  mbind H as success st4 Hchain. mbind H as u2 st5 Hroll. mbind H as u3 st6 Hclose.
  unfold ret in H. injection H as -> ->.
  change (bool_decide (Some (Z.of_nat x) = None)) with false in Hchain.
  cbv iota in Hchain.
  mbind Hchain as ok st4' Hcreate.
  assert (Hadd : free_map st4 = free_map st4' ∧ open_inodes st4 = open_inodes st4').
  { destruct ok; simpl in Hchain.
    - by eapply (dir_add_keeps_free_map _ _ _ _ _ _ _ _ Hchain).
    - unfold ret in Hchain. by injection Hchain as <-. }
  destruct Hadd as [Hfm4 Hoi4].
  pose proof (create_keeps_inodes _ _ _ (open_inodes st1) _ _ _ Hcreate eq_refl) as Hoi.
  pose proof (create_keeps_length _ _ _ (length (free_map st1)) _ _ _ Hcreate) as Hlen.
  cbn [free_map with_free_map] in Hlen.
  specialize (Hlen (length_bitmap_set_multiple _ _ _ _)).
  cbn [negb andb] in Hroll.
  destruct (Z.eqb_spec (Z.of_nat x) 0) as [|_]; [lia|]. cbn [negb andb] in Hroll.
  unfold free_map_release in Hroll.
  mbind Hroll as bm st5' Hbm. apply gets_Some in Hbm as [-> ->].
  unfold modify in Hroll. injection Hroll as _ <-.
  rewrite Nat2Z.id in Hclose. change (Z.to_nat 1) with 1%nat in Hclose.
  assert (Hfinal : free_map st' = bitmap_set_multiple (free_map st4') x 1 false).
  { assert (Hi5 : inode_deref (dir_inode d)
                    (with_free_map (bitmap_set_multiple (free_map st4) x 1 false) st4)
                  = Some (i, with_free_map (bitmap_set_multiple (free_map st4) x 1 false) st4)).
    { apply inode_deref_Some. split; [|done].
      cbn [open_inodes with_free_map]. rewrite Hoi4, Hoi.
      by apply inode_deref_Some in Hi as [? _]. }
    rewrite (dir_close_keeps_free_map d i _ _ _ Hi5 Hremoved Hclose).
    cbn [free_map with_free_map]. by rewrite Hfm4. }
  assert (Hidx : is_Some (free_map st4' !! x)).
  { apply lookup_lt_is_Some. rewrite Hlen. by eapply lookup_lt_Some. }
  split_and!.
  - rewrite Hfinal, lookup_bitmap_set_multiple.
    rewrite decide_True by lia. by destruct Hidx as [b ->].
  - by rewrite Hfinal, length_bitmap_set_multiple.
  - intros y Hy. rewrite Hfinal, lookup_bitmap_set_multiple.
    rewrite decide_False by (intros ?; assert (y = x) as -> by lia; congruence).
    eapply (keeps_used_inode_create y); [exact Hcreate|].
    by apply used_set.
  - intros ok2 s2 _ Hc. rewrite Hcreate in Hc. by injection Hc as _ <-.
  - intros ->. rewrite Hfinal.
    assert (free_map st4' = bitmap_set_multiple (free_map st1) x 1 true) as ->.
    { unfold inode_create in Hcreate. change (0 <? 0) with false in Hcreate.
      mbind Hcreate as u5 s5 HA. apply ASSERT_Some in HA as [_ ->].
      mbind Hcreate as okm s6 Hmal. apply malloc_inv in Hmal as (_ & Hf6 & _).
      destruct okm.
      - mbind Hcreate as r7 s7 Hret. unfold ret in Hret. injection Hret as <- <-.
        cbn [fst snd negb] in Hcreate.
        mbind Hcreate as w s8 Hw. apply bc_write_outside in Hw as (_ & Hf8 & _).
        unfold ret in Hcreate. injection Hcreate as _ <-. by rewrite Hf8, Hf6.
      - unfold ret in Hcreate. injection Hcreate as _ <-. done. }
    by apply bitmap_set_clear.
Qed.

Lemma filesys_create_releases_inode_sector_witness :
  ∃ st1 st',
    parse_path (Some "a"%string) (Some EmptyString) (fs_with_file 8 0)
    = Some ((Some (mk_dir ROOT_DIR_SECTOR 0), Some "a"%string), st1)
    ∧ filesys_create "a" 0 (fs_with_file 8 0) = Some (false, st')
    ∧ free_map st' !! 3%nat = Some false
    ∧ length (free_map st') = length (free_map st1)
    ∧ (∀ y : nat, free_map st1 !! y = Some true → free_map st' !! y = Some true)
    ∧ (∀ ok st2,
         inode_is_removed (dir_get_inode (mk_dir ROOT_DIR_SECTOR 0)) st1
         = Some (false, st1) →
         inode_create (Z.of_nat 3) 0 0
           (with_free_map (bitmap_set_multiple (free_map st1) 3 1 true) st1)
         = Some (ok, st2) →
         free_map st' = bitmap_set_multiple (free_map st2) 3 1 false)
    ∧ (0 = 0 → free_map st' = free_map st1).
Proof.
  assert (Hparse : observe free_map (parse_path (Some "a") (Some EmptyString)) (fs_with_file 8 0)
                   = Some ((Some (mk_dir ROOT_DIR_SECTOR 0), Some "a"),
                           [true; true; true] ++ replicate 8 false))
    by (vm_compute; reflexivity).
  apply observe_Some in Hparse as (st1 & Hparse & Hfm).
  assert (Hrun : run (filesys_create "a" 0) (fs_with_file 8 0) = Some false)
    by (vm_compute; reflexivity).
  apply run_Some in Hrun as [st' Hrun].
  exists st1, st'. split; [exact Hparse|]. split; [exact Hrun|].
  apply (filesys_create_releases_inode_sector (fs_with_file 8 0) "a" 0
           (fs_with_file 8 0) (mk_dir ROOT_DIR_SECTOR 0) "a" st1 3 st').
  - reflexivity.
  - exact Hparse.
  - rewrite Hfm. vm_compute. reflexivity.
  - lia.
  - exact Hrun.
Defined.

(** ** The list of open inodes *)

Lemma inode_of_Some st q i :
  inode_of st q = Some i ↔ ∃ k, find_inode q (open_inodes st) = Some (k, i).
Proof.
  unfold inode_of. destruct (find_inode q (open_inodes st)) as [[k x]|]; simpl; split.
  - intros [= ->]. eauto.
  - by intros [k' [= _ ->]].
  - done.
  - by intros [k' ?].
Qed.

Lemma inode_of_sector st q i : inode_of st q = Some i → sector i = q.
Proof. intros [k Hk]%inode_of_Some. by eapply find_inode_sector. Qed.

Lemma find_inode_insert_same q l k i x :
  find_inode q l = Some (k, i) → sector x = q →
  find_inode q (<[k := x]> l) = Some (k, x).
Proof.
  unfold find_inode. intros (Hk & _ & Hbefore)%list_find_Some Hx.
  apply (list_find_insert_first (λ i : inode, sector i = q)).
  - by eapply lookup_lt_Some.
  - done.
  - intros j y Hlt Hj. by eapply Hbefore.
Qed.

Lemma find_inode_insert_other q q' l k i x :
  find_inode q l = Some (k, i) → sector x = q → q' ≠ q →
  find_inode q' (<[k := x]> l) = find_inode q' l.
Proof.
  unfold find_inode. intros (Hk & Hi & _)%list_find_Some Hx Hne.
  apply (list_find_insert_other (λ i : inode, sector i = q')).
  - intros y Hy. simplify_eq. congruence.
  - congruence.
Qed.

Lemma find_inode_delete_other q q' l k i :
  find_inode q l = Some (k, i) → q' ≠ q →
  snd <$> find_inode q' (delete k l) = snd <$> find_inode q' l.
Proof.
  unfold find_inode. intros (Hk & Hi & _)%list_find_Some Hne.
  revert k Hk. induction l as [|y l IH]; intros k Hk; [done|].
  destruct k as [|k]; simpl in *.
  - simplify_eq. rewrite decide_False by congruence.
    by destruct (list_find _ l) as [[??]|].
  - case_decide; [done|]. rewrite (IH k Hk) || specialize (IH k Hk).
    all: destruct (list_find _ (delete k l)) as [[??]|],
           (list_find _ l) as [[??]|]; simpl in *; congruence.
Qed.

Lemma only_inodes_refl st : only_inodes st st.
Proof. by unfold only_inodes, same_cache. Qed.

Lemma only_inodes_trans st1 st2 st3 :
  only_inodes st1 st2 → only_inodes st2 st3 → only_inodes st1 st3.
Proof.
  unfold only_inodes, same_cache.
  intros ((?&?&?)&?&?&?&?) ((?&?&?)&?&?&?&?). split_and!; congruence.
Qed.

Lemma malloc_empty st : malloc_oracle st = [] → malloc st = Some (true, st).
Proof. unfold malloc. by intros ->. Qed.

(** ** What the operations on in-memory inodes do *)

Lemma inode_modify_spec q f st i :
  inode_of st q = Some i → sector (f i) = q →
  ∃ st', inode_modify q f st = Some (tt, st')
    ∧ only_inodes st st'
    ∧ inode_of st' q = Some (f i)
    ∧ same_inodes_but q st st'.
Proof.
  intros [k Hk]%inode_of_Some Hf. unfold inode_modify.
  unfold bind, gets, lift_opt, modify. rewrite Hk. simpl.
  eexists. split; [done|]. split_and!.
  - by unfold only_inodes, same_cache.
  - unfold inode_of. simpl. by rewrite (find_inode_insert_same _ _ _ _ _ Hk Hf).
  - intros q' Hne. unfold inode_of. simpl.
    by rewrite (find_inode_insert_other _ _ _ _ _ _ Hk Hf Hne).
Qed.

Lemma inode_deref_spec q st i :
  inode_of st q = Some i → inode_deref q st = Some (i, st).
Proof. intros H. apply inode_deref_Some. split; [|done]. by apply inode_of_Some. Qed.

Lemma inode_reopen_spec q st i :
  inode_of st q = Some i →
  ∃ st', inode_reopen (Some q) st = Some (Some q, st')
    ∧ only_inodes st st'
    ∧ inode_of st' q = Some (with_open_cnt (to_s32 (open_cnt i + 1)) i)
    ∧ same_inodes_but q st st'.
Proof.
  intros Hi. unfold inode_reopen.
  destruct (inode_modify_spec q (λ i, with_open_cnt (to_s32 (open_cnt i + 1)) i) st i Hi)
    as (st' & Hm & ?); [by apply inode_of_sector in Hi|].
  exists st'. rewrite (bind_eq _ _ _ _ _ Hm). done.
Qed.

Lemma inode_open_spec q st :
  malloc_oracle st = [] →
  ∃ st', inode_open q st = Some (Some q, st')
    ∧ only_inodes st st'
    ∧ inode_of st' q = Some (opened q (inode_of st q))
    ∧ same_inodes_but q st st'.
Proof.
  intros Hm. unfold inode_open. unfold bind at 1, gets.
  destruct (find_inode q (open_inodes st)) as [[k i]|] eqn:Hf.
  - assert (Hi : inode_of st q = Some i) by (apply inode_of_Some; eauto).
    rewrite Hi. by apply inode_reopen_spec.
  - assert (Hi : inode_of st q = None) by (unfold inode_of; by rewrite Hf).
    rewrite Hi. rewrite (bind_eq _ _ _ _ _ (malloc_empty _ Hm)).
    unfold open_inodes_push, bind, modify, ret. simpl.
    eexists. split; [done|]. split_and!.
    + by unfold only_inodes, same_cache.
    + unfold inode_of, find_inode. simpl. by rewrite decide_True.
    + intros q' Hne. unfold inode_of, find_inode. simpl.
      rewrite decide_False by congruence.
      by destruct (list_find _ (open_inodes st)) as [[??]|].
Qed.

(** [inode_close] when it has nothing to release: the inode stays open, or
    it is not marked removed. *)
Lemma inode_close_spec q st i :
  inode_of st q = Some i →
  to_s32 (open_cnt i - 1) ≠ 0 ∨ removed i = false →
  ∃ st', inode_close (Some q) st = Some (tt, st')
    ∧ only_inodes st st'
    ∧ (to_s32 (open_cnt i - 1) ≠ 0 →
       inode_of st' q = Some (with_open_cnt (to_s32 (open_cnt i - 1)) i))
    ∧ same_inodes_but q st st'.
Proof.
  intros Hi Hcase. unfold inode_close.
  rewrite (bind_eq _ _ _ _ _ (inode_deref_spec _ _ _ Hi)).
  destruct (inode_modify_spec q (with_open_cnt (to_s32 (open_cnt i - 1))) st i Hi)
    as (st1 & Hm & Hoi1 & Hq1 & Hothers1); [by apply inode_of_sector in Hi|].
  rewrite (bind_eq _ _ _ _ _ Hm).
  destruct (Z.eqb_spec (to_s32 (open_cnt i - 1)) 0) as [Hz|Hnz].
  - destruct Hcase as [?|Hrm]; [done|].
    apply inode_of_Some in Hq1 as [k1 Hk1].
    unfold open_inodes_remove, bind, gets, lift_opt, modify. rewrite Hk1. simpl.
    rewrite Hrm. unfold ret. eexists. split; [done|]. split_and!.
    + eapply only_inodes_trans; [done|]. by unfold only_inodes, same_cache.
    + done.
    + intros q' Hne. unfold inode_of at 1. simpl.
      rewrite (find_inode_delete_other _ _ _ _ _ Hk1 Hne). by apply Hothers1.
  - exists st1. split; [done|]. split_and!; done.
Qed.

(** ** Steps that leave the disk alone *)

Lemma same_disk_refl st : same_disk st st.
Proof. by unfold same_disk. Qed.

Lemma same_disk_trans st1 st2 st3 :
  same_disk st1 st2 → same_disk st2 st3 → same_disk st1 st3.
Proof.
  unfold same_disk. intros (?&?&H12) (?&?&H23). split_and!; try congruence.
  intros s Hs. rewrite H23, H12; done.
Qed.

Lemma only_inodes_settled st st' : only_inodes st st' → settled st → settled st'.
Proof.
  intros (Hc & _ & _ & Ho & _) (? & ? & ?). split_and!.
  - by eapply same_cache_shape.
  - by eapply same_cache_coherent.
  - congruence.
Qed.

Lemma only_inodes_same_disk st st' : only_inodes st st' → same_disk st st'.
Proof.
  intros (Hc & ? & ? & _). split_and!; [done..|].
  intros s _. by apply same_cache_contents.
Qed.

Lemma read_block_spec sec st :
  settled st →
  ∃ st', read_block sec st = Some (sector_contents st sec, st')
    ∧ settled st' ∧ same_disk st st' ∧ open_inodes st' = open_inodes st
    ∧ cur_dir st' = cur_dir st.
Proof.
  intros (Hshape & Hco & Ho).
  destruct (read_block_returns sec st Hshape) as (st' & Hr).
  rewrite firstn_all2 in Hr by (rewrite sector_contents_length; done).
  exists st'. split; [done|].
  pose proof (read_block_value _ _ _ _ Hr) as (_ & Hfm & Hoi & Hmo & Hdt & Hcd).
  pose proof (read_block_preserves _ _ _ _ Hr Hshape Hco) as (? & ? & ?).
  split_and!; try done.
  split_and!; [done..|congruence].
Qed.

Lemma inode_is_dir_spec q st i :
  settled st → inode_of st q = Some i →
  ∃ st', inode_is_dir q st
         = Some (negb (is_dir (inode_disk_of_bytes (sector_contents st q)) =? 0), st')
    ∧ settled st' ∧ same_disk st st' ∧ open_inodes st' = open_inodes st.
Proof.
  intros Hs Hi. unfold inode_is_dir.
  rewrite (bind_eq _ _ _ _ _ (malloc_empty _ (proj2 (proj2 Hs)))). cbn [negb].
  rewrite (bind_eq _ _ _ _ _ (inode_deref_spec _ _ _ Hi)).
  rewrite (inode_of_sector _ _ _ Hi).
  destruct (read_block_spec q st Hs) as (st' & Hr & ? & ? & ? & _).
  rewrite (bind_eq _ _ _ _ _ Hr). by exists st'.
Qed.

Lemma dir_open_spec q st :
  malloc_oracle st = [] → dir_open (Some q) st = Some (Some (mk_dir q 0), st).
Proof. intros Ho. unfold dir_open. by rewrite (bind_eq _ _ _ _ _ (malloc_empty _ Ho)). Qed.

Lemma dir_lookup_spec d nm st k e :
  malloc_oracle st = [] →
  list_find (live_entry nm) (dir_table st (dir_inode d)) = Some (k, e) →
  ∃ st', dir_lookup (Some d) nm st = Some (Some (inode_sector e), st')
    ∧ only_inodes st st'
    ∧ inode_of st' (inode_sector e)
      = Some (opened (inode_sector e) (inode_of st (inode_sector e)))
    ∧ same_inodes_but (inode_sector e) st st'.
Proof.
  intros Ho Hf. unfold dir_lookup. unfold bind at 1, lift_opt.
  unfold bind at 1, gets. rewrite Hf. by apply inode_open_spec.
Qed.

(** ** The scan of a directory for entries other than the dots *)

Lemma next_in_use_spec l pos :
  match next_in_use l pos with
  | Some (nm, pos') =>
      ∃ j e, l !! j = Some e ∧ in_use e = true ∧ name e = nm
             ∧ pos' = S (pos + j)
             ∧ Forall (λ e, in_use e = false) (take j l)
  | None => Forall (λ e, in_use e = false) l
  end.
Proof.
  revert pos. induction l as [|e l IH]; intros pos; simpl; [done|].
  destruct (in_use e) eqn:He.
  - exists 0%nat, e. split_and!; try done; try (f_equal; lia).
  - specialize (IH (S pos)). destruct (next_in_use l (S pos)) as [[nm pos']|].
    + destruct IH as (j & e' & Hj & Hin & Hnm & -> & Hbefore).
      exists (S j), e'. split_and!; try done; try lia; simpl; by constructor.
    + by constructor.
Qed.

Lemma only_dots_unused l : Forall (λ e, in_use e = false) l → only_dots l.
Proof. unfold only_dots. intros H. eapply Forall_impl; [done|]. by intros e -> [=]. Qed.

Lemma only_dots_split l j e :
  l !! j = Some e → Forall (λ e, in_use e = false) (take j l) → in_use e = true →
  only_dots l ↔ (name e = "."%string ∨ name e = ".."%string) ∧ only_dots (drop (S j) l).
Proof.
  intros Hj Hbefore He. unfold only_dots.
  rewrite <- (take_drop_middle l j e Hj) at 1.
  rewrite Forall_app, Forall_cons. split.
  - intros (_ & H & ?). split; [by apply H | done].
  - intros (? & ?). split_and!; [by apply only_dots_unused | done | done].
Qed.

Lemma only_dot_entries_spec fuel q pos st :
  (length (drop pos (dir_table st q)) < fuel)%nat →
  only_dot_entries fuel (mk_dir q pos) st
  = Some (bool_decide (only_dots (drop pos (dir_table st q))), st).
Proof.
  revert pos. induction fuel as [|fuel IH]; intros pos Hfuel; [lia|].
  cbn [only_dot_entries]. unfold dir_readdir. unfold bind at 1. unfold bind at 1, gets.
  cbn [dir_pos dir_inode].
  pose proof (next_in_use_spec (drop pos (dir_table st q)) pos) as Hnext.
  destruct (next_in_use (drop pos (dir_table st q)) pos) as [[nm pos']|].
  - destruct Hnext as (j & e & Hj & He & Hnm & -> & Hbefore).
    unfold ret at 1. cbn [fst snd].
    pose proof (only_dots_split _ _ _ Hj Hbefore He) as Hsplit.
    rewrite drop_drop in Hsplit.
    replace (pos + S j)%nat with (S (pos + j)) in Hsplit by lia.
    destruct (bool_decide (nm = "."%string) || bool_decide (nm = ".."%string)) eqn:Hdot.
    + rewrite IH.
      * f_equal. f_equal. apply bool_decide_ext. rewrite Hsplit.
        apply orb_true_iff in Hdot. rewrite !bool_decide_eq_true in Hdot.
        rewrite Hnm. tauto.
      * apply lookup_lt_Some in Hj. rewrite length_drop in *. lia.
    + unfold ret. f_equal. f_equal. symmetry. apply bool_decide_eq_false.
      rewrite Hsplit. apply orb_false_iff in Hdot.
      rewrite !bool_decide_eq_false in Hdot. rewrite Hnm. tauto.
  - unfold ret. cbn [fst]. f_equal. f_equal. symmetry.
    apply bool_decide_eq_true. by apply only_dots_unused.
Qed.

(** ** What a run that removes nothing keeps *)

Lemma keeps_apply {A} (I : fs_state → Prop) (m : M A) st r st' :
  keeps I m → m st = Some (r, st') → I st → I st'.
Proof. intros H. apply H. Qed.

Lemma nothing_removed_refl st : nothing_removed st st.
Proof. split; [done | apply no_new_removed_refl]. Qed.

Lemma nothing_removed_cache st s s' :
  same_outside_cache s s' → nothing_removed st s → nothing_removed st s'.
Proof. unfold nothing_removed. intros (_ & -> & _ & -> & _). done. Qed.

Lemma nothing_removed_oracle st s o :
  nothing_removed st s → nothing_removed st (with_malloc_oracle o s).
Proof. done. Qed.

Lemma nothing_removed_inodes st s l' :
  no_new_removed (open_inodes s) l' → nothing_removed st s →
  nothing_removed st (with_open_inodes l' s).
Proof.
  intros H [? ?]. split; [done|]. simpl. by eapply no_new_removed_trans.
Qed.

Lemma nothing_removed_clear st s sec c :
  nothing_removed st s →
  nothing_removed st (with_free_map (bitmap_set_multiple (free_map s) sec c false) s).
Proof. done. Qed.

Create HintDb kept.
#[export] Hint Resolve nothing_removed_cache nothing_removed_oracle
  nothing_removed_inodes nothing_removed_clear : kept.

Lemma inode_of_ext st st' q :
  open_inodes st' = open_inodes st → inode_of st' q = inode_of st q.
Proof. unfold inode_of. by intros ->. Qed.

Lemma inode_is_removed_spec q st i :
  inode_of st q = Some i → inode_is_removed q st = Some (removed i, st).
Proof.
  intros Hi. unfold inode_is_removed.
  by rewrite (bind_eq _ _ _ _ _ (inode_deref_spec _ _ _ Hi)).
Qed.

Lemma lift_opt_eq {A} (a : A) st : lift_opt (Some a) st = Some (a, st).
Proof. done. Qed.

Lemma gets_eq {A} (f : fs_state → A) st : gets f st = Some (f st, st).
Proof. done. Qed.

Lemma ret_eq {A} (a : A) st : ret a st = Some (a, st).
Proof. done. Qed.

Lemma bind_assoc {A B C} (m : M A) (k : A → M B) (k' : B → M C) st :
  bind (bind m k) k' st = bind m (λ a, bind (k a) k') st.
Proof. unfold bind. by destruct (m st) as [[??]|]. Qed.

Lemma with_open_cnt_back i x : with_open_cnt (open_cnt i) (with_open_cnt x i) = i.
Proof. by destruct i. Qed.

(** The inode that [inode_open] leaves, when the counter does not
    overflow. *)
Lemma opened_facts q o :
  (∀ i, o = Some i → 0 < open_cnt i < 2147483646) →
  0 < open_cnt (opened q o) < 2147483647
  ∧ ((∃ i, o = Some i ∧ open_cnt (opened q o) = open_cnt i + 1
           ∧ 0 < open_cnt i < 2147483646 ∧ removed (opened q o) = removed i)
     ∨ (o = None ∧ open_cnt (opened q o) = 1 ∧ removed (opened q o) = false)).
Proof.
  intros Hb. destruct o as [i|]; simpl.
  - specialize (Hb i eq_refl). rewrite to_s32_id by (unfold in_s32; lia).
    split; [lia|]. left. exists i. split_and!; [done|done|lia..|done].
  - split; [lia|]. by right.
Qed.

(** The steps of [filesys_remove] on a directory up to the decision: the
    lookup, the test for a directory, the second opener, the scan and the
    close of the scanning handle.  The target is left with one more
    opener. *)
Lemma filesys_remove_scan st d fn k e :
  settled st →
  list_find (live_entry fn) (dir_table st (dir_inode d)) = Some (k, e) →
  inode_sector e ≠ NO_SECTOR →
  is_dir (inode_disk_of_bytes (sector_contents st (inode_sector e))) ≠ 0 →
  (∀ i, inode_of st (inode_sector e) = Some i → 0 < open_cnt i < 2147483646) →
  ∃ st5 j,
    (p <- dir_lookup (Some d) fn ;;
           isdir <- match p with
                    | Some q => inode_is_dir q
                    | None => ret false
                    end ;;
           success <- (if isdir then
                         cp_inode <- inode_reopen p ;;
                         child_dir <- dir_open cp_inode ;;
                         child <- lift_opt child_dir ;;
                         tbl <- gets dir_table ;;
                         is_deletable <- only_dot_entries (S (length (tbl (dir_inode child)))) child ;;
                         dir_close child_dir ;;
                         if is_deletable then dir_remove (Some d) fn else ret false
                       else dir_remove (Some d) fn) ;;
           inode_close p ;;
           dir_close (Some d) ;;
           ret success) st
    = (success <- (if bool_decide (only_dots (dir_table st (inode_sector e)))
                   then dir_remove (Some d) fn else ret false) ;;
       inode_close (Some (inode_sector e)) ;;
       dir_close (Some d) ;;
       ret success) st5
    ∧ settled st5 ∧ same_disk st st5
    ∧ nothing_removed st st5
    ∧ inode_of st5 (inode_sector e) = Some j
    ∧ j = opened (inode_sector e) (inode_of st (inode_sector e))
    ∧ same_inodes_but (inode_sector e) st st5.
Proof.
  intros Hs Hfind Hq Hdir Hcnt. set (q := inode_sector e) in *.
  destruct (opened_facts q _ Hcnt) as (Hc2 & _).
  (* the lookup *)
  destruct (dir_lookup_spec d fn st k e (proj2 (proj2 Hs)) Hfind)
    as (st2 & H2 & Hoi2 & Hq2 & Hothers2). fold q in H2, Hq2, Hothers2.
  set (j2 := opened q (inode_of st q)) in *.
  pose proof (only_inodes_settled _ _ Hoi2 Hs) as Hs2.
  pose proof (only_inodes_same_disk _ _ Hoi2) as Hd2.
  (* the test for a directory *)
  destruct (inode_is_dir_spec q st2 j2 Hs2 Hq2) as (st3 & H3 & Hs3 & Hd3 & Hl3).
  rewrite (proj2 (proj2 Hd2) q Hq) in H3.
  destruct (Z.eqb_spec (is_dir (inode_disk_of_bytes (sector_contents st q))) 0)
    as [?|_]; [done|]. cbn [negb] in H3.
  assert (Hq3 : inode_of st3 q = Some j2) by (by rewrite (inode_of_ext _ _ _ Hl3)).
  (* the second opener *)
  destruct (inode_reopen_spec q st3 j2 Hq3) as (st4 & H4 & Hoi4 & Hq4 & Hothers4).
  rewrite to_s32_id in Hq4 by (unfold in_s32; lia).
  pose proof (only_inodes_settled _ _ Hoi4 Hs3) as Hs4.
  pose proof (only_inodes_same_disk _ _ Hoi4) as Hd4.
  (* the scan *)
  pose proof (dir_open_spec q st4 (proj2 (proj2 Hs4))) as H4o.
  assert (Hdt4 : dir_table st4 = dir_table st).
  { rewrite (proj1 (proj2 Hd4)), (proj1 (proj2 Hd3)). apply Hd2. }
  pose proof (only_dot_entries_spec (S (length (dir_table st4 q))) q 0 st4) as H4s.
  rewrite !drop_0 in H4s. specialize (H4s ltac:(lia)). 
  (* the close of the scanning handle *)
  destruct (inode_close_spec q st4 _ Hq4) as (st5 & H5 & Hoi5 & Hq5 & Hothers5).
  { left. cbn [open_cnt with_open_cnt]. rewrite to_s32_id by (unfold in_s32; lia). lia. }
  cbn [open_cnt with_open_cnt] in Hq5.
  rewrite to_s32_id in Hq5 by (unfold in_s32; lia).
  specialize (Hq5 ltac:(lia)).
  replace (open_cnt j2 + 1 - 1) with (open_cnt j2) in Hq5 by lia.
  rewrite with_open_cnt_back in Hq5.
  pose proof (only_inodes_settled _ _ Hoi5 Hs4) as Hs5.
  pose proof (only_inodes_same_disk _ _ Hoi5) as Hd5.
  exists st5, j2. split_and!.
  - rewrite (bind_eq _ _ _ _ _ H2). cbv beta iota.
    rewrite (bind_eq _ _ _ _ _ H3). cbv beta iota.
    rewrite bind_assoc. rewrite (bind_eq _ _ _ _ _ H4). cbv beta iota.
    rewrite bind_assoc. rewrite (bind_eq _ _ _ _ _ H4o). cbv beta iota.
    rewrite bind_assoc. rewrite (bind_eq _ _ _ _ _ (lift_opt_eq _ _)). cbv beta iota.
    rewrite bind_assoc. rewrite (bind_eq _ _ _ _ _ (gets_eq _ _)). cbv beta iota.
    cbn [dir_inode].
    rewrite bind_assoc. rewrite (bind_eq _ _ _ _ _ H4s). cbv beta iota.
    unfold dir_close at 1. cbn [dir_inode].
    rewrite bind_assoc. rewrite (bind_eq _ _ _ _ _ H5). cbv beta iota.
    by rewrite Hdt4.
  - done.
  - eauto using same_disk_trans.
  - assert (HI2 : nothing_removed st st2).
    { eapply (keeps_apply (nothing_removed st)); [|exact H2|apply nothing_removed_refl].
      apply keeps_dir_lookup; eauto with kept. }
    assert (HI3 : nothing_removed st st3).
    { eapply (keeps_apply (nothing_removed st)); [|exact H3|exact HI2].
      apply keeps_inode_is_dir; eauto with kept. }
    assert (HI4 : nothing_removed st st4).
    { eapply (keeps_apply (nothing_removed st)); [|exact H4|exact HI3].
      apply keeps_inode_reopen; eauto with kept. }
    eapply (keeps_apply (nothing_removed st)); [|exact H5|exact HI4].
    apply keeps_inode_close; eauto with kept.
  - done.
  - done.
  - intros q' Hne. rewrite (Hothers5 q' Hne), (Hothers4 q' Hne).
    rewrite (inode_of_ext _ _ _ Hl3). by apply Hothers2.
Qed.

(** ** Closing the last opener of a removed inode *)

Lemma only_free_map_refl st : only_free_map st st.
Proof. by unfold only_free_map, same_cache. Qed.

Lemma only_free_map_trans st1 st2 st3 :
  only_free_map st1 st2 → only_free_map st2 st3 → only_free_map st1 st3.
Proof.
  unfold only_free_map, same_cache.
  intros ((?&?&?)&?&?&?&?) ((?&?&?)&?&?&?&?). split_and!; congruence.
Qed.

Lemma free_map_release_spec sec cnt st :
  ∃ st', free_map_release sec cnt st = Some (tt, st')
    ∧ only_free_map st st'
    ∧ free_map st' = bitmap_set_multiple (free_map st) (Z.to_nat sec) (Z.to_nat cnt) false.
Proof.
  unfold free_map_release, bind, gets, modify. eexists. split; [done|].
  split; [|done]. unfold only_free_map, same_cache. simpl.
  by rewrite length_bitmap_set_multiple.
Qed.

Lemma release_entries_spec ws ws' st :
  ∃ st', release_entries (ws ++ 0 :: ws') st = Some (tt, st') ∧ only_free_map st st'.
Proof.
  revert st. induction ws as [|w ws IH]; intros st; simpl.
  - exists st. split; [done | apply only_free_map_refl].
  - destruct (0 <? w).
    + destruct (free_map_release_spec w 1 st) as (st1 & H1 & Hf1 & _).
      rewrite (bind_eq _ _ _ _ _ H1). destruct (IH st1) as (st' & H' & Hf').
      exists st'. split; [done|]. by eapply only_free_map_trans.
    + exists st. split; [done | apply only_free_map_refl].
Qed.

(** The sectors of an inode without indirect blocks are released by the
    loop over the direct pointers alone. *)
Lemma free_inode_sectors_spec hdr st :
  indirect_block_sec hdr = 0 → double_indirect_block_sec hdr = 0 →
  ∃ st', free_inode_sectors hdr st = Some (tt, st') ∧ only_free_map st st'.
Proof.
  intros Hi Hd. unfold free_inode_sectors. rewrite Hi, Hd.
  change (0 <? 0) with false. cbv beta iota.
  rewrite (bind_eq _ _ _ _ _ (ret_eq true st)). cbn [negb].
  rewrite (bind_eq _ _ _ _ _ (ret_eq true st)). cbn [negb].
  unfold inode_disk_words. rewrite Hi. apply release_entries_spec.
Qed.

Lemma open_inodes_remove_spec q st i :
  inode_of st q = Some i →
  ∃ st', open_inodes_remove q st = Some (tt, st')
    ∧ only_inodes st st' ∧ same_inodes_but q st st'.
Proof.
  intros [k Hk]%inode_of_Some.
  unfold open_inodes_remove, bind, gets, lift_opt, modify. rewrite Hk. simpl.
  eexists. split; [done|]. split.
  - by unfold only_inodes, same_cache.
  - intros q' Hne. unfold inode_of at 1. simpl.
    by rewrite (find_inode_delete_other _ _ _ _ _ Hk Hne).
Qed.

Lemma only_free_map_settled st st' : only_free_map st st' → settled st → settled st'.
Proof.
  intros (Hc & _ & _ & Ho & _) (? & ? & ?). split_and!.
  - by eapply same_cache_shape.
  - by eapply same_cache_coherent.
  - congruence.
Qed.

(** [inode_close] by the last opener of an inode marked removed, whose
    header has no indirect blocks: the inode's sector is released. *)
Lemma inode_close_last q st i :
  settled st → inode_of st q = Some i →
  to_s32 (open_cnt i - 1) = 0 → removed i = true →
  indirect_block_sec (inode_disk_of_bytes (sector_contents st q)) = 0 →
  double_indirect_block_sec (inode_disk_of_bytes (sector_contents st q)) = 0 →
  ∃ st', inode_close (Some q) st = Some (tt, st')
    ∧ settled st'
    ∧ dir_table st' = dir_table st
    ∧ (∀ s, s ≠ NO_SECTOR → sector_contents st' s = sector_contents st s)
    ∧ same_inodes_but q st st'
    ∧ length (free_map st') = length (free_map st)
    ∧ ((Z.to_nat q < length (free_map st))%nat →
       free_map st' !! Z.to_nat q = Some false).
Proof.
  intros Hs Hi Hz Hrm Hind Hdbl. unfold inode_close.
  rewrite (bind_eq _ _ _ _ _ (inode_deref_spec _ _ _ Hi)).
  destruct (inode_modify_spec q (with_open_cnt (to_s32 (open_cnt i - 1))) st i Hi)
    as (st1 & H1 & Hoi1 & Hq1 & Hothers1); [by apply inode_of_sector in Hi|].
  rewrite (bind_eq _ _ _ _ _ H1). rewrite Hz. change (0 =? 0) with true. cbv beta iota.
  destruct (open_inodes_remove_spec q st1 _ Hq1) as (st2 & H2 & Hoi2 & Hothers2).
  rewrite (bind_eq _ _ _ _ _ H2). rewrite Hrm.
  pose proof (only_inodes_settled _ _ Hoi1 Hs) as Hs1.
  pose proof (only_inodes_settled _ _ Hoi2 Hs1) as Hs2.
  pose proof (only_inodes_same_disk _ _ Hoi1) as (Hfm1 & Hdt1 & Hct1).
  pose proof (only_inodes_same_disk _ _ Hoi2) as (Hfm2 & Hdt2 & Hct2).
  rewrite (bind_eq _ _ _ _ _ (malloc_empty _ (proj2 (proj2 Hs2)))). cbn [negb].
  rewrite (inode_of_sector _ _ _ Hi).
  destruct (read_block_spec q st2 Hs2) as (st3 & H3 & Hs3 & (Hfm3 & Hdt3 & Hct3) & Hl3 & _).
  rewrite (bind_eq _ _ _ _ _ H3).
  assert (Hsame : sector_contents st2 q = sector_contents st q).
  { rewrite (same_cache_contents st1 st2) by apply Hoi2.
    apply same_cache_contents, Hoi1. }
  rewrite Hsame.
  destruct (free_inode_sectors_spec _ st3 Hind Hdbl) as (st4 & H4 & Hf4).
  rewrite (bind_eq _ _ _ _ _ H4).
  destruct (free_map_release_spec q 1 st4) as (st5 & H5 & Hf5 & Hbits).
  exists st5. split; [done|].
  pose proof (only_free_map_settled _ _ Hf4 Hs3) as Hs4.
  pose proof (only_free_map_settled _ _ Hf5 Hs4) as Hs5.
  destruct Hf4 as (Hc4 & Hl4 & Hdt4 & _ & Hlen4).
  destruct Hf5 as (Hc5 & Hl5 & Hdt5 & _ & Hlen5).
  split_and!.
  - done.
  - congruence.
  - intros s Hne. rewrite (same_cache_contents st4 st5 s Hc5).
    rewrite (same_cache_contents st3 st4 s Hc4).
    rewrite Hct3, Hct2, Hct1; done.
  - intros q' Hne. rewrite (inode_of_ext st4 st5) by done.
    rewrite (inode_of_ext st3 st4) by done. rewrite (inode_of_ext st2 st3) by done.
    rewrite (Hothers2 q' Hne). by apply Hothers1.
  - congruence.
  - intros Hrange. rewrite Hbits, lookup_bitmap_set_multiple.
    rewrite decide_True by lia.
    destruct (lookup_lt_is_Some_2 (free_map st4) (Z.to_nat q)) as [b ->]; [|done].
    rewrite Hlen4, Hfm3, Hfm2, Hfm1. done.
Qed.

Lemma modify_eq (g : fs_state → fs_state) st : modify g st = Some (tt, g st).
Proof. done. Qed.

Lemma with_removed_back i x :
  with_open_cnt (open_cnt i) (with_removed true (with_open_cnt x i)) = with_removed true i.
Proof. by destruct i. Qed.

(** [dir_remove] of an entry whose inode is open: the entry is erased and
    the inode is marked removed. *)
Lemma dir_remove_spec d fn st k e j :
  settled st →
  list_find (live_entry fn) (dir_table st (dir_inode d)) = Some (k, e) →
  inode_of st (inode_sector e) = Some j → 0 < open_cnt j < 2147483647 →
  ∃ st', dir_remove (Some d) fn st = Some (true, st')
    ∧ settled st'
    ∧ dir_table st'
      = <[dir_inode d := <[k := mk_dir_entry (inode_sector e) (name e) false]>
                           (dir_table st (dir_inode d))]> (dir_table st)
    ∧ free_map st' = free_map st
    ∧ (∀ s, s ≠ NO_SECTOR → sector_contents st' s = sector_contents st s)
    ∧ inode_of st' (inode_sector e) = Some (with_removed true j)
    ∧ same_inodes_but (inode_sector e) st st'.
Proof.
  intros Hs Hfind Hj Hc. set (q := inode_sector e) in *.
  unfold dir_remove.
  rewrite (bind_eq _ _ _ _ _ (lift_opt_eq _ _)).
  rewrite (bind_eq _ _ _ _ _ (gets_eq _ _)). cbv beta zeta. rewrite Hfind.
  destruct (inode_open_spec q st (proj2 (proj2 Hs))) as (st1 & H1 & Hoi1 & Hq1 & Hothers1).
  fold q. rewrite (bind_eq _ _ _ _ _ H1). cbv beta iota.
  rewrite (bind_eq _ _ _ _ _ (modify_eq _ _)).
  pose proof (only_inodes_settled _ _ Hoi1 Hs) as Hs1.
  pose proof (only_inodes_same_disk _ _ Hoi1) as (Hfm1 & Hdt1 & Hct1).
  set (st2 := with_dir_table _ st1).
  assert (Hs2 : settled st2) by exact Hs1.
  rewrite Hj in Hq1. cbn [opened] in Hq1.
  rewrite to_s32_id in Hq1 by (unfold in_s32; lia).
  assert (Hq2 : inode_of st2 q = Some (with_open_cnt (open_cnt j + 1) j)) by exact Hq1.
  unfold inode_remove.
  destruct (inode_modify_spec q (with_removed true) st2 _ Hq2)
    as (st3 & H3 & Hoi3 & Hq3 & Hothers3).
  { cbn. by apply inode_of_sector in Hj. }
  rewrite (bind_eq _ _ _ _ _ H3).
  pose proof (only_inodes_settled _ _ Hoi3 Hs2) as Hs3.
  pose proof (only_inodes_same_disk _ _ Hoi3) as (Hfm3 & Hdt3 & Hct3).
  destruct (inode_close_spec q st3 _ Hq3) as (st4 & H4 & Hoi4 & Hq4 & Hothers4).
  { left. cbn [open_cnt with_open_cnt with_removed].
    rewrite to_s32_id by (unfold in_s32; lia). lia. }
  rewrite (bind_eq _ _ _ _ _ H4).
  cbn [open_cnt with_open_cnt with_removed] in Hq4.
  rewrite to_s32_id in Hq4 by (unfold in_s32; lia).
  specialize (Hq4 ltac:(lia)).
  replace (open_cnt j + 1 - 1) with (open_cnt j) in Hq4 by lia.
  pose proof (only_inodes_settled _ _ Hoi4 Hs3) as Hs4.
  pose proof (only_inodes_same_disk _ _ Hoi4) as (Hfm4 & Hdt4 & Hct4).
  exists st4. split; [done|]. split_and!.
  - done.
  - rewrite Hdt4, Hdt3. unfold st2. by cbn [dir_table with_dir_table].
  - rewrite Hfm4, Hfm3. exact Hfm1.
  - intros s Hne. rewrite Hct4, Hct3 by done. by apply Hct1.
  - by rewrite Hq4, with_removed_back.
  - intros q' Hne. rewrite (Hothers4 q' Hne), (Hothers3 q' Hne). by apply Hothers1.
Qed.

(** [inode_close] in general, for an inode whose header has no indirect
    blocks when this is the last opener of an inode marked removed. *)
Lemma inode_close_any q st i :
  settled st → inode_of st q = Some i → in_s32 (open_cnt i - 1) →
  (open_cnt i = 1 → removed i = true →
   indirect_block_sec (inode_disk_of_bytes (sector_contents st q)) = 0
   ∧ double_indirect_block_sec (inode_disk_of_bytes (sector_contents st q)) = 0) →
  ∃ st', inode_close (Some q) st = Some (tt, st')
    ∧ settled st'
    ∧ dir_table st' = dir_table st
    ∧ (∀ s, s ≠ NO_SECTOR → sector_contents st' s = sector_contents st s)
    ∧ same_inodes_but q st st'
    ∧ length (free_map st') = length (free_map st)
    ∧ (open_cnt i ≠ 1 → inode_of st' q = Some (with_open_cnt (open_cnt i - 1) i))
    ∧ (open_cnt i ≠ 1 ∨ removed i = false → free_map st' = free_map st)
    ∧ (open_cnt i = 1 → removed i = true → (Z.to_nat q < length (free_map st))%nat →
       free_map st' !! Z.to_nat q = Some false).
Proof.
  intros Hs Hi Hrange Hplain.
  pose proof (to_s32_id _ Hrange) as Hcnt.
  destruct (decide (open_cnt i = 1 ∧ removed i = true)) as [[H1 Hrm]|Hnot].
  - destruct (Hplain H1 Hrm) as [Hind Hdbl].
    destruct (inode_close_last q st i Hs Hi) as (st' & H' & ? & ? & ? & ? & ? & ?);
      [rewrite Hcnt; lia | done..|].
    exists st'. split; [done|]. split_and!; try done.
    intros [?|?]; congruence.
  - destruct (inode_close_spec q st i Hi) as (st' & H' & Hoi & Hq & Hothers).
    { rewrite Hcnt. destruct (removed i); [left|by right].
      intros ?. apply Hnot. split; [lia|done]. }
    exists st'. split; [done|].
    pose proof (only_inodes_settled _ _ Hoi Hs).
    pose proof (only_inodes_same_disk _ _ Hoi) as (Hfm & Hdt & Hct).
    split_and!; try done.
    + by rewrite Hfm.
    + intros Hne. rewrite <- Hcnt. apply Hq. rewrite Hcnt. lia.
    + intros H1 Hrm. destruct Hnot. done.
Qed.

Lemma nothing_removed_trans st1 st2 st3 :
  nothing_removed st1 st2 → nothing_removed st2 st3 → nothing_removed st1 st3.
Proof.
  intros [H1 H1'] [H2 H2']. split; [congruence|]. by eapply no_new_removed_trans.
Qed.

(** X24.  [filesys_remove] on a directory when no allocation fails, from
    the point where the path is resolved to the parent [d] and the final
    name [fn], whose entry [e] leads to the directory of sector
    [inode_sector e].  If that directory
    has an entry in use other than ["."] and [".."], the call returns false
    and removes nothing: every directory has the entries it had before the
    call, no inode is marked removed that was not, and the free map and the
    sectors are as the path resolution left them.  If it has only ["."] and
    [".."], the call returns true, the entry is erased from the parent, and
    the directory's inode is marked removed: it stays open, flagged, for its
    other openers, and when there is none it is closed and its sector is
    released.  No allocation fails, the parent is open and not removed, the
    count of openers does not overflow, and an inode that is released has no
    indirect blocks. *)
Theorem filesys_remove_directory st nm st0 d fn st1 di k e :
  malloc st = Some (true, st0) →
  parse_path (Some nm) (Some EmptyString) st0 = Some ((Some d, Some fn), st1) →
  settled st1 →
  inode_of st1 (dir_inode d) = Some di → removed di = false →
  list_find (live_entry fn) (dir_table st1 (dir_inode d)) = Some (k, e) →
  inode_sector e ≠ NO_SECTOR →
  is_dir (inode_disk_of_bytes (sector_contents st1 (inode_sector e))) ≠ 0 →
  (∀ i, inode_of st1 (inode_sector e) = Some i → 0 < open_cnt i < 2147483646) →
  (only_dots (dir_table st1 (inode_sector e)) →
   indirect_block_sec (inode_disk_of_bytes (sector_contents st1 (inode_sector e))) = 0
   ∧ double_indirect_block_sec (inode_disk_of_bytes (sector_contents st1 (inode_sector e))) = 0
   ∧ (Z.to_nat (inode_sector e) < length (free_map st1))%nat) →
  ∃ r st', filesys_remove nm st = Some (r, st')
    ∧ (¬ only_dots (dir_table st1 (inode_sector e)) →
       r = false ∧ nothing_removed st st' ∧ same_disk st1 st')
    ∧ (only_dots (dir_table st1 (inode_sector e)) →
       r = true
       ∧ dir_table st'
         = <[dir_inode d := <[k := mk_dir_entry (inode_sector e) (name e) false]>
                              (dir_table st (dir_inode d))]> (dir_table st)
       ∧ (other_openers st1 d (inode_sector e) ≠ 0 →
          ∃ i, inode_of st' (inode_sector e) = Some i ∧ removed i = true
               ∧ open_cnt i = other_openers st1 d (inode_sector e))
       ∧ (other_openers st1 d (inode_sector e) = 0 →
          free_map st' !! Z.to_nat (inode_sector e) = Some false)).
Proof.
  intros Hm Hp Hs1 Hd Hrm Hfind Hq Hdir Hcnt Hplain. set (q := inode_sector e) in *.
  assert (HI1 : nothing_removed st st1).
  { eapply (keeps_apply (nothing_removed st)); [|exact Hp|].
    - apply keeps_parse_path; eauto with kept.
    - eapply (keeps_apply (nothing_removed st)); [|exact Hm|apply nothing_removed_refl].
      apply keeps_malloc; eauto with kept. }
  destruct (opened_facts q _ Hcnt) as (Hc & Hcases).
  destruct (filesys_remove_scan st1 d fn k e Hs1 Hfind Hq Hdir Hcnt)
    as (st5 & j & Hscan & Hs5 & Hd5 & HI5 & Hq5 & -> & Hothers5).
  fold q in Hscan, Hq5, Hothers5. set (j := opened q (inode_of st1 q)) in *.
  unfold filesys_remove.
  rewrite (bind_eq _ _ _ _ _ Hm). cbn [negb].
  rewrite (bind_eq _ _ _ _ _ Hp). cbv beta iota zeta. cbn [default from_option id].
  unfold dir_get_inode.
  rewrite (bind_eq _ _ _ _ _ (inode_is_removed_spec _ _ _ Hd)). rewrite Hrm.
  rewrite Hscan. clear Hscan.
  destruct Hd5 as (Hfm5 & Hdt5 & Hct5).
  assert (Hd5' : q ≠ dir_inode d → inode_of st5 (dir_inode d) = Some di).
  { intros Hne. rewrite Hothers5 by congruence. done. }
  destruct (decide (only_dots (dir_table st1 q))) as [Hdots|Hdots].
  - (* only the dots: the entry is erased *)
    rewrite bool_decide_eq_true_2 by done.
    destruct (Hplain Hdots) as (Hind & Hdbl & Hrange).
    destruct (dir_remove_spec d fn st5 k e j Hs5) as
      (st6 & H6 & Hs6 & Hdt6 & Hfm6 & Hct6 & Hq6 & Hothers6); [by rewrite Hdt5|done..|].
    fold q in Hq6, Hothers6.
    rewrite (bind_eq _ _ _ _ _ H6).
    destruct (inode_close_any q st6 _ Hs6 Hq6) as
      (st7 & H7 & Hs7 & Hdt7 & Hct7 & Hothers7 & Hlen7 & Hq7 & Hfm7 & Hfree7).
    { cbn. unfold in_s32. lia. }
    { intros _ _. rewrite Hct6, Hct5 by done. done. }
    rewrite (bind_eq _ _ _ _ _ H7). unfold dir_close.
    cbn [open_cnt removed with_removed] in Hq7, Hfm7, Hfree7.
    assert (Htable : ∀ s, dir_table s = dir_table st7 →
      dir_table s = <[dir_inode d := <[k := mk_dir_entry q (name e) false]>
                                       (dir_table st (dir_inode d))]> (dir_table st)).
    { intros s ->. rewrite Hdt7, Hdt6, Hdt5. by rewrite (proj1 HI1). }
    unfold other_openers. fold q.
    destruct (decide (q = dir_inode d)) as [Heq|Hne].
    + (* the directory removes itself *)
      rewrite <- Heq in *.
      destruct Hcases as [(i1 & E1 & Hcj & Hci & Hrj) | (E1 & _)]; [|congruence].
      rewrite E1. assert (i1 = di) as -> by congruence.
      specialize (Hq7 ltac:(lia)).
      destruct (inode_close_any q st7 _ Hs7 Hq7) as
        (st8 & H8 & Hs8 & Hdt8 & Hct8 & Hothers8 & Hlen8 & Hq8 & Hfm8 & Hfree8).
      { cbn. unfold in_s32. lia. }
      { intros _ _. rewrite Hct7, Hct6, Hct5 by done. done. }
      rewrite (bind_eq _ _ _ _ _ H8).
      cbn [open_cnt removed with_removed with_open_cnt] in Hq8, Hfm8, Hfree8.
      exists true, st8. split; [done|]. split; [done|]. intros _. split_and!.
      * done.
      * by apply Htable.
      * intros Hothers. eexists. split; [apply Hq8; lia|]. split; [done|]. cbn. lia.
      * intros Hothers. apply Hfree8; [lia|done|]. rewrite Hlen7, Hfm6, Hfm5. done.
    + (* the directory is an entry of another one *)
      assert (Hd7 : inode_of st7 (dir_inode d) = Some di).
      { rewrite Hothers7, Hothers6 by done. by apply Hd5'. }
      destruct (inode_close_spec (dir_inode d) st7 di Hd7) as
        (st8 & H8 & Hoi8 & _ & Hothers8); [by right|].
      rewrite (bind_eq _ _ _ _ _ H8).
      pose proof (only_inodes_same_disk _ _ Hoi8) as (Hfm8 & Hdt8 & Hct8).
      exists true, st8. split; [done|]. split; [done|]. intros _. split_and!.
      * done.
      * by apply Htable.
      * rewrite (Hothers8 q Hne).
        destruct Hcases as [(i1 & E1 & Hcj & Hci & Hrj) | (E1 & _)];
          rewrite E1; intros Hothers; [|lia].
        eexists. split; [apply Hq7; lia|]. split; [done|]. cbn. lia.
      * rewrite Hfm8.
        destruct Hcases as [(i1 & E1 & Hcj & Hci & Hrj) | (E1 & Hcj & Hrj)];
          rewrite E1; intros Hothers; [lia|].
        apply Hfree7; [done..|]. rewrite Hfm6, Hfm5. done.
  - (* another entry in use: nothing is removed *)
    rewrite bool_decide_eq_false_2 by done.
    rewrite (bind_eq _ _ _ _ _ (ret_eq false st5)).
    assert (Hkeep : open_cnt j ≠ 1 ∨ removed j = false).
    { destruct Hcases as [(i1 & E1 & Hcj & Hci & Hrj) | (E1 & Hcj & Hrj)];
        [left; lia | by right]. }
    destruct (inode_close_any q st5 j Hs5 Hq5) as
      (st6 & H6 & Hs6 & Hdt6 & Hct6 & Hothers6 & Hlen6 & Hq6 & Hfm6 & _).
    { unfold in_s32. lia. }
    { intros ? ?. destruct Hkeep; congruence. }
    rewrite (bind_eq _ _ _ _ _ H6). unfold dir_close.
    assert (Hd6 : ∃ x, inode_of st6 (dir_inode d) = Some x ∧ removed x = false).
    { destruct (decide (q = dir_inode d)) as [Heq|Hne].
      - rewrite <- Heq in *.
        destruct Hcases as [(i1 & E1 & Hcj & Hci & Hrj) | (E1 & _)]; [|congruence].
        assert (i1 = di) as -> by congruence.
        eexists. split; [apply Hq6; lia|]. cbn. congruence.
      - exists di. split; [|done]. rewrite Hothers6 by done. by apply Hd5'. }
    destruct Hd6 as (x & Hx & Hrx).
    destruct (inode_close_spec (dir_inode d) st6 x Hx) as
      (st7 & H7 & Hoi7 & _ & Hothers7); [by right|].
    rewrite (bind_eq _ _ _ _ _ H7).
    pose proof (only_inodes_same_disk _ _ Hoi7) as (Hfm7 & Hdt7 & Hct7).
    exists false, st7. split; [done|]. split; [|done]. intros _. split_and!.
    + done.
    + eapply (keeps_apply (nothing_removed st)); [|exact H7|].
      { apply keeps_inode_close; eauto with kept. }
      eapply (keeps_apply (nothing_removed st)); [|exact H6|].
      { apply keeps_inode_close; eauto with kept. }
      by eapply nothing_removed_trans.
    + split_and!.
      * rewrite Hfm7, (Hfm6 Hkeep). done.
      * congruence.
      * intros s Hs. rewrite Hct7, Hct6, Hct5; done.
Qed.

(** C5, as amended.  On the empty string [parse_path] returns null and
    leaves the buffer [file_name] as it is.  On ["/"] alone it returns a
    handle on the root directory, whose inode it opens, with [file_name] set
    to ["."], when no allocation fails. *)
Theorem parse_path_empty_and_root :
  (∀ st file_name,
     parse_path (Some EmptyString) file_name st = Some ((None, file_name), st))
  ∧ (∀ st buf, malloc_oracle st = [] →
       ∃ st', parse_path (Some "/"%string) (Some buf) st
              = Some ((Some (mk_dir ROOT_DIR_SECTOR 0), Some "."%string), st')
         ∧ only_inodes st st'
         ∧ inode_of st' ROOT_DIR_SECTOR
           = Some (opened ROOT_DIR_SECTOR (inode_of st ROOT_DIR_SECTOR))).
Proof.
  split.
  - intros st [buf|]; reflexivity.
  - intros st buf Ho. unfold parse_path.
    change (String.length "/" =? 0)%nat with false. cbv beta iota.
    rewrite bool_decide_eq_true_2 by reflexivity. unfold dir_open_root.
    destruct (inode_open_spec ROOT_DIR_SECTOR st Ho) as (st' & H1 & Hoi & Hq & _).
    rewrite bind_assoc. rewrite (bind_eq _ _ _ _ _ H1).
    assert (Ho' : malloc_oracle st' = []) by (destruct Hoi as (_&_&_&->&_); done).
    rewrite (bind_eq _ _ _ _ _ (dir_open_spec _ _ Ho')).
    exists st'. split; [reflexivity|]. done.
Qed.

Lemma parse_path_empty_and_root_witness :
  ∃ st', parse_path (Some "/"%string) (Some EmptyString) (fs_formatted 8)
         = Some ((Some (mk_dir ROOT_DIR_SECTOR 0), Some "."%string), st').
Proof.
  destruct (proj2 parse_path_empty_and_root (fs_formatted 8) EmptyString eq_refl)
    as (st' & H & _).
  by exists st'.
Defined.

Lemma fs_with_dirs_settled nfree : settled (fs_with_dirs_resolved nfree).
Proof.
  split_and!; [|split|reflexivity].
  - unfold cache_shape. split; [reflexivity|]. split; [done|]. split.
    + intros i h Hh. cbn in Hh. apply lookup_replicate in Hh as [-> _]. reflexivity.
    + intros sec. cbn [fs_device fs_with_dirs_resolved fs_with_dirs with_open_inodes].
      repeat (match goal with
              | |- context [<[?k := _]> _ sec] =>
                  destruct (decide (k = sec)) as [<-|];
                  [by rewrite fn_lookup_insert | rewrite fn_lookup_insert_ne by done]
              end).
      reflexivity.
  - intros i j hi hj Hi Hj _ Hne. cbn in Hi. apply lookup_replicate in Hi as [-> _]. done.
  - intros i h Hi _ Hne. cbn in Hi. apply lookup_replicate in Hi as [-> _]. done.
Qed.

Lemma filesys_remove_directory_witness :
  (∃ st', filesys_remove "a" (fs_with_dirs 8) = Some (false, st')
     ∧ nothing_removed (fs_with_dirs 8) st'
     ∧ free_map st' = free_map (fs_with_dirs 8))
  ∧ (∃ st', filesys_remove "b" (fs_with_dirs 8) = Some (true, st')
       ∧ dir_table st' ROOT_DIR_SECTOR
         = [mk_dir_entry ROOT_DIR_SECTOR "." true; mk_dir_entry ROOT_DIR_SECTOR ".." true;
            mk_dir_entry 2 "a" true; mk_dir_entry 3 "b" false]
       ∧ free_map st' !! 3%nat = Some false).
Proof.
  split.
  - destruct (filesys_remove_directory (fs_with_dirs 8) "a" (fs_with_dirs 8)
                (mk_dir ROOT_DIR_SECTOR 0) "a" (fs_with_dirs_resolved 8)
                (mk_inode ROOT_DIR_SECTOR 2 false 0 false) 2%nat (mk_dir_entry 2 "a" true))
      as (r & st' & Hrun & Hne & _).
    + reflexivity.
    + vm_compute. reflexivity.
    + apply fs_with_dirs_settled.
    + reflexivity.
    + reflexivity.
    + reflexivity.
    + by vm_compute.
    + by vm_compute.
    + intros i Hi. vm_compute in Hi. discriminate.
    + intros Hdots. exfalso. revert Hdots.
      apply (bool_decide_eq_false_1 (only_dots _)). vm_compute. reflexivity.
    + destruct Hne as (-> & Hkeep & Hdisk).
      { apply (bool_decide_eq_false_1 (only_dots _)). vm_compute. reflexivity. }
      exists st'. split; [done|]. split; [done|]. apply Hdisk.
  - destruct (filesys_remove_directory (fs_with_dirs 8) "b" (fs_with_dirs 8)
                (mk_dir ROOT_DIR_SECTOR 0) "b" (fs_with_dirs_resolved 8)
                (mk_inode ROOT_DIR_SECTOR 2 false 0 false) 3%nat (mk_dir_entry 3 "b" true))
      as (r & st' & Hrun & _ & He).
    + reflexivity.
    + vm_compute. reflexivity.
    + apply fs_with_dirs_settled.
    + reflexivity.
    + reflexivity.
    + reflexivity.
    + by vm_compute.
    + by vm_compute.
    + intros i Hi. vm_compute in Hi. discriminate.
    + intros _. split_and!; [by vm_compute|by vm_compute|simpl; lia].
    + destruct He as (-> & Htable & _ & Hfree).
      { apply (bool_decide_eq_true_1 (only_dots _)). vm_compute. reflexivity. }
      exists st'. split; [done|]. split.
      * rewrite Htable. reflexivity.
      * apply Hfree. reflexivity.
Defined.

(** C9.  [filesys_remove ("a")] on [fs_with_dirs], where the directory
    ["a"] (sector 2) holds the file ["f"] (sector 4).  When every
    allocation succeeds the call returns false and the entries and the
    free map stay.  When the [malloc] of [inode_is_dir] fails (the fourth
    allocation of the call), or the one of [inode_open] under [dir_lookup]
    (the third), [filesys_remove] takes the directory for a file: it
    returns true, the entry ["a"] of the root is erased and sector 2 is
    released, while ["f"] is still an entry of the directory and sector 4
    is still allocated.  What is observed: the result, whether the
    entries ["a"] of the root and ["f"] of the directory are in use, and
    the bits of sectors 2 and 4 in the free map. *)
Theorem filesys_remove_unlinks_directory_in_use :
  let after o :=
    run (r <- filesys_remove "a" ;;
         tbl <- gets dir_table ;;
         fm <- gets free_map ;;
         ret (r, in_use <$> tbl ROOT_DIR_SECTOR !! 2%nat, in_use <$> tbl 2 !! 2%nat,
              fm !! 2%nat, fm !! 4%nat))
      (with_malloc_oracle o (fs_with_dirs 8)) in
  ¬ only_dots (dir_table (fs_with_dirs 8) 2)
  ∧ after [] = Some (false, Some true, Some true, Some true, Some true)
  ∧ after [true; true; true; false]
    = Some (true, Some false, Some true, Some false, Some true)
  ∧ after [true; true; false]
    = Some (true, Some false, Some true, Some false, Some true).
Proof.
  split; [|by vm_compute].
  apply (bool_decide_eq_false_1 (only_dots _)). vm_compute. reflexivity.
Qed.

(** ** Copies, byte by byte *)

Lemma memcpy_inside dst dofs src sofs n r (i : nat) :
  memcpy dst dofs src sofs n = Some r → Z.of_nat i < n →
  r !! (Z.to_nat dofs + i)%nat = src !! (Z.to_nat sofs + i)%nat.
Proof.
  intros [Hb ->]%memcpy_Some Hi.
  rewrite lookup_app_r by (rewrite length_take; lia).
  rewrite length_take. replace (Z.to_nat dofs + i - Z.to_nat dofs `min` length dst)%nat
    with i by lia.
  rewrite lookup_app_l by (rewrite length_take, length_drop; lia).
  rewrite lookup_take_lt by lia. by rewrite lookup_drop.
Qed.

Lemma memcpy_is_Some dst dofs src sofs n :
  0 <= n → 0 <= dofs → 0 <= sofs →
  dofs + n <= Z.of_nat (length dst) → sofs + n <= Z.of_nat (length src) →
  is_Some (memcpy dst dofs src sofs n).
Proof. intros. eexists. apply memcpy_Some. split; [lia|done]. Qed.

(** ** A slot that takes a sector's new contents *)

Lemma store_coherent hs dev p e sec v cb data :
  coherent hs dev → hs !! p = Some e →
  bh_sector e = sec ∨ bh_sector e = NO_SECTOR →
  (sec ≠ NO_SECTOR → ∀ j x, j ≠ p → hs !! j = Some x → bh_sector x ≠ sec) →
  let hs' := <[p := mk_buffer_head true v sec cb data]> hs in
  coherent hs' dev
  ∧ (∀ s, s ≠ NO_SECTOR → s ≠ sec → cached_contents hs' dev s = cached_contents hs dev s).
Proof.
  intros [Huniq Hclean] Hp Hold Hothers hs'.
  assert (Hlt : (p < length hs)%nat) by (by eapply lookup_lt_Some).
  split; [split|].
  - intros i j hi hj Hi Hj Heq Hne. unfold hs' in Hi, Hj.
    destruct (decide (i = p)) as [->|Hip], (decide (j = p)) as [->|Hjp]; [done|..].
    + rewrite list_lookup_insert_eq in Hi by done.
      rewrite list_lookup_insert_ne in Hj by done. simplify_eq. simpl in *.
      exfalso. eapply (Hothers Hne j hj); [done|done|congruence].
    + rewrite list_lookup_insert_eq in Hj by done.
      rewrite list_lookup_insert_ne in Hi by done. simplify_eq. simpl in *.
      exfalso. eapply (Hothers ltac:(congruence) i hi); [done|done|congruence].
    + rewrite list_lookup_insert_ne in Hi, Hj by done. eauto.
  - intros i h Hi Hd Hne. unfold hs' in Hi.
    destruct (decide (i = p)) as [->|Hip].
    + rewrite list_lookup_insert_eq in Hi by done. by simplify_eq.
    + rewrite list_lookup_insert_ne in Hi by done. eauto.
  - intros s Hs Hne. unfold cached_contents, hs'.
    rewrite (list_find_insert_other (λ h, bh_sector h = s)); [done| |simpl; congruence].
    intros y Hy. simplify_eq. destruct Hold; congruence.
Qed.

(** ** [bc_write] and the other sectors *)

Lemma bc_write_preserves sec buf bofs chunk sofs st r st' :
  bc_write sec buf bofs chunk sofs st = Some (r, st') →
  0 <= sofs → sofs + chunk <= BLOCK_SECTOR_SIZE →
  cache_shape st → cache_coherent st →
  cache_shape st' ∧ cache_coherent st'
  ∧ (∀ s, s ≠ NO_SECTOR → s ≠ sec → sector_contents st' s = sector_contents st s).
Proof.
  unfold bc_write. intros H Hlo Hhi (Hlen & Hhand & Hdata & Hdev) Hco.
  mbind H as plk st0 Hl. apply gets_Some in Hl as [-> ->].
  mbind H as p st1 Hp. mbind H as h st1' Hh. apply head_at_Some in Hh as [Hh ->].
  mbind H as data' st1' Hcpy. rewrite memcpy_to_slot_in in Hcpy by done.
  apply lift_opt_Some in Hcpy as [Hcpy ->].
  mon_inv. simpl.
  pose proof (memcpy_length _ _ _ _ _ _ Hcpy) as Hlen'.
  assert (Hshape : ∀ (hs : list buffer_head) (dev : Z → list Z) hand,
    length hs = Z.to_nat BUFFER_CACHE_ENTRY_NB → 0 <= hand < BUFFER_CACHE_ENTRY_NB →
    (∀ i x, hs !! i = Some x → length (bh_data x) = Z.to_nat BLOCK_SECTOR_SIZE) →
    (∀ s, length (dev s) = Z.to_nat BLOCK_SECTOR_SIZE) →
    hs !! p = Some h →
    length (<[p := mk_buffer_head true true sec true data']> hs)
      = Z.to_nat BUFFER_CACHE_ENTRY_NB
    ∧ 0 <= hand < BUFFER_CACHE_ENTRY_NB
    ∧ (∀ i x, <[p := mk_buffer_head true true sec true data']> hs !! i = Some x →
         length (bh_data x) = Z.to_nat BLOCK_SECTOR_SIZE)
    ∧ (∀ s, length (dev s) = Z.to_nat BLOCK_SECTOR_SIZE)).
  { intros hs dev hand Hl Hha Hda Hde Hph. rewrite length_insert.
    split; [done|]. split; [done|]. split; [|done].
    intros i x Hx. destruct (decide (p = i)) as [->|].
    - rewrite list_lookup_insert_eq in Hx by (by eapply lookup_lt_Some).
      simplify_eq. simpl. rewrite Hlen'. eauto.
    - rewrite list_lookup_insert_ne in Hx by done. eauto. }
  destruct (bc_lookup sec st) as [p0|] eqn:Hlk.
  - mon_inv. apply bc_lookup_Some in Hlk as (h0 & Hf0).
    pose proof Hf0 as (Hp0 & Hsec0 & Hbefore)%list_find_Some. simplify_eq.
    destruct (store_coherent _ _ _ _ (bh_sector h) true true data' Hco Hh) as [Hco' Hcont].
    { by left. }
    { intros Hne j x Hj Hx Heq. apply Hj. destruct Hco as [Huniq _].
      eapply Huniq; [done|done|congruence|congruence]. }
    split_and!; [by apply Hshape | done | done].
  - mbind Hp as idx st2 Hv. mbind Hp as h2 st2' Hh2.
    apply head_at_Some in Hh2 as [Hh2 ->]. mon_inv. simpl in *.
    destruct (fault_in_device _ _ _ _ Hlk Hv) as (Hdev' & Hlen2 & Hothers & _).
    apply bc_select_victim_spec in Hv as (h0 & Hh0 & Hsame & Hdev2 & Hout & Hhand2).
    pose proof (evict_coherent _ _ _ _ Hco Hh0) as [Hco1 Hcont1].
    rewrite <- Hdev2 in Hco1, Hcont1.
    pose proof (heads_same_coherent _ _ _ Hsame Hco1) as Hco2.
    pose proof (Forall2_lookup_r _ _ _ _ _ Hsame Hh2) as (e & He & (_ & _ & Hes & Hed)).
    rewrite list_lookup_insert_eq in He by (by eapply lookup_lt_Some).
    simplify_eq. simpl in *.
    rewrite list_lookup_insert_eq in Hh by done. simplify_eq. simpl in *.
    rewrite list_insert_insert_eq.
    destruct (store_coherent _ _ idx h2 sec true true data' Hco2 Hh2) as [Hco3 Hcont3].
    { by right. }
    { intros _. exact Hothers. }
    pose proof (Forall2_length _ _ _ Hsame) as Hl2. rewrite length_insert in Hl2.
    assert (Hdev_len : ∀ s, length (fs_device st2 s) = Z.to_nat BLOCK_SECTOR_SIZE).
    { intros s. rewrite Hdev2. destruct (bh_dirty h0); [|done].
      destruct (decide (bh_sector h0 = s)) as [->|].
      - rewrite fn_lookup_insert. eauto.
      - by rewrite fn_lookup_insert_ne. }
    assert (Hdata2 : ∀ i x, buffer_heads st2 !! i = Some x →
              length (bh_data x) = Z.to_nat BLOCK_SECTOR_SIZE).
    { intros i x Hx.
      destruct (Forall2_lookup_r _ _ _ _ _ Hsame Hx) as (y & Hy & (_ & _ & _ & Hyd)).
      rewrite <- Hyd. destruct (decide (idx = i)) as [->|].
      - rewrite list_lookup_insert_eq in Hy by (by eapply lookup_lt_Some).
        simplify_eq. simpl. eauto.
      - rewrite list_lookup_insert_ne in Hy by done. eauto. }
    split_and!.
    + unfold cache_shape. simpl. rewrite length_insert.
      split; [lia|]. split; [by auto|]. split; [|done].
      intros i x Hx. destruct (decide (idx = i)) as [->|].
      * rewrite list_lookup_insert_eq in Hx by done. simplify_eq. simpl.
        rewrite Hlen'. apply Hdev_len.
      * rewrite list_lookup_insert_ne in Hx by done. eauto.
    + done.
    + intros s Hs Hne. unfold sector_contents. simpl.
      rewrite Hcont3 by done.
      rewrite (heads_same_contents _ _ _ _ Hsame). by apply Hcont1.
Qed.

(** ** Eviction *)

Lemma bc_select_victim_preserves st idx st' :
  bc_select_victim st = Some (idx, st') →
  cache_shape st → cache_coherent st →
  cache_shape st' ∧ cache_coherent st'
  ∧ (∀ s, s ≠ NO_SECTOR → sector_contents st' s = sector_contents st s)
  ∧ ∃ h, buffer_heads st' !! idx = Some h
         ∧ bh_dirty h = false ∧ bh_valid h = false ∧ bh_sector h = NO_SECTOR.
Proof.
  intros Hv (Hlen & Hhand & Hdata & Hdev) Hco.
  apply bc_select_victim_spec in Hv as (h0 & Hh0 & Hsame & Hdev2 & Hout & Hhand2).
  pose proof (evict_coherent _ _ _ _ Hco Hh0) as [Hco1 Hcont1].
  rewrite <- Hdev2 in Hco1, Hcont1.
  pose proof (heads_same_coherent _ _ _ Hsame Hco1) as Hco2.
  pose proof (Forall2_length _ _ _ Hsame) as Hl2. rewrite length_insert in Hl2.
  assert (Hlt : (idx < length (buffer_heads st))%nat) by (by eapply lookup_lt_Some).
  split_and!.
  - unfold cache_shape. split; [lia|]. split; [by auto|]. split.
    + intros i x Hx.
      destruct (Forall2_lookup_r _ _ _ _ _ Hsame Hx) as (y & Hy & (_ & _ & _ & Hyd)).
      rewrite <- Hyd. destruct (decide (idx = i)) as [->|].
      * rewrite list_lookup_insert_eq in Hy by done. simplify_eq. simpl. eauto.
      * rewrite list_lookup_insert_ne in Hy by done. eauto.
    + intros s. rewrite Hdev2. destruct (bh_dirty h0); [|done].
      destruct (decide (bh_sector h0 = s)) as [->|].
      * rewrite fn_lookup_insert. eauto.
      * by rewrite fn_lookup_insert_ne.
  - done.
  - intros s Hs. unfold sector_contents.
    rewrite (heads_same_contents _ _ _ s Hsame). by apply Hcont1.
  - destruct (lookup_lt_is_Some_2 (buffer_heads st') idx) as [h Hh]; [lia|].
    exists h. split; [done|].
    destruct (Forall2_lookup_r _ _ _ _ _ Hsame Hh) as (y & Hy & (Hd & Hv & Hs & _)).
    rewrite list_lookup_insert_eq in Hy by done. simplify_eq. simpl in *. done.
Qed.

(** X1.  On a well-formed cache [bc_select_victim] always returns (the
    clock sweep ends), and the slot it returns is empty: not dirty, not
    valid, with sector [-1].  What it evicted is not lost: a dirty
    victim was written to the device first, so every sector holds what it
    held. *)
Theorem bc_select_victim_empties_slot st :
  cache_shape st → cache_coherent st →
  ∃ idx st' h,
    bc_select_victim st = Some (idx, st')
    ∧ (idx < Z.to_nat BUFFER_CACHE_ENTRY_NB)%nat
    ∧ buffer_heads st' !! idx = Some h
    ∧ bh_dirty h = false ∧ bh_valid h = false ∧ bh_sector h = NO_SECTOR
    ∧ cache_shape st' ∧ cache_coherent st'
    ∧ (∀ s, s ≠ NO_SECTOR → sector_contents st' s = sector_contents st s).
Proof.
  intros Hshape Hco. pose proof Hshape as (Hlen & Hhand & _).
  destruct (bc_select_victim_returns st Hlen Hhand) as (idx & st' & Hv).
  destruct (bc_select_victim_preserves _ _ _ Hv Hshape Hco)
    as (Hshape' & Hco' & Hcont & h & Hh & ? & ? & ?).
  exists idx, st', h. split_and!; try done.
  apply lookup_lt_Some in Hh. destruct Hshape' as (Hlen' & _). lia.
Qed.

Lemma bc_select_victim_empties_slot_witness :
  ∃ idx st' h,
    bc_select_victim (fs_formatted 8) = Some (idx, st')
    ∧ (idx < Z.to_nat BUFFER_CACHE_ENTRY_NB)%nat
    ∧ buffer_heads st' !! idx = Some h
    ∧ bh_dirty h = false ∧ bh_valid h = false ∧ bh_sector h = NO_SECTOR
    ∧ cache_shape st' ∧ cache_coherent st'
    ∧ (∀ s, s ≠ NO_SECTOR → sector_contents st' s = sector_contents (fs_formatted 8) s).
Proof.
  apply (bc_select_victim_empties_slot (fs_formatted 8)).
  - apply fs_formatted_shape.
  - apply fs_formatted_coherent.
Defined.

(** ** Reads *)

(** X2.  On a well-formed cache, [bc_read] of a chunk that lies inside the
    sector and inside the buffer returns true; the chunk of the buffer holds
    the bytes of the sector (the cached block if there is one, the
    device's otherwise), the rest of the buffer is as it was, and no
    sector holds anything else than before, whatever was evicted. *)
Theorem bc_read_copies_sector st sec buf bofs chunk sofs :
  cache_shape st → cache_coherent st →
  0 <= chunk → 0 <= sofs → sofs + chunk <= BLOCK_SECTOR_SIZE →
  0 <= bofs → bofs + chunk <= Z.of_nat (length buf) →
  ∃ buf' st',
    bc_read sec buf bofs chunk sofs st = Some ((true, buf'), st')
    ∧ length buf' = length buf
    ∧ (∀ i : nat, Z.of_nat i < chunk →
         buf' !! (Z.to_nat bofs + i)%nat
         = sector_contents st sec !! (Z.to_nat sofs + i)%nat)
    ∧ (∀ i : nat, ¬ (bofs <= Z.of_nat i < bofs + chunk) → buf' !! i = buf !! i)
    ∧ cache_shape st' ∧ cache_coherent st'
    ∧ (∀ s, s ≠ NO_SECTOR → sector_contents st' s = sector_contents st s).
Proof.
  intros Hshape Hco Hchunk Hsofs Hsend Hbofs Hbend.
  destruct (memcpy_is_Some buf bofs (sector_contents st sec) sofs chunk)
    as [buf' Hcpy]; [done..| |].
  { rewrite sector_contents_length by done. lia. }
  destruct (bc_read_returns _ _ _ _ _ _ _ Hshape Hcpy) as (st' & Hr).
  destruct (bc_read_preserves _ _ _ _ _ _ _ _ Hr Hshape Hco) as (? & ? & ?).
  exists buf', st'. split_and!; try done.
  - by eapply memcpy_length.
  - intros i Hi. by eapply memcpy_inside.
  - intros i Hi. by eapply memcpy_outside.
Qed.

Lemma bc_read_copies_sector_witness :
  ∃ buf' st',
    bc_read 1 [7; 8; 9] 1 2 500 (fs_formatted 8) = Some ((true, buf'), st')
    ∧ length buf' = 3%nat
    ∧ (∀ i : nat, Z.of_nat i < 2 →
         buf' !! (Z.to_nat 1 + i)%nat
         = sector_contents (fs_formatted 8) 1 !! (Z.to_nat 500 + i)%nat)
    ∧ (∀ i : nat, ¬ (1 <= Z.of_nat i < 1 + 2) → buf' !! i = [7; 8; 9] !! i)
    ∧ cache_shape st' ∧ cache_coherent st'
    ∧ (∀ s, s ≠ NO_SECTOR → sector_contents st' s = sector_contents (fs_formatted 8) s).
Proof.
  apply (bc_read_copies_sector (fs_formatted 8) 1 [7; 8; 9] 1 2 500).
  - apply fs_formatted_shape.
  - apply fs_formatted_coherent.
  - lia.
  - lia.
  - unfold BLOCK_SECTOR_SIZE. lia.
  - lia.
  - simpl. lia.
Defined.

(** ** Writes *)

(** X3.  On a well-formed cache, [bc_write] of a chunk that lies inside
    the sector and inside the buffer returns true; afterwards the sector
    holds the chunk at [sector_ofs] and its old bytes elsewhere, and every
    other sector holds what it held. *)
Theorem bc_write_updates_sector st sec buf bofs chunk sofs :
  cache_shape st → cache_coherent st →
  0 <= chunk → 0 <= sofs → sofs + chunk <= BLOCK_SECTOR_SIZE →
  0 <= bofs → bofs + chunk <= Z.of_nat (length buf) →
  ∃ st',
    bc_write sec buf bofs chunk sofs st = Some (true, st')
    ∧ (∀ i : nat, Z.of_nat i < chunk →
         sector_contents st' sec !! (Z.to_nat sofs + i)%nat
         = buf !! (Z.to_nat bofs + i)%nat)
    ∧ (∀ i : nat, ¬ (sofs <= Z.of_nat i < sofs + chunk) →
         sector_contents st' sec !! i = sector_contents st sec !! i)
    ∧ (∀ s, s ≠ NO_SECTOR → s ≠ sec → sector_contents st' s = sector_contents st s)
    ∧ cache_shape st' ∧ cache_coherent st'.
Proof.
  intros Hshape Hco Hchunk Hsofs Hsend Hbofs Hbend.
  destruct (memcpy_is_Some (sector_contents st sec) sofs buf bofs chunk)
    as [data' Hcpy]; [done..| |done|].
  { rewrite sector_contents_length by done. lia. }
  destruct (bc_write_returns _ _ _ _ _ _ _ Hshape Hcpy) as (st' & Hw).
  destruct (bc_write_contents _ _ _ _ _ _ _ _ Hw ltac:(in_slot) ltac:(in_slot)) as (_ & Hcpy' & _).
  destruct (bc_write_preserves _ _ _ _ _ _ _ _ Hw ltac:(in_slot) ltac:(in_slot) Hshape Hco) as (? & ? & ?).
  exists st'. split_and!; try done.
  - intros i Hi. by eapply memcpy_inside.
  - intros i Hi. by eapply memcpy_outside.
Qed.

Lemma bc_write_updates_sector_witness :
  ∃ st',
    bc_write 5 [7; 8; 9] 1 2 10 (fs_formatted 8) = Some (true, st')
    ∧ (∀ i : nat, Z.of_nat i < 2 →
         sector_contents st' 5 !! (Z.to_nat 10 + i)%nat
         = [7; 8; 9] !! (Z.to_nat 1 + i)%nat)
    ∧ (∀ i : nat, ¬ (10 <= Z.of_nat i < 10 + 2) →
         sector_contents st' 5 !! i = sector_contents (fs_formatted 8) 5 !! i)
    ∧ (∀ s, s ≠ NO_SECTOR → s ≠ 5 →
         sector_contents st' s = sector_contents (fs_formatted 8) s)
    ∧ cache_shape st' ∧ cache_coherent st'.
Proof.
  apply (bc_write_updates_sector (fs_formatted 8) 5 [7; 8; 9] 1 2 10).
  - apply fs_formatted_shape.
  - apply fs_formatted_coherent.
  - lia.
  - lia.
  - unfold BLOCK_SECTOR_SIZE. lia.
  - lia.
  - simpl. lia.
Defined.

(** X4.  What [bc_write] puts into a sector, a [bc_read] of the same
    sector and range gives back. *)
Theorem bc_write_then_bc_read st sec buf bofs chunk sofs out :
  cache_shape st → cache_coherent st →
  0 <= chunk → 0 <= sofs → sofs + chunk <= BLOCK_SECTOR_SIZE →
  0 <= bofs → bofs + chunk <= Z.of_nat (length buf) →
  chunk <= Z.of_nat (length out) →
  ∃ st1 out' st2,
    bc_write sec buf bofs chunk sofs st = Some (true, st1)
    ∧ bc_read sec out 0 chunk sofs st1 = Some ((true, out'), st2)
    ∧ ∀ i : nat, Z.of_nat i < chunk → out' !! i = buf !! (Z.to_nat bofs + i)%nat.
Proof.
  intros Hshape Hco Hchunk Hsofs Hsend Hbofs Hbend Hout.
  destruct (memcpy_is_Some (sector_contents st sec) sofs buf bofs chunk)
    as [data' Hcpy]; [done..| |done|].
  { rewrite sector_contents_length by done. lia. }
  destruct (bc_write_returns _ _ _ _ _ _ _ Hshape Hcpy) as (st1 & Hw).
  destruct (bc_write_contents _ _ _ _ _ _ _ _ Hw ltac:(in_slot) ltac:(in_slot)) as (_ & Hcpy1 & _).
  destruct (bc_write_preserves _ _ _ _ _ _ _ _ Hw ltac:(in_slot) ltac:(in_slot) Hshape Hco) as (Hshape1 & _ & _).
  destruct (memcpy_is_Some out 0 (sector_contents st1 sec) sofs chunk)
    as [out' Hcpy2]; [done..| |].
  { rewrite sector_contents_length by done. lia. }
  destruct (bc_read_returns _ _ _ _ _ _ _ Hshape1 Hcpy2) as (st2 & Hr).
  exists st1, out', st2. split_and!; [done..|].
  intros i Hi.
  rewrite <- (memcpy_inside _ _ _ _ _ _ i Hcpy1 Hi).
  by rewrite <- (memcpy_inside _ _ _ _ _ _ i Hcpy2 Hi).
Qed.

Lemma bc_write_then_bc_read_witness :
  ∃ st1 out' st2,
    bc_write 5 [7; 8; 9] 1 2 10 (fs_formatted 8) = Some (true, st1)
    ∧ bc_read 5 [0; 0] 0 2 10 st1 = Some ((true, out'), st2)
    ∧ ∀ i : nat, Z.of_nat i < 2 → out' !! i = [7; 8; 9] !! (Z.to_nat 1 + i)%nat.
Proof.
  apply (bc_write_then_bc_read (fs_formatted 8) 5 [7; 8; 9] 1 2 10 [0; 0]).
  - apply fs_formatted_shape.
  - apply fs_formatted_coherent.
  - lia.
  - lia.
  - unfold BLOCK_SECTOR_SIZE. lia.
  - lia.
  - simpl. lia.
  - simpl. lia.
Defined.

(** ** Writing the cache back *)

(** One slot written back: the device takes its block, the slot is clean. *)
Lemma flush_slot_coherent hs dev idx h :
  coherent hs dev → hs !! idx = Some h →
  let hs' := <[idx := bh_with_dirty false h]> hs in
  let dev' := <[bh_sector h := bh_data h]> dev in
  coherent hs' dev'
  ∧ (∀ s, cached_contents hs' dev' s = cached_contents hs dev s).
Proof.
  intros [Huniq Hclean] Hidx hs' dev'.
  assert (Hlt : (idx < length hs)%nat) by (by eapply lookup_lt_Some).
  assert (Hlook : ∀ i x, hs' !! i = Some x →
            ∃ y, hs !! i = Some y ∧ bh_sector x = bh_sector y ∧ bh_data x = bh_data y
                 ∧ (i ≠ idx → x = y)).
  { intros i x Hx. unfold hs' in Hx. destruct (decide (i = idx)) as [->|].
    - rewrite list_lookup_insert_eq in Hx by done. simplify_eq. by exists h.
    - rewrite list_lookup_insert_ne in Hx by done. by exists x. }
  split; [split|].
  - intros i j hi hj Hi Hj Heq Hne.
    destruct (Hlook _ _ Hi) as (yi & Hyi & Hsi & _).
    destruct (Hlook _ _ Hj) as (yj & Hyj & Hsj & _).
    eapply (Huniq i j yi yj); congruence.
  - intros i x Hx Hd Hne. unfold dev'.
    destruct (Hlook _ _ Hx) as (y & Hy & Hs & Hdata & Hsame).
    destruct (decide (bh_sector h = bh_sector x)) as [Heq|Hneq].
    + rewrite Heq, fn_lookup_insert. rewrite Hdata.
      assert (i = idx) as -> by (eapply (Huniq i idx y h); congruence).
      congruence.
    + rewrite fn_lookup_insert_ne by done.
      destruct (decide (i = idx)) as [->|Hi]; [congruence|].
      pose proof (Hsame Hi) as ->. by eapply (Hclean i).
  - intros s. unfold cached_contents, hs', dev'.
    destruct (list_find (λ x, bh_sector x = s) hs) as [[k y]|] eqn:E.
    + apply list_find_Some in E as (Hk & Hs & Hbefore).
      destruct (decide (k = idx)) as [->|Hne].
      * assert (y = h) as -> by congruence. subst s.
        rewrite (list_find_insert_first (λ x, bh_sector x = bh_sector h)); try done.
        intros j z Hj Hz. by eapply Hbefore.
      * assert (list_find (λ x, bh_sector x = s) (<[idx := bh_with_dirty false h]> hs)
                = Some (k, y)) as ->; [|done].
        apply list_find_Some. split_and!.
        -- by rewrite list_lookup_insert_ne.
        -- done.
        -- intros j z Hz Hj. destruct (decide (j = idx)) as [->|].
           ++ rewrite list_lookup_insert_eq in Hz by done. simplify_eq. simpl.
              by eapply Hbefore.
           ++ rewrite list_lookup_insert_ne in Hz by done. by eapply Hbefore.
    + apply list_find_None in E.
      assert (list_find (λ x, bh_sector x = s) (<[idx := bh_with_dirty false h]> hs)
              = None) as ->.
      { apply list_find_None. apply Forall_insert; [done|]. simpl.
        by eapply (Forall_lookup_1 _ _ _ _ E). }
      rewrite fn_lookup_insert_ne; [done|].
      by eapply (Forall_lookup_1 _ _ _ _ E).
Qed.

Lemma bc_flush_all_entries_loop_spec idxs st :
  cache_shape st → cache_coherent st →
  (∀ i, i ∈ idxs → (i < length (buffer_heads st))%nat) →
  ∃ st', bc_flush_all_entries_loop idxs st = Some (tt, st')
    ∧ cache_shape st' ∧ cache_coherent st'
    ∧ same_outside_cache st st'
    ∧ (∀ s, sector_contents st' s = sector_contents st s)
    ∧ (∀ i h', buffer_heads st' !! i = Some h' →
         (i ∈ idxs → bh_dirty h' = false)
         ∧ ∃ h, buffer_heads st !! i = Some h
                ∧ bh_sector h' = bh_sector h ∧ bh_data h' = bh_data h
                ∧ bh_valid h' = bh_valid h ∧ bh_clock_bit h' = bh_clock_bit h
                ∧ (bh_dirty h' = true → bh_dirty h = true)).
Proof.
  revert st. induction idxs as [|idx idxs IH]; intros st Hshape Hco Hin.
  - exists st. split; [done|]. split_and!; try done.
    intros i h' Hh'. split; [intros Hnil; inversion Hnil|]. by exists h'.
  - cbn [bc_flush_all_entries_loop].
    destruct (lookup_lt_is_Some_2 (buffer_heads st) idx) as [h Hh].
    { apply Hin. by left. }
    rewrite (bind_eq _ _ _ _ _ (proj2 (head_at_Some idx st h st) (conj Hh eq_refl))).
    destruct (bh_dirty h) eqn:Hdirty.
    + (* the slot is written back *)
      set (st1 := with_buffer_heads (<[idx := bh_with_dirty false h]> (buffer_heads st))
                    (with_fs_device (<[bh_sector h := bh_data h]> (fs_device st)) st)).
      assert (Hrun : (block_write (bh_sector h) (bh_data h) ;;
                      set_head idx (bh_with_dirty false h)) st = Some (tt, st1)) by done.
      rewrite (bind_eq _ _ _ _ _ Hrun).
      destruct (flush_slot_coherent _ _ _ _ Hco Hh) as [Hco1 Hcont1].
      assert (Hshape1 : cache_shape st1).
      { destruct Hshape as (Hlen & Hhand & Hdata & Hdev).
        unfold cache_shape, st1. simpl. rewrite length_insert.
        split; [done|]. split; [done|]. split.
        - intros i x Hx. destruct (decide (i = idx)) as [->|].
          + rewrite list_lookup_insert_eq in Hx by (by eapply lookup_lt_Some).
            simplify_eq. simpl. eauto.
          + rewrite list_lookup_insert_ne in Hx by done. eauto.
        - intros s. destruct (decide (bh_sector h = s)) as [->|].
          + rewrite fn_lookup_insert. eauto.
          + by rewrite fn_lookup_insert_ne. }
      destruct (IH st1 Hshape1 Hco1) as (st' & Hloop & Hshape' & Hco' & Hout & Hcont & Hslots).
      { intros i Hi. unfold st1. simpl. rewrite length_insert. apply Hin. by right. }
      exists st'. split; [done|]. split_and!; try done.
      * intros s. rewrite Hcont. apply Hcont1.
      * intros i h' Hh'. destruct (Hslots i h' Hh') as (Hclean & y & Hy & Hs & Hd & Hv & Hc & Hdy).
        unfold st1 in Hy. simpl in Hy.
        destruct (decide (i = idx)) as [->|Hne].
        -- rewrite list_lookup_insert_eq in Hy by (by eapply lookup_lt_Some).
           simplify_eq. simpl in *. split.
           ++ intros _. destruct (bh_dirty h'); [by specialize (Hdy eq_refl)|done].
           ++ exists h. split_and!; try done.
        -- rewrite list_lookup_insert_ne in Hy by done. split.
           ++ intros [?|?]%elem_of_cons; [done|by apply Hclean].
           ++ by exists y.
    + (* the slot is clean *)
      rewrite (bind_eq _ _ _ _ _ (eq_refl : ret tt st = Some (tt, st))).
      destruct (IH st Hshape Hco) as (st' & Hloop & Hshape' & Hco' & Hout & Hcont & Hslots).
      { intros i Hi. apply Hin. by right. }
      exists st'. split; [done|]. split_and!; try done.
      intros i h' Hh'. destruct (Hslots i h' Hh') as (Hclean & y & Hy & Hs & Hd & Hv & Hc & Hdy).
      split; [|by exists y].
      intros [->|?]%elem_of_cons; [|by apply Hclean].
      simplify_eq. destruct (bh_dirty h'); [|done]. specialize (Hdy eq_refl). congruence.
Qed.

(** X5.  [bc_flush_all_entries] on a well-formed cache returns and leaves
    no slot dirty; every sector other than [-1] holds what it held, and
    the device now holds it too.  The slots keep their sectors and
    blocks. *)
Theorem bc_flush_all_entries_writes_back st :
  cache_shape st → cache_coherent st →
  ∃ st', bc_flush_all_entries st = Some (tt, st')
    ∧ (∀ i h, buffer_heads st' !! i = Some h → bh_dirty h = false)
    ∧ (∀ s, s ≠ NO_SECTOR → fs_device st' s = sector_contents st s)
    ∧ (∀ s, sector_contents st' s = sector_contents st s)
    ∧ cache_shape st' ∧ cache_coherent st'.
Proof.
  intros Hshape Hco. unfold bc_flush_all_entries.
  destruct (bc_flush_all_entries_loop_spec (seq 0 (Z.to_nat BUFFER_CACHE_ENTRY_NB)) st)
    as (st' & Hrun & Hshape' & Hco' & _ & Hcont & Hslots); [done..| |].
  { intros i Hi%elem_of_seq. destruct Hshape as (-> & _). lia. }
  assert (Hclean : ∀ i h, buffer_heads st' !! i = Some h → bh_dirty h = false).
  { intros i h Hh. apply (proj1 (Hslots i h Hh)). apply elem_of_seq.
    apply lookup_lt_Some in Hh. destruct Hshape' as (Hlen & _). lia. }
  exists st'. split_and!; try done.
  intros s Hs. rewrite <- Hcont. unfold sector_contents, cached_contents.
  destruct (list_find _ _) as [[k h]|] eqn:E; [|done].
  apply list_find_Some in E as (Hk & <- & _).
  destruct Hco' as [_ Hcl]. symmetry. eapply Hcl; [done| by eapply Hclean | done].
Qed.

Lemma fs_with_dirty_slot_shape : cache_shape fs_with_dirty_slot.
Proof.
  destruct (fs_formatted_shape 8) as (Hlen & Hhand & Hdata & Hdev).
  unfold cache_shape, fs_with_dirty_slot. cbn [buffer_heads with_buffer_heads clock_hand fs_device].
  rewrite length_insert. split; [done|]. split; [done|]. split; [|done].
  intros i x Hx. destruct (decide (i = 0%nat)) as [->|].
  - rewrite list_lookup_insert_eq in Hx by (rewrite Hlen; vm_compute; lia).
    simplify_eq. cbn [bh_data]. by rewrite length_replicate.
  - rewrite list_lookup_insert_ne in Hx by done. eauto.
Qed.

Lemma fs_with_dirty_slot_coherent : cache_coherent fs_with_dirty_slot.
Proof.
  unfold cache_coherent, fs_with_dirty_slot. cbn [buffer_heads with_buffer_heads fs_device].
  destruct (lookup_lt_is_Some_2 (buffer_heads (fs_formatted 8)) 0) as [e He].
  { destruct (fs_formatted_shape 8) as (-> & _). vm_compute. lia. }
  eapply (store_coherent _ _ 0%nat e 5 true true); [apply fs_formatted_coherent|done|..].
  - right. unfold fs_formatted in He. cbn [buffer_heads] in He.
    apply lookup_replicate in He as [-> _]. done.
  - intros _ j x _ Hx. unfold fs_formatted in Hx. cbn [buffer_heads] in Hx.
    apply lookup_replicate in Hx as [-> _]. done.
Qed.

Lemma bc_flush_all_entries_writes_back_witness :
  ∃ st', bc_flush_all_entries fs_with_dirty_slot = Some (tt, st')
    ∧ (∀ i h, buffer_heads st' !! i = Some h → bh_dirty h = false)
    ∧ (∀ s, s ≠ NO_SECTOR → fs_device st' s = sector_contents fs_with_dirty_slot s)
    ∧ (∀ s, sector_contents st' s = sector_contents fs_with_dirty_slot s)
    ∧ cache_shape st' ∧ cache_coherent st'.
Proof.
  apply (bc_flush_all_entries_writes_back fs_with_dirty_slot).
  - apply fs_with_dirty_slot_shape.
  - apply fs_with_dirty_slot_coherent.
Defined.

(** ** Setting the cache up *)




(** ** The list of open inodes, step by step *)

Lemma open_inodes_remove_list q st r st' :
  open_inodes_remove q st = Some (r, st') →
  ∃ k i, find_inode q (open_inodes st) = Some (k, i)
         ∧ st' = with_open_inodes (delete k (open_inodes st)) st.
Proof.
  unfold open_inodes_remove, bind, gets, lift_opt, modify. intros H.
  destruct (find_inode q (open_inodes st)) as [[k i]|]; [|done].
  simplify_eq/=. eauto.
Qed.

Lemma sectors_insert_same (l : list inode) k i x :
  l !! k = Some i → sector x = sector i →
  sector <$> <[k := x]> l = sector <$> l.
Proof.
  intros Hk Hx. rewrite list_fmap_insert, Hx.
  apply list_insert_id. by rewrite list_lookup_fmap, Hk.
Qed.

Lemma inodes_unique_modify q f st r st' :
  (∀ i, sector (f i) = sector i) →
  inode_modify q f st = Some (r, st') → inodes_unique st → inodes_unique st'.
Proof.
  intros Hf H Hu. apply inode_modify_list in H as (k & i & Hfind & ->).
  unfold inodes_unique. simpl.
  apply list_find_Some in Hfind as (Hk & _). by rewrite (sectors_insert_same _ _ i).
Qed.

Lemma inodes_unique_remove q st r st' :
  open_inodes_remove q st = Some (r, st') → inodes_unique st → inodes_unique st'.
Proof.
  intros H Hu. apply open_inodes_remove_list in H as (k & i & Hfind & ->).
  unfold inodes_unique in *. simpl.
  eapply sublist_NoDup; [done|]. apply (fmap_sublist sector), sublist_delete.
Qed.

Lemma keeps_inodes_unique_reopen p : keeps inodes_unique (inode_reopen p).
Proof.
  intros st r st' H Hu. destruct p as [q|]; simpl in H; [|by mon_inv].
  mbind H as u st1 Hm. mon_inv. by eapply inodes_unique_modify; [|done|].
Qed.

Lemma keeps_inodes_unique_open sec : keeps inodes_unique (inode_open sec).
Proof.
  intros st r st' H Hu. unfold inode_open in H.
  mbind H as l st0 Hl. apply gets_Some in Hl as [-> ->].
  destruct (find_inode sec (open_inodes st)) as [[k i]|] eqn:Hfind.
  - by eapply keeps_inodes_unique_reopen.
  - mbind H as ok st1 Hm. apply malloc_inv in Hm as (_ & _ & Hl1 & _).
    destruct ok; [|mon_inv; unfold inodes_unique; by rewrite Hl1].
    unfold open_inodes_push in H. mon_inv. unfold inodes_unique. simpl.
    rewrite Hl1. apply NoDup_cons. split; [|done].
    intros (i & Hs & Hi)%list_elem_of_fmap.
    apply list_elem_of_lookup in Hi as [k Hk].
    unfold find_inode in Hfind. apply list_find_None in Hfind.
    by apply (Forall_lookup_1 _ _ _ _ Hfind Hk).
Qed.

Lemma keeps_open_inodes_free_inode_sectors L d :
  keeps (λ s, open_inodes s = L) (free_inode_sectors d).
Proof.
  apply keeps_free_inode_sectors.
  - intros st st' (_ & -> & _). done.
  - done.
  - done.
Qed.

Lemma keeps_inodes_unique_close p : keeps inodes_unique (inode_close p).
Proof.
  intros st r st' H Hu. destruct p as [q|]; simpl in H; [|by mon_inv].
  mbind H as i st0 Hd. apply inode_deref_Some in Hd as [_ ->].
  mbind H as u st1 Hm. eapply inodes_unique_modify in Hm; [|done|done].
  destruct (to_s32 (open_cnt i - 1) =? 0); [|by mon_inv].
  mbind H as u2 st2 Hr. eapply inodes_unique_remove in Hr; [|done].
  destruct (removed i); [|by mon_inv].
  mbind H as ok st3 Hmal. apply malloc_inv in Hmal as (_ & _ & Hl3 & _).
  destruct ok; [|done]. cbn [negb] in H.
  mbind H as blk st4 Hblk. apply read_block_value in Hblk as (_ & _ & Hl4 & _).
  mbind H as u5 st5 Hfree.
  pose proof (keeps_apply _ _ _ _ _
                (keeps_open_inodes_free_inode_sectors (open_inodes st4) _) Hfree eq_refl)
    as Hl5. simpl in Hl5.
  unfold free_map_release in H. mon_inv.
  unfold inodes_unique in *. simpl. congruence.
Qed.

(** X7.  The list of open inodes never holds two inodes for one sector:
    [inode_open], [inode_reopen], [inode_close], [inode_remove],
    [inode_deny_write] and [inode_allow_write] keep it so.  [inode_open]
    pushes a new inode only after it has searched the list for the sector. *)
Theorem open_inodes_stay_unique :
  (∀ sec, keeps inodes_unique (inode_open sec))
  ∧ (∀ p, keeps inodes_unique (inode_reopen p))
  ∧ (∀ p, keeps inodes_unique (inode_close p))
  ∧ (∀ p, keeps inodes_unique (inode_remove p))
  ∧ (∀ p, keeps inodes_unique (inode_deny_write p))
  ∧ (∀ p, keeps inodes_unique (inode_allow_write p)).
Proof.
  split_and!.
  - apply keeps_inodes_unique_open.
  - apply keeps_inodes_unique_reopen.
  - apply keeps_inodes_unique_close.
  - intros p st r st' H Hu. unfold inode_remove in H.
    by eapply inodes_unique_modify; [|done|].
  - intros p st r st' H Hu. unfold inode_deny_write in H.
    mbind H as u st1 Hm. eapply inodes_unique_modify in Hm; [|done|done].
    mbind H as i st2 Hd. apply inode_deref_Some in Hd as [_ ->]. by mon_inv.
  - intros p st r st' H Hu. unfold inode_allow_write in H.
    mbind H as i st1 Hd. apply inode_deref_Some in Hd as [_ ->].
    mbind H as u1 st2 Ha1. apply ASSERT_Some in Ha1 as [_ ->].
    mbind H as u2 st3 Ha2. apply ASSERT_Some in Ha2 as [_ ->].
    by eapply inodes_unique_modify; [|done|].
Qed.

(** ** Opening and closing *)

Lemma with_open_inodes_same st : with_open_inodes (open_inodes st) st = st.
Proof. by destruct st. Qed.

Lemma with_open_inodes_twice l l' st :
  with_open_inodes l (with_open_inodes l' st) = with_open_inodes l st.
Proof. done. Qed.

Lemma inode_modify_eq q f st k i :
  find_inode q (open_inodes st) = Some (k, i) →
  inode_modify q f st = Some (tt, with_open_inodes (<[k := f i]> (open_inodes st)) st).
Proof. intros H. unfold inode_modify, bind, gets, lift_opt, modify. by rewrite H. Qed.

Lemma open_inodes_remove_eq q st k i :
  find_inode q (open_inodes st) = Some (k, i) →
  open_inodes_remove q st = Some (tt, with_open_inodes (delete k (open_inodes st)) st).
Proof. intros H. unfold open_inodes_remove, bind, gets, lift_opt, modify. by rewrite H. Qed.

Lemma inode_deref_eq q st k i :
  find_inode q (open_inodes st) = Some (k, i) → inode_deref q st = Some (i, st).
Proof. intros H. apply inode_deref_Some. eauto. Qed.

(** X8.  [inode_open] followed by [inode_close] of the inode it returned
    leaves the state as it was: an inode that was open has its count of
    openers back, an inode that was not is taken off the list again, and
    nothing is read, written or released.  (No allocation fails, and the
    count does not overflow.) *)
Theorem inode_open_then_close st q :
  malloc_oracle st = [] →
  (∀ i, inode_of st q = Some i → 0 < open_cnt i < 2147483647) →
  (p <- inode_open q ;; inode_close p) st = Some (tt, st).
Proof.
  intros Ho Hcnt. unfold inode_open. rewrite bind_assoc.
  rewrite (bind_eq _ _ _ _ _ (gets_eq _ _)).
  destruct (find_inode q (open_inodes st)) as [[k i]|] eqn:Hfind.
  - assert (Hi : inode_of st q = Some i) by (apply inode_of_Some; eauto).
    specialize (Hcnt i Hi).
    pose proof Hfind as (Hk & Hsec & _)%list_find_Some.
    set (i1 := with_open_cnt (to_s32 (open_cnt i + 1)) i).
    assert (H1 : inode_reopen (Some q) st
                 = Some (Some q, with_open_inodes (<[k := i1]> (open_inodes st)) st)).
    { unfold inode_reopen. by rewrite (bind_eq _ _ _ _ _ (inode_modify_eq _ _ _ _ _ Hfind)). }
    rewrite (bind_eq _ _ _ _ _ H1).
    set (st1 := with_open_inodes (<[k := i1]> (open_inodes st)) st).
    assert (Hfind1 : find_inode q (open_inodes st1) = Some (k, i1)).
    { by apply (find_inode_insert_same q _ k i). }
    unfold inode_close.
    rewrite (bind_eq _ _ _ _ _ (inode_deref_eq _ _ _ _ Hfind1)).
    rewrite (bind_eq _ _ _ _ _ (inode_modify_eq _ _ _ _ _ Hfind1)).
    assert (Hc : to_s32 (open_cnt i1 - 1) = open_cnt i).
    { unfold i1. cbn [open_cnt with_open_cnt].
      rewrite (to_s32_id (open_cnt i + 1)) by (unfold in_s32; lia).
      rewrite to_s32_id by (unfold in_s32; lia). lia. }
    rewrite Hc. destruct (Z.eqb_spec (open_cnt i) 0) as [?|_]; [lia|].
    unfold ret. f_equal. f_equal.
    transitivity (with_open_inodes (open_inodes st) st); [|apply with_open_inodes_same].
    unfold st1 at 2. rewrite with_open_inodes_twice. f_equal.
    unfold st1. cbn [open_inodes with_open_inodes].
    rewrite list_insert_insert_eq. unfold i1. rewrite with_open_cnt_back.
    by rewrite list_insert_id.
  - rewrite bind_assoc. rewrite (bind_eq _ _ _ _ _ (malloc_empty _ Ho)).
    cbv beta iota. rewrite bind_assoc.
    set (new := mk_inode q 1 false 0 false).
    assert (Hpush : open_inodes_push new st
                    = Some (tt, with_open_inodes (new :: open_inodes st) st)) by done.
    rewrite (bind_eq _ _ _ _ _ Hpush).
    rewrite (bind_eq _ _ _ _ _ (ret_eq _ _)).
    set (st1 := with_open_inodes (new :: open_inodes st) st).
    assert (Hfind1 : find_inode q (open_inodes st1) = Some (0%nat, new)).
    { unfold find_inode, st1. cbn [open_inodes with_open_inodes list_find].
      by rewrite decide_True. }
    unfold inode_close.
    rewrite (bind_eq _ _ _ _ _ (inode_deref_eq _ _ _ _ Hfind1)).
    rewrite (bind_eq _ _ _ _ _ (inode_modify_eq _ _ _ _ _ Hfind1)).
    change (to_s32 (open_cnt new - 1) =? 0) with true. cbv beta iota.
    set (st2 := with_open_inodes _ st1).
    assert (Hfind2 : find_inode q (open_inodes st2)
                     = Some (0%nat, with_open_cnt (to_s32 (open_cnt new - 1)) new)).
    { unfold find_inode, st2, st1. cbn [open_inodes with_open_inodes list_find].
      cbn. by rewrite decide_True. }
    rewrite (bind_eq _ _ _ _ _ (open_inodes_remove_eq _ _ _ _ Hfind2)).
    change (removed new) with false. cbv beta iota.
    unfold ret. f_equal. f_equal.
    transitivity (with_open_inodes (open_inodes st) st); [|apply with_open_inodes_same].
    reflexivity.
Qed.

Lemma inode_open_then_close_witness :
  (p <- inode_open 2 ;; inode_close p) (fs_with_file 8 0) = Some (tt, fs_with_file 8 0)
  ∧ (p <- inode_open 7 ;; inode_close p) (fs_with_file 8 0) = Some (tt, fs_with_file 8 0).
Proof.
  split.
  - apply (inode_open_then_close (fs_with_file 8 0) 2); [reflexivity|].
    intros i Hi. vm_compute in Hi. injection Hi as <-. simpl. lia.
  - apply (inode_open_then_close (fs_with_file 8 0) 7); [reflexivity|].
    intros i Hi. vm_compute in Hi. discriminate.
Defined.

(** ** Denying writes *)

Lemma with_deny_write_cnt_back i x :
  with_deny_write_cnt (deny_write_cnt i) (with_deny_write_cnt x i) = i.
Proof. by destruct i. Qed.

(** X9.  For an open inode with fewer deniers than openers,
    [inode_deny_write] followed by [inode_allow_write] leaves the state as
    it was.  The assertions guard both ends: [inode_deny_write] does not
    return when every opener already denies writes, and
    [inode_allow_write] does not return when nobody does. *)
Theorem inode_deny_then_allow_write st p i :
  inode_of st p = Some i →
  0 <= deny_write_cnt i → open_cnt i < 2147483647 →
  (deny_write_cnt i < open_cnt i →
   (inode_deny_write p ;; inode_allow_write p) st = Some (tt, st))
  ∧ (deny_write_cnt i = open_cnt i → inode_deny_write p st = None)
  ∧ (deny_write_cnt i = 0 → inode_allow_write p st = None).
Proof.
  intros [k Hfind]%inode_of_Some Hd Ho.
  pose proof Hfind as (Hk & Hsec & _)%list_find_Some.
  set (i1 := with_deny_write_cnt (to_s32 (deny_write_cnt i + 1)) i).
  set (st1 := with_open_inodes (<[k := i1]> (open_inodes st)) st).
  assert (Hfind1 : find_inode p (open_inodes st1) = Some (k, i1)).
  { by apply (find_inode_insert_same p _ k i). }
  assert (Hdeny : ∀ (K : unit → M unit),
            (inode_deny_write p ;; K tt) st
            = (ASSERT (deny_write_cnt i1 <=? open_cnt i) ;; K tt) st1).
  { intros K. unfold inode_deny_write. rewrite !bind_assoc.
    rewrite (bind_eq _ _ _ _ _ (inode_modify_eq _ _ _ _ _ Hfind)).
    rewrite bind_assoc. by rewrite (bind_eq _ _ _ _ _ (inode_deref_eq _ _ _ _ Hfind1)). }
  split_and!.
  - intros Hlt. rewrite (Hdeny (λ _, inode_allow_write p)).
    assert (Hc : deny_write_cnt i1 = deny_write_cnt i + 1).
    { unfold i1. cbn. rewrite to_s32_id; [done|]. unfold in_s32. lia. }
    rewrite Hc. destruct (Z.leb_spec (deny_write_cnt i + 1) (open_cnt i)) as [_|?]; [|lia].
    rewrite (bind_eq _ _ _ _ _ (eq_refl : ASSERT true st1 = Some (tt, st1))).
    unfold inode_allow_write.
    rewrite (bind_eq _ _ _ _ _ (inode_deref_eq _ _ _ _ Hfind1)).
    rewrite Hc. change (open_cnt i1) with (open_cnt i).
    destruct (Z.ltb_spec 0 (deny_write_cnt i + 1)) as [_|?]; [|lia].
    destruct (Z.leb_spec (deny_write_cnt i + 1) (open_cnt i)) as [_|?]; [|lia].
    rewrite (bind_eq _ _ _ _ _ (eq_refl : ASSERT true st1 = Some (tt, st1))).
    rewrite (bind_eq _ _ _ _ _ (eq_refl : ASSERT true st1 = Some (tt, st1))).
    rewrite (inode_modify_eq _ _ _ _ _ Hfind1). f_equal. f_equal.
    transitivity (with_open_inodes (open_inodes st) st); [|apply with_open_inodes_same].
    unfold st1 at 2. rewrite with_open_inodes_twice. f_equal.
    unfold st1. cbn [open_inodes with_open_inodes].
    rewrite list_insert_insert_eq. rewrite Hc.
    replace (to_s32 (deny_write_cnt i + 1 - 1)) with (deny_write_cnt i)
      by (rewrite to_s32_id; [lia | unfold in_s32; lia]).
    unfold i1. rewrite with_deny_write_cnt_back. by rewrite list_insert_id.
  - intros Heq.
    pose proof (Hdeny (λ _, ret tt)) as Hrun.
    assert (Hsame : (inode_deny_write p ;; ret tt) st = None → inode_deny_write p st = None).
    { unfold bind. by destruct (inode_deny_write p st) as [[??]|]. }
    apply Hsame. rewrite Hrun.
    assert (Hc : deny_write_cnt i1 = to_s32 (open_cnt i + 1)).
    { unfold i1. cbn. by rewrite Heq. }
    rewrite Hc. unfold bind, ASSERT.
    destruct (Z.leb_spec (to_s32 (open_cnt i + 1)) (open_cnt i)) as [Hle|_]; [|done].
    exfalso. rewrite to_s32_id in Hle by (unfold in_s32; lia). lia.
  - intros Hz. unfold inode_allow_write.
    rewrite (bind_eq _ _ _ _ _ (inode_deref_eq _ _ _ _ Hfind)). by rewrite Hz.
Qed.

Lemma inode_deny_then_allow_write_witness :
  (inode_deny_write 2 ;; inode_allow_write 2) (fs_with_file 8 0)
  = Some (tt, fs_with_file 8 0)
  ∧ inode_deny_write 2 (fs_with_file 8 1) = None
  ∧ inode_allow_write 2 (fs_with_file 8 0) = None.
Proof.
  split_and!.
  - apply (inode_deny_then_allow_write (fs_with_file 8 0) 2 (mk_inode 2 1 false 0 false));
      [reflexivity | simpl; lia..].
  - apply (inode_deny_then_allow_write (fs_with_file 8 1) 2 (mk_inode 2 1 false 1 false));
      [reflexivity | simpl; lia | simpl; lia | reflexivity].
  - apply (inode_deny_then_allow_write (fs_with_file 8 0) 2 (mk_inode 2 1 false 0 false));
      [reflexivity | simpl; lia | simpl; lia | reflexivity].
Defined.

(** [inode_write_at] on an inode that denies writes. *)
Lemma inode_write_at_refused st p i buffer size offset :
  cache_shape st → cache_coherent st →
  inode_of st p = Some i → deny_write_cnt i ≠ 0 →
  ∃ st',
    inode_write_at p buffer size offset st = Some (0, st')
    ∧ (∀ s, s ≠ NO_SECTOR → sector_contents st' s = sector_contents st s)
    ∧ free_map st' = free_map st
    ∧ open_inodes st' = open_inodes st.
Proof.
  intros Hshape Hco [k Hfind]%inode_of_Some Hdeny.
  unfold inode_write_at.
  destruct (malloc_spec st) as (b & st1 & Hm & Hc1 & Hfm1 & Hoi1 & Hdt1 & _).
  rewrite (bind_eq _ _ _ _ _ Hm). destruct b; simpl.
  - pose proof (same_cache_shape _ _ Hc1 Hshape) as Hshape1.
    pose proof (same_cache_coherent _ _ Hc1 Hco) as Hco1.
    destruct (read_block_returns (sector i) st1 Hshape1) as (st2 & Hr).
    assert (Hfind1 : find_inode p (open_inodes st1) = Some (k, i)) by (by rewrite Hoi1).
    assert (Hg : get_disk_inode p st1
                 = Some (inode_disk_of_bytes
                           (take (Z.to_nat BLOCK_SECTOR_SIZE)
                              (sector_contents st1 (sector i))), st2)).
    { unfold get_disk_inode.
      rewrite (bind_eq _ _ _ _ _ (inode_deref_eq _ _ _ _ Hfind1)).
      by rewrite (bind_eq _ _ _ _ _ Hr). }
    rewrite (bind_eq _ _ _ _ _ Hg).
    pose proof (read_block_preserves _ _ _ _ Hr Hshape1 Hco1) as (_ & _ & Hcont).
    apply read_block_value in Hr as (_ & (Hfm2 & Hoi2 & _ & Hdt2 & _)).
    assert (Hfind2 : find_inode p (open_inodes st2) = Some (k, i)) by (by rewrite Hoi2).
    rewrite (bind_eq _ _ _ _ _ (inode_deref_eq _ _ _ _ Hfind2)).
    destruct (Z.eqb_spec (deny_write_cnt i) 0); [done|]. simpl.
    eexists. split; [reflexivity|]. split_and!; [|congruence..].
    intros s Hs. rewrite Hcont by done. by apply same_cache_contents.
  - eexists. split; [reflexivity|]. split_and!; [|done..].
    intros s _. by apply same_cache_contents.
Qed.

(** X10.  Once [inode_deny_write] has returned, [inode_write_at] on the
    inode returns 0 whatever the buffer, the size and the offset, and
    leaves every sector and the free map as they were. *)
Theorem inode_deny_write_stops_writes st p i buffer size offset :
  cache_shape st → cache_coherent st →
  inode_of st p = Some i →
  0 <= deny_write_cnt i < open_cnt i → open_cnt i < 2147483647 →
  ∃ st',
    (inode_deny_write p ;; inode_write_at p buffer size offset) st = Some (0, st')
    ∧ (∀ s, s ≠ NO_SECTOR → sector_contents st' s = sector_contents st s)
    ∧ free_map st' = free_map st.
Proof.
  intros Hshape Hco Hi Hd Ho.
  pose proof Hi as [k Hfind]%inode_of_Some.
  set (i1 := with_deny_write_cnt (to_s32 (deny_write_cnt i + 1)) i).
  set (st1 := with_open_inodes (<[k := i1]> (open_inodes st)) st).
  assert (Hfind1 : find_inode p (open_inodes st1) = Some (k, i1)).
  { apply (find_inode_insert_same p _ k i); [done|].
    unfold i1. cbn [sector with_deny_write_cnt]. by eapply find_inode_sector. }
  assert (Hc : deny_write_cnt i1 = deny_write_cnt i + 1).
  { unfold i1. cbn. rewrite to_s32_id; [done|]. unfold in_s32. lia. }
  assert (Hdeny : inode_deny_write p st = Some (tt, st1)).
  { unfold inode_deny_write.
    rewrite (bind_eq _ _ _ _ _ (inode_modify_eq _ _ _ _ _ Hfind)).
    rewrite (bind_eq _ _ _ _ _ (inode_deref_eq _ _ _ _ Hfind1)).
    rewrite Hc. change (open_cnt i1) with (open_cnt i).
    by destruct (Z.leb_spec (deny_write_cnt i + 1) (open_cnt i)) as [_|?]; [|lia]. }
  rewrite (bind_eq _ _ _ _ _ Hdeny).
  destruct (inode_write_at_refused st1 p i1 buffer size offset)
    as (st' & Hw & Hcont & Hfm & _).
  { exact Hshape. }
  { exact Hco. }
  { apply inode_of_Some. eauto. }
  { rewrite Hc. lia. }
  exists st'. split; [done|]. split; [exact Hcont | exact Hfm].
Qed.

Lemma inode_deny_write_stops_writes_witness :
  ∃ st',
    (inode_deny_write 2 ;; inode_write_at 2 [1; 2; 3] 3 0) (fs_with_file 8 0)
    = Some (0, st')
    ∧ (∀ s, s ≠ NO_SECTOR → sector_contents st' s = sector_contents (fs_with_file 8 0) s)
    ∧ free_map st' = free_map (fs_with_file 8 0).
Proof.
  apply (inode_deny_write_stops_writes (fs_with_file 8 0) 2 (mk_inode 2 1 false 0 false)).
  - apply fs_with_file_shape.
  - apply fs_with_file_coherent.
  - reflexivity.
  - simpl. lia.
  - simpl. lia.
Defined.

(** ** Where [register_sector] writes *)

Lemma map_table_offset_id k :
  0 <= k < INDIRECT_BLOCK_ENTRIES → map_table_offset k = 4 * k.
Proof.
  unfold INDIRECT_BLOCK_ENTRIES, BLOCK_SECTOR_SIZE. change (512 / 4) with 128. intros H.
  unfold map_table_offset. change (to_s32 (to_u32 0)) with 0.
  rewrite (to_u32_id k) by (unfold in_u32; lia).
  rewrite (to_u32_id (0 + k * 4)) by (unfold in_u32; lia).
  rewrite to_s32_id by (unfold in_s32; lia). lia.
Qed.

(** An entry of an index block lies inside the block. *)
Lemma map_table_offset_in_slot k :
  0 <= k < INDIRECT_BLOCK_ENTRIES →
  0 <= map_table_offset k ∧ map_table_offset k + 4 <= BLOCK_SECTOR_SIZE.
Proof.
  intros H. rewrite map_table_offset_id by done.
  unfold INDIRECT_BLOCK_ENTRIES, BLOCK_SECTOR_SIZE in *.
  change (512 / 4) with 128 in H. lia.
Qed.

Ltac in_slot ::=
  first
    [ done | lia | unfold BLOCK_SECTOR_SIZE in *; lia
    | match goal with
      | |- context [map_table_offset ?k] =>
          let H := fresh in
          assert (H : 0 <= k < INDIRECT_BLOCK_ENTRIES) by first [assumption | done | lia];
          destruct (map_table_offset_in_slot k H); assumption
      end ].

(** The indices [locate_byte] gives for an index block are inside it,
    whatever the position. *)
Lemma locate_byte_indices pos l :
  (directness (locate_byte pos l) = INDIRECT →
   0 <= index1 (locate_byte pos l) < INDIRECT_BLOCK_ENTRIES)
  ∧ (directness (locate_byte pos l) = DOUBLE_INDIRECT →
     0 <= index1 (locate_byte pos l) < INDIRECT_BLOCK_ENTRIES
     ∧ 0 <= index2 (locate_byte pos l) < INDIRECT_BLOCK_ENTRIES).
Proof.
  unfold locate_byte, INDIRECT_BLOCK_ENTRIES, DIRECT_BLOCK_ENTRIES, BLOCK_SECTOR_SIZE.
  change (512 / 4) with 128.
  change (to_s32 (to_u32 (123 + 128))) with 251.
  change (to_s32 (to_u32 (123 + 128 * (128 + 1)))) with 16635.
  set (q := Z.quot pos 512). clearbody q.
  destruct (Z.ltb_spec q 123); [done|].
  destruct (Z.ltb_spec q 251).
  - cbn [directness index1]. split; [|done]. intros _.
    rewrite to_s32_id by (unfold in_s32; lia). lia.
  - destruct (Z.ltb_spec q 16635); [|done].
    cbn [directness index1 index2]. split; [done|]. intros _.
    rewrite (to_s32_id (q - 123)) by (unfold in_s32; lia).
    rewrite (to_u32_id (q - 123)) by (unfold in_u32; lia).
    rewrite (to_u32_id (q - 123 - 128)) by (unfold in_u32; lia).
    rewrite (to_s32_id (q - 123 - 128)) by (unfold in_s32; lia).
    rewrite (to_u32_id (q - 123 - 128)) by (unfold in_u32; lia).
    pose proof (Z.mod_pos_bound (q - 123 - 128) 128 ltac:(lia)).
    assert (0 <= (q - 123 - 128) / 128 < 128).
    { split; [apply Z.div_pos; lia | apply Z.div_lt_upper_bound; lia]. }
    rewrite !to_s32_id by (unfold in_s32; lia). lia.
Qed.

(** ** Properties kept by the inode layer, given that the cache keeps them *)

Section keeps_io.
Context (I : fs_state → Prop).
Context (I_bc_read : ∀ sec buf bofs chunk sofs, keeps I (bc_read sec buf bofs chunk sofs)).
Context (I_oracle : ∀ st o, I st → I (with_malloc_oracle o st)).

Lemma keeps_io_malloc : keeps I malloc.
Proof.
  intros st r st' H HI. unfold malloc in H.
  destruct (malloc_oracle st) as [|b rest] eqn:E; simplify_eq; [done|].
  by apply I_oracle.
Qed.

Lemma keeps_io_read_block sec : keeps I (read_block sec).
Proof. unfold read_block. apply keeps_bind; [apply I_bc_read|]. intros. apply keeps_ret. Qed.

Lemma keeps_io_inode_deref p : keeps I (inode_deref p).
Proof. intros st r st' H HI. apply inode_deref_Some in H as [_ ->]. done. Qed.

Ltac keeps_io_auto :=
  repeat first
    [ apply keeps_ret | apply keeps_stuck | apply keeps_gets
    | apply keeps_lift_opt | apply keeps_ASSERT
    | apply I_bc_read | apply keeps_io_read_block
    | apply keeps_io_malloc | apply keeps_io_inode_deref
    | solve [auto]
    | progress cbv beta zeta
    | apply keeps_bind; [|intros ?]
    | match goal with
      | |- keeps _ (if ?b then _ else _) => destruct b
      | |- keeps _ (match ?o with Some _ => _ | None => _ end) => destruct o
      end ].

Lemma keeps_io_byte_to_sector d pos : keeps I (byte_to_sector d pos).
Proof.
  unfold byte_to_sector. destruct (_ <? _); [|apply keeps_ret].
  destruct (directness _); keeps_io_auto.
Qed.

Lemma keeps_io_get_disk_inode p : keeps I (get_disk_inode p).
Proof. unfold get_disk_inode. keeps_io_auto. Qed.

Lemma keeps_io_read_loop fuel d buf size offset bytes_read :
  keeps I (read_loop fuel d buf size offset bytes_read).
Proof.
  revert buf size offset bytes_read.
  induction fuel as [|fuel IH]; intros buf size offset bytes_read; cbn [read_loop].
  - destruct (_ <=? _); [apply keeps_ret | apply keeps_stuck].
  - pose proof keeps_io_byte_to_sector.
    destruct (size <=? 0); [apply keeps_ret|]. keeps_io_auto.
Qed.

Lemma keeps_io_inode_read_at p buf size offset : keeps I (inode_read_at p buf size offset).
Proof.
  pose proof keeps_io_get_disk_inode. pose proof keeps_io_read_loop.
  unfold inode_read_at. keeps_io_auto.
Qed.

Lemma keeps_io_inode_length p : keeps I (inode_length p).
Proof. pose proof keeps_io_get_disk_inode. unfold inode_length. keeps_io_auto. Qed.

Lemma keeps_io_inode_is_dir p : keeps I (inode_is_dir p).
Proof. unfold inode_is_dir. keeps_io_auto. Qed.

Context (I_bc_write : ∀ sec buf bofs chunk sofs,
           0 <= sofs → sofs + chunk <= BLOCK_SECTOR_SIZE →
           keeps I (bc_write sec buf bofs chunk sofs)).
Context (I_bits : ∀ st s c v, I st →
                    I (with_free_map (bitmap_set_multiple (free_map st) s c v) st)).

Lemma keeps_io_free_map_allocate cnt : keeps I (free_map_allocate cnt).
Proof.
  intros st r st' H HI. unfold free_map_allocate in H.
  mbind H as bm st1 Hb. apply gets_Some in Hb as [-> ->].
  destruct (bitmap_scan _ _); mon_inv; [by apply I_bits | done].
Qed.

Lemma keeps_io_free_map_release sec cnt : keeps I (free_map_release sec cnt).
Proof.
  intros st r st' H HI. unfold free_map_release in H.
  mbind H as bm st1 Hb. apply gets_Some in Hb as [-> ->]. mon_inv.
  by apply I_bits.
Qed.

Ltac keeps_io_write :=
  repeat first
    [ apply keeps_ret | apply keeps_stuck | apply keeps_gets
    | apply keeps_lift_opt | apply keeps_ASSERT
    | apply I_bc_read | apply keeps_io_read_block
    | apply I_bc_write; [in_slot | in_slot]
    | apply keeps_io_malloc | apply keeps_io_inode_deref
    | apply keeps_io_free_map_allocate | apply keeps_io_free_map_release
    | apply keeps_io_byte_to_sector
    | solve [auto]
    | progress cbv beta zeta
    | apply keeps_bind; [|intros ?]
    | match goal with
      | |- keeps _ (if ?b then _ else _) => destruct b
      | |- keeps _ (match ?o with Some _ => _ | None => _ end) => destruct o
      end ].

Lemma keeps_io_new_block_with i v : keeps I (new_block_with i v).
Proof. unfold new_block_with. keeps_io_write. Qed.

Lemma keeps_io_register_sector d new_sector pos l :
  keeps I (register_sector d new_sector (locate_byte pos l)).
Proof.
  pose proof keeps_io_new_block_with.
  destruct (locate_byte_indices pos l) as [Hi Hd].
  unfold register_sector. destruct (directness (locate_byte pos l)).
  - keeps_io_write.
  - destruct (map_table_offset_in_slot _ (Hi eq_refl)). keeps_io_write.
  - destruct (Hd eq_refl) as [H1 H2].
    destruct (map_table_offset_in_slot _ H1), (map_table_offset_in_slot _ H2).
    keeps_io_write.
  - keeps_io_write.
Qed.

Lemma keeps_io_update_file_length_loop fuel d offset size :
  keeps I (update_file_length_loop fuel d offset size).
Proof.
  revert d offset size.
  induction fuel as [|fuel IH]; intros d offset size; cbn [update_file_length_loop].
  - destruct (_ <=? _); [apply keeps_ret | apply keeps_stuck].
  - pose proof keeps_io_register_sector.
    destruct (size <=? 0); [apply keeps_ret|]. cbv zeta.
    destruct (_ <=? 0); [apply keeps_ret|].
    destruct (Z.ltb_spec 0 (Z.rem offset BLOCK_SECTOR_SIZE)) as [Hr|Hr];
      [|keeps_io_write].
    assert (Hlt : Z.rem offset BLOCK_SECTOR_SIZE < BLOCK_SECTOR_SIZE).
    { pose proof (Z.rem_bound_abs offset BLOCK_SECTOR_SIZE) as Hb.
      unfold BLOCK_SECTOR_SIZE in *. lia. }
    rewrite (to_s32_id (BLOCK_SECTOR_SIZE - Z.rem offset BLOCK_SECTOR_SIZE))
      by (unfold in_s32, BLOCK_SECTOR_SIZE in *; lia).
    keeps_io_write.
Qed.

Lemma keeps_io_inode_update_file_length d start_pos end_pos :
  keeps I (inode_update_file_length d start_pos end_pos).
Proof.
  pose proof keeps_io_update_file_length_loop.
  unfold inode_update_file_length. keeps_io_write.
Qed.

Lemma keeps_io_inode_create sec len isdir : keeps I (inode_create sec len isdir).
Proof.
  pose proof keeps_io_inode_update_file_length.
  unfold inode_create. keeps_io_write.
Qed.
End keeps_io.

(** ** The cache stays well formed *)

Lemma cache_ok_bc_read sec buf bofs chunk sofs :
  keeps cache_ok (bc_read sec buf bofs chunk sofs).
Proof.
  intros st r st' H [Hs Hc].
  by destruct (bc_read_preserves _ _ _ _ _ _ _ _ H Hs Hc) as (? & ? & _).
Qed.

Lemma cache_ok_bc_write sec buf bofs chunk sofs :
  0 <= sofs → sofs + chunk <= BLOCK_SECTOR_SIZE →
  keeps cache_ok (bc_write sec buf bofs chunk sofs).
Proof.
  intros Hlo Hhi st r st' H [Hs Hc].
  by destruct (bc_write_preserves _ _ _ _ _ _ _ _ H Hlo Hhi Hs Hc) as (? & ? & _).
Qed.

Lemma cache_ok_oracle st o : cache_ok st → cache_ok (with_malloc_oracle o st).
Proof. done. Qed.

Lemma cache_ok_bits st s c v :
  cache_ok st → cache_ok (with_free_map (bitmap_set_multiple (free_map st) s c v) st).
Proof. done. Qed.

Lemma reads_as_refl st : cache_ok st → reads_as st st.
Proof. intros. by unfold reads_as. Qed.

Lemma reads_as_bc_read st0 sec buf bofs chunk sofs :
  keeps (reads_as st0) (bc_read sec buf bofs chunk sofs).
Proof.
  intros st [b buf'] st' H ([Hs Hc] & Hcont & Hfm & Hoi & Hdt & Hcd).
  destruct (bc_read_preserves _ _ _ _ _ _ _ _ H Hs Hc) as (? & ? & Hcont').
  apply bc_read_outside in H as (_ & _ & (? & ? & _ & ? & ?)).
  split_and!; try done; try congruence.
  intros s Hne. rewrite Hcont' by done. by apply Hcont.
Qed.

Lemma reads_as_oracle st0 st o : reads_as st0 st → reads_as st0 (with_malloc_oracle o st).
Proof. done. Qed.

(** ** Reading a file *)

Lemma read_loop_bound fuel d buffer size offset bytes_read st n buf' st' :
  in_s32 (disk_length d) → in_s32 size →
  read_loop fuel d buffer size offset bytes_read st = Some ((n, buf'), st') →
  0 <= bytes_read → (0 < size → bytes_read + size < 2147483648) →
  bytes_read <= n
  ∧ n - bytes_read <= Z.max 0 size
  ∧ (bytes_read < n →
     - 512 < offset ∧ offset + (n - bytes_read) <= disk_length d)
  ∧ length buf' = length buffer.
Proof.
  intros HL. revert buffer size offset bytes_read st.
  induction fuel as [|fuel IH]; intros buffer size offset br st Hsize H Hbr Hle; simpl in H.
  - destruct (size <=? 0); mon_inv. split_and!; [lia..|done].
  - destruct (Z.leb_spec size 0); [mon_inv; split_and!; [lia..|done]|].
    match type of H with (if ?c <=? 0 then _ else _) _ = _ =>
      set (chunk := c) in *; destruct (Z.leb_spec chunk 0) as [Hc|Hc] end;
      [mon_inv; split_and!; [lia..|done]|].
    mbind H as sec st1 Hsec.
    destruct (Z.eqb_spec sec 0) as [->|Hne]; [mon_inv; split_and!; [lia..|done]|].
    mbind H as w st2 Hw. destruct w as [b buf1].
    apply byte_to_sector_nonzero in Hsec as [Hpos Hq]; [|done].
    apply bc_read_outside in Hw as (_ & Hlen1 & _).
    unfold BLOCK_SECTOR_SIZE in *.
    apply quot_nonneg_bound in Hq as [Hoff Hrb].
    set (r := Z.rem offset 512) in *. clearbody r.
    unfold in_s32 in HL, Hsize.
    assert (Hchunk : chunk <= to_s32 (disk_length d - offset) ∧ chunk <= size).
    { subst chunk.
      destruct (Z.ltb_spec (to_s32 (disk_length d - offset)) (to_s32 (512 - r)));
        match goal with |- context [if ?a <? ?b then _ else _] =>
          destruct (Z.ltb_spec a b) end; lia. }
    destruct Hchunk as [Hchunk Hcs].
    assert (Hleft : disk_length d - offset < 2147483648).
    { destruct (Z.lt_ge_cases (disk_length d - offset) 2147483648) as [|Hge]; [done|].
      rewrite to_s32_wrap in Hchunk by lia. lia. }
    rewrite (to_s32_id (disk_length d - offset)) in Hchunk by (unfold in_s32; lia).
    clearbody chunk. cbn [snd] in H.
    rewrite (to_s32_id (offset + chunk)) in H by (unfold in_s32; lia).
    rewrite (to_s32_id (br + chunk)) in H by (unfold in_s32; lia).
    rewrite (to_s32_id (size - chunk)) in H by (unfold in_s32; lia).
    apply IH in H; [|unfold in_s32; lia|lia|lia].
    destruct H as (? & ? & ? & ->). split_and!; [lia|lia|lia|done].
Qed.

(** X11.  What [inode_read_at] returns is between 0 and [size]; when it
    is positive, the bytes read end inside the file.  The buffer keeps its
    length.  The call changes nothing a reader can tell: every sector
    holds what it held, and the free map, the open inodes and the
    directories are as before. *)
Theorem inode_read_at_bounds st p buffer size offset n buf' st' :
  cache_ok st → in_s32 size →
  inode_read_at p buffer size offset st = Some ((n, buf'), st') →
  0 <= n <= Z.max 0 size
  ∧ (0 < n → offset + n <= file_length st p)
  ∧ length buf' = length buffer
  ∧ reads_as st st'.
Proof.
  intros Hok Hsize H.
  assert (Hkeep : reads_as st st').
  { eapply (keeps_apply (reads_as st)); [|exact H|by apply reads_as_refl].
    apply keeps_io_inode_read_at.
    - apply reads_as_bc_read.
    - apply reads_as_oracle. }
  unfold inode_read_at in H.
  mbind H as ok st1 Hm. apply malloc_inv in Hm as (Hc1 & _).
  destruct ok; simpl in H; [|mon_inv; split_and!; [lia..|done|done]].
  mbind H as d st2 Hg. apply get_disk_inode_value in Hg as (Hlen & _ & _).
  unfold file_length in Hlen. rewrite (same_cache_contents _ _ _ Hc1) in Hlen.
  fold (file_length st p) in Hlen.
  assert (HL : in_s32 (disk_length d)) by (rewrite Hlen; apply disk_length_in_s32).
  destruct (read_loop_bound _ _ _ _ _ _ _ _ _ _ HL Hsize H) as (? & ? & Hin & ?);
    [lia|unfold in_s32 in Hsize; lia|].
  split_and!; [lia|lia| |done|done].
  intros Hpos. specialize (Hin Hpos). lia.
Qed.

Lemma device_of_length l s :
  Forall (λ p, length p.2 = Z.to_nat BLOCK_SECTOR_SIZE) l →
  length (device_of l s) = Z.to_nat BLOCK_SECTOR_SIZE.
Proof.
  intros Hall. unfold device_of.
  destruct (list_find _ l) as [[k [s' blk]]|] eqn:E; [|reflexivity].
  apply list_find_Some in E as (Hk & _). simpl.
  by apply (Forall_lookup_1 _ _ _ _ Hall Hk).
Qed.

Lemma empty_cache_ok dev hand fm inodes oracle tbl cd :
  (∀ s, length (dev s) = Z.to_nat BLOCK_SECTOR_SIZE) →
  0 <= hand < BUFFER_CACHE_ENTRY_NB →
  cache_ok (mk_fs_state dev
              (replicate (Z.to_nat BUFFER_CACHE_ENTRY_NB)
                 (mk_buffer_head false false NO_SECTOR false zero_block))
              hand fm inodes oracle tbl cd).
Proof.
  intros Hdev Hhand. split.
  - unfold cache_shape. cbn [buffer_heads clock_hand fs_device].
    split; [by rewrite length_replicate|]. split; [done|]. split; [|done].
    intros i h Hh. apply lookup_replicate in Hh as [-> _]. reflexivity.
  - split; cbn [buffer_heads fs_device].
    + intros i j hi hj Hi Hj _ Hne. apply lookup_replicate in Hi as [-> _]. done.
    + intros i h Hi _ Hne. apply lookup_replicate in Hi as [-> _]. done.
Qed.

Lemma fs_with_data_ok : cache_ok fs_with_data.
Proof.
  apply empty_cache_ok; [|done].
  intros s. apply device_of_length. repeat constructor.
Qed.

Lemma inode_read_at_bounds_witness :
  (∃ buf' st',
     inode_read_at 2 (replicate 8 0) 8 596 fs_with_data = Some ((4, buf'), st')
     ∧ 0 <= 4 <= Z.max 0 8
     ∧ (0 < 4 → 596 + 4 <= file_length fs_with_data 2)
     ∧ length buf' = length (replicate 8 0)
     ∧ reads_as fs_with_data st')
  ∧ (∃ buf' st',
       inode_read_at 2 (replicate 8 0) 3 (-1) fs_with_data = Some ((3, buf'), st')
       ∧ 0 <= 3 <= Z.max 0 3
       ∧ (0 < 3 → -1 + 3 <= file_length fs_with_data 2)
       ∧ length buf' = length (replicate 8 0)
       ∧ reads_as fs_with_data st').
Proof.
  split.
  - assert (Hrun : run (inode_read_at 2 (replicate 8 0) 8 596) fs_with_data
                   = Some (4, [66; 66; 66; 66; 0; 0; 0; 0]))
      by (vm_compute; reflexivity).
    apply run_Some in Hrun as (st' & Hrun).
    exists [66; 66; 66; 66; 0; 0; 0; 0], st'. split; [exact Hrun|].
    apply (inode_read_at_bounds fs_with_data 2 (replicate 8 0) 8 596 4
             [66; 66; 66; 66; 0; 0; 0; 0] st').
    + apply fs_with_data_ok.
    + unfold in_s32. lia.
    + exact Hrun.
  - assert (Hrun : run (inode_read_at 2 (replicate 8 0) 3 (-1)) fs_with_data
                   = Some (3, [0; 65; 65; 0; 0; 0; 0; 0]))
      by (vm_compute; reflexivity).
    apply run_Some in Hrun as (st' & Hrun).
    exists [0; 65; 65; 0; 0; 0; 0; 0], st'. split; [exact Hrun|].
    apply (inode_read_at_bounds fs_with_data 2 (replicate 8 0) 3 (-1) 3
             [0; 65; 65; 0; 0; 0; 0; 0] st').
    + apply fs_with_data_ok.
    + unfold in_s32. lia.
    + exact Hrun.
Defined.

(** X12.  [inode_read_at] with a [size] that is not positive, or at an
    [offset] at or past the end of the file, returns 0 and leaves the
    buffer as it is, whatever the buffer. *)
Theorem inode_read_at_end_of_file st p i buffer size offset :
  cache_shape st → inode_of st p = Some i →
  size <= 0 ∨ (0 <= file_length st p <= offset ∧ offset < 2147483648) →
  ∃ st', inode_read_at p buffer size offset st = Some ((0, buffer), st').
Proof.
  intros Hshape [k Hfind]%inode_of_Some Hcase. unfold inode_read_at.
  destruct (malloc_spec st) as (b & st1 & Hm & Hc1 & _ & Hoi1 & _).
  rewrite (bind_eq _ _ _ _ _ Hm). destruct b; cbn [negb]; [|by eexists].
  pose proof (same_cache_shape _ _ Hc1 Hshape) as Hshape1.
  destruct (read_block_returns (sector i) st1 Hshape1) as (st2 & Hr).
  assert (Hfind1 : find_inode p (open_inodes st1) = Some (k, i)) by (by rewrite Hoi1).
  assert (Hg : get_disk_inode p st1
               = Some (inode_disk_of_bytes
                         (take (Z.to_nat BLOCK_SECTOR_SIZE)
                            (sector_contents st1 (sector i))), st2)).
  { unfold get_disk_inode.
    rewrite (bind_eq _ _ _ _ _ (inode_deref_eq _ _ _ _ Hfind1)).
    by rewrite (bind_eq _ _ _ _ _ Hr). }
  rewrite (bind_eq _ _ _ _ _ Hg). exists st2.
  set (d := inode_disk_of_bytes _).
  assert (Hd : disk_length d = file_length st p).
  { unfold d. rewrite disk_length_take.
    rewrite (find_inode_sector _ _ _ _ Hfind). unfold file_length.
    by rewrite (same_cache_contents _ _ _ Hc1). }
  destruct (Z.leb_spec size 0) as [Hs|Hs].
  - destruct (Z.to_nat size); cbn [read_loop];
      by destruct (Z.leb_spec size 0); [|lia].
  - destruct Hcase as [?|[[Hlen Hoff] Hmax]]; [lia|].
    destruct (Z.to_nat size) as [|fuel] eqn:Hfuel; [lia|]. cbn [read_loop].
    destruct (Z.leb_spec size 0); [lia|].
    rewrite Hd.
    pose proof (disk_length_in_s32 (sector_contents st p)) as HL.
    fold (file_length st p) in HL. unfold in_s32 in HL.
    rewrite (to_s32_id (file_length st p - offset)) by (unfold in_s32; lia).
    assert (Hoffnn : 0 <= offset) by lia.
    pose proof (Z.rem_bound_pos offset BLOCK_SECTOR_SIZE Hoffnn eq_refl) as Hrb.
    set (r := Z.rem offset BLOCK_SECTOR_SIZE) in *. clearbody r.
    unfold BLOCK_SECTOR_SIZE in *.
    rewrite (to_s32_id (512 - r)) by (unfold in_s32; lia).
    destruct (Z.ltb_spec (file_length st p - offset) (512 - r)); [|lia].
    destruct (Z.ltb_spec size (file_length st p - offset)); [lia|].
    by destruct (Z.leb_spec (file_length st p - offset) 0); [|lia].
Qed.

Lemma inode_read_at_end_of_file_witness :
  (∃ st', inode_read_at 2 [7; 7] 2 600 fs_with_data = Some ((0, [7; 7]), st'))
  ∧ (∃ st', inode_read_at 2 [7; 7] 0 10 fs_with_data = Some ((0, [7; 7]), st')).
Proof.
  split.
  - apply (inode_read_at_end_of_file fs_with_data 2 (mk_inode 2 1 false 0 false)).
    + apply fs_with_data_ok.
    + reflexivity.
    + right. vm_compute. split; [split|]; (discriminate || reflexivity).
  - apply (inode_read_at_end_of_file fs_with_data 2 (mk_inode 2 1 false 0 false)).
    + apply fs_with_data_ok.
    + reflexivity.
    + left. lia.
Defined.

(** ** Growth keeps the kind of an inode *)

Lemma same_kind_refl d : same_kind d d.
Proof. by unfold same_kind. Qed.

Lemma same_kind_trans d1 d2 d3 : same_kind d1 d2 → same_kind d2 d3 → same_kind d1 d3.
Proof. unfold same_kind. intros [??] [??]. split; congruence. Qed.

Lemma register_sector_kind d new_sector loc st b d' st' :
  register_sector d new_sector loc st = Some ((b, d'), st') → same_kind d d'.
Proof.
  unfold register_sector, same_kind. intros H.
  destruct (directness loc); mon_cases; simpl; done.
Qed.

Lemma update_file_length_loop_kind fuel d offset size st b d' st' :
  update_file_length_loop fuel d offset size st = Some ((b, d'), st') →
  same_kind d d'.
Proof.
  revert d offset size st.
  induction fuel as [|fuel IH]; intros d offset size st H; simpl in H.
  - destruct (size <=? 0); mon_inv. apply same_kind_refl.
  - destruct (size <=? 0); [mon_inv; apply same_kind_refl|].
    destruct (_ <=? 0); [mon_inv; apply same_kind_refl|].
    destruct (0 <? _).
    + mbind H as sec st1 H1. mbind H as u st2 H2. mbind H as w st3 H3. eauto.
    + mbind H as a st1 H1. destruct a as [sector_idx|]; [|mon_inv; apply same_kind_refl].
      mbind H as r st2 H2. destruct r as [rb rd].
      apply register_sector_kind in H2. simpl in H.
      destruct rb.
      * mbind H as w st3 H3. eapply same_kind_trans; eauto.
      * mon_inv. done.
Qed.

Lemma inode_update_file_length_kind d start_pos end_pos st b d' st' :
  inode_update_file_length d start_pos end_pos st = Some ((b, d'), st') →
  same_kind d d'.
Proof.
  unfold inode_update_file_length. intros H.
  mbind H as u st1 H1. mbind H as z st2 H2. destruct z; simpl in H.
  - by eapply update_file_length_loop_kind.
  - mon_inv. apply same_kind_refl.
Qed.

(** The magic number and the directory flag of an inode header written
    over a sector. *)
Lemma kind_written d old new :
  length (direct_map_table d) = Z.to_nat DIRECT_BLOCK_ENTRIES →
  memcpy old 0 (bytes_of_inode_disk d) 0 BLOCK_SECTOR_SIZE = Some new →
  magic (inode_disk_of_bytes new) = to_u32 (magic d)
  ∧ is_dir (inode_disk_of_bytes new) = to_u32 (is_dir d).
Proof.
  intros Hlen [_ ->]%memcpy_Some.
  change (Z.to_nat 0) with 0%nat. rewrite take_0, drop_0, app_nil_l.
  unfold inode_disk_of_bytes. cbn [magic is_dir].
  assert (Hl : length (bytes_of_inode_disk d) = 512%nat).
  { unfold bytes_of_inode_disk, inode_disk_words.
    rewrite length_encode_words, length_app, Hlen. done. }
  rewrite take_ge by (unfold BLOCK_SECTOR_SIZE; lia).
  unfold bytes_of_inode_disk.
  change 504%nat with (4 * 126)%nat. change 508%nat with (4 * 127)%nat.
  rewrite (get_u32_encode _ 126 (magic d)), (get_u32_encode _ 127 (is_dir d)); [done|..].
  all: unfold inode_disk_words;
    rewrite lookup_app_r by (rewrite Hlen; unfold DIRECT_BLOCK_ENTRIES; lia);
    rewrite Hlen; reflexivity.
Qed.

(** ** A new inode *)

Lemma inode_create_header st sec len isdir st' :
  inode_create sec len isdir st = Some (true, st') →
  in_s32 len → in_u32 isdir →
  0 <= len
  ∧ file_length st' sec = len
  ∧ magic (inode_disk_of_bytes (sector_contents st' sec)) = INODE_MAGIC
  ∧ is_dir (inode_disk_of_bytes (sector_contents st' sec)) = isdir.
Proof.
  unfold inode_create. intros H Hlen Hdir.
  mbind H as u st1 Ha. apply ASSERT_Some in Ha as [Hnn ->]. apply Z.leb_le in Hnn.
  mbind H as ok st2 Hm. destruct ok; [|by mon_inv].
  set (d0 := mk_inode_disk (direct_map_table inode_disk_zero) 0 0 len INODE_MAGIC isdir) in *.
  mbind H as r st3 Hgrow. destruct r as [rb d1]. cbn [fst snd] in H.
  destruct rb; cbn [negb] in H; [|by mon_inv].
  mbind H as w st4 Hw. mon_inv.
  assert (Hh : same_header d0 d1 ∧ same_kind d0 d1).
  { destruct (0 <? len).
    - split; [by eapply inode_update_file_length_header
             | by eapply inode_update_file_length_kind].
    - mon_inv. split; [apply same_header_refl | apply same_kind_refl]. }
  destruct Hh as [[Hl1 Hdir1] [Hmag Hisdir]].
  apply bc_write_contents in Hw as (_ & Hcpy & _); [|in_slot|in_slot].
  assert (Hdl : length (direct_map_table d1) = Z.to_nat DIRECT_BLOCK_ENTRIES).
  { rewrite Hdir1. unfold d0, inode_disk_zero. cbn [direct_map_table].
    by rewrite length_replicate. }
  destruct (kind_written _ _ _ Hdl Hcpy) as [Hm1 Hi1].
  split_and!.
  - done.
  - unfold file_length. rewrite (disk_length_written _ _ _ Hdl) by (by rewrite ?Hl1).
    by rewrite Hl1.
  - rewrite Hm1, Hmag. reflexivity.
  - rewrite Hi1, Hisdir. by apply to_u32_id.
Qed.

Lemma cache_ok_inode_create sec len isdir : keeps cache_ok (inode_create sec len isdir).
Proof.
  apply keeps_io_inode_create.
  - apply cache_ok_bc_read.
  - apply cache_ok_oracle.
  - apply cache_ok_bc_write.
  - apply cache_ok_bits.
Qed.

(** X13.  After [inode_create (sector, length, is_dir)] has returned
    true, the sector holds an inode of that length and kind:
    [inode_open] of the sector, [inode_length] and [inode_is_dir] return,
    and they return [length] and whether [is_dir] is not 0.  The header
    carries [INODE_MAGIC].  (No allocation fails after the creation.) *)
Theorem inode_create_then_length st sec len isdir st1 :
  cache_ok st → in_s32 len → in_u32 isdir → sec ≠ NO_SECTOR →
  inode_create sec len isdir st = Some (true, st1) →
  malloc_oracle st1 = [] →
  0 <= len
  ∧ magic (inode_disk_of_bytes (sector_contents st1 sec)) = INODE_MAGIC
  ∧ ∃ st2 st3 st4,
      inode_open sec st1 = Some (Some sec, st2)
      ∧ inode_length sec st2 = Some (len, st3)
      ∧ inode_is_dir sec st3 = Some (negb (isdir =? 0), st4).
Proof.
  intros Hok Hlen Hdir Hsec Hrun Ho.
  destruct (inode_create_header _ _ _ _ _ Hrun Hlen Hdir) as (Hnn & Hfl & Hmagic & Hisdir).
  pose proof (keeps_apply _ _ _ _ _ (cache_ok_inode_create _ _ _) Hrun Hok) as [Hs1 Hc1].
  split; [done|]. split; [done|].
  destruct (inode_open_spec sec st1 Ho) as (st2 & Hopen & Hoi2 & Hq2 & _).
  assert (Hset1 : settled st1) by done.
  pose proof (only_inodes_settled _ _ Hoi2 Hset1) as Hset2.
  pose proof (only_inodes_same_disk _ _ Hoi2) as (_ & _ & Hct2).
  destruct (read_block_spec sec st2 Hset2) as (st3 & Hr & Hset3 & (_ & _ & Hct3) & Hl3 & _).
  exists st2, st3.
  assert (Hq3 : inode_of st3 sec = Some (opened sec (inode_of st1 sec))).
  { by rewrite (inode_of_ext _ _ _ Hl3). }
  destruct (inode_is_dir_spec sec st3 _ Hset3 Hq3) as (st4 & Hd & _).
  exists st4. split; [done|]. split.
  - unfold inode_length.
    rewrite (bind_eq _ _ _ _ _ (malloc_empty _ (proj2 (proj2 Hset2)))). cbn [negb].
    unfold get_disk_inode. rewrite bind_assoc.
    rewrite (bind_eq _ _ _ _ _ (inode_deref_spec _ _ _ Hq2)).
    rewrite (inode_of_sector _ _ _ Hq2). rewrite bind_assoc.
    rewrite (bind_eq _ _ _ _ _ Hr). unfold bind, ret. f_equal. f_equal.
    rewrite Hct2 by done. exact Hfl.
  - rewrite Hd. f_equal. f_equal. rewrite Hct3, Hct2 by done. by rewrite Hisdir.
Qed.

Lemma inode_create_then_length_witness :
  ∃ st1 st2 st3 st4,
    inode_create 2 1000 1 (fs_formatted 8) = Some (true, st1)
    ∧ inode_open 2 st1 = Some (Some 2, st2)
    ∧ inode_length 2 st2 = Some (1000, st3)
    ∧ inode_is_dir 2 st3 = Some (true, st4).
Proof.
  assert (Hrun : observe malloc_oracle (inode_create 2 1000 1) (fs_formatted 8)
                 = Some (true, []))
    by (vm_compute; reflexivity).
  apply observe_Some in Hrun as (st1 & Hrun & Ho).
  destruct (inode_create_then_length (fs_formatted 8) 2 1000 1 st1)
    as (_ & _ & st2 & st3 & st4 & Hopen & Hlength & Hisdir).
  - split; [apply fs_formatted_shape | apply fs_formatted_coherent].
  - unfold in_s32. lia.
  - unfold in_u32. lia.
  - by vm_compute.
  - exact Hrun.
  - exact Ho.
  - exists st1, st2, st3, st4.
    split; [exact Hrun|]. split; [exact Hopen|]. split; [exact Hlength | exact Hisdir].
Defined.

(** ** Closing an inode *)

(** X14.  [inode_close] by an opener who is not the last one, or of an
    inode that is not marked removed, releases nothing: the free map, the
    cache, the device and the directories are as they were.  An inode
    marked removed stays open, with one opener less, for the others. *)
Theorem inode_close_keeps_sectors st q i :
  inode_of st q = Some i → in_s32 (open_cnt i - 1) →
  open_cnt i ≠ 1 ∨ removed i = false →
  ∃ st', inode_close (Some q) st = Some (tt, st')
    ∧ free_map st' = free_map st
    ∧ same_cache st st'
    ∧ dir_table st' = dir_table st
    ∧ (open_cnt i ≠ 1 → inode_of st' q = Some (with_open_cnt (open_cnt i - 1) i)).
Proof.
  intros Hi Hrange Hcase.
  destruct (inode_close_spec q st i Hi) as (st' & Hrun & (Hc & Hfm & Hdt & _) & Hq & _).
  { rewrite to_s32_id by done. destruct Hcase; [left; lia | by right]. }
  exists st'. split_and!; try done.
  intros Hne. rewrite to_s32_id in Hq by done. apply Hq. lia.
Qed.

Lemma inode_close_keeps_sectors_witness :
  ∃ st', inode_close (Some 2) (fs_with_file 8 0) = Some (tt, st')
    ∧ free_map st' = free_map (fs_with_file 8 0)
    ∧ same_cache (fs_with_file 8 0) st'
    ∧ dir_table st' = dir_table (fs_with_file 8 0)
    ∧ (1 ≠ 1 → inode_of st' 2 = Some (with_open_cnt (1 - 1) (mk_inode 2 1 false 0 false))).
Proof.
  apply (inode_close_keeps_sectors (fs_with_file 8 0) 2 (mk_inode 2 1 false 0 false)).
  - reflexivity.
  - unfold in_s32. simpl. lia.
  - by right.
Defined.

Lemma release_entries_frees ws st r st' :
  release_entries ws st = Some (r, st') →
  (∀ x : nat, free_map st !! x = Some false → free_map st' !! x = Some false)
  ∧ length (free_map st') = length (free_map st)
  ∧ ∀ k w, ws !! k = Some w →
      (∀ j w', (j ≤ k)%nat → ws !! j = Some w' → 0 < w') →
      (Z.to_nat w < length (free_map st))%nat →
      free_map st' !! Z.to_nat w = Some false.
Proof.
  revert st. induction ws as [|w0 ws IH]; intros st H; simpl in H; [done|].
  destruct (Z.ltb_spec 0 w0) as [Hpos|Hnp].
  - mbind H as u st1 Hrel. destruct u.
    destruct (free_map_release_spec w0 1 st) as (st1' & Hrel' & _ & Hbits).
    rewrite Hrel in Hrel'. injection Hrel' as <-.
    destruct (IH st1 H) as (Hkeep & Hlen & Hfreed).
    assert (Hlen1 : length (free_map st1) = length (free_map st))
      by (rewrite Hbits; apply length_bitmap_set_multiple).
    split_and!.
    + intros x Hx. apply Hkeep. rewrite Hbits. by apply bitmap_clear_keeps_free.
    + congruence.
    + intros k w Hk Hall Hrange. destruct k as [|k]; simpl in Hk.
      * simplify_eq. apply Hkeep. rewrite Hbits, lookup_bitmap_set_multiple.
        rewrite decide_True by lia.
        by destruct (lookup_lt_is_Some_2 (free_map st) (Z.to_nat w)) as [b ->].
      * apply (Hfreed k w Hk); [|lia].
        intros j w' Hj Hw'. apply (Hall (S j) w'); [lia|done].
  - mon_inv. split_and!; [done..|].
    intros k w Hk Hall _. exfalso.
    specialize (Hall 0%nat w0 ltac:(lia) eq_refl). lia.
Qed.

(** X15.  [inode_close] by the last opener of an inode marked removed,
    whose header has no indirect blocks, returns and releases the inode:
    its sector and every sector of the direct table before the first
    entry 0 are free afterwards.  The sectors hold what they held. *)
Theorem inode_close_releases_direct_sectors st q i :
  settled st → inode_of st q = Some i →
  open_cnt i = 1 → removed i = true →
  indirect_block_sec (inode_disk_of_bytes (sector_contents st q)) = 0 →
  double_indirect_block_sec (inode_disk_of_bytes (sector_contents st q)) = 0 →
  ∃ st', inode_close (Some q) st = Some (tt, st')
    ∧ ((Z.to_nat q < length (free_map st))%nat → free_map st' !! Z.to_nat q = Some false)
    ∧ (∀ k w,
         direct_map_table (inode_disk_of_bytes (sector_contents st q)) !! k = Some w →
         (∀ j w', (j ≤ k)%nat →
            direct_map_table (inode_disk_of_bytes (sector_contents st q)) !! j = Some w' →
            0 < w') →
         (Z.to_nat w < length (free_map st))%nat →
         free_map st' !! Z.to_nat w = Some false)
    ∧ (∀ x : nat, free_map st !! x = Some false → free_map st' !! x = Some false)
    ∧ (∀ s, s ≠ NO_SECTOR → sector_contents st' s = sector_contents st s)
    ∧ dir_table st' = dir_table st.
Proof.
  intros Hs Hi Hcnt Hrm Hind Hdbl.
  destruct (inode_close_last q st i Hs Hi) as (st' & Hrun & _ & Hdt & Hct & _ & _ & Hq);
    [by rewrite Hcnt|done..|].
  exists st'. split; [done|]. split; [done|].
  assert (Hfree : (∀ x : nat, free_map st !! x = Some false → free_map st' !! x = Some false)
    ∧ ∀ k w, inode_disk_words (inode_disk_of_bytes (sector_contents st q)) !! k = Some w →
        (∀ j w', (j ≤ k)%nat →
           inode_disk_words (inode_disk_of_bytes (sector_contents st q)) !! j = Some w' →
           0 < w') →
        (Z.to_nat w < length (free_map st))%nat →
        free_map st' !! Z.to_nat w = Some false).
  { clear Hq. unfold inode_close in Hrun.
    mbind Hrun as i0 st0 Hd. apply inode_deref_Some in Hd as [[k0 Hk0] ->].
    assert (i0 = i) as -> by (apply inode_of_Some in Hi as [k Hk]; congruence).
    mbind Hrun as u1 st1 Hm. apply inode_modify_list in Hm as (k1 & i1 & _ & ->).
    rewrite Hcnt in Hrun. change (to_s32 (1 - 1) =? 0) with true in Hrun. cbv iota in Hrun.
    mbind Hrun as u2 st2 Hr. apply open_inodes_remove_list in Hr as (k2 & i2 & _ & ->).
    rewrite Hrm in Hrun.
    mbind Hrun as ok st3 Hmal. apply malloc_inv in Hmal as (Hc3 & Hfm3 & _).
    destruct ok; [|done]. cbn [negb] in Hrun.
    mbind Hrun as blk st4 Hblk.
    pose proof (read_block_value _ _ _ _ Hblk) as (Hcpy & Hfm4 & _).
    apply memcpy_whole in Hcpy; [|done].
    assert (Hblk' : blk = sector_contents st q).
    { rewrite Hcpy. rewrite (inode_of_sector _ _ _ Hi).
      rewrite (same_cache_contents _ _ _ Hc3).
      change (length zero_block) with (Z.to_nat BLOCK_SECTOR_SIZE).
      apply take_ge. rewrite sector_contents_length; [done|apply Hs]. }
    clear Hcpy. subst blk. mbind Hrun as u5 st5 Hfis.
    unfold free_inode_sectors in Hfis. rewrite Hind, Hdbl in Hfis.
    change (0 <? 0) with false in Hfis. cbv iota in Hfis.
    mbind Hfis as c1 st6 Hc1. unfold ret in Hc1. injection Hc1 as <- <-.
    cbn [negb] in Hfis.
    mbind Hfis as c2 st7 Hc2. unfold ret in Hc2. injection Hc2 as <- <-.
    cbn [negb] in Hfis.
    destruct (release_entries_frees _ _ _ _ Hfis) as (Hkeep5 & Hlen5 & Hfreed5).
    destruct (free_map_release_spec (sector i) 1 st5) as (st'' & Hrel & _ & Hbits).
    rewrite Hrun in Hrel. injection Hrel as <-.
    assert (Hfm0 : free_map st4 = free_map st) by (rewrite Hfm4, Hfm3; done).
    split.
    - intros x Hx. rewrite Hbits. apply bitmap_clear_keeps_free, Hkeep5. by rewrite Hfm0.
    - intros k w Hk Hall Hrange. rewrite Hbits. apply bitmap_clear_keeps_free.
      apply (Hfreed5 k w Hk Hall). by rewrite Hfm0. }
  destruct Hfree as [Hkeep Hfreed]. split_and!; try done.
  intros k w Hk Hall Hrange.
  pose proof (direct_length_of_bytes (sector_contents st q)) as Hlen.
  assert (Hklt : (k < Z.to_nat DIRECT_BLOCK_ENTRIES)%nat)
    by (rewrite <- Hlen; by eapply lookup_lt_Some).
  apply (Hfreed k w); [|
    |done].
  - unfold inode_disk_words. by rewrite lookup_app_l by lia.
  - intros j w' Hj Hw'. unfold inode_disk_words in Hw'.
    rewrite lookup_app_l in Hw' by lia. by eapply Hall.
Qed.

Lemma fs_with_removed_data_settled : settled fs_with_removed_data.
Proof.
  destruct fs_with_data_ok as [Hshape Hcoh]. split_and!.
  - exact Hshape.
  - exact Hcoh.
  - reflexivity.
Qed.

Lemma inode_close_releases_direct_sectors_witness :
  ∃ st', inode_close (Some 2) fs_with_removed_data = Some (tt, st')
    ∧ free_map st' !! 2%nat = Some false
    ∧ free_map st' !! 3%nat = Some false
    ∧ free_map st' !! 4%nat = Some false
    ∧ free_map st' !! 1%nat = Some true.
Proof.
  destruct (inode_close_releases_direct_sectors fs_with_removed_data 2
              (mk_inode 2 1 true 0 false))
    as (st' & Hrun & Hq & Hdirect & _ & _ & _).
  - apply fs_with_removed_data_settled.
  - reflexivity.
  - reflexivity.
  - reflexivity.
  - vm_compute. reflexivity.
  - vm_compute. reflexivity.
  - exists st'. split; [done|]. split_and!.
    + apply Hq. vm_compute. lia.
    + apply (Hdirect 0%nat 3).
      * vm_compute. reflexivity.
      * intros j w' Hj. assert (j = 0%nat) as -> by lia.
        vm_compute. intros [= <-]. reflexivity.
      * vm_compute. lia.
    + apply (Hdirect 1%nat 4).
      * vm_compute. reflexivity.
      * intros j w' Hj.
        assert (j = 0%nat ∨ j = 1%nat) as [-> | ->] by lia;
          vm_compute; intros [= <-]; reflexivity.
      * vm_compute. lia.
    + assert (Hobs : observe (λ s, free_map s !! 1%nat) (inode_close (Some 2))
                       fs_with_removed_data = Some (tt, Some true))
        by (vm_compute; reflexivity).
      apply observe_Some in Hobs as (st'' & Hrun' & Hv).
      rewrite Hrun in Hrun'. by injection Hrun' as <-.
Defined.

(** ** The name that [parse_path] leaves *)

Lemma substring_length_le m s : (String.length (String.substring 0 m s) ≤ m)%nat.
Proof.
  revert s. induction m as [|m IH]; intros [|c s]; simpl; try lia.
  specialize (IH s). lia.
Qed.

(** X16.  Whatever the path, [parse_path] leaves in [file_name] a name of
    at most [NAME_MAX] characters, which fits the caller's buffer of
    [NAME_MAX + 1] bytes; or it fails and leaves the buffer as it was. *)
Theorem parse_path_name_fits path buf st d fn st' :
  parse_path (Some path) (Some buf) st = Some ((d, fn), st') →
  ∃ nm, fn = Some nm
    ∧ ((String.length nm ≤ Z.to_nat NAME_MAX)%nat ∨ (d = None ∧ nm = buf)).
Proof.
  unfold parse_path. intros H.
  destruct (String.length path =? 0)%nat.
  { mon_inv. exists buf. split; [done|]. by right. }
  mbind H as d0 st0 Hd0.
  destruct (strtok_r path "/") as [token savePtr].
  destruct (strtok_r savePtr "/") as [nextToken savePtr'].
  mbind H as r st1 Hr.
  destruct r as [[d1 token1]|].
  - unfold strlcpy in H.
    change (Z.to_nat (NAME_MAX + 1 - 1)) with (Z.to_nat NAME_MAX) in H.
    destruct (NAME_MAX + 1 <? _); mon_inv; eexists; (split; [done|]);
      left; apply substring_length_le.
  - mon_inv. exists buf. split; [done|]. by right.
Qed.

Lemma parse_path_name_fits_witness :
  ∃ st' d nm,
    parse_path (Some "/abcdefghijklmno"%string) (Some EmptyString) (fs_formatted 8)
    = Some ((d, Some nm), st')
    ∧ ((String.length nm ≤ Z.to_nat NAME_MAX)%nat ∨ (d = None ∧ nm = EmptyString)).
Proof.
  assert (Hrun : run (parse_path (Some "/abcdefghijklmno"%string) (Some EmptyString))
                   (fs_formatted 8)
                 = Some (Some (mk_dir ROOT_DIR_SECTOR 0), Some "abcdefghijklmn"%string))
    by (vm_compute; reflexivity).
  apply run_Some in Hrun as (st' & Hrun).
  destruct (parse_path_name_fits _ _ _ _ _ _ Hrun) as (nm & Hnm & Hfit).
  exists st', (Some (mk_dir ROOT_DIR_SECTOR 0)), nm.
  injection Hnm as <-. by split.
Defined.

(** ** Files in direct blocks *)

Lemma data_sector_at d pos :
  length (direct_map_table d) = Z.to_nat DIRECT_BLOCK_ENTRIES →
  disk_length d <= DIRECT_BLOCK_ENTRIES * BLOCK_SECTOR_SIZE →
  0 <= pos < disk_length d →
  ∃ s, direct_map_table d !! Z.to_nat (pos / BLOCK_SECTOR_SIZE) = Some s
       ∧ data_sectors d !! Z.to_nat (pos / BLOCK_SECTOR_SIZE) = Some s.
Proof.
  unfold DIRECT_BLOCK_ENTRIES, BLOCK_SECTOR_SIZE, data_sectors. intros Hlen Hmax Hpos.
  assert (Hk : (Z.to_nat (pos / 512) < Z.to_nat ((disk_length d + 512 - 1) / 512))%nat).
  { apply Z2Nat.inj_lt; [apply Z.div_pos; lia | apply Z.div_pos; lia |].
    apply Z.div_lt_upper_bound; [lia|].
    pose proof (Z.mul_div_le (disk_length d + 512 - 1) 512 ltac:(lia)).
    pose proof (Z.mod_pos_bound (disk_length d + 512 - 1) 512 ltac:(lia)).
    pose proof (Z.div_mod (disk_length d + 512 - 1) 512 ltac:(lia)). lia. }
  assert (Hn : (Z.to_nat ((disk_length d + 512 - 1) / 512) ≤ 123)%nat).
  { apply Nat2Z.inj_le. rewrite Z2Nat.id by (apply Z.div_pos; lia).
    apply Z.lt_succ_r. apply Z.div_lt_upper_bound; lia. }
  destruct (lookup_lt_is_Some_2 (direct_map_table d) (Z.to_nat (pos / 512))) as [s Hs];
    [lia|].
  exists s. split; [done|]. by rewrite lookup_take_lt.
Qed.

Lemma byte_to_sector_direct d pos st s :
  length (direct_map_table d) = Z.to_nat DIRECT_BLOCK_ENTRIES →
  disk_length d <= DIRECT_BLOCK_ENTRIES * BLOCK_SECTOR_SIZE →
  0 <= pos < disk_length d →
  direct_map_table d !! Z.to_nat (pos / BLOCK_SECTOR_SIZE) = Some s →
  byte_to_sector d pos st = Some (s, st).
Proof.
  unfold DIRECT_BLOCK_ENTRIES, BLOCK_SECTOR_SIZE. intros Hlen Hmax Hpos Hs.
  unfold byte_to_sector, locate_byte, BLOCK_SECTOR_SIZE, DIRECT_BLOCK_ENTRIES.
  destruct (Z.ltb_spec pos (disk_length d)); [|lia].
  rewrite Z.quot_div_nonneg by lia.
  assert (0 <= pos / 512 < 123).
  { split; [apply Z.div_pos; lia | apply Z.div_lt_upper_bound; lia]. }
  destruct (Z.ltb_spec (pos / 512) 123); [|lia].
  cbn [directness index1]. unfold direct_map_table_at.
  destruct (Z.leb_spec 0 (pos / 512)); [|lia].
  unfold inode_disk_words. rewrite lookup_app_l by lia. by rewrite Hs.
Qed.

Lemma same_outside_cache_sym st st' :
  same_outside_cache st st' → same_outside_cache st' st.
Proof. intros (? & ? & ? & ? & ?). by split_and!. Qed.

Section direct_io.
Context (p : Z) (d : inode_disk).
Context (Hlen : length (direct_map_table d) = Z.to_nat DIRECT_BLOCK_ENTRIES).
Context (Hfile : direct_file p d).

Lemma chunk_in_sector offset pos chunk :
  0 <= offset → offset <= pos < offset + chunk →
  chunk <= 512 - offset mod 512 →
  pos / 512 = offset / 512 ∧ pos mod 512 = offset mod 512 + (pos - offset).
Proof. intros. Z.div_mod_to_equations. lia. Qed.

Lemma other_sector s s' pos pos' :
  0 <= pos < disk_length d → 0 <= pos' < disk_length d →
  direct_map_table d !! Z.to_nat (pos / BLOCK_SECTOR_SIZE) = Some s →
  direct_map_table d !! Z.to_nat (pos' / BLOCK_SECTOR_SIZE) = Some s' →
  pos / BLOCK_SECTOR_SIZE ≠ pos' / BLOCK_SECTOR_SIZE → s ≠ s'.
Proof.
  intros Hpos Hpos' Hs Hs' Hne ->.
  destruct Hfile as (Hmax & Hnd & _). apply NoDup_cons in Hnd as [_ Hnd].
  destruct (data_sector_at d pos Hlen Hmax Hpos) as (x & Hx & Hdx).
  destruct (data_sector_at d pos' Hlen Hmax Hpos') as (x' & Hx' & Hdx').
  simplify_eq.
  pose proof (NoDup_lookup _ _ _ _ Hnd Hdx Hdx') as Heq.
  apply Hne. unfold BLOCK_SECTOR_SIZE in *.
  apply Z2Nat.inj in Heq; [done|apply Z.div_pos; lia..].
Qed.

Lemma write_loop_direct buffer fuel : ∀ st size offset bw,
  cache_ok st → 0 <= bw <= offset → 0 <= size → offset + size <= disk_length d →
  bw + size <= Z.of_nat (length buffer) → (Z.to_nat size ≤ fuel)%nat →
  ∃ st', write_loop fuel d buffer size offset bw st = Some (bw + size, st')
    ∧ cache_ok st' ∧ same_outside_cache st st'
    ∧ (∀ s, s ≠ NO_SECTOR → s ∉ data_sectors d →
         sector_contents st' s = sector_contents st s)
    ∧ ∀ pos, 0 <= pos < disk_length d →
        file_byte st' d pos
        = if decide (offset <= pos < offset + size)
          then buffer !! Z.to_nat (bw + (pos - offset))
          else file_byte st d pos.
Proof.
  induction fuel as [|fuel IH]; intros st size offset bw Hok Hbw Hsize Hend Hbuf Hfuel.
  { assert (size = 0) as -> by lia. simpl. exists st.
    rewrite Z.add_0_r. split_and!; [done|done|by unfold same_outside_cache|done|].
    intros pos Hpos. by rewrite decide_False by lia. }
  cbn [write_loop].
  destruct (Z.leb_spec size 0) as [Hz|Hpos].
  { assert (size = 0) as -> by lia. exists st.
    rewrite Z.add_0_r. split_and!; [done|done|by unfold same_outside_cache|done|].
    intros pos Hpos. by rewrite decide_False by lia. }
  destruct Hfile as (Hmax & Hnd & Hall).
  unfold BLOCK_SECTOR_SIZE, DIRECT_BLOCK_ENTRIES in *.
  rewrite Z.rem_mod_nonneg by lia.
  pose proof (Z.mod_pos_bound offset 512 ltac:(lia)) as Hsofs.
  set (sofs := offset mod 512) in *.
  rewrite (to_s32_id (disk_length d - offset)) by (unfold in_s32; lia).
  rewrite (to_s32_id (512 - sofs)) by (unfold in_s32; lia).
  set (chunk := if size <? _ then size else _).
  assert (Hchunk : chunk = Z.min size (512 - sofs)).
  { subst chunk. destruct (Z.ltb_spec (disk_length d - offset) (512 - sofs));
      match goal with |- context [if ?a <? ?b then _ else _] =>
        destruct (Z.ltb_spec a b) end; lia. }
  clearbody chunk.
  destruct (Z.leb_spec chunk 0); [lia|].
  destruct (data_sector_at d offset Hlen Hmax ltac:(lia)) as (s & Hs & Hds).
  rewrite (bind_eq _ _ _ _ _
             (byte_to_sector_direct d offset st s Hlen Hmax ltac:(lia) Hs)).
  apply list_elem_of_lookup_2 in Hds as Hin.
  unfold BLOCK_SECTOR_SIZE in Hs, Hds.
  pose proof (proj1 (Forall_forall _ _) Hall s Hin) as [Hs0 HsN].
  destruct (Z.eqb_spec s 0); [done|].
  destruct Hok as [Hshape Hcoh].
  pose proof (sector_contents_length st s Hshape) as Hlen_s.
  destruct (memcpy_is_Some (sector_contents st s) sofs buffer bw chunk)
    as [data' Hcpy]; [unfold BLOCK_SECTOR_SIZE in *; lia..|].
  destruct (bc_write_returns _ _ _ _ _ _ _ Hshape Hcpy) as (st1 & Hw).
  rewrite (bind_eq _ _ _ _ _ Hw).
  destruct (bc_write_preserves _ _ _ _ _ _ _ _ Hw ltac:(in_slot) ltac:(in_slot) Hshape Hcoh) as (Hshape1 & Hcoh1 & Hother).
  destruct (bc_write_contents _ _ _ _ _ _ _ _ Hw ltac:(in_slot) ltac:(in_slot)) as (_ & Hcpy1 & _ & Hsame1).
  assert (data' = sector_contents st1 s) as -> by congruence. clear Hcpy1.
  rewrite (to_s32_id (size - chunk)) by (unfold in_s32; lia).
  rewrite (to_s32_id (offset + chunk)) by (unfold in_s32; lia).
  rewrite (to_s32_id (bw + chunk)) by (unfold in_s32; lia).
  destruct (IH st1 (size - chunk) (offset + chunk) (bw + chunk))
    as (st' & Hrun & Hok' & Hsame' & Hother' & Hbytes'); [done|lia..|].
  exists st'. split; [rewrite Hrun; f_equal; f_equal; lia|].
  split; [done|]. split.
  { destruct Hsame1 as (? & ? & ? & ? & ?), Hsame' as (? & ? & ? & ? & ?).
    split_and!; congruence. }
  split.
  { intros x Hx Hnin. rewrite Hother' by done. apply Hother; [done|]. by intros ->. }
  intros pos Hposr. rewrite Hbytes' by done.
  destruct (decide (offset + chunk <= pos < offset + chunk + (size - chunk))).
  { rewrite decide_True by lia. f_equal. lia. }
  unfold file_byte, BLOCK_SECTOR_SIZE.
  destruct (data_sector_at d pos Hlen Hmax Hposr) as (s' & Hs' & _).
  unfold BLOCK_SECTOR_SIZE in Hs'. rewrite Hs'.
  destruct (decide (offset <= pos < offset + chunk)) as [Hin1|Hout1].
  - rewrite decide_True by lia.
    destruct (chunk_in_sector offset pos chunk) as [Hq Hr]; [lia..|].
    fold sofs in Hr. rewrite Hq in Hs'. assert (s' = s) as -> by congruence.
    rewrite Hr.
    replace (Z.to_nat (sofs + (pos - offset)))
      with (Z.to_nat sofs + Z.to_nat (pos - offset))%nat by lia.
    rewrite (memcpy_inside _ _ _ _ _ _ _ Hcpy) by lia.
    f_equal. lia.
  - rewrite decide_False by lia.
    destruct (decide (pos / 512 = offset / 512)) as [Hq|Hq].
    + rewrite Hq in Hs'. assert (s' = s) as -> by congruence.
      apply (memcpy_outside _ _ _ _ _ _ _ Hcpy).
      rewrite Z2Nat.id by (apply Z.mod_pos_bound; lia).
      subst sofs. clear -Hq Hout1 Hbw Hchunk Hposr. Z.div_mod_to_equations. lia.
    + rewrite Hother; [done| |].
      * apply (data_sector_at d pos Hlen) in Hposr as (x & Hx & Hdx); [|done].
        unfold BLOCK_SECTOR_SIZE in Hx. assert (x = s') as -> by congruence.
        apply list_elem_of_lookup_2 in Hdx.
        by apply (proj1 (Forall_forall _ _) Hall) in Hdx as [_ ?].
      * apply (other_sector s' s pos offset); [done|lia|done|done|done].
Qed.

Lemma file_byte_ext st st' pos :
  (∀ s, s ∈ data_sectors d → sector_contents st' s = sector_contents st s) →
  0 <= pos < disk_length d → file_byte st' d pos = file_byte st d pos.
Proof.
  intros Hsame Hpos. destruct Hfile as (Hmax & _ & _).
  destruct (data_sector_at d pos Hlen Hmax Hpos) as (s & Hs & Hds).
  unfold file_byte. rewrite Hs. rewrite Hsame; [done|].
  by apply list_elem_of_lookup_2 in Hds.
Qed.

Lemma read_loop_direct st0 fuel : ∀ st buf size offset br,
  reads_as st0 st → 0 <= br <= offset → 0 <= size → offset + size <= disk_length d →
  br + size <= Z.of_nat (length buf) → (Z.to_nat size ≤ fuel)%nat →
  ∃ st' buf', read_loop fuel d buf size offset br st = Some ((br + size, buf'), st')
    ∧ reads_as st0 st' ∧ malloc_oracle st' = malloc_oracle st
    ∧ length buf' = length buf
    ∧ (∀ i : nat, Z.of_nat i < size →
         buf' !! (Z.to_nat br + i)%nat = file_byte st0 d (offset + Z.of_nat i))
    ∧ (∀ j : nat, ¬ (br <= Z.of_nat j < br + size) → buf' !! j = buf !! j).
Proof.
  induction fuel as [|fuel IH]; intros st buf size offset br Hr Hbr Hsize Hend Hbuf Hfuel.
  { assert (size = 0) as -> by lia. simpl. exists st, buf.
    rewrite Z.add_0_r. split_and!; [done..| |done]. intros; lia. }
  cbn [read_loop].
  destruct (Z.leb_spec size 0) as [Hz|Hpos].
  { assert (size = 0) as -> by lia. exists st, buf.
    rewrite Z.add_0_r. split_and!; [done..| |done]. intros; lia. }
  destruct Hfile as (Hmax & Hnd & Hall).
  unfold BLOCK_SECTOR_SIZE, DIRECT_BLOCK_ENTRIES in *.
  rewrite Z.rem_mod_nonneg by lia.
  pose proof (Z.mod_pos_bound offset 512 ltac:(lia)) as Hsofs.
  set (sofs := offset mod 512) in *.
  rewrite (to_s32_id (disk_length d - offset)) by (unfold in_s32; lia).
  rewrite (to_s32_id (512 - sofs)) by (unfold in_s32; lia).
  set (chunk := if size <? _ then size else _).
  assert (Hchunk : chunk = Z.min size (512 - sofs)).
  { subst chunk. destruct (Z.ltb_spec (disk_length d - offset) (512 - sofs));
      match goal with |- context [if ?a <? ?b then _ else _] =>
        destruct (Z.ltb_spec a b) end; lia. }
  clearbody chunk.
  destruct (Z.leb_spec chunk 0); [lia|].
  destruct (data_sector_at d offset Hlen Hmax ltac:(lia)) as (s & Hs & Hds).
  rewrite (bind_eq _ _ _ _ _
             (byte_to_sector_direct d offset st s Hlen Hmax ltac:(lia) Hs)).
  apply list_elem_of_lookup_2 in Hds as Hin.
  unfold BLOCK_SECTOR_SIZE in Hs, Hds.
  pose proof (proj1 (Forall_forall _ _) Hall s Hin) as [Hs0 HsN].
  destruct (Z.eqb_spec s 0); [done|].
  pose proof Hr as ([Hshape Hcoh] & Hcont & _).
  pose proof (sector_contents_length st s Hshape) as Hlen_s.
  destruct (memcpy_is_Some buf br (sector_contents st s) sofs chunk)
    as [buf1 Hcpy]; [unfold BLOCK_SECTOR_SIZE in *; lia..|].
  destruct (bc_read_returns _ _ _ _ _ _ _ Hshape Hcpy) as (st1 & Hrd).
  rewrite (bind_eq _ _ _ _ _ Hrd). cbn [snd].
  pose proof (reads_as_bc_read st0 _ _ _ _ _ _ _ _ Hrd Hr) as Hr1.
  destruct (bc_read_value _ _ _ _ _ _ _ _ _ Hrd ltac:(in_slot) ltac:(in_slot)) as (_ & _ & (_ & _ & Hmo1 & _)).
  pose proof (memcpy_length _ _ _ _ _ _ Hcpy) as Hlen1.
  rewrite (to_s32_id (size - chunk)) by (unfold in_s32; lia).
  rewrite (to_s32_id (offset + chunk)) by (unfold in_s32; lia).
  rewrite (to_s32_id (br + chunk)) by (unfold in_s32; lia).
  destruct (IH st1 buf1 (size - chunk) (offset + chunk) (br + chunk))
    as (st' & buf' & Hrun & Hr' & Hmo' & Hlen' & Hbytes' & Hout'); [done|lia..|].
  exists st', buf'. split; [rewrite Hrun; do 3 f_equal; lia|].
  split; [done|]. split; [congruence|]. split; [congruence|]. split.
  - intros i Hi. destruct (decide (Z.of_nat i < chunk)) as [Hlt|Hge].
    + rewrite Hout' by lia.
      rewrite (memcpy_inside _ _ _ _ _ _ _ Hcpy) by done.
      rewrite Hcont by done.
      destruct (chunk_in_sector offset (offset + Z.of_nat i) chunk) as [Hq Hrm]; [lia..|].
      unfold file_byte, BLOCK_SECTOR_SIZE. rewrite Hq, Hs, Hrm.
      fold sofs. f_equal. lia.
    + replace (Z.to_nat br + i)%nat
        with (Z.to_nat (br + chunk) + (i - Z.to_nat chunk))%nat by lia.
      rewrite Hbytes' by lia. f_equal. lia.
  - intros j Hj. rewrite Hout' by lia.
    apply (memcpy_outside _ _ _ _ _ _ _ Hcpy). lia.
Qed.

End direct_io.

(** ** Writing a file and reading it back *)

Lemma get_u32_range l i : in_u32 (get_u32 l i).
Proof.
  unfold in_u32, get_u32, byte_at.
  pose proof (Z.mod_pos_bound (default 0 (l !! i)) 256 ltac:(lia)).
  pose proof (Z.mod_pos_bound (default 0 (l !! (i + 1)%nat)) 256 ltac:(lia)).
  pose proof (Z.mod_pos_bound (default 0 (l !! (i + 2)%nat)) 256 ltac:(lia)).
  pose proof (Z.mod_pos_bound (default 0 (l !! (i + 3)%nat)) 256 ltac:(lia)).
  lia.
Qed.

(** The direct table of an inode header written over a sector. *)
Lemma direct_written d old new :
  length (direct_map_table d) = Z.to_nat DIRECT_BLOCK_ENTRIES →
  Forall in_u32 (direct_map_table d) →
  memcpy old 0 (bytes_of_inode_disk d) 0 BLOCK_SECTOR_SIZE = Some new →
  direct_map_table (inode_disk_of_bytes new) = direct_map_table d.
Proof.
  intros Hlen Hall [_ ->]%memcpy_Some.
  change (Z.to_nat 0) with 0%nat. rewrite take_0, drop_0, app_nil_l.
  unfold inode_disk_of_bytes. cbn [direct_map_table].
  assert (Hl : length (bytes_of_inode_disk d) = 512%nat).
  { unfold bytes_of_inode_disk, inode_disk_words.
    rewrite length_encode_words, length_app, Hlen. done. }
  rewrite take_ge by (unfold BLOCK_SECTOR_SIZE; lia).
  apply list_eq. intros k. rewrite list_lookup_fmap.
  destruct (decide (k < Z.to_nat DIRECT_BLOCK_ENTRIES)%nat) as [Hk|Hk].
  - rewrite lookup_seq_lt by done. cbn [fmap option_fmap option_map].
    destruct (lookup_lt_is_Some_2 (direct_map_table d) k) as [w Hw]; [lia|].
    rewrite Hw. f_equal. unfold bytes_of_inode_disk.
    rewrite (get_u32_encode _ k w).
    + apply to_u32_id. by apply (proj1 (Forall_lookup _ _) Hall k).
    + unfold inode_disk_words. by rewrite lookup_app_l by lia.
  - rewrite lookup_seq_ge by lia. cbn [fmap option_fmap option_map].
    symmetry. apply lookup_ge_None. lia.
Qed.

Lemma direct_of_bytes_range l : Forall in_u32 (direct_map_table (inode_disk_of_bytes l)).
Proof.
  unfold inode_disk_of_bytes. cbn [direct_map_table].
  apply Forall_fmap, Forall_forall. intros k _. apply get_u32_range.
Qed.

Lemma get_disk_inode_spec p st i :
  settled st → inode_of st p = Some i →
  ∃ st', get_disk_inode p st = Some (inode_disk_of_bytes (sector_contents st p), st')
    ∧ settled st' ∧ same_disk st st' ∧ open_inodes st' = open_inodes st.
Proof.
  intros Hs Hi. unfold get_disk_inode.
  rewrite (bind_eq _ _ _ _ _ (inode_deref_spec _ _ _ Hi)).
  rewrite (inode_of_sector _ _ _ Hi).
  destruct (read_block_spec p st Hs) as (st' & Hr & Hs' & Hd & Ho & _).
  rewrite (bind_eq _ _ _ _ _ Hr). by exists st'.
Qed.

Lemma lock_acquire_extend_spec p st i :
  inode_of st p = Some i → extend_lock i = false →
  ∃ st', lock_acquire_extend p st = Some (tt, st')
    ∧ only_inodes st st' ∧ inode_of st' p = Some (with_extend_lock true i).
Proof.
  intros Hi Hl. unfold lock_acquire_extend.
  rewrite (bind_eq _ _ _ _ _ (inode_deref_spec _ _ _ Hi)). rewrite Hl.
  unfold bind at 1. cbn [negb ASSERT].
  destruct (inode_modify_spec p (with_extend_lock true) st i Hi)
    as (st' & Hm & Ho & Hi' & _); [by apply inode_of_sector in Hi|].
  by exists st'.
Qed.

Lemma lock_release_extend_spec p st i :
  inode_of st p = Some i → extend_lock i = true →
  ∃ st', lock_release_extend p st = Some (tt, st')
    ∧ only_inodes st st' ∧ inode_of st' p = Some (with_extend_lock false i).
Proof.
  intros Hi Hl. unfold lock_release_extend.
  rewrite (bind_eq _ _ _ _ _ (inode_deref_spec _ _ _ Hi)). rewrite Hl.
  unfold bind at 1. cbn [ASSERT].
  destruct (inode_modify_spec p (with_extend_lock false) st i Hi)
    as (st' & Hm & Ho & Hi' & _); [by apply inode_of_sector in Hi|].
  by exists st'.
Qed.

Lemma direct_file_ext p d d' :
  direct_map_table d' = direct_map_table d → disk_length d' = disk_length d →
  direct_file p d → direct_file p d'.
Proof. unfold direct_file, data_sectors. by intros -> ->. Qed.

Lemma file_byte_header st d d' pos :
  direct_map_table d' = direct_map_table d → file_byte st d' pos = file_byte st d pos.
Proof. unfold file_byte. by intros ->. Qed.

Lemma length_bytes_of_inode_disk d :
  length (direct_map_table d) = Z.to_nat DIRECT_BLOCK_ENTRIES →
  length (bytes_of_inode_disk d) = Z.to_nat BLOCK_SECTOR_SIZE.
Proof.
  intros Hlen. unfold bytes_of_inode_disk, inode_disk_words.
  rewrite length_encode_words, length_app, Hlen. done.
Qed.

Lemma file_byte_same_disk p d st st' pos :
  length (direct_map_table d) = Z.to_nat DIRECT_BLOCK_ENTRIES →
  direct_file p d →
  (∀ s, s ≠ NO_SECTOR → sector_contents st' s = sector_contents st s) →
  0 <= pos < disk_length d → file_byte st' d pos = file_byte st d pos.
Proof.
  intros Hlen Hfile Hsame Hpos. apply (file_byte_ext p d Hlen Hfile); [|done].
  intros s Hin. apply Hsame. destruct Hfile as (_ & _ & Hall).
  by apply (proj1 (Forall_forall _ _) Hall) in Hin as [_ ?].
Qed.

(** What a write inside a file in direct blocks does. *)
Lemma inode_write_at_direct st p i buffer size offset :
  settled st → inode_of st p = Some i →
  deny_write_cnt i = 0 → extend_lock i = false →
  direct_file p (inode_disk_of_bytes (sector_contents st p)) →
  0 <= offset → 0 <= size → offset + size <= file_length st p →
  size <= Z.of_nat (length buffer) →
  ∃ st1 i1,
    inode_write_at p buffer size offset st = Some (size, st1)
    ∧ settled st1 ∧ inode_of st1 p = Some i1
    ∧ direct_map_table (inode_disk_of_bytes (sector_contents st1 p))
      = direct_map_table (inode_disk_of_bytes (sector_contents st p))
    ∧ file_length st1 p = file_length st p
    ∧ ∀ pos, 0 <= pos < file_length st p →
        file_byte st1 (inode_disk_of_bytes (sector_contents st p)) pos
        = if decide (offset <= pos < offset + size)
          then buffer !! Z.to_nat (pos - offset)
          else file_byte st (inode_disk_of_bytes (sector_contents st p)) pos.
Proof.
  intros Hs Hi Hdeny Hlock Hfile Hoff Hsize Hend Hbuf.
  unfold file_length in *.
  pose proof (direct_length_of_bytes (sector_contents st p)) as Hlen.
  pose proof (disk_length_in_s32 (sector_contents st p)) as Hs32.
  pose proof (direct_of_bytes_range (sector_contents st p)) as Hu32.
  set (hdr := inode_disk_of_bytes (sector_contents st p)) in *.
  pose proof (inode_of_sector _ _ _ Hi) as Hsec.
  unfold inode_write_at.
  rewrite (bind_eq _ _ _ _ _ (malloc_empty st (proj2 (proj2 Hs)))). cbn [negb].
  destruct (get_disk_inode_spec p st i Hs Hi) as (sa & Hga & Hsa & Hda & Hoa).
  rewrite (bind_eq _ _ _ _ _ Hga). fold hdr.
  assert (Hia : inode_of sa p = Some i) by (by rewrite (inode_of_ext _ _ _ Hoa)).
  rewrite (bind_eq _ _ _ _ _ (inode_deref_spec _ _ _ Hia)).
  rewrite Hdeny. change (negb (0 =? 0)) with false. cbv iota.
  destruct (lock_acquire_extend_spec p sa i Hia Hlock) as (sb & Hlb & Hob & Hib).
  rewrite (bind_eq _ _ _ _ _ Hlb).
  unfold in_s32 in Hs32.
  rewrite (to_s32_id (offset + size)) by (unfold in_s32; lia).
  rewrite (to_s32_id (offset + size - 1)) by (unfold in_s32; lia).
  rewrite (to_s32_id (disk_length hdr - 1)) by (unfold in_s32; lia).
  destruct (Z.ltb_spec (disk_length hdr - 1) (offset + size - 1)); [lia|].
  rewrite (bind_eq _ _ _ _ _ (ret_eq _ sb)). cbn [fst snd negb].
  destruct (lock_release_extend_spec p sb _ Hib eq_refl) as (sc & Hlc & Hoc & Hic).
  rewrite (bind_eq _ _ _ _ _ Hlc).
  pose proof (only_inodes_settled _ _ Hob Hsa) as Hsb.
  pose proof (only_inodes_settled _ _ Hoc Hsb) as Hsc.
  destruct (write_loop_direct p hdr Hlen Hfile buffer (Z.to_nat size) sc size offset 0)
    as (sd & Hwl & [Hshd Hcod] & Hsamed & _ & Hbytesd);
    [split; apply Hsc|lia..|].
  rewrite Z.add_0_l in Hwl. rewrite (bind_eq _ _ _ _ _ Hwl).
  destruct Hsamed as (_ & Hoid & Hmod & _).
  assert (Hid : inode_of sd p = Some (with_extend_lock false (with_extend_lock true i)))
    by (by rewrite (inode_of_ext _ _ _ Hoid)).
  rewrite (bind_eq _ _ _ _ _ (inode_deref_spec _ _ _ Hid)).
  cbn [sector with_extend_lock]. rewrite Hsec.
  destruct (memcpy_is_Some (sector_contents sd p) 0 (bytes_of_inode_disk hdr) 0
              BLOCK_SECTOR_SIZE) as [new Hcpy];
    [unfold BLOCK_SECTOR_SIZE; lia..
    |rewrite sector_contents_length by done; unfold BLOCK_SECTOR_SIZE; lia
    |rewrite length_bytes_of_inode_disk by done; unfold BLOCK_SECTOR_SIZE; lia|].
  destruct (bc_write_returns _ _ _ _ _ _ _ Hshd Hcpy) as (st1 & Hw).
  rewrite (bind_eq _ _ _ _ _ Hw).
  exists st1, (with_extend_lock false (with_extend_lock true i)).
  destruct (bc_write_preserves _ _ _ _ _ _ _ _ Hw ltac:(in_slot) ltac:(in_slot) Hshd Hcod) as (Hsh1 & Hco1 & Hother1).
  destruct (bc_write_contents _ _ _ _ _ _ _ _ Hw ltac:(in_slot) ltac:(in_slot)) as (_ & Hcpy1 & _ & (_ & Hoi1 & Hmo1 & _)).
  split; [done|]. split_and!.
  - split_and!; [done..|]. rewrite Hmo1, Hmod.
    destruct Hoc as (_ & _ & _ & -> & _). apply Hsb.
  - by rewrite (inode_of_ext _ _ _ Hoi1).
  - by apply (direct_written _ _ _ Hlen Hu32 Hcpy1).
  - by apply (disk_length_written _ _ _ Hlen Hs32 Hcpy1).
  - intros pos Hpos.
    pose proof Hfile as (Hmax & Hnd & Hall).
    apply NoDup_cons in Hnd as [Hp _].
    rewrite (file_byte_ext p hdr Hlen Hfile sd st1).
    2: { intros s Hin. apply Hother1.
         - by apply (proj1 (Forall_forall _ _) Hall) in Hin as [_ ?].
         - by intros ->. }
    2: done.
    rewrite Hbytesd by done.
    destruct (decide (offset <= pos < offset + size)); [f_equal; lia|].
    rewrite (file_byte_same_disk p hdr sb sc); [|done|done| |done].
    2: { intros s _. by apply same_cache_contents, Hoc. }
    rewrite (file_byte_same_disk p hdr sa sb); [|done|done| |done].
    2: { intros s _. by apply same_cache_contents, Hob. }
    apply (file_byte_same_disk p hdr st sa); [done|done| |done].
    apply Hda.
Qed.

(** What a read inside a file in direct blocks returns. *)
Lemma inode_read_at_direct st p i out size offset :
  settled st → inode_of st p = Some i →
  direct_file p (inode_disk_of_bytes (sector_contents st p)) →
  0 <= offset → 0 <= size → offset + size <= file_length st p →
  size <= Z.of_nat (length out) →
  ∃ out' st',
    inode_read_at p out size offset st = Some ((size, out'), st')
    ∧ length out' = length out
    ∧ (∀ k : nat, Z.of_nat k < size →
         out' !! k
         = file_byte st (inode_disk_of_bytes (sector_contents st p)) (offset + Z.of_nat k))
    ∧ (∀ k : nat, size <= Z.of_nat k → out' !! k = out !! k).
Proof.
  intros Hs Hi Hfile Hoff Hsize Hend Hout.
  unfold file_length in *.
  pose proof (direct_length_of_bytes (sector_contents st p)) as Hlen.
  set (hdr := inode_disk_of_bytes (sector_contents st p)) in *.
  unfold inode_read_at.
  rewrite (bind_eq _ _ _ _ _ (malloc_empty st (proj2 (proj2 Hs)))). cbn [negb].
  destruct (get_disk_inode_spec p st i Hs Hi) as (sa & Hga & Hsa & Hda & Hoa).
  rewrite (bind_eq _ _ _ _ _ Hga). fold hdr.
  destruct (read_loop_direct p hdr Hlen Hfile sa (Z.to_nat size) sa out size offset 0)
    as (st' & out' & Hrl & _ & _ & Hlo & Hbytes & Hrest);
    [apply reads_as_refl; split; apply Hsa|lia|lia|lia|lia|lia|].
  rewrite Z.add_0_l in Hrl. exists out', st'.
  split; [done|]. split; [done|]. split.
  - intros k Hk. specialize (Hbytes k Hk). change (Z.to_nat 0 + k)%nat with k in Hbytes.
    rewrite Hbytes. apply (file_byte_same_disk p hdr st sa); [done|done| |lia].
    apply Hda.
  - intros k Hk. apply Hrest. lia.
Qed.

Lemma list_eq_split (l1 l2 : list Z) (n : nat) :
  (∀ k, (k < n)%nat → l1 !! k = l2 !! k) →
  (∀ k, (n ≤ k)%nat → l1 !! k = l2 !! k) → l1 = l2.
Proof.
  intros Hlt Hge. apply list_eq. intros k.
  destruct (decide (k < n)%nat); [by apply Hlt | apply Hge; lia].
Qed.

(** X17.  What [inode_write_at] writes inside a file, [inode_read_at]
    reads back.  For a file in direct blocks that is open, not denied to
    writers and not being extended, a write of [size] bytes that ends
    inside the file returns [size] and leaves the length as it is; a read
    of [size] bytes at the same offset then returns [size] and puts the
    bytes written at the start of the caller's buffer, the rest of which
    is left alone. *)
Theorem inode_write_then_read st p i buffer out size offset :
  settled st → inode_of st p = Some i →
  deny_write_cnt i = 0 → extend_lock i = false →
  direct_file p (inode_disk_of_bytes (sector_contents st p)) →
  0 <= offset → 0 <= size → offset + size <= file_length st p →
  size <= Z.of_nat (length buffer) → size <= Z.of_nat (length out) →
  ∃ st1 out' st2,
    inode_write_at p buffer size offset st = Some (size, st1)
    ∧ inode_read_at p out size offset st1 = Some ((size, out'), st2)
    ∧ take (Z.to_nat size) out' = take (Z.to_nat size) buffer
    ∧ drop (Z.to_nat size) out' = drop (Z.to_nat size) out
    ∧ file_length st1 p = file_length st p.
Proof.
  intros Hs Hi Hdeny Hlock Hfile Hoff Hsize Hend Hbuf Hout.
  destruct (inode_write_at_direct st p i buffer size offset)
    as (st1 & i1 & Hw & Hs1 & Hi1 & Hdir & Hlen & Hbytes); [done..|].
  assert (Hfile1 : direct_file p (inode_disk_of_bytes (sector_contents st1 p)))
    by (by apply (direct_file_ext p (inode_disk_of_bytes (sector_contents st p)))).
  destruct (inode_read_at_direct st1 p i1 out size offset)
    as (out' & st2 & Hr & _ & Hread & Hrest); [done|done|done|done|done|lia|done|].
  exists st1, out', st2. split_and!; [done|done| | |done].
  - apply list_eq. intros k.
    destruct (decide (k < Z.to_nat size)%nat).
    + rewrite !lookup_take_lt by done. rewrite Hread by lia.
      rewrite (file_byte_header st1 (inode_disk_of_bytes (sector_contents st p))) by done.
      rewrite Hbytes by lia. rewrite decide_True by lia. f_equal. lia.
    + by rewrite !lookup_take_ge by lia.
  - apply list_eq. intros k. rewrite !lookup_drop. apply Hrest. lia.
Qed.

Lemma fs_with_data_settled : settled fs_with_data.
Proof.
  destruct fs_with_data_ok as [Hshape Hcoh]. split_and!; [done|done|reflexivity].
Qed.

Lemma fs_with_data_direct_file :
  direct_file 2 (inode_disk_of_bytes (sector_contents fs_with_data 2)).
Proof.
  assert (Hhdr : inode_disk_of_bytes (sector_contents fs_with_data 2) = data_file_inode)
    by (vm_compute; reflexivity).
  rewrite Hhdr. unfold direct_file.
  assert (Hds : data_sectors data_file_inode = [3; 4]) by (vm_compute; reflexivity).
  rewrite Hds. split_and!.
  - vm_compute. discriminate.
  - apply (bool_decide_unpack _). vm_compute. reflexivity.
  - apply (bool_decide_unpack _). vm_compute. reflexivity.
Qed.

Lemma fs_with_data_length : file_length fs_with_data 2 = 600.
Proof. vm_compute. reflexivity. Qed.

Lemma inode_write_then_read_witness :
  ∃ st1 out' st2,
    inode_write_at 2 [1; 2; 3; 4; 5; 6; 7; 8] 8 508 fs_with_data = Some (8, st1)
    ∧ inode_read_at 2 (replicate 10 0) 8 508 st1 = Some ((8, out'), st2)
    ∧ take (Z.to_nat 8) out' = take (Z.to_nat 8) [1; 2; 3; 4; 5; 6; 7; 8]
    ∧ drop (Z.to_nat 8) out' = drop (Z.to_nat 8) (replicate 10 0)
    ∧ file_length st1 2 = file_length fs_with_data 2.
Proof.
  apply (inode_write_then_read fs_with_data 2 (mk_inode 2 1 false 0 false)).
  - apply fs_with_data_settled.
  - reflexivity.
  - reflexivity.
  - reflexivity.
  - apply fs_with_data_direct_file.
  - lia.
  - lia.
  - rewrite fs_with_data_length. lia.
  - simpl. lia.
  - simpl. lia.
Defined.

(** X18.  A write inside a file changes nothing that a read outside the
    written range returns: for a file as above, a read of a range of the
    file that ends before the bytes written or starts after them returns
    after the write what it returned before. *)
Theorem inode_write_at_keeps_other_bytes st p i buffer out size offset rsize roffset :
  settled st → inode_of st p = Some i →
  deny_write_cnt i = 0 → extend_lock i = false →
  direct_file p (inode_disk_of_bytes (sector_contents st p)) →
  0 <= offset → 0 <= size → offset + size <= file_length st p →
  size <= Z.of_nat (length buffer) →
  0 <= roffset → 0 <= rsize → roffset + rsize <= file_length st p →
  rsize <= Z.of_nat (length out) →
  roffset + rsize <= offset ∨ offset + size <= roffset →
  ∃ st1 out' st2 st3,
    inode_write_at p buffer size offset st = Some (size, st1)
    ∧ inode_read_at p out rsize roffset st = Some ((rsize, out'), st2)
    ∧ inode_read_at p out rsize roffset st1 = Some ((rsize, out'), st3).
Proof.
  intros Hs Hi Hdeny Hlock Hfile Hoff Hsize Hend Hbuf Hroff Hrsize Hrend Hout Hapart.
  destruct (inode_write_at_direct st p i buffer size offset)
    as (st1 & i1 & Hw & Hs1 & Hi1 & Hdir & Hlen & Hbytes); [done..|].
  assert (Hfile1 : direct_file p (inode_disk_of_bytes (sector_contents st1 p)))
    by (by apply (direct_file_ext p (inode_disk_of_bytes (sector_contents st p)))).
  destruct (inode_read_at_direct st p i out rsize roffset)
    as (out0 & st2 & Hr0 & Hl0 & Hread0 & Hrest0); [done..|].
  destruct (inode_read_at_direct st1 p i1 out rsize roffset)
    as (out1 & st3 & Hr1 & Hl1 & Hread1 & Hrest1); [done|done|done|done|done|lia|done|].
  assert (out1 = out0) as ->.
  { apply (list_eq_split _ _ (Z.to_nat rsize)); intros k Hk.
    - rewrite Hread0, Hread1 by lia.
      rewrite (file_byte_header st1 (inode_disk_of_bytes (sector_contents st p))) by done.
      rewrite Hbytes by lia. by rewrite decide_False by lia.
    - rewrite Hrest0, Hrest1 by lia. done. }
  by exists st1, out0, st2, st3.
Qed.

Lemma inode_write_at_keeps_other_bytes_witness :
  ∃ st1 out' st2 st3,
    inode_write_at 2 [1; 2; 3; 4; 5; 6; 7; 8] 8 508 fs_with_data = Some (8, st1)
    ∧ inode_read_at 2 (replicate 10 0) 10 516 fs_with_data = Some ((10, out'), st2)
    ∧ inode_read_at 2 (replicate 10 0) 10 516 st1 = Some ((10, out'), st3).
Proof.
  apply (inode_write_at_keeps_other_bytes fs_with_data 2 (mk_inode 2 1 false 0 false)).
  - apply fs_with_data_settled.
  - reflexivity.
  - reflexivity.
  - reflexivity.
  - apply fs_with_data_direct_file.
  - lia.
  - lia.
  - rewrite fs_with_data_length. lia.
  - simpl. lia.
  - lia.
  - lia.
  - rewrite fs_with_data_length. lia.
  - simpl. lia.
  - right. lia.
Defined.

(** ** A file grown into direct blocks *)

Lemma locate_byte_in_direct offset :
  0 <= offset < DIRECT_BLOCK_ENTRIES * BLOCK_SECTOR_SIZE →
  locate_byte offset sec_loc_unset
  = mk_sector_location NORMAL_DIRECT (offset / BLOCK_SECTOR_SIZE) 0.
Proof.
  unfold DIRECT_BLOCK_ENTRIES, BLOCK_SECTOR_SIZE. intros H.
  unfold locate_byte, BLOCK_SECTOR_SIZE, DIRECT_BLOCK_ENTRIES.
  rewrite Z.quot_div_nonneg by lia.
  destruct (Z.ltb_spec (offset / 512) 123); [done|].
  assert (offset / 512 < 123) by (apply Z.div_lt_upper_bound; lia). lia.
Qed.

Lemma free_map_allocate_one st a st' :
  free_map_allocate 1 st = Some (a, st') →
  (a = None ∧ st' = st)
  ∨ ∃ i : nat, a = Some (Z.of_nat i) ∧ free_map st !! i = Some false
      ∧ st' = with_free_map (bitmap_set_multiple (free_map st) i 1 true) st.
Proof.
  unfold free_map_allocate. intros H.
  mbind H as bm s0 Hbm. apply gets_Some in Hbm as [-> ->].
  change (Z.to_nat 1) with 1%nat in H.
  destruct (bitmap_scan (free_map st) 1) as [i|] eqn:Hscan.
  - right. exists i. apply bitmap_scan_free in Hscan.
    unfold bind, modify, ret in H. by injection H as <- <-.
  - left. unfold ret in H. by injection H as <- <-.
Qed.

Lemma update_file_length_loop_direct fuel : ∀ d offset size st d' st',
  cache_ok st →
  length (direct_map_table d) = Z.to_nat DIRECT_BLOCK_ENTRIES →
  Z.of_nat (length (free_map st)) < NO_SECTOR →
  free_map st !! 0%nat = Some true →
  0 <= offset → 0 <= size →
  offset + size <= DIRECT_BLOCK_ENTRIES * BLOCK_SECTOR_SIZE →
  (0 < size → offset mod BLOCK_SECTOR_SIZE = 0) →
  update_file_length_loop fuel d offset size st = Some ((true, d'), st') →
  ∃ ss, length ss = Z.to_nat ((size + 511) / 512)
    ∧ (∀ j : nat,
         direct_map_table d' !! j
         = if decide (Z.to_nat (offset / 512) ≤ j < Z.to_nat (offset / 512) + length ss)%nat
           then ss !! (j - Z.to_nat (offset / 512))%nat
           else direct_map_table d !! j)
    ∧ NoDup ss
    ∧ Forall (λ s, 0 < s ∧ free_map st !! Z.to_nat s = Some false
                   ∧ sector_contents st' s = zero_block) ss
    ∧ cache_ok st'
    ∧ open_inodes st' = open_inodes st
    ∧ length (free_map st') = length (free_map st)
    ∧ (∀ x : nat, free_map st !! x = Some true → free_map st' !! x = Some true)
    ∧ (∀ s, 0 <= s → free_map st !! Z.to_nat s = Some true →
         sector_contents st' s = sector_contents st s)
    ∧ (∀ x : nat, free_map st' !! x
         = if decide (Z.of_nat x ∈ ss) then Some true else free_map st !! x)
    ∧ indirect_block_sec d' = indirect_block_sec d
    ∧ double_indirect_block_sec d' = double_indirect_block_sec d.
Proof.
  assert (Hdone : ∀ d st offset, cache_ok st →
    ∃ ss, length ss = Z.to_nat ((0 + 511) / 512)
    ∧ (∀ j : nat,
         direct_map_table d !! j
         = if decide (Z.to_nat (offset / 512) ≤ j < Z.to_nat (offset / 512) + length ss)%nat
           then ss !! (j - Z.to_nat (offset / 512))%nat
           else direct_map_table d !! j)
    ∧ NoDup ss
    ∧ Forall (λ s, 0 < s ∧ free_map st !! Z.to_nat s = Some false
                   ∧ sector_contents st s = zero_block) ss
    ∧ cache_ok st
    ∧ open_inodes st = open_inodes st
    ∧ length (free_map st) = length (free_map st)
    ∧ (∀ x : nat, free_map st !! x = Some true → free_map st !! x = Some true)
    ∧ (∀ s, 0 <= s → free_map st !! Z.to_nat s = Some true →
         sector_contents st s = sector_contents st s)
    ∧ (∀ x : nat, free_map st !! x
         = if decide (Z.of_nat x ∈ ss) then Some true else free_map st !! x)
    ∧ indirect_block_sec d = indirect_block_sec d
    ∧ double_indirect_block_sec d = double_indirect_block_sec d).
  { intros d st offset Hok. exists []. split_and!; try done.
    - intros j. simpl. by rewrite decide_False by lia.
    - constructor. }
  induction fuel as [|fuel IH];
    intros d offset size st d' st' Hok Hlen HfmN Hfm0 Hoff Hsize Hmax Hal H;
    cbn [update_file_length_loop] in H.
  { destruct (Z.leb_spec size 0); [|done].
    assert (size = 0) as -> by lia. unfold ret in H. injection H as <- <-.
    by apply Hdone. }
  destruct (Z.leb_spec size 0) as [Hz|Hpos].
  { assert (size = 0) as -> by lia. unfold ret in H. injection H as <- <-.
    by apply Hdone. }
  specialize (Hal Hpos).
  unfold BLOCK_SECTOR_SIZE, DIRECT_BLOCK_ENTRIES in *.
  rewrite Z.rem_mod_nonneg in H by lia. rewrite Hal in H.
  change (to_s32 (512 - 0)) with 512 in H.
  set (chunk := if size <? 512 then size else 512) in H.
  assert (Hchunk : chunk = Z.min size 512)
    by (subst chunk; destruct (Z.ltb_spec size 512); lia).
  clearbody chunk.
  destruct (Z.leb_spec chunk 0); [lia|].
  change (0 <? 0) with false in H. cbv iota in H.
  mbind H as a st1 Ha.
  apply free_map_allocate_one in Ha as [[-> ->]|(i & -> & Hfree & ->)].
  { unfold ret in H. discriminate H. }
  rewrite locate_byte_in_direct in H
    by (unfold BLOCK_SECTOR_SIZE, DIRECT_BLOCK_ENTRIES; lia).
  unfold BLOCK_SECTOR_SIZE in H.
  mbind H as r st2 Hreg. unfold register_sector in Hreg. cbn [directness index1] in Hreg.
  mbind Hreg as u st2' Has. apply ASSERT_Some in Has as [_ ->].
  unfold ret in Hreg. injection Hreg as <- <-. cbn [fst snd] in H.
  mbind H as w st3 Hw.
  set (st1 := with_free_map (bitmap_set_multiple (free_map st) i 1 true) st) in *.
  set (k := Z.to_nat (offset / 512)) in *.
  set (d1 := with_direct_map_table (<[k := Z.of_nat i]> (direct_map_table d)) d) in *.
  destruct Hok as [Hshape Hcoh].
  assert (Hshape1 : cache_shape st1) by exact Hshape.
  assert (Hcoh1 : cache_coherent st1) by exact Hcoh.
  destruct (bc_write_preserves _ _ _ _ _ _ _ _ Hw ltac:(in_slot) ltac:(in_slot) Hshape1 Hcoh1) as (Hshape3 & Hcoh3 & Hother3).
  destruct (bc_write_contents _ _ _ _ _ _ _ _ Hw ltac:(in_slot) ltac:(in_slot)) as (_ & Hcpy3 & _ & (Hfm3 & Hoi3 & _)).
  apply memcpy_whole in Hcpy3;
    [|by rewrite sector_contents_length by done].
  rewrite sector_contents_length in Hcpy3 by done.
  change (take (Z.to_nat BLOCK_SECTOR_SIZE) zero_block) with zero_block in Hcpy3.
  assert (Hi0 : i ≠ 0%nat) by (intros ->; congruence).
  assert (HiN : (i < length (free_map st))%nat) by (by eapply lookup_lt_Some).
  assert (Hfm1 : ∀ x : nat, free_map st3 !! x
                 = if decide (x = i) then Some true else free_map st !! x).
  { intros x. rewrite Hfm3. unfold st1. cbn [free_map with_free_map].
    rewrite lookup_bitmap_set_multiple.
    destruct (decide (x = i)) as [->|Hne].
    - rewrite decide_True by lia. by rewrite Hfree.
    - by rewrite decide_False by lia. }
  assert (Hk : offset / 512 < 123) by (apply Z.div_lt_upper_bound; lia).
  assert (Hk0 : 0 <= offset / 512) by (apply Z.div_pos; lia).
  rewrite (to_s32_id (offset + chunk)) in H by (unfold in_s32; lia).
  rewrite (to_s32_id (size - chunk)) in H by (unfold in_s32; lia).
  apply IH in H; [|by split|..]; cycle 1.
  { unfold d1. cbn [direct_map_table with_direct_map_table]. by rewrite length_insert. }
  { rewrite Hfm3. unfold st1. cbn [free_map with_free_map].
    by rewrite length_bitmap_set_multiple. }
  { rewrite Hfm1. by rewrite decide_False by done. }
  { lia. } { lia. } { lia. }
  { intros Hmore. assert (chunk = 512) as -> by lia.
    rewrite <- Z.add_mod_idemp_l by lia. rewrite Hal. done. }
  destruct H as (ss' & Hlss' & Hdir' & Hnd' & Hall' & Hok' & Hoi' & Hlfm' & Hmono' & Hframe'
                 & Hbits' & Hind' & Hdbl').
  exists (Z.of_nat i :: ss'). split_and!.
  - cbn [length]. rewrite Hlss'.
    destruct (decide (size <= 512)).
    + replace (size - chunk) with 0 by lia. change ((0 + 511) / 512) with 0.
      assert ((size + 511) / 512 = 1); [|lia].
      symmetry. apply (Z.div_unique _ _ 1 (size - 1)); lia.
    + assert (chunk = 512) as -> by lia.
      replace (size + 511) with (size - 512 + 511 + 1 * 512) by lia.
      rewrite Z.div_add by lia.
      assert (0 <= (size - 512 + 511) / 512) by (apply Z.div_pos; lia). lia.
  - intros j. rewrite Hdir'. unfold d1. cbn [direct_map_table with_direct_map_table length].
    destruct (decide (size <= 512)) as [Hlast|Hmore].
    + assert (length ss' = 0%nat) as Hl0.
      { rewrite Hlss'. replace (size - chunk) with 0 by lia. done. }
      rewrite Hl0. rewrite decide_False by lia.
      destruct (decide (j = k)) as [->|Hjk].
      * rewrite decide_True by lia. rewrite Nat.sub_diag.
        apply list_lookup_insert_eq. rewrite Hlen. lia.
      * rewrite decide_False by lia. by apply list_lookup_insert_ne.
    + assert (chunk = 512) as -> by lia.
      assert (Hk' : Z.to_nat ((offset + 512) / 512) = S k).
      { replace (offset + 512) with (offset + 1 * 512) by lia.
        rewrite Z.div_add by lia. unfold k. lia. }
      rewrite Hk'.
      destruct (decide (j = k)) as [->|Hjk].
      * rewrite decide_False by lia. rewrite decide_True by lia. rewrite Nat.sub_diag.
        apply list_lookup_insert_eq. rewrite Hlen. lia.
      * rewrite list_lookup_insert_ne by done.
        destruct (decide (S k ≤ j < S k + length ss')%nat).
        -- rewrite decide_True by lia.
           replace (j - k)%nat with (S (j - S k)) by lia. done.
        -- by rewrite decide_False by lia.
  - apply NoDup_cons. split; [|done].
    intros Hin. apply (proj1 (Forall_forall _ _) Hall') in Hin as (_ & Hf & _).
    rewrite Nat2Z.id, Hfm1 in Hf. by rewrite decide_True in Hf.
  - apply Forall_cons. split.
    + split; [lia|]. rewrite Nat2Z.id. split; [done|].
      rewrite Hframe'; [done|lia|]. rewrite Nat2Z.id, Hfm1. by rewrite decide_True.
    + eapply Forall_impl; [exact Hall'|]. intros s (Hs & Hf & Hz). split; [done|].
      split; [|done]. rewrite Hfm1 in Hf. by destruct (decide (Z.to_nat s = i)).
  - done.
  - by rewrite Hoi', Hoi3.
  - rewrite Hlfm', Hfm3. unfold st1. cbn [free_map with_free_map].
    by rewrite length_bitmap_set_multiple.
  - intros x Hx. apply Hmono'. rewrite Hfm1. by destruct (decide (x = i)).
  - intros s Hs Hx. rewrite Hframe'; [|done|].
    + rewrite Hother3; [done| |].
      * intros ->. apply lookup_lt_Some in Hx. lia.
      * intros ->. rewrite Nat2Z.id in Hx. congruence.
    + rewrite Hfm1. by destruct (decide (Z.to_nat s = i)).
  - intros x. rewrite Hbits', Hfm1.
    destruct (decide (Z.of_nat x ∈ ss')) as [Hin|Hnin].
    + rewrite decide_True; [done|]. by apply elem_of_cons; right.
    + destruct (decide (x = i)) as [->|Hne].
      * rewrite decide_True; [done|]. by apply elem_of_cons; left.
      * rewrite decide_False; [done|]. intros [?|?]%elem_of_cons; [lia|done].
  - by rewrite Hind'.
  - by rewrite Hdbl'.
Qed.

(** The pointers to the indirect blocks of an inode header written over a
    sector. *)
Lemma indirect_written d old new :
  length (direct_map_table d) = Z.to_nat DIRECT_BLOCK_ENTRIES →
  memcpy old 0 (bytes_of_inode_disk d) 0 BLOCK_SECTOR_SIZE = Some new →
  indirect_block_sec (inode_disk_of_bytes new) = to_u32 (indirect_block_sec d)
  ∧ double_indirect_block_sec (inode_disk_of_bytes new)
    = to_u32 (double_indirect_block_sec d).
Proof.
  intros Hlen [_ ->]%memcpy_Some.
  change (Z.to_nat 0) with 0%nat. rewrite take_0, drop_0, app_nil_l.
  unfold inode_disk_of_bytes. cbn [indirect_block_sec double_indirect_block_sec].
  rewrite take_ge by (by rewrite length_bytes_of_inode_disk).
  unfold bytes_of_inode_disk.
  change 492%nat with (4 * 123)%nat. change 496%nat with (4 * 124)%nat.
  rewrite (get_u32_encode _ 123 (indirect_block_sec d)),
    (get_u32_encode _ 124 (double_indirect_block_sec d)); [done|..].
  all: unfold inode_disk_words;
    rewrite lookup_app_r by (rewrite Hlen; unfold DIRECT_BLOCK_ENTRIES; lia);
    rewrite Hlen; reflexivity.
Qed.

(** What [inode_create] leaves on the disk when the file fits the direct
    table: the new header is of a file in direct blocks, these hold
    zeros, they are the sectors that were taken from the free map, and
    the header has no indirect block. *)
Lemma inode_create_direct st sec len isdir st1 :
  cache_ok st →
  Z.of_nat (length (free_map st)) < NO_SECTOR →
  free_map st !! 0%nat = Some true →
  0 <= sec → free_map st !! Z.to_nat sec = Some true →
  len <= DIRECT_BLOCK_ENTRIES * BLOCK_SECTOR_SIZE →
  inode_create sec len isdir st = Some (true, st1) →
  cache_ok st1 ∧ open_inodes st1 = open_inodes st
  ∧ direct_file sec (inode_disk_of_bytes (sector_contents st1 sec))
  ∧ file_length st1 sec = len
  ∧ Forall (λ s, sector_contents st1 s = zero_block)
      (data_sectors (inode_disk_of_bytes (sector_contents st1 sec)))
  ∧ (∀ x : nat, free_map st1 !! x
       = if decide (Z.of_nat x
                    ∈ data_sectors (inode_disk_of_bytes (sector_contents st1 sec)))
         then Some true else free_map st !! x)
  ∧ (∃ rest, inode_disk_words (inode_disk_of_bytes (sector_contents st1 sec))
             = data_sectors (inode_disk_of_bytes (sector_contents st1 sec)) ++ 0 :: rest)
  ∧ indirect_block_sec (inode_disk_of_bytes (sector_contents st1 sec)) = 0
  ∧ double_indirect_block_sec (inode_disk_of_bytes (sector_contents st1 sec)) = 0
  ∧ Forall (λ s, 0 < s ∧ free_map st !! Z.to_nat s = Some false)
      (data_sectors (inode_disk_of_bytes (sector_contents st1 sec))).
Proof.
  intros Hok HfmN Hfm0 Hsec Hfsec Hmax H. unfold inode_create in H.
  mbind H as u st1' Ha. apply ASSERT_Some in Ha as [Hnn ->]. apply Z.leb_le in Hnn.
  mbind H as ok sA Hm. destruct ok; [|by mon_inv].
  set (d0 := mk_inode_disk (direct_map_table inode_disk_zero) 0 0 len INODE_MAGIC isdir) in *.
  mbind H as r sC Hgrow. destruct r as [rb d1]. cbn [fst snd] in H.
  destruct rb; cbn [negb] in H; [|by mon_inv].
  mbind H as w st4 Hw. unfold ret in H. injection H as ->.
  apply malloc_inv in Hm as (HcA & HfA & HoA & _).
  assert (HokA : cache_ok sA).
  { destruct Hok. split; [by eapply same_cache_shape | by eapply same_cache_coherent]. }
  unfold DIRECT_BLOCK_ENTRIES, BLOCK_SECTOR_SIZE in Hmax.
  assert (Hd0 : length (direct_map_table d0) = Z.to_nat DIRECT_BLOCK_ENTRIES)
    by (unfold d0, inode_disk_zero; cbn [direct_map_table]; by rewrite length_replicate).
  assert (Hloop : ∃ ss, length ss = Z.to_nat ((len + 511) / 512)
    ∧ (∀ j : nat, direct_map_table d1 !! j
         = if decide (j < length ss)%nat then ss !! j else direct_map_table d0 !! j)
    ∧ NoDup ss
    ∧ Forall (λ s, 0 < s ∧ free_map st !! Z.to_nat s = Some false
                   ∧ sector_contents sC s = zero_block) ss
    ∧ cache_ok sC ∧ open_inodes sC = open_inodes st
    ∧ disk_length d1 = len
    ∧ (∀ s, 0 <= s → free_map st !! Z.to_nat s = Some true →
         sector_contents sC s = sector_contents st s)
    ∧ (∀ x : nat, free_map sC !! x
         = if decide (Z.of_nat x ∈ ss) then Some true else free_map st !! x)
    ∧ indirect_block_sec d1 = 0 ∧ double_indirect_block_sec d1 = 0).
  { destruct (Z.ltb_spec 0 len) as [Hpos|Hz].
    - pose proof (inode_update_file_length_header _ _ _ _ _ _ _ Hgrow) as [Hdl _].
      unfold inode_update_file_length in Hgrow.
      mbind Hgrow as u2 sA' Ha2. apply ASSERT_Some in Ha2 as [_ ->].
      mbind Hgrow as zeroes sB Hm2. destruct zeroes; cbn [negb] in Hgrow; [|by mon_inv].
      apply malloc_inv in Hm2 as (HcB & HfB & HoB & _).
      rewrite (to_s32_id (len - 1)) in Hgrow by (unfold in_s32; lia).
      rewrite (to_s32_id (len - 1 - 0)) in Hgrow by (unfold in_s32; lia).
      replace (len - 1 - 0 + 1) with len in Hgrow by lia.
      rewrite (to_s32_id len) in Hgrow by (unfold in_s32; lia).
      apply update_file_length_loop_direct in Hgrow; cycle 1.
      { destruct HokA. split; [by eapply same_cache_shape | by eapply same_cache_coherent]. }
      { done. }
      { by rewrite HfB, HfA. }
      { by rewrite HfB, HfA. }
      { lia. } { lia. }
      { unfold DIRECT_BLOCK_ENTRIES, BLOCK_SECTOR_SIZE. lia. }
      { done. }
      destruct Hgrow as (ss & Hlss & Hdir & Hnd & Hall & HokC & HoC & _ & _ & Hframe
                         & Hbits & Hind & Hdbl).
      change (Z.to_nat (0 / 512)) with 0%nat in Hdir.
      exists ss. split_and!; try done.
      + intros j. rewrite Hdir. rewrite Nat.sub_0_r.
        destruct (decide (j < length ss)%nat).
        * by rewrite decide_True by lia.
        * by rewrite decide_False by lia.
      + eapply Forall_impl; [exact Hall|]. intros s (? & Hf & ?).
        split; [done|]. split; [|done]. by rewrite HfB, HfA in Hf.
      + by rewrite HoC, HoB.
      + intros s Hs Hx. rewrite Hframe; [|done|by rewrite HfB, HfA].
        rewrite (same_cache_contents _ _ _ HcB). by apply same_cache_contents.
      + intros x. rewrite Hbits. by rewrite HfB, HfA.
    - unfold ret in Hgrow. injection Hgrow as <- <-.
      assert (len = 0) as Hl0 by lia.
      exists []. split_and!; try done.
      + rewrite Hl0. done.
      + constructor.
      + intros s _ _. by apply same_cache_contents.
      + intros x. rewrite decide_False by apply not_elem_of_nil. by rewrite HfA. }
  destruct Hloop as (ss & Hlss & Hdir & Hnd & Hall & [HshC HcoC] & HoC & Hdl & Hframe
                     & Hbits & Hind & Hdbl).
  assert (Hd1 : length (direct_map_table d1) = Z.to_nat DIRECT_BLOCK_ENTRIES).
  { destruct (Z.ltb_spec 0 len).
    - apply inode_update_file_length_header in Hgrow as [_ ->]. done.
    - unfold ret in Hgrow. by injection Hgrow as <- <-. }
  assert (Hnb : (length ss ≤ 123)%nat).
  { rewrite Hlss. apply Nat2Z.inj_le. rewrite Z2Nat.id by (apply Z.div_pos; lia).
    apply Z.lt_succ_r. apply Z.div_lt_upper_bound; lia. }
  assert (Hss : ∀ s, s ∈ ss →
            0 < s ∧ s ≠ NO_SECTOR ∧ s ≠ sec ∧ in_u32 s
            ∧ sector_contents sC s = zero_block).
  { intros s Hin. apply (proj1 (Forall_forall _ _) Hall) in Hin as (Hs & Hf & Hz).
    pose proof (lookup_lt_Some _ _ _ Hf) as Hlt.
    assert (HN : NO_SECTOR = 4294967295) by reflexivity.
    split_and!; [done| | | |done].
    - intros ->. lia.
    - intros ->. congruence.
    - unfold in_u32. rewrite HN in HfmN. lia. }
  assert (Hu32 : Forall in_u32 (direct_map_table d1)).
  { apply Forall_lookup. intros j x Hx. rewrite Hdir in Hx.
    destruct (decide (j < length ss)%nat).
    - apply list_elem_of_lookup_2 in Hx. by apply Hss in Hx as (_ & _ & _ & ? & _).
    - unfold d0, inode_disk_zero in Hx. cbn [direct_map_table] in Hx.
      apply lookup_replicate in Hx as [-> _]. unfold in_u32. lia. }
  destruct (bc_write_preserves _ _ _ _ _ _ _ _ Hw ltac:(in_slot) ltac:(in_slot) HshC HcoC) as (Hsh1 & Hco1 & Hother1).
  destruct (bc_write_contents _ _ _ _ _ _ _ _ Hw ltac:(in_slot) ltac:(in_slot)) as (_ & Hcpy1 & _ & (Hfm1 & Hoi1 & _)).
  pose proof (direct_written _ _ _ Hd1 Hu32 Hcpy1) as Hdir1.
  destruct (indirect_written _ _ _ Hd1 Hcpy1) as [Hind1 Hdbl1].
  rewrite Hind in Hind1. rewrite Hdbl in Hdbl1.
  change (to_u32 0) with 0 in Hind1, Hdbl1.
  assert (Hlen1 : disk_length (inode_disk_of_bytes (sector_contents st1 sec)) = len).
  { rewrite (disk_length_written _ _ _ Hd1) by (rewrite ?Hdl; unfold in_s32; done || lia).
    done. }
  assert (Hds : data_sectors (inode_disk_of_bytes (sector_contents st1 sec)) = ss).
  { unfold data_sectors, BLOCK_SECTOR_SIZE. rewrite Hdir1, Hlen1.
    replace (len + 512 - 1) with (len + 511) by lia. rewrite <- Hlss.
    apply list_eq. intros j. destruct (decide (j < length ss)%nat).
    - rewrite lookup_take_lt by done. rewrite Hdir. by rewrite decide_True.
    - rewrite lookup_take_ge by lia. symmetry. apply lookup_ge_None. lia. }
  split; [done|]. split; [by rewrite Hoi1|]. split_and!.
  - unfold direct_file. rewrite Hds, Hlen1. split_and!.
    + done.
    + apply NoDup_cons. split; [|done]. intros Hin. by apply Hss in Hin as (_ & _ & ? & _).
    + apply Forall_forall. intros s Hin. apply Hss in Hin as (? & ? & _). split; [lia|done].
  - done.
  - rewrite Hds. apply Forall_forall. intros s Hin.
    apply Hss in Hin as (_ & HN & Hne & _ & Hz). by rewrite Hother1.
  - intros x. rewrite Hds, Hfm1. apply Hbits.
  - rewrite Hds. unfold inode_disk_words. rewrite Hdir1, Hind1, Hdbl1.
    assert (Htable : direct_map_table d1 = ss ++ replicate (123 - length ss) 0).
    { apply list_eq. intros j. rewrite Hdir.
      destruct (decide (j < length ss)%nat).
      - by rewrite lookup_app_l.
      - rewrite lookup_app_r by lia. unfold d0, inode_disk_zero. cbn [direct_map_table].
        destruct (decide (j < 123)%nat).
        + rewrite !lookup_replicate_2; [done|lia|unfold DIRECT_BLOCK_ENTRIES; lia].
        + transitivity (@None Z); [|symmetry]; apply lookup_ge_None;
            rewrite length_replicate; unfold DIRECT_BLOCK_ENTRIES; lia. }
    rewrite Htable, <- app_assoc.
    destruct (123 - length ss)%nat; by eexists.
  - done.
  - done.
  - rewrite Hds. eapply Forall_impl; [exact Hall|]. by intros s (? & ? & _).
Qed.

(** X19.  A file that [inode_create] has just made reads as zeros.  When
    the sector of the inode and sector 0 are marked in the free map, and
    the length fits the direct table, then after [inode_create] has
    returned true a read of [size] bytes inside the file returns [size]
    and fills the start of the caller's buffer with zeros; the rest of
    the buffer is left alone. *)
Theorem inode_create_reads_zeros st sec len isdir st1 out size offset :
  cache_ok st →
  Z.of_nat (length (free_map st)) < NO_SECTOR →
  free_map st !! 0%nat = Some true →
  0 <= sec → free_map st !! Z.to_nat sec = Some true →
  len <= DIRECT_BLOCK_ENTRIES * BLOCK_SECTOR_SIZE →
  inode_create sec len isdir st = Some (true, st1) →
  malloc_oracle st1 = [] →
  0 <= offset → 0 <= size → offset + size <= len → size <= Z.of_nat (length out) →
  ∃ st2 out' st3,
    inode_open sec st1 = Some (Some sec, st2)
    ∧ inode_read_at sec out size offset st2 = Some ((size, out'), st3)
    ∧ take (Z.to_nat size) out' = replicate (Z.to_nat size) 0
    ∧ drop (Z.to_nat size) out' = drop (Z.to_nat size) out.
Proof.
  intros Hok HfmN Hfm0 Hsec Hfsec Hmax Hrun Ho Hoff Hsize Hend Hout.
  destruct (inode_create_direct _ _ _ _ _ Hok HfmN Hfm0 Hsec Hfsec Hmax Hrun)
    as ([Hsh1 Hco1] & _ & Hfile & Hlen & Hzero & _).
  destruct (inode_open_spec sec st1 Ho) as (st2 & Hopen & Hoi2 & Hq2 & _).
  assert (Hset1 : settled st1) by done.
  pose proof (only_inodes_settled _ _ Hoi2 Hset1) as Hset2.
  assert (Hct2 : ∀ s, sector_contents st2 s = sector_contents st1 s)
    by (intros s; apply same_cache_contents, Hoi2).
  unfold file_length in Hlen.
  destruct (inode_read_at_direct st2 sec _ out size offset Hset2 Hq2)
    as (out' & st3 & Hr & _ & Hread & Hrest);
    [by rewrite Hct2|done|done|unfold file_length; rewrite Hct2; lia|done|].
  exists st2, out', st3. split_and!; [done|done| |].
  - apply list_eq. intros k. destruct (decide (k < Z.to_nat size)%nat).
    + rewrite lookup_take_lt by done. rewrite Hread by lia.
      rewrite lookup_replicate_2 by done. rewrite Hct2.
      set (hdr := inode_disk_of_bytes (sector_contents st1 sec)) in *.
      pose proof Hfile as (Hmax' & _ & _).
      destruct (data_sector_at hdr (offset + Z.of_nat k)) as (s & Hs & Hds);
        [apply direct_length_of_bytes|done|lia|].
      unfold file_byte. rewrite Hs. rewrite Hct2.
      apply list_elem_of_lookup_2 in Hds.
      rewrite (proj1 (Forall_forall _ _) Hzero s Hds).
      apply lookup_replicate_2. unfold BLOCK_SECTOR_SIZE.
      pose proof (Z.mod_pos_bound (offset + Z.of_nat k) 512 ltac:(lia)). lia.
    + rewrite lookup_take_ge by lia. symmetry. apply lookup_ge_None.
      rewrite length_replicate. lia.
  - apply list_eq. intros k. rewrite !lookup_drop. apply Hrest. lia.
Qed.

Lemma inode_create_reads_zeros_witness :
  ∃ st1 st2 out' st3,
    inode_create 2 1000 0 (fs_with_file 8 0) = Some (true, st1)
    ∧ inode_open 2 st1 = Some (Some 2, st2)
    ∧ inode_read_at 2 (replicate 12 7) 10 506 st2 = Some ((10, out'), st3)
    ∧ take (Z.to_nat 10) out' = replicate (Z.to_nat 10) 0
    ∧ drop (Z.to_nat 10) out' = drop (Z.to_nat 10) (replicate 12 7).
Proof.
  assert (Hrun : observe malloc_oracle (inode_create 2 1000 0) (fs_with_file 8 0)
                 = Some (true, []))
    by (vm_compute; reflexivity).
  apply observe_Some in Hrun as (st1 & Hrun & Ho).
  destruct (inode_create_reads_zeros (fs_with_file 8 0) 2 1000 0 st1 (replicate 12 7) 10 506)
    as (st2 & out' & st3 & Hopen & Hread & Htake & Hdrop).
  - split; [apply fs_with_file_shape | apply fs_with_file_coherent].
  - reflexivity.
  - reflexivity.
  - lia.
  - reflexivity.
  - vm_compute. discriminate.
  - exact Hrun.
  - exact Ho.
  - lia.
  - lia.
  - lia.
  - simpl. lia.
  - exists st1, st2, out', st3.
    split; [exact Hrun|]. split; [exact Hopen|]. split; [exact Hread|].
    split; [exact Htake | exact Hdrop].
Defined.

(** ** Registering a sector and finding it *)

Lemma locate_byte_in_indirect pos :
  DIRECT_BLOCK_ENTRIES * BLOCK_SECTOR_SIZE <= pos
    < (DIRECT_BLOCK_ENTRIES + INDIRECT_BLOCK_ENTRIES) * BLOCK_SECTOR_SIZE →
  locate_byte pos sec_loc_unset
  = mk_sector_location INDIRECT (pos / BLOCK_SECTOR_SIZE - DIRECT_BLOCK_ENTRIES) 0.
Proof.
  unfold INDIRECT_BLOCK_ENTRIES, DIRECT_BLOCK_ENTRIES, BLOCK_SECTOR_SIZE.
  change (512 / 4) with 128. intros H.
  unfold locate_byte, INDIRECT_BLOCK_ENTRIES, BLOCK_SECTOR_SIZE, DIRECT_BLOCK_ENTRIES.
  change (512 / 4) with 128.
  rewrite Z.quot_div_nonneg by lia.
  assert (123 <= pos / 512) by (apply Z.div_le_lower_bound; lia).
  assert (pos / 512 < 251) by (apply Z.div_lt_upper_bound; lia).
  destruct (Z.ltb_spec (pos / 512) 123); [lia|].
  change (to_s32 (to_u32 (123 + 128))) with 251.
  destruct (Z.ltb_spec (pos / 512) 251); [|lia].
  cbn [index2 sec_loc_unset]. f_equal. apply to_s32_id. unfold in_s32. lia.
Qed.

(** The word that a copy of four bytes puts into a block. *)
Lemma get_u32_memcpy dst k x r :
  0 <= k → memcpy dst (4 * k) (bytes_of_u32 x) 0 4 = Some r →
  get_u32 r (4 * Z.to_nat k) = to_u32 x.
Proof.
  intros Hk Hcpy.
  rewrite <- (get_u32_bytes_of_u32 x []). rewrite app_nil_r.
  unfold get_u32, byte_at.
  replace (4 * Z.to_nat k)%nat with (Z.to_nat (4 * k) + 0)%nat by lia.
  rewrite <- !Nat.add_assoc.
  rewrite !(memcpy_inside _ _ _ _ _ _ _ Hcpy) by lia.
  done.
Qed.

Lemma new_block_with_word k x st blk st' :
  new_block_with k x st = Some (blk, st') →
  st' = st ∧ length blk = Z.to_nat BLOCK_SECTOR_SIZE
  ∧ get_u32 blk (4 * Z.to_nat k) = to_u32 x.
Proof.
  unfold new_block_with. intros H.
  mbind H as b s0 Hcpy. apply lift_opt_Some in Hcpy as [Hcpy ->].
  mbind H as u s1 Ha. apply ASSERT_Some in Ha as [Hr ->].
  unfold ret in H. injection H as <- <-.
  apply andb_prop in Hr as [Hk0 _]. apply Z.leb_le in Hk0.
  split; [done|]. split.
  - by rewrite (memcpy_length _ _ _ _ _ _ Hcpy).
  - by apply (get_u32_memcpy zero_block).
Qed.

(** X20.  [byte_to_sector] finds the sector that [register_sector]
    registered.  For a position of the file in the direct table or in the
    indirect block, after [register_sector] has returned true for the
    location of the position, [byte_to_sector] of the position returns
    the sector registered.  (Sector 0 is marked in the free map, and no
    allocation fails afterwards.) *)
Theorem register_sector_then_byte_to_sector st d new_sector pos d' st1 :
  cache_ok st →
  length (direct_map_table d) = Z.to_nat DIRECT_BLOCK_ENTRIES →
  free_map st !! 0%nat = Some true →
  in_u32 new_sector →
  0 <= pos < disk_length d →
  pos < (DIRECT_BLOCK_ENTRIES + INDIRECT_BLOCK_ENTRIES) * BLOCK_SECTOR_SIZE →
  register_sector d new_sector (locate_byte pos sec_loc_unset) st = Some ((true, d'), st1) →
  malloc_oracle st1 = [] →
  ∃ st2, byte_to_sector d' pos st1 = Some (new_sector, st2).
Proof.
  intros [Hsh Hco] Hlen Hfm0 Hnew Hpos Hmax Hreg Ho.
  pose proof (register_sector_header _ _ _ _ _ _ _ Hreg) as [Hdl _].
  unfold byte_to_sector. rewrite Hdl.
  destruct (Z.ltb_spec pos (disk_length d)); [|lia].
  destruct (decide (pos < DIRECT_BLOCK_ENTRIES * BLOCK_SECTOR_SIZE)) as [Hdir|Hind].
  - rewrite locate_byte_in_direct in * by lia.
    unfold register_sector in Hreg. cbn [directness index1] in *.
    mbind Hreg as u s0 Ha. apply ASSERT_Some in Ha as [Hr ->].
    unfold ret in Hreg. injection Hreg as <- <-.
    apply andb_prop in Hr as [Hk0 Hk1]. apply Z.leb_le in Hk0. apply Z.ltb_lt in Hk1.
    unfold DIRECT_BLOCK_ENTRIES in *.
    exists st. unfold direct_map_table_at.
    destruct (Z.leb_spec 0 (pos / BLOCK_SECTOR_SIZE)); [|lia].
    unfold inode_disk_words. cbn [direct_map_table with_direct_map_table].
    rewrite lookup_app_l by (rewrite length_insert; lia).
    rewrite list_lookup_insert_eq by lia. done.
  - rewrite locate_byte_in_indirect in * by lia.
    set (k := pos / BLOCK_SECTOR_SIZE - DIRECT_BLOCK_ENTRIES) in *.
    assert (Hk : 0 <= k < INDIRECT_BLOCK_ENTRIES).
    { unfold k, INDIRECT_BLOCK_ENTRIES, DIRECT_BLOCK_ENTRIES, BLOCK_SECTOR_SIZE in *.
      change (512 / 4) with 128 in *.
      assert (123 <= pos / 512) by (apply Z.div_le_lower_bound; lia).
      assert (pos / 512 < 251) by (apply Z.div_lt_upper_bound; lia). lia. }
    unfold register_sector in Hreg. cbn [directness index1] in *.
    mbind Hreg as ok sA Hm. destruct ok; cbn [negb] in Hreg; [|by mon_inv].
    apply malloc_inv in Hm as (HcA & HfA & _).
    assert (HshA : cache_shape sA) by (by eapply same_cache_shape).
    assert (HcoA : cache_coherent sA) by (by eapply same_cache_coherent).
    assert (Hfound : ∃ ind, indirect_block_sec d' = ind ∧ ind ≠ 0
              ∧ cache_shape st1 ∧ cache_coherent st1
              ∧ get_u32 (sector_contents st1 ind) (4 * Z.to_nat k) = new_sector).
    { destruct (Z.eqb_spec (indirect_block_sec d) 0) as [Hz|Hnz].
      - mbind Hreg as a sB Hal.
        apply free_map_allocate_one in Hal as [[-> ->]|(i & -> & Hfree & ->)];
          [by mon_inv|].
        mbind Hreg as blk sC Hblk.
        apply new_block_with_word in Hblk as (-> & Hlb & Hword).
        mbind Hreg as w sD Hw. unfold ret in Hreg. injection Hreg as <- <-.
        exists (Z.of_nat i). cbn [indirect_block_sec with_indirect_block_sec].
        destruct (bc_write_preserves _ _ _ _ _ _ _ _ Hw ltac:(in_slot) ltac:(in_slot) HshA HcoA) as (? & ? & _).
        apply bc_write_contents in Hw as (_ & Hcpy & _); [|in_slot|in_slot].
        apply memcpy_whole in Hcpy; [|by rewrite sector_contents_length by done].
        rewrite sector_contents_length in Hcpy by done.
        rewrite take_ge in Hcpy by lia.
        split; [done|]. split.
        { rewrite HfA in Hfree. destruct i; [congruence|lia]. }
        split; [done|]. split; [done|].
        rewrite Hcpy, Hword. by apply to_u32_id.
      - mbind Hreg as w sD Hw. unfold ret in Hreg. injection Hreg as <- <-.
        exists (indirect_block_sec d).
        destruct (bc_write_preserves _ _ _ _ _ _ _ _ Hw ltac:(in_slot) ltac:(in_slot) HshA HcoA) as (? & ? & _).
        apply bc_write_contents in Hw as (_ & Hcpy & _); [|in_slot|in_slot].
        rewrite map_table_offset_id in Hcpy by done.
        apply get_u32_memcpy in Hcpy; [|lia].
        split; [done|]. split; [done|]. split; [done|]. split; [done|].
        rewrite Hcpy. by apply to_u32_id. }
    destruct Hfound as (ind & -> & Hnz & Hsh1 & Hco1 & Hword).
    destruct (Z.eqb_spec ind 0) as [|_]; [done|]. cbn [negb].
    assert (HA : ASSERT true st1 = Some (tt, st1)) by done.
    rewrite (bind_eq _ _ _ _ _ HA).
    rewrite (bind_eq _ _ _ _ _ (malloc_empty _ Ho)).
    destruct (read_block_spec ind st1) as (st2 & Hr & _); [done|].
    rewrite (bind_eq _ _ _ _ _ Hr). exists st2.
    unfold map_table_at.
    destruct (Z.leb_spec 0 k); [|lia]. destruct (Z.ltb_spec k INDIRECT_BLOCK_ENTRIES); [|lia].
    cbn [andb]. by rewrite Hword.
Qed.

Lemma register_sector_then_byte_to_sector_witness :
  ∃ d' st1 st2,
    register_sector (with_disk_length 102400 empty_file_inode) 9
      (locate_byte 65539 sec_loc_unset) (fs_with_file 8 0) = Some ((true, d'), st1)
    ∧ byte_to_sector d' 65539 st1 = Some (9, st2).
Proof.
  assert (Hrun : observe malloc_oracle
                   (register_sector (with_disk_length 102400 empty_file_inode) 9
                      (locate_byte 65539 sec_loc_unset)) (fs_with_file 8 0)
                 = Some ((true, with_indirect_block_sec 3
                                  (with_disk_length 102400 empty_file_inode)), []))
    by (vm_compute; reflexivity).
  apply observe_Some in Hrun as (st1 & Hrun & Ho).
  destruct (register_sector_then_byte_to_sector (fs_with_file 8 0)
              (with_disk_length 102400 empty_file_inode) 9 65539
              (with_indirect_block_sec 3 (with_disk_length 102400 empty_file_inode)) st1)
    as (st2 & Hb).
  - split; [apply fs_with_file_shape | apply fs_with_file_coherent].
  - reflexivity.
  - reflexivity.
  - unfold in_u32. lia.
  - simpl. lia.
  - vm_compute. reflexivity.
  - exact Hrun.
  - exact Ho.
  - eexists _, st1, st2. split; [exact Hrun | exact Hb].
Defined.

Lemma locate_byte_in_double_indirect pos :
  (DIRECT_BLOCK_ENTRIES + INDIRECT_BLOCK_ENTRIES) * BLOCK_SECTOR_SIZE <= pos
    < (DIRECT_BLOCK_ENTRIES + INDIRECT_BLOCK_ENTRIES * (INDIRECT_BLOCK_ENTRIES + 1))
      * BLOCK_SECTOR_SIZE →
  locate_byte pos sec_loc_unset
  = mk_sector_location DOUBLE_INDIRECT
      ((pos / BLOCK_SECTOR_SIZE - 251) / INDIRECT_BLOCK_ENTRIES)
      ((pos / BLOCK_SECTOR_SIZE - 251) mod INDIRECT_BLOCK_ENTRIES).
Proof.
  unfold INDIRECT_BLOCK_ENTRIES, DIRECT_BLOCK_ENTRIES, BLOCK_SECTOR_SIZE.
  change (512 / 4) with 128. intros H.
  unfold locate_byte, INDIRECT_BLOCK_ENTRIES, BLOCK_SECTOR_SIZE, DIRECT_BLOCK_ENTRIES.
  change (512 / 4) with 128.
  rewrite Z.quot_div_nonneg by lia.
  assert (251 <= pos / 512) by (apply Z.div_le_lower_bound; lia).
  assert (pos / 512 < 16635) by (apply Z.div_lt_upper_bound; lia).
  destruct (Z.ltb_spec (pos / 512) 123); [lia|].
  change (to_s32 (to_u32 (123 + 128))) with 251.
  destruct (Z.ltb_spec (pos / 512) 251); [lia|].
  change (to_s32 (to_u32 (123 + 128 * (128 + 1)))) with 16635.
  destruct (Z.ltb_spec (pos / 512) 16635); [|lia].
  rewrite (to_s32_id (pos / 512 - 123)) by (unfold in_s32; lia).
  rewrite (to_u32_id (pos / 512 - 123)) by (unfold in_u32; lia).
  replace (pos / 512 - 123 - 128) with (pos / 512 - 251) by lia.
  rewrite (to_u32_id (pos / 512 - 251)) by (unfold in_u32; lia).
  rewrite (to_s32_id (pos / 512 - 251)) by (unfold in_s32; lia).
  rewrite (to_u32_id (pos / 512 - 251)) by (unfold in_u32; lia).
  assert (0 <= (pos / 512 - 251) / 128 < 128).
  { split; [apply Z.div_pos; lia | apply Z.div_lt_upper_bound; lia]. }
  pose proof (Z.mod_pos_bound (pos / 512 - 251) 128 ltac:(lia)).
  f_equal; apply to_s32_id; unfold in_s32; lia.
Qed.

(** The word of the source that a copy of four bytes takes. *)
Lemma get_u32_memcpy_from dst src k r :
  0 <= k → memcpy dst 0 src (4 * k) 4 = Some r →
  get_u32 r 0 = get_u32 src (4 * Z.to_nat k).
Proof.
  intros Hk Hcpy.
  assert (Hb : ∀ j : nat, (j < 4)%nat → r !! j = src !! (4 * Z.to_nat k + j)%nat).
  { intros j Hj. replace (4 * Z.to_nat k + j)%nat with (Z.to_nat (4 * k) + j)%nat by lia.
    apply (memcpy_inside _ _ _ _ _ _ j Hcpy). lia. }
  unfold get_u32, byte_at. rewrite !Hb by lia. rewrite Nat.add_0_r. done.
Qed.

Lemma get_u32_zero_block k : get_u32 zero_block k = 0.
Proof.
  unfold get_u32, byte_at, zero_block.
  assert (H : ∀ j, default 0 (replicate (Z.to_nat BLOCK_SECTOR_SIZE) 0 !! j) = 0).
  { intros j. destruct (replicate _ _ !! j) as [x|] eqn:E; [|done].
    by apply lookup_replicate in E as [-> _]. }
  by rewrite !H.
Qed.

(** X21.  [byte_to_sector] finds the sector that [register_sector]
    registered through the double-indirect block.  For a position of the
    file in the range of the double-indirect block, after
    [register_sector] has returned true for the location of the position,
    [byte_to_sector] of the position returns the sector registered.  (The
    inode has an indirect block, which [byte_to_sector] asserts; a
    double-indirect block that is already there is marked in the free map,
    and its entry for the position is not the block itself.) *)
Theorem register_sector_double_indirect st d new_sector pos d' st1 :
  cache_ok st →
  free_map st !! 0%nat = Some true →
  Z.of_nat (length (free_map st)) < NO_SECTOR →
  in_u32 new_sector →
  0 <= pos < disk_length d →
  (DIRECT_BLOCK_ENTRIES + INDIRECT_BLOCK_ENTRIES) * BLOCK_SECTOR_SIZE <= pos
    < (DIRECT_BLOCK_ENTRIES + INDIRECT_BLOCK_ENTRIES * (INDIRECT_BLOCK_ENTRIES + 1))
      * BLOCK_SECTOR_SIZE →
  indirect_block_sec d ≠ 0 →
  (double_indirect_block_sec d ≠ 0 →
     0 <= double_indirect_block_sec d
     ∧ free_map st !! Z.to_nat (double_indirect_block_sec d) = Some true
     ∧ get_u32 (sector_contents st (double_indirect_block_sec d))
         (4 * Z.to_nat (index1 (locate_byte pos sec_loc_unset)))
       ≠ double_indirect_block_sec d
     ∧ get_u32 (sector_contents st (double_indirect_block_sec d))
         (4 * Z.to_nat (index1 (locate_byte pos sec_loc_unset)))
       ≠ NO_SECTOR) →
  register_sector d new_sector (locate_byte pos sec_loc_unset) st = Some ((true, d'), st1) →
  malloc_oracle st1 = [] →
  ∃ st2, byte_to_sector d' pos st1 = Some (new_sector, st2).
Proof.
  intros [Hsh Hco] Hfm0 HfmN Hnew Hpos Hrange Hind Hdbl Hreg Ho.
  pose proof (register_sector_header _ _ _ _ _ _ _ Hreg) as [Hdl _].
  assert (HNS : NO_SECTOR = 4294967295) by reflexivity.
  rewrite locate_byte_in_double_indirect in * by done.
  cbn [index1] in Hdbl.
  set (k1 := (pos / BLOCK_SECTOR_SIZE - 251) / INDIRECT_BLOCK_ENTRIES) in *.
  set (k2 := (pos / BLOCK_SECTOR_SIZE - 251) mod INDIRECT_BLOCK_ENTRIES) in *.
  assert (Hk : 0 <= k1 < INDIRECT_BLOCK_ENTRIES ∧ 0 <= k2 < INDIRECT_BLOCK_ENTRIES).
  { unfold k1, k2, INDIRECT_BLOCK_ENTRIES, DIRECT_BLOCK_ENTRIES, BLOCK_SECTOR_SIZE in *.
    change (512 / 4) with 128 in *.
    assert (251 <= pos / 512) by (apply Z.div_le_lower_bound; lia).
    assert (pos / 512 < 16635) by (apply Z.div_lt_upper_bound; lia).
    split; [|apply Z.mod_pos_bound; lia].
    split; [apply Z.div_pos; lia | apply Z.div_lt_upper_bound; lia]. }
  destruct Hk as [Hk1 Hk2].
  unfold register_sector in Hreg. cbn [directness index1 index2] in Hreg.
  mbind Hreg as ok sA Hm. destruct ok; cbn [negb] in Hreg; [|by mon_inv].
  apply malloc_inv in Hm as (HcA & HfA & _).
  assert (HshA : cache_shape sA) by (by eapply same_cache_shape).
  assert (HcoA : cache_coherent sA) by (by eapply same_cache_coherent).
  mbind Hreg as r sB Hr1. destruct r as [rb dB]. cbn [fst snd] in Hreg.
  destruct rb; cbn [negb] in Hreg; [|by mon_inv].
  assert (HB : cache_shape sB ∧ cache_coherent sB
    ∧ indirect_block_sec dB = indirect_block_sec d
    ∧ free_map sB !! 0%nat = Some true
    ∧ length (free_map sB) = length (free_map st)
    ∧ 0 <= double_indirect_block_sec dB
    ∧ free_map sB !! Z.to_nat (double_indirect_block_sec dB) = Some true
    ∧ get_u32 (sector_contents sB (double_indirect_block_sec dB)) (4 * Z.to_nat k1)
      ≠ double_indirect_block_sec dB
    ∧ get_u32 (sector_contents sB (double_indirect_block_sec dB)) (4 * Z.to_nat k1)
      ≠ NO_SECTOR).
  { destruct (Z.eqb_spec (double_indirect_block_sec d) 0) as [Hz|Hnz].
    - mbind Hr1 as a sB' Hal.
      apply free_map_allocate_one in Hal as [[-> ->]|(i & -> & Hfree & ->)];
        [by mon_inv|].
      mbind Hr1 as w sC Hw. unfold ret in Hr1. injection Hr1 as <- <-.
      set (sA' := with_free_map (bitmap_set_multiple (free_map sA) i 1 true) sA) in *.
      assert (HshA' : cache_shape sA') by exact HshA.
      assert (HcoA' : cache_coherent sA') by exact HcoA.
      destruct (bc_write_preserves _ _ _ _ _ _ _ _ Hw ltac:(in_slot) ltac:(in_slot) HshA' HcoA') as (? & ? & _).
      apply bc_write_contents in Hw as (_ & Hcpy & _ & (HfC & _)); [|in_slot|in_slot].
      apply memcpy_whole in Hcpy; [|by rewrite sector_contents_length by done].
      rewrite sector_contents_length in Hcpy by done.
      change (take (Z.to_nat BLOCK_SECTOR_SIZE) zero_block) with zero_block in Hcpy.
      cbn [indirect_block_sec double_indirect_block_sec with_double_indirect_block_sec].
      rewrite Hcpy, get_u32_zero_block, Nat2Z.id, HfC.
      unfold sA'. cbn [free_map with_free_map].
      rewrite length_bitmap_set_multiple, !lookup_bitmap_set_multiple.
      rewrite HfA in *.
      assert (i ≠ 0%nat) by (intros ->; congruence).
      rewrite decide_False by lia. rewrite decide_True by lia. rewrite Hfree.
      split_and!; try done; lia.
    - unfold ret in Hr1. injection Hr1 as <- <-.
      destruct (Hdbl Hnz) as (? & ? & ? & ?).
      rewrite (same_cache_contents _ _ _ HcA). rewrite HfA.
      split_and!; done. }
  destruct HB as (HshB & HcoB & HindB & Hfm0B & HlenB & Hdbl0 & HfdblB & HeB & HeNB).
  set (dbl := double_indirect_block_sec dB) in *.
  assert (HdblN : dbl ≠ NO_SECTOR).
  { intros HN. apply lookup_lt_Some in HfdblB. rewrite HN in HfdblB. lia. }
  mbind Hreg as w sC Hrd. destruct w as [wb wbuf]. cbn [snd] in Hreg.
  destruct (bc_read_preserves _ _ _ _ _ _ _ _ Hrd HshB HcoB) as (HshC & HcoC & HctC).
  apply bc_read_value in Hrd as (_ & Hcpy & (HfC & _)); [|in_slot|in_slot].
  rewrite map_table_offset_id in Hcpy by done.
  apply get_u32_memcpy_from in Hcpy; [|lia].
  rewrite Hcpy in Hreg.
  set (e := get_u32 (sector_contents sB dbl) (4 * Z.to_nat k1)) in *.
  assert (Hfound : cache_shape st1 ∧ cache_coherent st1 ∧ d' = dB
    ∧ ∃ e', get_u32 (sector_contents st1 dbl) (4 * Z.to_nat k1) = e'
        ∧ e' ≠ 0 ∧ e' ≠ NO_SECTOR
        ∧ get_u32 (sector_contents st1 e') (4 * Z.to_nat k2) = new_sector).
  { destruct (Z.eqb_spec e 0) as [Hz|Hnz].
    - mbind Hreg as a sD Hal.
      apply free_map_allocate_one in Hal as [[-> ->]|(i & -> & Hfree & ->)];
        [by mon_inv|].
      set (sC' := with_free_map (bitmap_set_multiple (free_map sC) i 1 true) sC) in *.
      assert (HshC' : cache_shape sC') by exact HshC.
      assert (HcoC' : cache_coherent sC') by exact HcoC.
      mbind Hreg as w1 sE Hw1.
      mbind Hreg as blk sE' Hblk. apply new_block_with_word in Hblk as (-> & Hlb & Hword).
      mbind Hreg as w2 sF Hw2. unfold ret in Hreg. injection Hreg as <- <-.
      destruct (bc_write_preserves _ _ _ _ _ _ _ _ Hw1 ltac:(in_slot) ltac:(in_slot) HshC' HcoC') as (HshE & HcoE & _).
      destruct (bc_write_preserves _ _ _ _ _ _ _ _ Hw2 ltac:(in_slot) ltac:(in_slot) HshE HcoE) as (HshF & HcoF & HctF).
      apply bc_write_contents in Hw1 as (_ & Hcpy1 & _); [|in_slot|in_slot].
      rewrite map_table_offset_id in Hcpy1 by done.
      apply get_u32_memcpy in Hcpy1; [|lia].
      apply bc_write_contents in Hw2 as (_ & Hcpy2 & _); [|in_slot|in_slot].
      apply memcpy_whole in Hcpy2; [|by rewrite sector_contents_length by done].
      rewrite sector_contents_length in Hcpy2 by done.
      rewrite take_ge in Hcpy2 by lia.
      rewrite HfC in Hfree.
      assert (Hi0 : i ≠ 0%nat) by (intros ->; congruence).
      assert (Hidbl : dbl ≠ Z.of_nat i).
      { intros Heq. rewrite Heq, Nat2Z.id in HfdblB. congruence. }
      apply lookup_lt_Some in Hfree as Hilt.
      split; [done|]. split; [done|]. split; [done|].
      exists (Z.of_nat i). split_and!.
      + rewrite HctF by done. rewrite Hcpy1. apply to_u32_id.
        unfold in_u32. rewrite HNS in HfmN. lia.
      + lia.
      + rewrite HNS in *. lia.
      + rewrite Hcpy2, Hword. by apply to_u32_id.
    - mbind Hreg as w1 sF Hw1. unfold ret in Hreg. injection Hreg as <- <-.
      destruct (bc_write_preserves _ _ _ _ _ _ _ _ Hw1 ltac:(in_slot) ltac:(in_slot) HshC HcoC) as (HshF & HcoF & HctF).
      apply bc_write_contents in Hw1 as (_ & Hcpy1 & _); [|in_slot|in_slot].
      rewrite map_table_offset_id in Hcpy1 by done.
      apply get_u32_memcpy in Hcpy1; [|lia].
      split; [done|]. split; [done|]. split; [done|].
      exists e. split_and!.
      + rewrite HctF by done. by rewrite HctC.
      + done.
      + done.
      + rewrite Hcpy1. by apply to_u32_id. }
  destruct Hfound as (Hsh1 & Hco1 & -> & e' & He' & He0 & HeN & Hword).
  unfold byte_to_sector. rewrite Hdl.
  destruct (Z.ltb_spec pos (disk_length d)); [|lia].
  rewrite locate_byte_in_double_indirect by done.
  cbn [directness index1 index2]. fold k1 k2. rewrite HindB.
  destruct (Z.eqb_spec (indirect_block_sec d) 0) as [|_]; [done|]. cbn [negb].
  assert (HA : ASSERT true st1 = Some (tt, st1)) by done.
  rewrite (bind_eq _ _ _ _ _ HA).
  rewrite (bind_eq _ _ _ _ _ (malloc_empty _ Ho)).
  destruct (read_block_spec dbl st1) as (st2 & Hr & Hs2 & (_ & _ & Hct2) & _); [done|].
  fold dbl. rewrite (bind_eq _ _ _ _ _ Hr).
  assert (Hm1 : map_table_at (sector_contents st1 dbl) k1 = Some e').
  { unfold map_table_at.
    destruct (Z.leb_spec 0 k1); [|lia].
    destruct (Z.ltb_spec k1 INDIRECT_BLOCK_ENTRIES); [|lia]. cbn [andb]. by rewrite He'. }
  rewrite Hm1. rewrite (bind_eq _ _ _ _ _ (lift_opt_eq e' st2)).
  destruct (Z.eqb_spec e' 0) as [|_]; [done|]. cbn [negb].
  assert (HA2 : ASSERT true st2 = Some (tt, st2)) by done.
  rewrite (bind_eq _ _ _ _ _ HA2).
  destruct (read_block_spec e' st2 Hs2) as (st3 & Hr3 & _).
  rewrite (bind_eq _ _ _ _ _ Hr3). exists st3.
  unfold map_table_at.
  destruct (Z.leb_spec 0 k2); [|lia].
  destruct (Z.ltb_spec k2 INDIRECT_BLOCK_ENTRIES); [|lia]. cbn [andb].
  rewrite Hct2 by done. by rewrite Hword.
Qed.

Lemma register_sector_double_indirect_witness :
  ∃ d' st1 st2,
    register_sector (with_indirect_block_sec 2 (with_disk_length 200000 empty_file_inode)) 9
      (locate_byte 195079 sec_loc_unset) (fs_with_file 8 0) = Some ((true, d'), st1)
    ∧ byte_to_sector d' 195079 st1 = Some (9, st2).
Proof.
  assert (Hrun : observe malloc_oracle
                   (register_sector
                      (with_indirect_block_sec 2 (with_disk_length 200000 empty_file_inode))
                      9 (locate_byte 195079 sec_loc_unset)) (fs_with_file 8 0)
                 = Some ((true, with_double_indirect_block_sec 3
                                  (with_indirect_block_sec 2
                                     (with_disk_length 200000 empty_file_inode))), []))
    by (vm_compute; reflexivity).
  apply observe_Some in Hrun as (st1 & Hrun & Ho).
  destruct (register_sector_double_indirect (fs_with_file 8 0)
              (with_indirect_block_sec 2 (with_disk_length 200000 empty_file_inode))
              9 195079
              (with_double_indirect_block_sec 3
                 (with_indirect_block_sec 2 (with_disk_length 200000 empty_file_inode)))
              st1)
    as (st2 & Hb).
  - split; [apply fs_with_file_shape | apply fs_with_file_coherent].
  - reflexivity.
  - reflexivity.
  - unfold in_u32. lia.
  - simpl. lia.
  - split; by vm_compute.
  - simpl. lia.
  - intros Hne. exfalso. by apply Hne.
  - exact Hrun.
  - exact Ho.
  - eexists _, st1, st2. split; [exact Hrun | exact Hb].
Defined.

(** ** A write that extends the file *)

Lemma get_disk_inode_inv p st d st' :
  cache_ok st → get_disk_inode p st = Some (d, st') →
  d = inode_disk_of_bytes (sector_contents st p)
  ∧ cache_ok st' ∧ same_outside_cache st st'
  ∧ (∀ s, s ≠ NO_SECTOR → sector_contents st' s = sector_contents st s).
Proof.
  intros [Hsh Hco] H. unfold get_disk_inode in H.
  mbind H as i st1 Hi. apply inode_deref_Some in Hi as [[k Hk] ->].
  apply find_inode_sector in Hk as Hs. rewrite Hs in H.
  mbind H as blk st2 Hr. unfold ret in H. injection H as <- <-.
  pose proof (read_block_value _ _ _ _ Hr) as (Hcpy & Hsame).
  destruct (read_block_preserves _ _ _ _ Hr Hsh Hco) as (? & ? & ?).
  apply memcpy_whole in Hcpy; [|done].
  change (length zero_block) with (Z.to_nat BLOCK_SECTOR_SIZE) in Hcpy.
  rewrite take_ge in Hcpy by (by rewrite sector_contents_length).
  subst blk. by split_and!.
Qed.

Lemma lock_acquire_extend_inv p st u st' :
  lock_acquire_extend p st = Some (u, st') →
  ∃ i l, inode_of st p = Some i
    ∧ st' = with_open_inodes l st
    ∧ inode_of st' p = Some (with_extend_lock true i).
Proof.
  unfold lock_acquire_extend. intros H.
  mbind H as i st1 Hi. apply inode_deref_Some in Hi as [[k Hk] ->].
  mbind H as a st1 Ha. apply ASSERT_Some in Ha as [_ ->].
  apply inode_modify_list in H as (k' & i' & Hk' & ->).
  assert (k' = k ∧ i' = i) as [-> ->] by (split; congruence).
  exists i, (<[k := with_extend_lock true i]> (open_inodes st)).
  split; [apply inode_of_Some; eauto|]. split; [done|].
  unfold inode_of. cbn [open_inodes with_open_inodes].
  rewrite (find_inode_insert_same _ _ _ _ _ Hk); [done|].
  by apply find_inode_sector in Hk.
Qed.

Lemma div_ceil_aligned a : 0 <= a → a mod 512 = 0 → (a + 511) / 512 = a / 512.
Proof. intros. Z.div_mod_to_equations. lia. Qed.

Lemma div_ceil_add_aligned a b :
  0 <= a → 0 <= b → a mod 512 = 0 → (a + b + 511) / 512 = a / 512 + (b + 511) / 512.
Proof. intros. Z.div_mod_to_equations. lia. Qed.

Lemma div_ceil_unaligned a : 0 <= a → a mod 512 ≠ 0 → (a + 511) / 512 = a / 512 + 1.
Proof. intros. Z.div_mod_to_equations. lia. Qed.

Lemma div_ceil_same_sector a b :
  0 <= a → 0 < b → a mod 512 ≠ 0 → b <= 512 - a mod 512 →
  (a + b + 511) / 512 = a / 512 + 1.
Proof. intros. Z.div_mod_to_equations. lia. Qed.

(** The loop of [inode_update_file_length], from an offset that need not
    be at the start of a sector: the rest of the sector is zeroed, and the
    sectors after it are new. *)
Lemma update_file_length_loop_grow fuel d offset size st d' st' :
  cache_ok st →
  length (direct_map_table d) = Z.to_nat DIRECT_BLOCK_ENTRIES →
  Z.of_nat (length (free_map st)) < NO_SECTOR →
  free_map st !! 0%nat = Some true →
  0 <= offset → 0 < size →
  offset + size <= DIRECT_BLOCK_ENTRIES * BLOCK_SECTOR_SIZE →
  offset < disk_length d →
  disk_length d <= DIRECT_BLOCK_ENTRIES * BLOCK_SECTOR_SIZE →
  (offset mod 512 ≠ 0 →
   ∃ s, direct_map_table d !! Z.to_nat (offset / 512) = Some s ∧ s ≠ 0) →
  update_file_length_loop fuel d offset size st = Some ((true, d'), st') →
  ∃ ss,
    Z.of_nat (length ss) = (offset + size + 511) / 512 - (offset + 511) / 512
    ∧ (∀ j : nat,
         direct_map_table d' !! j
         = if decide (Z.to_nat ((offset + 511) / 512) ≤ j
                      < Z.to_nat ((offset + 511) / 512) + length ss)%nat
           then ss !! (j - Z.to_nat ((offset + 511) / 512))%nat
           else direct_map_table d !! j)
    ∧ NoDup ss
    ∧ Forall (λ s, 0 < s ∧ free_map st !! Z.to_nat s = Some false) ss
    ∧ cache_ok st'
    ∧ open_inodes st' = open_inodes st.
Proof.
  intros Hok Hlen HfmN Hfm0 Hoff Hsize Hmax Hin Hdmax Htail H.
  destruct (decide (offset mod 512 = 0)) as [Hal|Hnal].
  - apply update_file_length_loop_direct in H; cycle 1.
    { done. } { done. } { done. } { done. } { lia. } { lia. } { done. } { done. }
    destruct H as (ss & Hlss & Hdir & Hnd & Hall & Hok' & Hoi & _).
    exists ss. rewrite (div_ceil_aligned offset) by done.
    split; [|split_and!; try done].
    + rewrite Hlss, div_ceil_add_aligned by lia.
      rewrite Z2Nat.id by (apply Z.div_pos; lia). lia.
    + eapply Forall_impl; [exact Hall|]. by intros s (? & ? & _).
  - destruct (Htail Hnal) as (s & Hs & Hs0).
    destruct fuel as [|fuel]; cbn [update_file_length_loop] in H.
    { destruct (Z.leb_spec size 0); [lia|done]. }
    destruct (Z.leb_spec size 0); [lia|].
    unfold BLOCK_SECTOR_SIZE, DIRECT_BLOCK_ENTRIES in *.
    rewrite Z.rem_mod_nonneg in H by lia.
    pose proof (Z.mod_pos_bound offset 512 ltac:(lia)) as Hsofs.
    set (sofs := offset mod 512) in *.
    rewrite (to_s32_id (512 - sofs)) in H by (unfold in_s32; lia).
    set (chunk := if size <? 512 - sofs then size else 512 - sofs) in H.
    assert (Hchunk : chunk = Z.min size (512 - sofs))
      by (subst chunk; destruct (Z.ltb_spec size (512 - sofs)); lia).
    clearbody chunk.
    destruct (Z.leb_spec chunk 0); [lia|].
    destruct (Z.ltb_spec 0 sofs); [|lia].
    rewrite (bind_eq _ _ _ _ _
               (byte_to_sector_direct d offset st s Hlen ltac:(done) ltac:(lia) Hs)) in H.
    destruct (Z.eqb_spec s 0); [done|]. cbn [negb] in H.
    mbind H as u st0 Ha. apply ASSERT_Some in Ha as [_ ->].
    mbind H as w st2 Hw.
    destruct Hok as [Hsh Hco].
    destruct (bc_write_preserves _ _ _ _ _ _ _ _ Hw ltac:(in_slot) ltac:(in_slot) Hsh Hco) as (Hsh2 & Hco2 & _).
    apply bc_write_contents in Hw as (_ & _ & _ & (Hfm2 & Hoi2 & _)); [|in_slot|in_slot].
    rewrite (to_s32_id (offset + chunk)) in H by (unfold in_s32; lia).
    rewrite (to_s32_id (size - chunk)) in H by (unfold in_s32; lia).
    apply update_file_length_loop_direct in H; cycle 1.
    { by split. } { done. } { by rewrite Hfm2. } { by rewrite Hfm2. }
    { lia. } { lia. }
    { unfold BLOCK_SECTOR_SIZE, DIRECT_BLOCK_ENTRIES. lia. }
    { intros Hmore. assert (chunk = 512 - sofs) as -> by lia.
      unfold BLOCK_SECTOR_SIZE, sofs. clear. Z.div_mod_to_equations. lia. }
    destruct H as (ss & Hlss & Hdir & Hnd & Hall & Hok' & Hoi & _).
    exists ss.
    assert (Hceil : (offset + 511) / 512 = offset / 512 + 1)
      by (by apply div_ceil_unaligned).
    assert (Hq0 : 0 <= offset / 512) by (apply Z.div_pos; lia).
    destruct (decide (size <= 512 - sofs)) as [Hfit|Hmore].
    + assert (Hl0 : length ss = 0%nat).
      { rewrite Hlss. replace (size - chunk) with 0 by lia. done. }
      split_and!.
      * rewrite Hl0. rewrite (div_ceil_same_sector offset size) by (fold sofs; lia). lia.
      * intros j. rewrite Hdir, Hl0. rewrite decide_False by lia.
        by rewrite decide_False by lia.
      * done.
      * eapply Forall_impl; [exact Hall|]. intros x (? & Hf & _). by rewrite Hfm2 in Hf.
      * done.
      * by rewrite Hoi, Hoi2.
    + assert (chunk = 512 - sofs) as -> by lia.
      assert (Hnext : (offset + (512 - sofs)) / 512 = offset / 512 + 1).
      { unfold sofs. clear -Hoff Hnal. Z.div_mod_to_equations. lia. }
      rewrite Hnext in Hdir. rewrite Hceil.
      split_and!.
      * rewrite Hlss. rewrite Z2Nat.id by (apply Z.div_pos; lia).
        unfold sofs. clear -Hoff Hnal Hmore Hsize. fold sofs in Hmore.
        Z.div_mod_to_equations. lia.
      * done.
      * done.
      * eapply Forall_impl; [exact Hall|]. intros x (? & Hf & _). by rewrite Hfm2 in Hf.
      * done.
      * by rewrite Hoi, Hoi2.
Qed.

(** The header of a file in direct blocks, after it has grown by the new
    sectors [ss], is again the header of a file in direct blocks. *)
Lemma grown_direct_file p hdr d' ss (fm : list bool) :
  length (direct_map_table hdr) = Z.to_nat DIRECT_BLOCK_ENTRIES →
  direct_file p hdr → 0 <= disk_length hdr →
  disk_length hdr <= disk_length d' →
  disk_length d' <= DIRECT_BLOCK_ENTRIES * BLOCK_SECTOR_SIZE →
  Z.of_nat (length ss) = (disk_length d' + 511) / 512 - (disk_length hdr + 511) / 512 →
  (∀ j : nat,
     direct_map_table d' !! j
     = if decide (Z.to_nat ((disk_length hdr + 511) / 512) ≤ j
                  < Z.to_nat ((disk_length hdr + 511) / 512) + length ss)%nat
       then ss !! (j - Z.to_nat ((disk_length hdr + 511) / 512))%nat
       else direct_map_table hdr !! j) →
  NoDup ss →
  Forall (λ s, 0 < s ∧ fm !! Z.to_nat s = Some false) ss →
  Z.of_nat (length fm) < NO_SECTOR →
  fm !! Z.to_nat p = Some true →
  Forall (λ s, fm !! Z.to_nat s = Some true) (data_sectors hdr) →
  direct_file p d'.
Proof.
  unfold direct_file, data_sectors, DIRECT_BLOCK_ENTRIES, BLOCK_SECTOR_SIZE.
  intros Hlen (_ & Hnd & Hall) H0 Hle Hmax Hlss Hdir Hndss Hfree HfmN Hp Hmarked.
  replace (disk_length hdr + 512 - 1) with (disk_length hdr + 511) in * by lia.
  replace (disk_length d' + 512 - 1) with (disk_length d' + 511) by lia.
  assert (Ha : 0 <= (disk_length hdr + 511) / 512 <= 123).
  { split; [apply Z.div_pos; lia|]. apply Z.lt_succ_r, Z.div_lt_upper_bound; lia. }
  assert (Ha' : (disk_length hdr + 511) / 512 <= (disk_length d' + 511) / 512 <= 123).
  { split; [apply Z.div_le_mono; lia|]. apply Z.lt_succ_r, Z.div_lt_upper_bound; lia. }
  set (k := Z.to_nat ((disk_length hdr + 511) / 512)) in *.
  assert (Hn' : Z.to_nat ((disk_length d' + 511) / 512) = (k + length ss)%nat)
    by (unfold k; lia).
  rewrite Hn'.
  assert (Hds : take (k + length ss) (direct_map_table d')
                = take k (direct_map_table hdr) ++ ss).
  { apply list_eq. intros j.
    assert (Hlk : length (take k (direct_map_table hdr)) = k)
      by (rewrite length_take, Hlen; unfold k; lia).
    destruct (decide (j < k + length ss)%nat) as [Hj|Hj].
    - rewrite lookup_take_lt by done. rewrite Hdir.
      destruct (decide (k ≤ j)%nat).
      + rewrite decide_True by lia. rewrite lookup_app_r by lia. by rewrite Hlk.
      + rewrite decide_False by lia. rewrite lookup_app_l by lia.
        by rewrite lookup_take_lt by lia.
    - rewrite lookup_take_ge by lia. symmetry. apply lookup_ge_None.
      rewrite length_app, Hlk. lia. }
  rewrite Hds.
  assert (Hnew : ∀ s, s ∈ ss →
            s ≠ 0 ∧ s ≠ NO_SECTOR ∧ s ≠ p ∧ s ∉ take k (direct_map_table hdr)).
  { intros s Hin. apply (proj1 (Forall_forall _ _) Hfree) in Hin as (Hs & Hf).
    pose proof (lookup_lt_Some _ _ _ Hf) as Hlt.
    split_and!.
    - lia.
    - intros ->. lia.
    - intros ->. congruence.
    - intros Hold. apply (proj1 (Forall_forall _ _) Hmarked) in Hold. congruence. }
  apply NoDup_cons in Hnd as [Hp_old Hnd_old].
  split_and!.
  - done.
  - apply NoDup_cons. split.
    + intros [Hin|Hin]%elem_of_app; [done|]. by apply Hnew in Hin as (_ & _ & ? & _).
    + apply NoDup_app. split_and!; [done| |done].
      intros s Hold Hin. by apply Hnew in Hin as (_ & _ & _ & ?).
  - apply Forall_app. split; [done|].
    apply Forall_forall. intros s Hin. by apply Hnew in Hin as (? & ? & _).
Qed.

(** X22.  A write that ends past the end of the file extends it.  For an
    open inode that is not denied to writers, whose data lie in direct
    blocks marked in the free map, when [inode_write_at] of [size] bytes
    ending past the end of the file (and inside the direct table) returns
    a number other than 0, this number is [size], the file's length is
    [offset + size], and [inode_read_at] of [size] bytes at [offset] then
    returns [size] and the bytes written.  (No allocation fails after the
    write.) *)
Theorem inode_write_at_extends_file st p i buffer out size offset n st1 :
  cache_ok st → inode_of st p = Some i → deny_write_cnt i = 0 →
  direct_file p (inode_disk_of_bytes (sector_contents st p)) →
  free_map st !! 0%nat = Some true →
  Z.of_nat (length (free_map st)) < NO_SECTOR →
  free_map st !! Z.to_nat p = Some true →
  Forall (λ s, free_map st !! Z.to_nat s = Some true)
    (data_sectors (inode_disk_of_bytes (sector_contents st p))) →
  0 <= offset → 0 < size →
  0 <= file_length st p < offset + size →
  offset + size <= DIRECT_BLOCK_ENTRIES * BLOCK_SECTOR_SIZE →
  size <= Z.of_nat (length buffer) → size <= Z.of_nat (length out) →
  inode_write_at p buffer size offset st = Some (n, st1) → n ≠ 0 →
  malloc_oracle st1 = [] →
  n = size
  ∧ file_length st1 p = offset + size
  ∧ ∃ out' st2,
      inode_read_at p out size offset st1 = Some ((size, out'), st2)
      ∧ take (Z.to_nat size) out' = take (Z.to_nat size) buffer.
Proof.
  intros Hok Hi Hdeny Hfile Hfm0 HfmN Hfp Hmarked Hoff Hsize Hold Hmax Hbuf Hout H Hn Ho.
  unfold file_length in *.
  pose proof (direct_length_of_bytes (sector_contents st p)) as Hlen.
  pose proof (direct_of_bytes_range (sector_contents st p)) as Hu32.
  set (hdr := inode_disk_of_bytes (sector_contents st p)) in *.
  unfold DIRECT_BLOCK_ENTRIES, BLOCK_SECTOR_SIZE in Hmax.
  unfold inode_write_at in H.
  mbind H as ok s0 Hm. destruct ok; cbn [negb] in H;
    [|unfold ret in H; by injection H as <- <-].
  apply malloc_inv in Hm as (Hc0 & Hf0 & Ho0 & _).
  assert (Hok0 : cache_ok s0).
  { destruct Hok. split; [by eapply same_cache_shape | by eapply same_cache_coherent]. }
  mbind H as d sa Hga.
  apply get_disk_inode_inv in Hga as (-> & Hoka & (Hfa & Hoa & _) & Hcta); [|done].
  rewrite (same_cache_contents _ _ _ Hc0) in H. fold hdr in H.
  mbind H as i' sa' Hd. apply inode_deref_Some in Hd as [[k' Hk'] ->].
  assert (i' = i) as ->.
  { assert (Hia : inode_of sa p = Some i') by (apply inode_of_Some; eauto).
    rewrite (inode_of_ext st sa) in Hia by congruence. congruence. }
  rewrite Hdeny in H. change (negb (0 =? 0)) with false in H. cbv iota in H.
  mbind H as u sb Hlb.
  apply lock_acquire_extend_inv in Hlb as (i2 & l & Hi2 & -> & Hib).
  rewrite (to_s32_id (offset + size)) in H by (unfold in_s32; lia).
  rewrite (to_s32_id (offset + size - 1)) in H by (unfold in_s32; lia).
  rewrite (to_s32_id (disk_length hdr - 1)) in H by (unfold in_s32; lia).
  replace (offset + size - 1 + 1) with (offset + size) in H by lia.
  rewrite (to_s32_id (offset + size)) in H by (unfold in_s32; lia).
  destruct (Z.ltb_spec (disk_length hdr - 1) (offset + size - 1)); [|lia].
  mbind H as r sg Hgrow. destruct r as [rb d']. cbn [fst snd] in H.
  destruct rb; cbn [negb] in H; [|unfold ret in H; by injection H as <- <-].
  pose proof (inode_update_file_length_header _ _ _ _ _ _ _ Hgrow) as [Hdl' Hdirlen'].
  cbn [disk_length direct_map_table with_disk_length] in Hdl', Hdirlen'.
  rewrite Hlen in Hdirlen'.
  (* the growth *)
  unfold inode_update_file_length in Hgrow.
  mbind Hgrow as u2 sb' Ha2. apply ASSERT_Some in Ha2 as [_ ->].
  mbind Hgrow as zeroes sz Hm2. destruct zeroes; cbn [negb] in Hgrow; [|by mon_inv].
  apply malloc_inv in Hm2 as (Hcz & Hfz & Hoz & _).
  rewrite (to_s32_id (offset + size - 1 - disk_length hdr)) in Hgrow by (unfold in_s32; lia).
  replace (offset + size - 1 - disk_length hdr + 1)
    with (offset + size - disk_length hdr) in Hgrow by lia.
  rewrite (to_s32_id (offset + size - disk_length hdr)) in Hgrow by (unfold in_s32; lia).
  assert (Hokb : cache_ok (with_open_inodes l sa)) by exact Hoka.
  assert (Hokz : cache_ok sz).
  { destruct Hokb. split; [by eapply same_cache_shape | by eapply same_cache_coherent]. }
  assert (Hfmz : free_map sz = free_map st).
  { rewrite Hfz. cbn [free_map with_open_inodes]. by rewrite Hfa, Hf0. }
  apply update_file_length_loop_grow in Hgrow; cycle 1.
  { done. }
  { cbn [direct_map_table with_disk_length]. done. }
  { by rewrite Hfmz. }
  { by rewrite Hfmz. }
  { lia. } { lia. }
  { unfold DIRECT_BLOCK_ENTRIES, BLOCK_SECTOR_SIZE. lia. }
  { cbn [disk_length with_disk_length]. lia. }
  { cbn [disk_length with_disk_length]. unfold DIRECT_BLOCK_ENTRIES, BLOCK_SECTOR_SIZE. lia. }
  { intros Hnal. cbn [direct_map_table with_disk_length].
    destruct Hfile as (Hmx & _ & Hall0).
    assert (Hpos : 0 <= disk_length hdr - 1 < disk_length hdr).
    { split; [|lia]. destruct (decide (disk_length hdr = 0)) as [Hz|]; [|lia].
      rewrite Hz in Hnal. done. }
    destruct (data_sector_at hdr (disk_length hdr - 1) Hlen Hmx Hpos) as (s & Hs & Hds).
    unfold BLOCK_SECTOR_SIZE in Hs, Hds.
    assert (Hq : (disk_length hdr - 1) / 512 = disk_length hdr / 512).
    { clear -Hpos Hnal. Z.div_mod_to_equations. lia. }
    rewrite Hq in Hs. exists s. split; [done|].
    apply list_elem_of_lookup_2 in Hds.
    by apply (proj1 (Forall_forall _ _) Hall0) in Hds as [? _]. }
  destruct Hgrow as (ss & Hlss & Hdir & Hndss & Hfree & Hokg & Hoig).
  cbn [direct_map_table with_disk_length] in Hdir.
  replace (disk_length hdr + (offset + size - disk_length hdr))
    with (offset + size) in Hlss by lia.
  rewrite Hfmz in Hfree.
  assert (Hfile' : direct_file p d').
  { apply (grown_direct_file p hdr d' ss (free_map st)); try done.
    - lia.
    - lia.
    - unfold DIRECT_BLOCK_ENTRIES, BLOCK_SECTOR_SIZE. lia.
    - by rewrite Hdl'. }
  assert (Hu32' : Forall in_u32 (direct_map_table d')).
  { apply Forall_lookup. intros j x Hx. rewrite Hdir in Hx.
    case_decide.
    - apply list_elem_of_lookup_2 in Hx.
      apply (proj1 (Forall_forall _ _) Hfree) in Hx as (Hx0 & Hf).
      apply lookup_lt_Some in Hf.
      assert (HN : NO_SECTOR = 4294967295) by reflexivity.
      unfold in_u32. rewrite HN in HfmN. lia.
    - by apply (proj1 (Forall_lookup _ _) Hu32 j). }
  (* the copy *)
  assert (Hig : inode_of sg p = Some (with_extend_lock true i2)).
  { rewrite (inode_of_ext (with_open_inodes l sa) sg); [done|]. by rewrite Hoig, Hoz. }
  destruct (lock_release_extend_spec p sg _ Hig eq_refl) as (sc & Hlc & Hoc & Hic).
  rewrite (bind_eq _ _ _ _ _ Hlc) in H.
  assert (Hokc : cache_ok sc).
  { destruct Hokg, Hoc as (Hcc & _).
    split; [by eapply same_cache_shape | by eapply same_cache_coherent]. }
  destruct (write_loop_direct p d' Hdirlen' Hfile' buffer (Z.to_nat size) sc size offset 0)
    as (sd & Hwl & [Hshd Hcod] & (_ & Hoid & _) & _ & Hbytesd); [done|lia..|].
  rewrite Z.add_0_l in Hwl. rewrite (bind_eq _ _ _ _ _ Hwl) in H.
  mbind H as i3 sd' Hd3. apply inode_deref_Some in Hd3 as [[k3 Hk3] ->].
  rewrite (find_inode_sector _ _ _ _ Hk3) in H.
  mbind H as w st1' Hw. unfold ret in H. injection H as <- ->.
  destruct (bc_write_preserves _ _ _ _ _ _ _ _ Hw ltac:(in_slot) ltac:(in_slot) Hshd Hcod) as (Hsh1 & Hco1 & Hother1).
  destruct (bc_write_contents _ _ _ _ _ _ _ _ Hw ltac:(in_slot) ltac:(in_slot)) as (_ & Hcpy1 & _ & (_ & Hoi1 & _)).
  pose proof (direct_written _ _ _ Hdirlen' Hu32' Hcpy1) as Hdir1.
  assert (Hlen1 : disk_length (inode_disk_of_bytes (sector_contents st1 p)) = offset + size).
  { rewrite (disk_length_written _ _ _ Hdirlen') by (rewrite ?Hdl'; unfold in_s32; done || lia).
    done. }
  split; [done|]. split; [done|].
  assert (Hs1 : settled st1) by done.
  assert (Hi1 : inode_of st1 p = Some i3).
  { rewrite (inode_of_ext sd st1) by done. apply inode_of_Some. eauto. }
  assert (Hfile1 : direct_file p (inode_disk_of_bytes (sector_contents st1 p))).
  { apply (direct_file_ext p d'); [done|by rewrite Hlen1|done]. }
  destruct (inode_read_at_direct st1 p i3 out size offset)
    as (out' & st2 & Hr & _ & Hread & _);
    [done|done|done|done|lia|unfold file_length; lia|done|].
  exists out', st2. split; [done|].
  apply list_eq. intros k.
  destruct (decide (k < Z.to_nat size)%nat).
  - rewrite !lookup_take_lt by done. rewrite Hread by lia.
    rewrite (file_byte_header st1 d') by done.
    pose proof Hfile' as (_ & Hnd' & Hall').
    apply NoDup_cons in Hnd' as [Hp' _].
    rewrite (file_byte_ext p d' Hdirlen' Hfile' sd st1).
    2: { intros s Hin. apply Hother1.
         - by apply (proj1 (Forall_forall _ _) Hall') in Hin as [_ ?].
         - by intros ->. }
    2: lia.
    rewrite Hbytesd by lia. rewrite decide_True by lia. f_equal. lia.
  - by rewrite !lookup_take_ge by lia.
Qed.

Lemma inode_write_at_extends_file_witness :
  ∃ st1 out' st2,
    inode_write_at 2 [1; 2; 3; 4; 5; 6; 7; 8] 8 1020 fs_with_data = Some (8, st1)
    ∧ file_length st1 2 = 1020 + 8
    ∧ inode_read_at 2 (replicate 10 0) 8 1020 st1 = Some ((8, out'), st2)
    ∧ take (Z.to_nat 8) out' = take (Z.to_nat 8) [1; 2; 3; 4; 5; 6; 7; 8].
Proof.
  assert (Hrun : observe malloc_oracle (inode_write_at 2 [1; 2; 3; 4; 5; 6; 7; 8] 8 1020)
                   fs_with_data = Some (8, []))
    by (vm_compute; reflexivity).
  apply observe_Some in Hrun as (st1 & Hrun & Ho).
  destruct (inode_write_at_extends_file fs_with_data 2 (mk_inode 2 1 false 0 false)
              [1; 2; 3; 4; 5; 6; 7; 8] (replicate 10 0) 8 1020 8 st1)
    as (_ & Hlen & out' & st2 & Hr & Hout).
  - apply fs_with_data_ok.
  - reflexivity.
  - reflexivity.
  - apply fs_with_data_direct_file.
  - reflexivity.
  - reflexivity.
  - reflexivity.
  - assert (Hhdr : inode_disk_of_bytes (sector_contents fs_with_data 2) = data_file_inode)
      by (vm_compute; reflexivity).
    rewrite Hhdr.
    assert (Hds : data_sectors data_file_inode = [3; 4]) by (vm_compute; reflexivity).
    rewrite Hds. by repeat constructor.
  - lia.
  - lia.
  - rewrite fs_with_data_length. lia.
  - by vm_compute.
  - simpl. lia.
  - simpl. lia.
  - exact Hrun.
  - lia.
  - exact Ho.
  - exists st1, out', st2.
    split; [exact Hrun|]. split; [exact Hlen|]. split; [exact Hr | exact Hout].
Defined.

(** ** Deleting a file gives its sectors back *)

Lemma release_entries_exact ss rest st :
  Forall (λ s, 0 < s) ss →
  ∃ st', release_entries (ss ++ 0 :: rest) st = Some (tt, st')
    ∧ only_free_map st st'
    ∧ ∀ x : nat, free_map st' !! x
        = if decide (Z.of_nat x ∈ ss) then (λ _, false) <$> free_map st !! x
          else free_map st !! x.
Proof.
  revert st. induction ss as [|w ss IH]; intros st Hpos.
  - exists st. split; [done|]. split; [apply only_free_map_refl|].
    intros x. rewrite decide_False; [done|]. apply not_elem_of_nil.
  - apply Forall_cons in Hpos as [Hw Hpos]. cbv beta in Hw.
    cbn [app release_entries]. destruct (Z.ltb_spec 0 w); [|lia].
    destruct (free_map_release_spec w 1 st) as (st1 & H1 & Hf1 & Hbits1).
    rewrite (bind_eq _ _ _ _ _ H1).
    destruct (IH st1 Hpos) as (st' & H' & Hf' & Hbits').
    exists st'. split; [done|]. split; [by eapply only_free_map_trans|].
    intros x. rewrite Hbits', Hbits1, lookup_bitmap_set_multiple.
    change (Z.to_nat 1) with 1%nat.
    destruct (decide (Z.to_nat w ≤ x < Z.to_nat w + 1)%nat) as [Hx|Hx],
             (decide (Z.of_nat x ∈ ss)) as [Hin|Hnin],
             (decide (Z.of_nat x ∈ w :: ss)) as [Hin'|Hnin']; try done.
    + by destruct (free_map st !! x).
    + exfalso. apply Hnin'. by apply elem_of_cons; right.
    + exfalso. apply Hnin'. apply elem_of_cons; left. lia.
    + exfalso. apply Hnin'. by apply elem_of_cons; right.
    + apply elem_of_cons in Hin' as [?|?]; [lia|done].
Qed.

(** X23.  Deleting a file gives back every sector it took.  For a sector
    that is marked in the free map and not open, after [inode_create] has
    returned true for a length that fits the direct table, [inode_open],
    [inode_remove] and [inode_close] return, and they leave the free map
    as it was before the creation but for the sector of the inode itself,
    which is free; the inode is no longer open.  (No allocation fails
    after the creation.) *)
Theorem inode_create_remove_close st sec len isdir st1 :
  cache_ok st →
  Z.of_nat (length (free_map st)) < NO_SECTOR →
  free_map st !! 0%nat = Some true →
  0 <= sec → free_map st !! Z.to_nat sec = Some true →
  len <= DIRECT_BLOCK_ENTRIES * BLOCK_SECTOR_SIZE →
  inode_of st sec = None →
  inode_create sec len isdir st = Some (true, st1) →
  malloc_oracle st1 = [] →
  ∃ st2 st3 st4,
    inode_open sec st1 = Some (Some sec, st2)
    ∧ inode_remove sec st2 = Some (tt, st3)
    ∧ inode_close (Some sec) st3 = Some (tt, st4)
    ∧ (∀ x : nat, free_map st4 !! x
         = if decide (x = Z.to_nat sec) then Some false else free_map st !! x)
    ∧ open_inodes st4 = open_inodes st.
Proof.
  intros Hok HfmN Hfm0 Hsec Hfsec Hmax Hclosed Hrun Ho.
  destruct (inode_create_direct _ _ _ _ _ Hok HfmN Hfm0 Hsec Hfsec Hmax Hrun)
    as ([Hsh1 Hco1] & Hoi1 & Hfile & _ & _ & Hbits & (rest & Hwords) & Hind & Hdbl & Hfree).
  set (hdr := inode_disk_of_bytes (sector_contents st1 sec)) in *.
  set (m0 := mk_inode sec 1 false 0 false).
  assert (Hfind : find_inode sec (open_inodes st1) = None).
  { rewrite Hoi1. unfold inode_of in Hclosed.
    by destruct (find_inode sec (open_inodes st)). }
  assert (Hhead : ∀ m l, sector m = sec → find_inode sec (m :: l) = Some (0%nat, m)).
  { intros m l Hm. unfold find_inode. simpl. by rewrite decide_True. }
  (* inode_open *)
  exists (with_open_inodes (m0 :: open_inodes st1) st1).
  exists (with_open_inodes (with_removed true m0 :: open_inodes st1) st1).
  assert (Hopen : inode_open sec st1
                  = Some (Some sec, with_open_inodes (m0 :: open_inodes st1) st1)).
  { unfold inode_open. rewrite (bind_eq _ _ _ _ _ (gets_eq open_inodes st1)).
    rewrite Hfind. rewrite (bind_eq _ _ _ _ _ (malloc_empty _ Ho)).
    unfold open_inodes_push. by rewrite (bind_eq _ _ _ _ _ (modify_eq _ st1)). }
  assert (Hremove : inode_remove sec (with_open_inodes (m0 :: open_inodes st1) st1)
                    = Some (tt, with_open_inodes (with_removed true m0 :: open_inodes st1) st1)).
  { unfold inode_remove.
    by rewrite (inode_modify_eq sec _ _ 0%nat m0) by (by apply Hhead). }
  (* inode_close *)
  assert (Hs1 : settled st1) by done.
  destruct (read_block_spec sec st1 Hs1) as (sR & HR & HsR & (HfR & _ & _) & HoR & _).
  fold hdr in HR.
  assert (Hpos : Forall (λ s, 0 < s) (data_sectors hdr)).
  { eapply Forall_impl; [exact Hfree|]. by intros s [? _]. }
  destruct (release_entries_exact (data_sectors hdr) rest sR Hpos)
    as (sF & HF & (_ & HoF & _) & HbitsF).
  destruct (free_map_release_spec sec 1 sF) as (st4 & H4 & (_ & Ho4 & _) & Hbits4).
  exists st4. split; [done|]. split; [done|]. split; [|split].
  - set (m1 := with_removed true m0).
    set (s3 := with_open_inodes (m1 :: open_inodes st1) st1).
    assert (Hf3 : find_inode sec (open_inodes s3) = Some (0%nat, m1)) by (by apply Hhead).
    set (m2 := with_open_cnt (to_s32 (open_cnt m1 - 1)) m1).
    set (s4 := with_open_inodes (m2 :: open_inodes st1) st1).
    assert (Hf4 : find_inode sec (open_inodes s4) = Some (0%nat, m2)) by (by apply Hhead).
    assert (Hm4 : inode_modify sec (with_open_cnt (to_s32 (open_cnt m1 - 1))) s3
                  = Some (tt, s4))
      by (by rewrite (inode_modify_eq sec _ _ 0%nat m1 Hf3)).
    assert (Hr4 : open_inodes_remove sec s4 = Some (tt, st1)).
    { rewrite (open_inodes_remove_eq sec _ 0%nat m2 Hf4).
      unfold s4. cbn [open_inodes with_open_inodes delete list_delete].
      by rewrite with_open_inodes_twice, with_open_inodes_same. }
    unfold inode_close.
    rewrite (bind_eq _ _ _ _ _ (inode_deref_eq sec s3 0%nat m1 Hf3)).
    cbv zeta. rewrite (bind_eq _ _ _ _ _ Hm4).
    change (to_s32 (open_cnt m1 - 1) =? 0) with true. cbv iota.
    rewrite (bind_eq _ _ _ _ _ Hr4).
    change (removed m1) with true. cbv iota.
    change (sector m1) with sec.
    rewrite (bind_eq _ _ _ _ _ (malloc_empty _ Ho)). cbn [negb].
    rewrite (bind_eq _ _ _ _ _ HR).
    assert (Hfis : free_inode_sectors hdr sR = Some (tt, sF)).
    { unfold free_inode_sectors. rewrite Hind, Hdbl.
      change (0 <? 0) with false. cbv beta iota.
      rewrite (bind_eq _ _ _ _ _ (ret_eq true sR)). cbn [negb].
      rewrite (bind_eq _ _ _ _ _ (ret_eq true sR)). cbn [negb].
      rewrite Hwords. exact HF. }
    fold hdr. rewrite (bind_eq _ _ _ _ _ Hfis). exact H4.
  - intros x. rewrite Hbits4, lookup_bitmap_set_multiple, HbitsF, HfR, Hbits.
    destruct Hfile as (_ & [Hnin _]%NoDup_cons & _).
    change (Z.to_nat 1) with 1%nat.
    destruct (decide (Z.to_nat sec ≤ x < Z.to_nat sec + 1)%nat) as [Hr|Hr],
             (decide (x = Z.to_nat sec)) as [Hx|Hx]; try lia.
    + subst x. rewrite Z2Nat.id by done.
      destruct (decide (sec ∈ data_sectors hdr)); [done|]. by rewrite Hfsec.
    + destruct (decide (Z.of_nat x ∈ data_sectors hdr)) as [Hin|]; [|done].
      apply (proj1 (Forall_forall _ _) Hfree) in Hin as [_ Hf].
      rewrite Nat2Z.id in Hf. by rewrite Hf.
  - by rewrite Ho4, HoF, HoR.
Qed.

Lemma inode_create_remove_close_witness :
  ∃ st1 st2 st3 st4,
    inode_create 13 1000 0 (with_free_map (free_map fs_with_data ++ [true]) fs_with_data)
    = Some (true, st1)
    ∧ inode_open 13 st1 = Some (Some 13, st2)
    ∧ inode_remove 13 st2 = Some (tt, st3)
    ∧ inode_close (Some 13) st3 = Some (tt, st4)
    ∧ free_map st4 = free_map fs_with_data ++ [false].
Proof.
  assert (Hrun : observe malloc_oracle (inode_create 13 1000 0)
                   (with_free_map (free_map fs_with_data ++ [true]) fs_with_data)
                 = Some (true, []))
    by (vm_compute; reflexivity).
  apply observe_Some in Hrun as (st1 & Hrun & Ho).
  destruct (inode_create_remove_close
              (with_free_map (free_map fs_with_data ++ [true]) fs_with_data) 13 1000 0 st1)
    as (st2 & st3 & st4 & H2 & H3 & H4 & Hbits & _).
  - apply fs_with_data_ok.
  - reflexivity.
  - reflexivity.
  - lia.
  - reflexivity.
  - by vm_compute.
  - reflexivity.
  - exact Hrun.
  - exact Ho.
  - exists st1, st2, st3, st4. split_and!; [done..|].
    apply list_eq. intros x. rewrite Hbits.
    case_decide as Hx; [subst x; reflexivity|].
    cbn [free_map with_free_map].
    destruct (decide (x < 13)%nat).
    + by rewrite !lookup_app_l by (simpl; lia).
    + rewrite !lookup_app_r by (simpl; lia). simpl length.
      destruct (x - 13)%nat as [|y] eqn:E; [lia|done].
Defined.
